(* ===== verification/_CoqProject ===== *)
-Q . S2P
Prelude.v
Types.v
Protocol.v
Framing.v
Strings.v
Floats.v
Decoder.v
Interfaces.v
Scheduler.v
Simulation.v
Transport.v
Lifecycle.v
Heartbeat.v
Session.v
MockPLC.v
PlcServer.v
Loopback.v
Driver.v
UdpConstants.v
Udp.v
UdpServer.v
UdpClient.v
UdpAccess.v
UdpSession.v
CmdTcpServer.v
CmdTcpSession.v
CmdUdpServer.v
Suite.v
CmdTcpClient.v
CmdUdpClient.v
