(* ===== verification/Prelude.v ===== *)
(** * Verification of the FINS library

    The program is a Go client for the FINS protocol of Omron PLCs over TCP, with a
    driver and a PLC simulator; a second, independent client and simulator over UDP;
    two command-line PLC servers that carry their own copies of the protocol; and two
    command-line clients that run tests.

    ** The TCP library

    - [Types.v] ([types.go]): points, values, qualities, parsed addresses, and
      [goval], the dynamic values a Go [interface] may hold here.
    - [Protocol.v] ([protocol.go]): the constants, the FINS/TCP frame, the FINS frame,
      memory addresses, default headers, area codes and end-code texts.  Encoders fill
      a zeroed buffer at fixed positions, as the code does.
    - [Framing.v] ([transport.go], [readLoop]): the accumulator that cuts frames
      out of the TCP stream.  [MockPLC.handleConnection] repeats the same loop.
    - [Strings.v], [Floats.v]: what is used of the packages [strings], [strconv],
      [regexp] and of floating-point conversions; a float is its IEEE 754 pattern.
    - [Decoder.v] ([decoder.go]): the area table, [ParseAddress], [EncodeValue],
      [DecodeValue].
    - [Interfaces.v]: the type classes between components.  [MemoryTransport] is
      what the scheduler calls; [StableMemory] and [SteadyClock] are what it relies
      on; [GoRuntime] holds the choices of the runtime (order of a map iteration, order
      of equal elements under [sort.Slice]).
    - [Scheduler.v] ([scheduler.go]): grouping of points, [ReadPoints], [WritePoint],
      pacing and statistics, over any [MemoryTransport].
    - [Simulation.v]: the scheduler over two transports related by a morphism, which
      carries its theorems from a simple transport to the one of the driver.
    - [Transport.v] ([transport.go]): configuration, service identifiers and the four
      memory commands over any [SendCommand].
    - [Lifecycle.v] ([transport.go]): the transport used by one goroutine at a time:
      [Connect], [Disconnect], a connection lost, [Reconnect] with its backoff,
      [SendCommand], [GetMetrics] and the accessors, over a network given by its calls.
    - [Heartbeat.v] ([transport.go]): the heartbeat goroutine and the calls that start
      and stop it, at every access of a shared flag or channel.
    - [Session.v] ([transport.go]): callers of [SendCommand], receive loops, [Connect]
      and [Disconnect] as goroutines.  A step is one critical section, one atomic flag
      access or one channel operation of one of them; the network may deliver any
      bytes, lose any, and fail any write.
    - [MockPLC.v] ([mock_plc.go]): the memory areas, the request handler and
      the connection handler of the simulated PLC.
    - [PlcServer.v] ([mock_plc.go]): [Start], [Close], the accept loop and the
      goroutines of all connections on one memory, as a transition system with traces.
    - [Loopback.v]: the client on one connection to that PLC, an instance of the
      scheduler's interface.
    - [Driver.v] ([fins.go]): [FinsTCPDriver] with every method, its parts nil
      before [Init], over the transport of [Lifecycle.v] and a network that is the PLC.

    ** The UDP library and the command-line programs

    - [UdpConstants.v] ([udp/command_code.go], [end_code.go], [memory_area.go]).
    - [Udp.v] ([udp/driver.go], [header.go], [address.go], [error.go]): headers,
      commands, requests, responses and BCD numbers; slices know their capacity, since
      the code slices receive buffers beyond the datagram.
    - [UdpServer.v] ([udp/server.go]): the simulator, one datagram at a time.
    - [UdpClient.v] ([udp/client.go]): every operation of the client over a
      network that answers a datagram or not, and the client on the simulator.
    - [UdpAccess.v]: the client's bits, bytes and strings on the simulator's memory.
    - [UdpSession.v] ([udp/client.go]): concurrent calls and the listener.
    - [CmdTcpServer.v] ([cmd/tcp/server/main.go]) and [CmdUdpServer.v]
      ([cmd/udp/server/main.go]): the command-line PLCs, the first compared with
      [MockPLC.v], the second with the client of [UdpClient.v].
    - [CmdTcpSession.v] ([cmd/tcp/server/main.go]): the connections of the first as
      goroutines; its answers refer to the live memory, which it reads without a lock.
    - [Suite.v]: tests as computations with a state and errors, triples of total
      correctness for them, and the loop that runs and counts them.
    - [CmdTcpClient.v] ([cmd/tcp/client/main.go]) and [CmdUdpClient.v]
      ([cmd/udp/client/main.go]): the command-line clients and their tests.

    ** What is shown

    - Codecs: encoders and decoders are inverse where the code means them to be, and
      every decoder is classified on every input (no panic but those stated).
    - Reassembly: the frames delivered do not depend on how TCP cuts the stream, sent
      frames arrive in order, garbage in front of a frame is skipped, the loop ends.
    - Addresses and values: the accepted addresses are exactly the well-formed ones,
      with a canonical spelling; numbers, booleans and, up to their field and first NUL, strings
      round-trip; decoded values are typed.
    - Scheduler: the groups partition the points and cover them, within the frame
      limit of [maxFrameLength] words unless a single point exceeds it; reading in groups is the same as reading each point by itself
      ([read_points_correct], against any transport that serves a memory);
      the statistics balance; the minimum interval holds.
    - Connections: the reported metrics follow any history; [Reconnect] succeeds exactly
      when a dial does in time, and waits as documented unless the first interval is above the
      cap; at most one heartbeat runs, and a run in which a
      connection has none.
    - Sessions: no send on or close of a closed channel in any interleaving, and a
      call gets only frames with its identifier; a waiting call stays answerable
      as long as identifiers of calls in progress are distinct; a run in
      which they are not, and an answer is lost.
    - PLC: the handler refines an abstract memory of bits for any sequence of
      requests cut into reads anywhere, and survives any input; with any number of
      connections, every interleaving is a run of that memory on the requests
      in one order, and every connection can be served to the end, also after [Close].
    - Driver: requests before [Init] are refused, every point asked for is
      answered, a read panics only on account of string points, and what is written to an area
      that is not read-only is read back through the whole stack (the code does not protect
      the read-only one).
    - UDP: words, bits, bytes, strings and the clock round-trip between client and
      simulator, with what goes wrong for odd numbers of bytes and for strings of
      even length; a call gets only answers with its identifier; a late answer stops
      the listener; which datagrams crash the simulator.
    - Command-line servers: the TCP one agrees with [MockPLC.v] on words but for writes of AR,
      which it refuses, and panics
      exactly on a length field below four, and can send an answer that is partly older
      than a write; the UDP one refuses every word access of the UDP client.
    - Command-line clients: their tests pass against the PLC in any well-formed
      state and against a new simulator, and the exit status tells the outcome.

    ** Conventions

    Integers are [Z]; a value of a [w]-bit type is kept in its range by [uwrap]
    ([u8], [u16], ...) or [swrap] ([s64], ...) at each operation that can leave it.
    Bytes are [Z] in [0, 256).  A call that can fail or panic returns [res]: [Ok],
    [Err] or [Panic]; a panic is what a slice, index or map access of the source
    raises, or [make] with a size above 2^48 bytes ([makeslice]).  Loops over an accumulator run on fuel, one more than the bytes in it:
    every round removes a byte or leaves the loop.  Running out of fuel has a result of its
    own ([None] in [Framing.drain], [Panic] in the loops of the servers), and
    [drain_terminates], [serve_loop_drain] and [serve_loop_served] show that the loops leave before.  The digits of a 64-bit number are counted with fuel 20.

    ** Not modelled

    Sockets, timers and contexts appear only as the environment: which dial fails, when
    a wait ends, what arrives.  Left out are [doc.go] (comments), [Scheduler.String],
    [readFull] (never called), the texts of the UDP errors, the waiting for signals, and
    logging and printing.  The data races of unlocked fields ([conn], [timeout],
    [lastDisconnectTime], the [closed] flags of the command-line servers) are not modelled: such an
    access reads the last value written.  Of the memory the command-line TCP server reads without
    its lock, [CmdTcpSession.v] has the byte-by-byte copy of the reader in ascending order,
    with writes that happen at once.  Running out of memory is not modelled, and [ToUpper] and [TrimSpace]
    are those of ASCII. *)
From Stdlib Require Export ZArith Lia Bool.
From stdpp Require Export base list list_numbers gmap strings sorting.

#[export] Set Default Proof Using "Type".
#[export] Set Warnings "-clear-no-such-hyp".
Global Open Scope Z_scope.

Declare Scope go_scope.
Delimit Scope go_scope with go.

(** ** Automation *)

(** Division and remainder by a constant, then linear arithmetic. *)
Ltac zdm := Z.to_euclidean_division_equations; lia.

(** Split every hypothesis that is a conjunction, then clean up. *)
Ltac ands := repeat match goal with H : _ /\ _ |- _ => destruct H end.

(** Case analysis on the first scrutinee of a [match] or [if] in the goal,
    remembering the equation. *)
Ltac case_goal :=
  match goal with
  | |- context [match ?x with _ => _ end] => destruct x eqn:?
  end.

(** Same, in a hypothesis. *)
Ltac case_hyp H :=
  match type of H with
  | context [match ?x with _ => _ end] => destruct x eqn:?
  end.

(** Boolean comparisons on [Z] to propositions, everywhere. *)
Ltac zbool :=
  repeat match goal with
  | H : (_ =? _)%Z = true |- _ => apply Z.eqb_eq in H
  | H : (_ =? _)%Z = false |- _ => apply Z.eqb_neq in H
  | H : (_ <? _)%Z = true |- _ => apply Z.ltb_lt in H
  | H : (_ <? _)%Z = false |- _ => apply Z.ltb_ge in H
  | H : (_ <=? _)%Z = true |- _ => apply Z.leb_le in H
  | H : (_ <=? _)%Z = false |- _ => apply Z.leb_gt in H
  | H : (_ && _)%bool = true |- _ => apply andb_true_iff in H; destruct H
  | H : (_ || _)%bool = false |- _ => apply orb_false_iff in H; destruct H
  | H : negb _ = true |- _ => apply negb_true_iff in H
  | H : negb _ = false |- _ => apply negb_false_iff in H
  end.

(** A closed decidable proposition, by evaluation. *)
Ltac by_decide := apply (bool_decide_unpack _); vm_compute; exact I.

Lemma in_range_In lo m n : lo <= n < lo + m -> In n (seqZ lo m).
Proof. intros. by apply list_elem_of_In, elem_of_seqZ. Qed.

(** One goal for each value of [n] in the [m] integers from [lo] on. *)
Ltac enum n lo m :=
  let H := fresh in
  assert (In n (seqZ lo m)) as H by (apply in_range_In; lia);
  vm_compute in H; repeat destruct H as [<-|H]; [..|destruct H].

Create HintDb fins.

(** ** Go integers of a fixed width

    A value of type [uintN] or [intN] is the integer it denotes; the functions
    below are the conversions [uintN(x)] and [intN(x)] and the wrap-around of
    arithmetic at that width.  [int] is the 64-bit [int] of the platforms the
    program runs on. *)

Definition uwrap (w : Z) (x : Z) : Z := x mod 2 ^ w.
Definition swrap (w : Z) (x : Z) : Z := (x + 2 ^ (w - 1)) mod 2 ^ w - 2 ^ (w - 1).

Abbreviation u8 := (uwrap 8).
Abbreviation u16 := (uwrap 16).
Abbreviation u32 := (uwrap 32).
Abbreviation u64 := (uwrap 64).
Abbreviation s8 := (swrap 8).
Abbreviation s16 := (swrap 16).
Abbreviation s32 := (swrap 32).
Abbreviation s64 := (swrap 64).

Definition max_int : Z := 2 ^ 63 - 1.

Definition in_u (w x : Z) : Prop := 0 <= x < 2 ^ w.
Definition in_s (w x : Z) : Prop := - 2 ^ (w - 1) <= x < 2 ^ (w - 1).

#[export] Instance in_u_dec w x : Decision (in_u w x).
Proof. unfold in_u. apply _. Defined.
#[export] Instance in_s_dec w x : Decision (in_s w x).
Proof. unfold in_s. apply _. Defined.

Lemma uwrap_in_u w x : 0 <= w -> in_u w (uwrap w x).
Proof. intros. apply Z.mod_pos_bound, Z.pow_pos_nonneg; lia. Qed.

Lemma uwrap_id w x : in_u w x -> uwrap w x = x.
Proof. apply Z.mod_small. Qed.

Lemma pow2_double w : 0 < w -> 2 ^ w = 2 * 2 ^ (w - 1).
Proof. intros. rewrite <- Z.pow_succ_r by lia. f_equal; lia. Qed.

Lemma swrap_in_s w x : 0 < w -> in_s w (swrap w x).
Proof.
  intros Hw. unfold in_s, swrap.
  pose proof (Z.mod_pos_bound (x + 2 ^ (w - 1)) (2 ^ w)).
  pose proof (Z.pow_pos_nonneg 2 (w - 1)). rewrite (pow2_double w) in * by lia. lia.
Qed.

Lemma swrap_id w x : 0 < w -> in_s w x -> swrap w x = x.
Proof.
  intros Hw Hx. unfold in_s, swrap in *. rewrite Z.mod_small; [lia|].
  rewrite (pow2_double w) by lia. lia.
Qed.

(** The two's complement reading: a signed value survives the trip through
    the unsigned type of the same width. *)
Lemma swrap_uwrap w x : 0 < w -> in_s w x -> swrap w (uwrap w x) = x.
Proof.
  intros Hw Hx. unfold uwrap, swrap.
  rewrite Zplus_mod_idemp_l. by apply swrap_id.
Qed.

(** The other direction. *)
Lemma uwrap_swrap w x : 0 < w -> in_u w x -> uwrap w (swrap w x) = x.
Proof.
  intros Hw Hx. unfold uwrap, swrap.
  rewrite Zminus_mod_idemp_l, Z.add_simpl_r. by apply Z.mod_small.
Qed.

#[export] Hint Resolve uwrap_in_u swrap_in_s : fins.
#[export] Hint Extern 1 (_ <= _)%Z => lia : fins.
#[export] Hint Extern 1 (_ < _)%Z => lia : fins.

(** ** Outcome of a Go call

    A call returns a value, returns a non-nil [error], or panics (an index or a
    slice bound out of range).  [E] is the type of the errors. *)

Inductive res (E A : Type) : Type :=
| Ok (a : A)
| Err (e : E)
| Panic.
Arguments Ok {E A} a.
Arguments Err {E A} e.
Arguments Panic {E A}.

#[export] Instance res_bind E : MBind (res E) := fun A B f m =>
  match m with Ok a => f a | Err e => Err e | Panic => Panic end.
#[export] Instance res_ret E : MRet (res E) := fun A a => Ok a.
#[export] Instance res_fmap E : FMap (res E) := fun A B f m =>
  match m with Ok a => Ok (f a) | Err e => Err e | Panic => Panic end.

Definition is_ok {E A} (r : res E A) : bool := match r with Ok _ => true | _ => false end.
Definition panics {E A} (r : res E A) : bool := match r with Panic => true | _ => false end.

Lemma res_bind_Ok E A B (m : res E A) (f : A -> res E B) b :
  m ≫= f = Ok b <-> exists a, m = Ok a /\ f a = Ok b.
Proof. destruct m; cbn; split; intros H; [by exists a|by destruct H as (?&[= <-]&?)|done|by destruct H as (?&?&?)|done|by destruct H as (?&?&?)]. Qed.

Lemma res_bind_not_Panic E A B (m : res E A) (f : A -> res E B) :
  m <> Panic -> (forall a, m = Ok a -> f a <> Panic) -> m ≫= f <> Panic.
Proof. destruct m; cbn; naive_solver. Qed.

#[export] Hint Resolve res_bind_not_Panic : fins.

(** ** Byte slices

    A [[]byte] is the list of its elements.  [idx] is [s[i]], [sub] is
    [s[i:j]] and [sub_from] is [s[i:]]; they panic where Go does.  [zsub] and
    [zidx] take the [int] expressions the code computes. *)

Abbreviation bytes := (list Z).

Definition len {A} (l : list A) : Z := Z.of_nat (length l).

Lemma len_cons {A} (x : A) l : len (x :: l) = 1 + len l.
Proof. unfold len. cbn [length]. lia. Qed.
Lemma len_nil {A} : len (@nil A) = 0.
Proof. done. Qed.
Lemma len_app {A} (a b : list A) : len (a ++ b) = len a + len b.
Proof. unfold len. rewrite length_app. lia. Qed.
Lemma len_nonneg {A} (l : list A) : 0 <= len l.
Proof. unfold len. lia. Qed.

Section slices.
Context {E A : Type}.
Implicit Types l : list A.

Definition idx (l : list A) (i : nat) : res E A :=
  match l !! i with Some x => Ok x | None => Panic end.

Definition sub (l : list A) (i j : nat) : res E (list A) :=
  if ((i <=? j) && (j <=? length l))%nat then Ok (take (j - i) (drop i l)) else Panic.

Definition sub_from (l : list A) (i : nat) : res E (list A) := sub l i (length l).

Definition zidx (l : list A) (i : Z) : res E A :=
  if 0 <=? i then idx l (Z.to_nat i) else Panic.

Definition zsub (l : list A) (i j : Z) : res E (list A) :=
  if (0 <=? i) && (i <=? j) then sub l (Z.to_nat i) (Z.to_nat j) else Panic.

Lemma sub_ok l i j : (i <= j <= length l)%nat -> sub l i j = Ok (take (j - i) (drop i l)).
Proof.
  intros. unfold sub. destruct (_ && _)%nat eqn:Hb; [done|].
  apply andb_false_iff in Hb as [Hb|Hb]; apply Nat.leb_gt in Hb; lia.
Qed.

Lemma zsub_ok l i j :
  0 <= i <= j -> j <= len l ->
  zsub l i j = Ok (take (Z.to_nat (j - i)) (drop (Z.to_nat i) l)).
Proof.
  unfold len. intros. unfold zsub.
  rewrite (proj2 (Z.leb_le 0 i)), (proj2 (Z.leb_le i j)) by lia; cbn.
  rewrite sub_ok by lia. do 2 f_equal. lia.
Qed.

Lemma zsub_panic l i j : i < 0 \/ j < i \/ len l < j -> zsub l i j = Panic.
Proof.
  unfold len, zsub. intros H. destruct (_ && _) eqn:Hb; [|done]. zbool.
  unfold sub. destruct (_ && _)%nat eqn:Hc; [|done].
  apply andb_true_iff in Hc as [? Hc]; apply Nat.leb_le in Hc. lia.
Qed.

Lemma zidx_ok l i x : 0 <= i -> l !! Z.to_nat i = Some x -> zidx l i = Ok x.
Proof. intros Hi Hx. unfold zidx, idx. by rewrite (proj2 (Z.leb_le 0 i) Hi), Hx. Qed.
End slices.

(** [make([]byte, n)] and [copy(dst[i:], src)]. *)
Definition make_bytes (n : nat) : bytes := replicate n 0.

(** [make([]byte, n)] for an [n] computed at run time panics when [n] is negative or above
    what the allocator can ever provide, 2^48 bytes on a 64-bit platform.  A size below that
    which the machine does not have ends the process; that is not modelled. *)
Definition maxAlloc : Z := 2 ^ 48.
Definition makeslice {E} (n : Z) : res E bytes :=
  if (n <? 0) || (maxAlloc <? n) then Panic else Ok (make_bytes (Z.to_nat n)).

Lemma makeslice_ok {E} n : 0 <= n <= maxAlloc -> makeslice (E := E) n = Ok (make_bytes (Z.to_nat n)).
Proof. intros. unfold makeslice. by rewrite !(proj2 (Z.ltb_ge _ _)) by lia. Qed.

Fixpoint overlay {A} (src dst : list A) : list A :=
  match src, dst with
  | x :: src, _ :: dst => x :: overlay src dst
  | _, _ => dst
  end.

Fixpoint copy_at {A} (i : nat) (src dst : list A) : list A :=
  match i, dst with
  | O, _ => overlay src dst
  | S i, d :: dst => d :: copy_at i src dst
  | S _, [] => []
  end.

(** [copy(dst[i:j], src)] on a shared backing array. *)
Definition copy_slice {E A} (i j : Z) (src dst : list A) : res E (list A) :=
  if (0 <=? i) && (i <=? j) && (j <=? len dst)
  then Ok (copy_at (Z.to_nat i) (take (Z.to_nat (j - i)) src) dst) else Panic.

Lemma copy_slice_ok {E A} i j (src dst : list A) :
  0 <= i <= j -> j <= len dst ->
  copy_slice (E := E) i j src dst = Ok (copy_at (Z.to_nat i) (take (Z.to_nat (j - i)) src) dst).
Proof.
  intros. unfold copy_slice.
  rewrite (proj2 (Z.leb_le 0 i)), (proj2 (Z.leb_le i j)), (proj2 (Z.leb_le j _)) by lia. done.
Qed.

(** [l[i] = x]. *)
Definition zset {E A} (l : list A) (i : Z) (x : A) : res E (list A) :=
  if (0 <=? i) && (i <? len l) then Ok (<[Z.to_nat i := x]> l) else Panic.

Section copy.
Context {A : Type}.
Implicit Types l src dst : list A.

Lemma length_overlay src dst : length (overlay src dst) = length dst.
Proof. revert dst. induction src; intros [|d dst]; cbn; auto. Qed.

Lemma length_copy_at i src dst : length (copy_at i src dst) = length dst.
Proof. revert dst. induction i; intros [|d dst]; cbn; auto using length_overlay. Qed.

Lemma overlay_app src m c : length src = length m -> overlay src (m ++ c) = src ++ c.
Proof. revert m. induction src; intros [|y m]; cbn; try done. intros [=]. f_equal; auto. Qed.

Lemma copy_at_app i src a m c :
  i = length a -> length src = length m -> copy_at i src (a ++ m ++ c) = a ++ src ++ c.
Proof. intros -> ?. induction a; cbn; auto using overlay_app. by f_equal. Qed.

Lemma copy_at_eq i src dst :
  (i + length src <= length dst)%nat ->
  copy_at i src dst = take i dst ++ src ++ drop (i + length src) dst.
Proof.
  intros. rewrite <- (take_drop i dst) at 1.
  rewrite <- (take_drop (length src) (drop i dst)), copy_at_app, drop_drop; [done|..].
  - rewrite length_take; lia.
  - rewrite length_take, length_drop; lia.
Qed.

(** Reading back: outside the written window nothing changed, inside it the
    source is found. *)
Lemma lookup_copy_at i src dst k :
  (i + length src <= length dst)%nat ->
  copy_at i src dst !! k =
    if decide (i <= k < i + length src)%nat then src !! (k - i)%nat else dst !! k.
Proof.
  intros Hle. rewrite copy_at_eq by done.
  case_decide.
  - rewrite lookup_app_r by (rewrite length_take; lia).
    rewrite length_take, Nat.min_l by lia. rewrite lookup_app_l by lia. done.
  - destruct (decide (k < i)%nat).
    + rewrite lookup_app_l by (rewrite length_take; lia). by rewrite lookup_take_lt.
    + rewrite lookup_app_r by (rewrite length_take; lia).
      rewrite length_take, Nat.min_l by lia. rewrite lookup_app_r by lia.
      rewrite lookup_drop. f_equal. lia.
Qed.

Lemma Forall_overlay (P : A -> Prop) src dst :
  Forall P src -> Forall P dst -> Forall P (overlay src dst).
Proof. intros Hs Hd. revert src Hs. induction Hd; intros ? [|]; cbn; auto. Qed.

Lemma Forall_copy_at (P : A -> Prop) i src dst :
  Forall P src -> Forall P dst -> Forall P (copy_at i src dst).
Proof.
  intros Hs Hd. revert dst Hd. induction i; intros ? [|]; cbn; auto using Forall_overlay.
Qed.
End copy.

(** ** Bytes and byte orders *)

Definition bytes_ok (l : bytes) : Prop := Forall (in_u 8) l.

#[export] Instance bytes_ok_dec l : Decision (bytes_ok l).
Proof. unfold bytes_ok. apply _. Defined.

Lemma bytes_ok_app a b : bytes_ok (a ++ b) <-> bytes_ok a /\ bytes_ok b.
Proof. apply Forall_app. Qed.

Lemma bytes_ok_singleton b : in_u 8 b -> bytes_ok [b].
Proof. intros. constructor; [done|constructor]. Qed.

Lemma bytes_ok_take n l : bytes_ok l -> bytes_ok (take n l).
Proof. apply Forall_take. Qed.

Lemma bytes_ok_drop n l : bytes_ok l -> bytes_ok (drop n l).
Proof. apply Forall_drop. Qed.

Lemma bytes_ok_make n : bytes_ok (make_bytes n).
Proof. apply Forall_replicate. unfold in_u; lia. Qed.

Lemma bytes_ok_copy_at i src dst : bytes_ok src -> bytes_ok dst -> bytes_ok (copy_at i src dst).
Proof. apply Forall_copy_at. Qed.

Lemma bytes_ok_lookup l i b : bytes_ok l -> l !! i = Some b -> in_u 8 b.
Proof. intros H Hi. by eapply Forall_lookup in H. Qed.

#[export] Hint Resolve bytes_ok_take bytes_ok_drop bytes_ok_make bytes_ok_copy_at bytes_ok_singleton : fins.

Fixpoint le_bytes (n : nat) (x : Z) : bytes :=
  match n with O => [] | S n => x mod 256 :: le_bytes n (x / 256) end.

Fixpoint le_val (l : bytes) : Z :=
  match l with [] => 0 | b :: l => b + 256 * le_val l end.

Definition be_bytes (n : nat) (x : Z) : bytes := rev (le_bytes n x).
Definition be_val (l : bytes) : Z := le_val (rev l).

(** [binary.ByteOrder]: [PutUintN] writes [bo_bytes], [UintN] reads [bo_val]. *)
Inductive byte_order := BigEndian | LittleEndian.

Definition bo_bytes (bo : byte_order) : nat -> Z -> bytes :=
  match bo with BigEndian => be_bytes | LittleEndian => le_bytes end.
Definition bo_val (bo : byte_order) : bytes -> Z :=
  match bo with BigEndian => be_val | LittleEndian => le_val end.

Lemma length_le_bytes n x : length (le_bytes n x) = n.
Proof. revert x; induction n; intros; cbn; auto. Qed.
Lemma length_be_bytes n x : length (be_bytes n x) = n.
Proof. unfold be_bytes. by rewrite length_rev, length_le_bytes. Qed.
Lemma len_be_bytes n x : len (be_bytes n x) = Z.of_nat n.
Proof. unfold len. by rewrite length_be_bytes. Qed.
Lemma length_bo_bytes bo n x : length (bo_bytes bo n x) = n.
Proof. destruct bo; auto using length_le_bytes, length_be_bytes. Qed.

Lemma le_bytes_ok n x : bytes_ok (le_bytes n x).
Proof.
  revert x; induction n; intros; cbn; constructor; [|apply IHn].
  unfold in_u. zdm.
Qed.
Lemma bytes_ok_rev l : bytes_ok l -> bytes_ok (rev l).
Proof. apply List.Forall_rev. Qed.
Lemma be_bytes_ok n x : bytes_ok (be_bytes n x).
Proof. apply bytes_ok_rev, le_bytes_ok. Qed.
Lemma bo_bytes_ok bo n x : bytes_ok (bo_bytes bo n x).
Proof. destruct bo; auto using le_bytes_ok, be_bytes_ok. Qed.

#[export] Hint Resolve le_bytes_ok be_bytes_ok bo_bytes_ok bytes_ok_rev : fins.

Lemma pow256_S n : 256 ^ Z.of_nat (S n) = 256 * 256 ^ Z.of_nat n.
Proof. rewrite Nat2Z.inj_succ, Z.pow_succ_r; lia. Qed.

Lemma le_val_le_bytes n x : le_val (le_bytes n x) = x mod 256 ^ Z.of_nat n.
Proof.
  revert x; induction n; intros; cbn -[Z.of_nat]; [by rewrite Z.mod_1_r|].
  rewrite IHn, pow256_S, Z.rem_mul_r by (try apply Z.pow_nonzero; lia). lia.
Qed.

Lemma le_bytes_le_val l : bytes_ok l -> le_bytes (length l) (le_val l) = l.
Proof.
  induction 1 as [|b l Hb Hl IH]; cbn; [done|].
  unfold in_u in Hb. replace ((b + 256 * le_val l) mod 256) with b by zdm.
  replace ((b + 256 * le_val l) / 256) with (le_val l) by zdm. by rewrite IH.
Qed.

Lemma le_val_bound l : bytes_ok l -> 0 <= le_val l < 256 ^ len l.
Proof.
  unfold len. induction 1 as [|b l Hb Hl IH]; [cbn; lia|].
  cbn [length]. rewrite pow256_S. cbn [le_val]. unfold in_u in Hb. lia.
Qed.

Lemma bo_val_bound bo l : bytes_ok l -> 0 <= bo_val bo l < 256 ^ len l.
Proof.
  intros Hl. destruct bo; cbn; [|by apply le_val_bound].
  pose proof (le_val_bound (rev l)) as H. unfold len in *.
  rewrite length_rev in H. apply H. by apply bytes_ok_rev.
Qed.

Lemma bo_val_bytes bo n x : in_u (8 * Z.of_nat n) x -> bo_val bo (bo_bytes bo n x) = x.
Proof.
  intros Hx. assert (le_val (le_bytes n x) = x).
  { rewrite le_val_le_bytes. apply Z.mod_small. unfold in_u in Hx.
    by rewrite Z.pow_mul_r in Hx by lia. }
  destruct bo; cbn; [|done]. unfold be_val, be_bytes. by rewrite rev_involutive.
Qed.

Lemma bo_bytes_val bo l : bytes_ok l -> bo_bytes bo (length l) (bo_val bo l) = l.
Proof.
  intros Hl. destruct bo; cbn; [|by apply le_bytes_le_val].
  unfold be_bytes, be_val. rewrite <- (length_rev l), le_bytes_le_val, rev_involutive;
    auto with fins.
Qed.

Lemma be_val_bytes n x : in_u (8 * Z.of_nat n) x -> be_val (be_bytes n x) = x.
Proof. apply (bo_val_bytes BigEndian). Qed.
Lemma be_bytes_val n l : bytes_ok l -> length l = n -> be_bytes n (be_val l) = l.
Proof. intros ? <-. by apply (bo_bytes_val BigEndian). Qed.

Lemma be_val_in_u l n : bytes_ok l -> length l = n -> in_u (8 * Z.of_nat n) (be_val l).
Proof.
  intros Hl <-. pose proof (bo_val_bound BigEndian l Hl) as H.
  unfold in_u. rewrite Z.pow_mul_r by lia. exact H.
Qed.

(** ** Strings

    A Go [string] is a sequence of bytes. *)

Definition byte_of_ascii (c : Ascii.ascii) : Z := Z.of_N (Ascii.N_of_ascii c).
Definition ascii_of_byte (b : Z) : Ascii.ascii := Ascii.ascii_of_N (Z.to_N b).
Definition bytes_of_string (s : string) : bytes := map byte_of_ascii (String.list_ascii_of_string s).
Definition string_of_bytes (l : bytes) : string := String.string_of_list_ascii (map ascii_of_byte l).

Lemma ascii_of_byte_of_ascii c : ascii_of_byte (byte_of_ascii c) = c.
Proof. unfold ascii_of_byte, byte_of_ascii. by rewrite N2Z.id, Ascii.ascii_N_embedding. Qed.

Lemma byte_of_ascii_ok c : in_u 8 (byte_of_ascii c).
Proof.
  unfold byte_of_ascii, in_u. pose proof (Ascii.N_ascii_bounded c). change (2 ^ 8) with (Z.of_N 256). lia.
Qed.

Lemma byte_of_ascii_of_byte b : in_u 8 b -> byte_of_ascii (ascii_of_byte b) = b.
Proof.
  unfold in_u, byte_of_ascii, ascii_of_byte. change (2 ^ 8) with 256. intros.
  rewrite Ascii.N_ascii_embedding by lia. lia.
Qed.

Lemma bytes_of_string_ok s : bytes_ok (bytes_of_string s).
Proof. apply Forall_fmap, Forall_true. intros; apply byte_of_ascii_ok. Qed.

Lemma string_of_bytes_of_string s : string_of_bytes (bytes_of_string s) = s.
Proof.
  unfold string_of_bytes, bytes_of_string. rewrite map_map.
  rewrite (map_ext _ id ascii_of_byte_of_ascii), map_id.
  apply String.string_of_list_ascii_of_string.
Qed.

Lemma bytes_of_string_of_bytes l : bytes_ok l -> bytes_of_string (string_of_bytes l) = l.
Proof.
  intros Hl. unfold string_of_bytes, bytes_of_string.
  rewrite String.list_ascii_of_string_of_list_ascii, map_map.
  induction Hl; cbn; [done|]. by rewrite byte_of_ascii_of_byte, IHHl.
Qed.

#[export] Hint Resolve bytes_of_string_ok byte_of_ascii_ok : fins.
