(* ===== verification/Types.v ===== *)
(** * Shared types ([src/types.go]) and the errors of the package *)
From S2P Require Import Prelude.

(** ** Errors

    One constructor per sentinel or per [errors.New] / [fmt.Errorf] call of the
    TCP package.  An error that wraps a sentinel with [%w] is that sentinel; the
    texts are not modelled. *)
Inductive error :=
| ErrInvalidFINSHeader
| ErrFrameTooShort
| ErrInvalidEMNumber
| ErrInvalidAddress
| ErrUnsupportedArea
| ErrUnsupportedDataType
| ErrInvalidDataType
| ErrDataTooShort
| ErrUnknownBitArea (code : Z)
| ErrUnknownWordArea (code : Z)
| ErrNotConnected
| ErrConnectionClosed
| ErrResponseTimeout
| ErrContext
| ErrSendFailed
| ErrConnectFailed
| ErrReconnectFailed (attempts : Z)
| ErrPlcIPRequired
| ErrFINS (endCode : Z)
| ErrAlreadyInitialized
| ErrNotInitialized
| ErrSchedulerNotInitialized
| ErrTransportNotInitialized.

#[export] Instance error_eq_dec : EqDecision error.
Proof. solve_decision. Defined.

(** ** Dynamic values ([interface{}])

    The dynamic types the code tests for; floating-point values are their IEEE
    bit patterns, [VOther] is any other type. *)
Inductive goval :=
| VNil
| VBool (b : bool)
| VUint8 (x : Z) | VInt8 (x : Z)
| VUint16 (x : Z) | VInt16 (x : Z)
| VUint32 (x : Z) | VInt32 (x : Z)
| VUint64 (x : Z) | VInt64 (x : Z)
| VInt (x : Z)
| VFloat32 (bits : Z)
| VFloat64 (bits : Z)
| VString (s : string)
| VOther.

#[export] Instance goval_eq_dec : EqDecision goval.
Proof. solve_decision. Defined.

(** A value whose payload fits its Go type. *)
Definition goval_ok (v : goval) : Prop :=
  match v with
  | VUint8 x => in_u 8 x | VInt8 x => in_s 8 x
  | VUint16 x => in_u 16 x | VInt16 x => in_s 16 x
  | VUint32 x => in_u 32 x | VInt32 x => in_s 32 x
  | VUint64 x => in_u 64 x | VInt64 x => in_s 64 x
  | VInt x => in_s 64 x
  | VFloat32 x => in_u 32 x | VFloat64 x => in_u 64 x
  | _ => True
  end.

#[export] Instance goval_ok_dec v : Decision (goval_ok v).
Proof. destruct v; cbn; apply _. Defined.

(** ** Data types, qualities, points *)

Abbreviation DataType := string (only parsing).

Definition DataTypeBIT : DataType := "BIT".
Definition DataTypeUINT8 : DataType := "UINT8".
Definition DataTypeINT8 : DataType := "INT8".
Definition DataTypeUINT16 : DataType := "UINT16".
Definition DataTypeINT16 : DataType := "INT16".
Definition DataTypeUINT32 : DataType := "UINT32".
Definition DataTypeINT32 : DataType := "INT32".
Definition DataTypeUINT64 : DataType := "UINT64".
Definition DataTypeINT64 : DataType := "INT64".
Definition DataTypeFLOAT : DataType := "FLOAT".
Definition DataTypeDOUBLE : DataType := "DOUBLE".
Definition DataTypeSTRING : DataType := "STRING".

Inductive Quality := QualityGood | QualityBad | QualityUncertain.

#[export] Instance Quality_eq_dec : EqDecision Quality.
Proof. solve_decision. Defined.

(** [Value]; a time is a number of nanoseconds. *)
Record Value := MkValue { val_Value : goval; val_Quality : Quality; val_TS : Z }.

Record Point := MkPoint {
  ID : string; point_Address : string; point_DataType : DataType; Attribute : string }.

Inductive HealthStatus := HealthStatusUp | HealthStatusDown | HealthStatusUnknown.

#[export] Instance HealthStatus_eq_dec : EqDecision HealthStatus.
Proof. solve_decision. Defined.

Record ConnectionMetrics := MkConnectionMetrics {
  cm_Connected : bool; ConnectTime : Z; LastDisconnectTime : Z;
  ReconnectCount : Z; LocalAddr : string; RemoteAddr : string }.

Record SchedulerStats := MkSchedulerStats {
  TotalRequests : Z; SuccessCount : Z; FailureCount : Z }.

Inductive ByteOrder := ByteOrderHigh | ByteOrderLow.

#[export] Instance ByteOrder_eq_dec : EqDecision ByteOrder.
Proof. solve_decision. Defined.

Record ParsedAddress := MkParsedAddress {
  pa_Area : string; AreaCode : Z; EMNumber : Z; pa_Address : Z; Bit : Z;
  StringLen : Z; pa_ByteOrder : ByteOrder; IsBit : bool; IsString : bool }.

#[export] Instance ParsedAddress_eq_dec : EqDecision ParsedAddress.
Proof. solve_decision. Defined.

Record AreaInfo := MkAreaInfo {
  Code : Z; Name : string; ReadOnly : bool; SupportBit : bool; SupportString : bool }.
