(* ===== verification/Protocol.v ===== *)
(** * Protocol layer ([src/protocol.go])

    The constants, frame types and codecs of the FINS/TCP protocol.  Encoders are
    written as the code writes them: a zeroed buffer of the final size, then
    writes at fixed positions. *)
From S2P Require Import Prelude Types.

(** ** Constants *)

(** [protocol.go] 19-35: TCP command and FINS command codes (MRC/SRC). *)
Definition TCPCommandFINSFrame : Z := 0x0000.
Definition MRC_MEMORY_AREA_READ : Z := 0x0101.
Definition MRC_MEMORY_AREA_WRITE : Z := 0x0102.
Definition MRC_MEMORY_AREA_FILL : Z := 0x0103.
Definition MRC_MULTIPLE_MEMORY_AREA_READ : Z := 0x0104.
Definition MRC_CONNECTION_DATA_READ : Z := 0x0502.
Definition MRC_CPU_UNIT_STATUS_READ : Z := 0x0601.
Definition MRC_CLOCK_READ : Z := 0x0701.
Definition MRC_CLOCK_WRITE : Z := 0x0702.
Definition MRC_ERROR_CLEAR : Z := 0x2101.
Definition MRC_ERROR_LOG_READ : Z := 0x2102.
Definition MRC_ERROR_LOG_CLEAR : Z := 0x2103.

(** [protocol.go] 37-123: end codes. *)
Definition END_CODE_NORMAL : Z := 0x0000.
Definition END_CODE_SERVICE_INTERRUPTED : Z := 0x0001.
Definition END_CODE_LOCAL_NOT_IN_NET : Z := 0x0101.
Definition END_CODE_TOKEN_TIMEOUT : Z := 0x0102.
Definition END_CODE_RETRIES_FAILED : Z := 0x0103.
Definition END_CODE_TOO_MANY_FRAMES : Z := 0x0104.
Definition END_CODE_NODE_ADDR_RANGE : Z := 0x0105.
Definition END_CODE_NODE_ADDR_DUP : Z := 0x0106.
Definition END_CODE_DEST_NOT_IN_NET : Z := 0x0201.
Definition END_CODE_UNIT_MISSING : Z := 0x0202.
Definition END_CODE_THIRD_NODE_MISSING : Z := 0x0203.
Definition END_CODE_DEST_BUSY : Z := 0x0204.
Definition END_CODE_RESPONSE_TIMEOUT : Z := 0x0205.
Definition END_CODE_COMM_CTRL_ERROR : Z := 0x0301.
Definition END_CODE_CPU_UNIT_ERROR : Z := 0x0302.
Definition END_CODE_CONTROLLER_ERROR : Z := 0x0303.
Definition END_CODE_UNIT_NUM_ERROR : Z := 0x0304.
Definition END_CODE_UNDEFINED_CMD : Z := 0x0401.
Definition END_CODE_NOT_SUPPORTED : Z := 0x0402.
Definition END_CODE_DEST_ADDR_ERROR : Z := 0x0501.
Definition END_CODE_NO_ROUTING_TABLE : Z := 0x0502.
Definition END_CODE_ROUTING_TABLE_ERR : Z := 0x0503.
Definition END_CODE_TOO_MANY_RELAYS : Z := 0x0504.
Definition END_CODE_CMD_TOO_LONG : Z := 0x1001.
Definition END_CODE_CMD_TOO_SHORT : Z := 0x1002.
Definition END_CODE_ELEMENTS_MISMATCH : Z := 0x1003.
Definition END_CODE_CMD_FORMAT_ERROR : Z := 0x1004.
Definition END_CODE_HEADER_ERROR : Z := 0x1005.
Definition END_CODE_AREA_MISSING : Z := 0x1101.
Definition END_CODE_ACCESS_SIZE_ERR : Z := 0x1102.
Definition END_CODE_ADDR_RANGE_ERR : Z := 0x1103.
Definition END_CODE_ADDR_RANGE_EXCEED : Z := 0x1104.
Definition END_CODE_PROGRAM_MISSING : Z := 0x1106.
Definition END_CODE_RELATIONAL_ERROR : Z := 0x1109.
Definition END_CODE_DUP_DATA_ACCESS : Z := 0x110a.
Definition END_CODE_RESPONSE_TOO_BIG : Z := 0x110b.
Definition END_CODE_PARAMETER_ERROR : Z := 0x110c.
Definition END_CODE_READ_PROTECTED : Z := 0x2002.
Definition END_CODE_READ_TABLE_MISSING : Z := 0x2003.
Definition END_CODE_READ_DATA_MISSING : Z := 0x2004.
Definition END_CODE_READ_PROG_MISSING : Z := 0x2005.
Definition END_CODE_READ_FILE_MISSING : Z := 0x2006.
Definition END_CODE_READ_DATA_MISMATCH : Z := 0x2007.
Definition END_CODE_WRITE_READ_ONLY : Z := 0x2101.
Definition END_CODE_WRITE_PROTECTED : Z := 0x2102.
Definition END_CODE_WRITE_CANT_REGISTER : Z := 0x2103.
Definition END_CODE_WRITE_PROG_MISSING : Z := 0x2105.
Definition END_CODE_WRITE_FILE_MISSING : Z := 0x2106.
Definition END_CODE_WRITE_FILE_EXISTS : Z := 0x2107.
Definition END_CODE_WRITE_CANT_CHANGE : Z := 0x2108.
Definition END_CODE_NOT_EXEC_DURING_EXEC : Z := 0x2201.
Definition END_CODE_NOT_EXEC_WHILE_RUNNING : Z := 0x2202.
Definition END_CODE_NOT_EXEC_PROG_MODE : Z := 0x2203.
Definition END_CODE_NOT_EXEC_DEBUG_MODE : Z := 0x2204.
Definition END_CODE_NOT_EXEC_MONITOR_MODE : Z := 0x2205.
Definition END_CODE_NOT_EXEC_RUN_MODE : Z := 0x2206.
Definition END_CODE_NOT_EXEC_NOT_POLLING : Z := 0x2207.
Definition END_CODE_NOT_EXEC_STEP_CANT : Z := 0x2208.
Definition END_CODE_NO_SUCH_DEVICE_FILE : Z := 0x2301.
Definition END_CODE_NO_SUCH_DEVICE_MEM : Z := 0x2302.
Definition END_CODE_NO_SUCH_DEVICE_CLOCK : Z := 0x2303.
Definition END_CODE_CANT_START_STOP_TABLE : Z := 0x2401.
Definition END_CODE_UNIT_ERROR_MEMORY : Z := 0x2502.
Definition END_CODE_UNIT_ERROR_IO : Z := 0x2503.
Definition END_CODE_UNIT_ERROR_TOO_MANY_IO : Z := 0x2504.
Definition END_CODE_UNIT_ERROR_CPU_BUS : Z := 0x2505.
Definition END_CODE_UNIT_ERROR_IO_DUP : Z := 0x2506.
Definition END_CODE_UNIT_ERROR_IO_BUS_ERR : Z := 0x2507.
Definition END_CODE_UNIT_ERROR_SYSMAC_BUS2 : Z := 0x2509.
Definition END_CODE_UNIT_ERROR_CPU_BUS_UNIT : Z := 0x250a.
Definition END_CODE_UNIT_ERROR_SYSMAC_BUS_NUM_DUP : Z := 0x250d.
Definition END_CODE_UNIT_ERROR_MEM_STATUS : Z := 0x250f.
Definition END_CODE_UNIT_ERROR_SYSMAC_BUS_TERM : Z := 0x2510.
Definition END_CODE_CMD_ERROR_NO_PROTECTION : Z := 0x2601.
Definition END_CODE_CMD_ERROR_BAD_PASSWORD : Z := 0x2602.
Definition END_CODE_CMD_ERROR_PROTECTED : Z := 0x2604.
Definition END_CODE_CMD_ERROR_SERVICE_EXEC : Z := 0x2605.
Definition END_CODE_CMD_ERROR_SERVICE_STOPPED : Z := 0x2606.
Definition END_CODE_CMD_ERROR_NO_EXEC_RIGHT : Z := 0x2607.
Definition END_CODE_CMD_ERROR_SETTINGS_NOT_COMPLETE : Z := 0x2608.
Definition END_CODE_CMD_ERROR_ITEMS_NOT_SET : Z := 0x2609.
Definition END_CODE_CMD_ERROR_NUM_ALREADY_DEFINED : Z := 0x260a.
Definition END_CODE_CMD_ERROR_ERROR_WONT_CLEAR : Z := 0x260b.
Definition END_CODE_ACCESS_WRITE_NO_RIGHT : Z := 0x3001.
Definition END_CODE_ABORT_SERVICE_ABORTED : Z := 0x4001.

(** [protocol.go] 125-182: memory area codes. *)
Definition MemoryAreaCIOBit : Z := 0x30.
Definition MemoryAreaARBit : Z := 0x31.
Definition MemoryAreaWRBit : Z := 0x32.
Definition MemoryAreaHRBit : Z := 0x33.
Definition MemoryAreaAuxiliaryBit : Z := 0x33.
Definition MemoryAreaPVBit : Z := 0x35.
Definition MemoryAreaTimerCompletionFlag : Z := 0x09.
Definition MemoryAreaTimerPV : Z := 0x89.
Definition MemoryAreaCounterCompletionFlag : Z := 0x09.
Definition MemoryAreaCounterPV : Z := 0x89.
Definition MemoryAreaDMBit : Z := 0x02.
Definition MemoryAreaDMWord : Z := 0x82.
Definition MemoryAreaCIOWord : Z := 0xb0.
Definition MemoryAreaWRWord : Z := 0xb1.
Definition MemoryAreaHRWord : Z := 0xb2.
Definition MemoryAreaARWord : Z := 0xb3.
Definition MemoryAreaAuxiliaryWord : Z := 0xb3.
Definition MemoryAreaPVWord : Z := 0xb5.
Definition MemoryAreaTaskBit : Z := 0x06.
Definition MemoryAreaTaskStatus : Z := 0x46.
Definition MemoryAreaFlagBit : Z := 0x0b.
Definition MemoryAreaIndexRegisterPV : Z := 0xdc.
Definition MemoryAreaDataRegisterPV : Z := 0xbc.
Definition MemoryAreaClockPulsesConditionFlagsBit : Z := 0x07.
Definition MemoryAreaEM0Word : Z := 0xa0.
Definition MemoryAreaEM1Word : Z := 0xa1.
Definition MemoryAreaEM2Word : Z := 0xa2.
Definition MemoryAreaEM3Word : Z := 0xa3.
Definition MemoryAreaEM4Word : Z := 0xa4.
Definition MemoryAreaEM5Word : Z := 0xa5.
Definition MemoryAreaEM6Word : Z := 0xa6.
Definition MemoryAreaEM7Word : Z := 0xa7.
Definition MemoryAreaEM8Word : Z := 0xa8.
Definition MemoryAreaEM9Word : Z := 0xa9.
Definition MemoryAreaEM10Word : Z := 0xaa.
Definition MemoryAreaEM11Word : Z := 0xab.
Definition MemoryAreaEM12Word : Z := 0xac.
Definition MemoryAreaEM13Word : Z := 0xad.
Definition MemoryAreaEM14Word : Z := 0xae.
Definition MemoryAreaEM15Word : Z := 0xaf.
Definition MemoryAreaEM0Bit : Z := 0x20.
Definition MemoryAreaEM1Bit : Z := 0x21.
Definition MemoryAreaEM2Bit : Z := 0x22.
Definition MemoryAreaEM3Bit : Z := 0x23.
Definition MemoryAreaEM4Bit : Z := 0x24.
Definition MemoryAreaEM5Bit : Z := 0x25.
Definition MemoryAreaEM6Bit : Z := 0x26.
Definition MemoryAreaEM7Bit : Z := 0x27.
Definition MemoryAreaEM8Bit : Z := 0x28.
Definition MemoryAreaEM9Bit : Z := 0x29.
Definition MemoryAreaEM10Bit : Z := 0x2a.
Definition MemoryAreaEM11Bit : Z := 0x2b.
Definition MemoryAreaEM12Bit : Z := 0x2c.
Definition MemoryAreaEM13Bit : Z := 0x2d.
Definition MemoryAreaEM14Bit : Z := 0x2e.
Definition MemoryAreaEM15Bit : Z := 0x2f.

(** [protocol.go] 184-193: ICF bits and message types. *)
Definition icfBitBridges : Z := 7.
Definition icfBitMessageType : Z := 6.
Definition icfBitResponseRequired : Z := 0.
Definition MessageTypeCommand : Z := 0.
Definition MessageTypeResponse : Z := 1.

(** [EndCodeText] ([protocol.go] 446-621). *)
Definition EndCodeText (endCode : Z) : string :=
  if endCode =? END_CODE_NORMAL then "normal completion" else
  if endCode =? END_CODE_SERVICE_INTERRUPTED then "service interrupted" else
  if endCode =? END_CODE_LOCAL_NOT_IN_NET then "local node not in network" else
  if endCode =? END_CODE_TOKEN_TIMEOUT then "token timeout" else
  if endCode =? END_CODE_RETRIES_FAILED then "retries failed" else
  if endCode =? END_CODE_TOO_MANY_FRAMES then "too many send frames" else
  if endCode =? END_CODE_NODE_ADDR_RANGE then "node address range error" else
  if endCode =? END_CODE_NODE_ADDR_DUP then "node address range duplication" else
  if endCode =? END_CODE_DEST_NOT_IN_NET then "destination node not in network" else
  if endCode =? END_CODE_UNIT_MISSING then "unit missing" else
  if endCode =? END_CODE_THIRD_NODE_MISSING then "third node missing" else
  if endCode =? END_CODE_DEST_BUSY then "destination node busy" else
  if endCode =? END_CODE_RESPONSE_TIMEOUT then "response timeout" else
  if endCode =? END_CODE_COMM_CTRL_ERROR then "communications controller error" else
  if endCode =? END_CODE_CPU_UNIT_ERROR then "CPU unit error" else
  if endCode =? END_CODE_CONTROLLER_ERROR then "controller error" else
  if endCode =? END_CODE_UNIT_NUM_ERROR then "unit number error" else
  if endCode =? END_CODE_UNDEFINED_CMD then "undefined command" else
  if endCode =? END_CODE_NOT_SUPPORTED then "not supported by model version" else
  if endCode =? END_CODE_DEST_ADDR_ERROR then "destination address setting error" else
  if endCode =? END_CODE_NO_ROUTING_TABLE then "no routing tables" else
  if endCode =? END_CODE_ROUTING_TABLE_ERR then "routing table error" else
  if endCode =? END_CODE_TOO_MANY_RELAYS then "too many relays" else
  if endCode =? END_CODE_CMD_TOO_LONG then "command too long" else
  if endCode =? END_CODE_CMD_TOO_SHORT then "command too short" else
  if endCode =? END_CODE_ELEMENTS_MISMATCH then "elements/data don't match" else
  if endCode =? END_CODE_CMD_FORMAT_ERROR then "command format error" else
  if endCode =? END_CODE_HEADER_ERROR then "header error" else
  if endCode =? END_CODE_AREA_MISSING then "area classification missing" else
  if endCode =? END_CODE_ACCESS_SIZE_ERR then "access size error" else
  if endCode =? END_CODE_ADDR_RANGE_ERR then "address range error" else
  if endCode =? END_CODE_ADDR_RANGE_EXCEED then "address range exceeded" else
  if endCode =? END_CODE_PROGRAM_MISSING then "program missing" else
  if endCode =? END_CODE_RELATIONAL_ERROR then "relational error" else
  if endCode =? END_CODE_DUP_DATA_ACCESS then "duplicate data access" else
  if endCode =? END_CODE_RESPONSE_TOO_BIG then "response too big" else
  if endCode =? END_CODE_PARAMETER_ERROR then "parameter error" else
  if endCode =? END_CODE_READ_PROTECTED then "read not possible: protected" else
  if endCode =? END_CODE_READ_TABLE_MISSING then "read not possible: table missing" else
  if endCode =? END_CODE_READ_DATA_MISSING then "read not possible: data missing" else
  if endCode =? END_CODE_READ_PROG_MISSING then "read not possible: program missing" else
  if endCode =? END_CODE_READ_FILE_MISSING then "read not possible: file missing" else
  if endCode =? END_CODE_READ_DATA_MISMATCH then "read not possible: data mismatch" else
  if endCode =? END_CODE_WRITE_READ_ONLY then "write not possible: read only" else
  if endCode =? END_CODE_WRITE_PROTECTED then "write not possible: write protected" else
  if endCode =? END_CODE_WRITE_CANT_REGISTER then "write not possible: cannot register" else
  if endCode =? END_CODE_WRITE_PROG_MISSING then "write not possible: program missing" else
  if endCode =? END_CODE_WRITE_FILE_MISSING then "write not possible: file missing" else
  if endCode =? END_CODE_WRITE_FILE_EXISTS then "write not possible: file name already exists" else
  if endCode =? END_CODE_WRITE_CANT_CHANGE then "write not possible: cannot change" else
  if endCode =? END_CODE_NOT_EXEC_DURING_EXEC then "not executable in current mode: during execution" else
  if endCode =? END_CODE_NOT_EXEC_WHILE_RUNNING then "not executable in current mode: while running" else
  if endCode =? END_CODE_NOT_EXEC_PROG_MODE then "not executable in current mode: PROGRAM mode" else
  if endCode =? END_CODE_NOT_EXEC_DEBUG_MODE then "not executable in current mode: DEBUG mode" else
  if endCode =? END_CODE_NOT_EXEC_MONITOR_MODE then "not executable in current mode: MONITOR mode" else
  if endCode =? END_CODE_NOT_EXEC_RUN_MODE then "not executable in current mode: RUN mode" else
  if endCode =? END_CODE_NOT_EXEC_NOT_POLLING then "not executable in current mode: not polling node" else
  if endCode =? END_CODE_NOT_EXEC_STEP_CANT then "not executable in current mode: step cannot be executed" else
  if endCode =? END_CODE_NO_SUCH_DEVICE_FILE then "no such device: file device missing" else
  if endCode =? END_CODE_NO_SUCH_DEVICE_MEM then "no such device: memory missing" else
  if endCode =? END_CODE_NO_SUCH_DEVICE_CLOCK then "no such device: clock missing" else
  if endCode =? END_CODE_CANT_START_STOP_TABLE then "cannot start/stop: table missing" else
  if endCode =? END_CODE_UNIT_ERROR_MEMORY then "unit error: memory error" else
  if endCode =? END_CODE_UNIT_ERROR_IO then "unit error: IO error" else
  if endCode =? END_CODE_UNIT_ERROR_TOO_MANY_IO then "unit error: too many IO points" else
  if endCode =? END_CODE_UNIT_ERROR_CPU_BUS then "unit error: CPU bus error" else
  if endCode =? END_CODE_UNIT_ERROR_IO_DUP then "unit error: IO duplication" else
  if endCode =? END_CODE_UNIT_ERROR_IO_BUS_ERR then "unit error: IO bus error" else
  if endCode =? END_CODE_UNIT_ERROR_SYSMAC_BUS2 then "unit error: SYSMAC BUS/2 error" else
  if endCode =? END_CODE_UNIT_ERROR_CPU_BUS_UNIT then "unit error: CPU bus unit error" else
  if endCode =? END_CODE_UNIT_ERROR_SYSMAC_BUS_NUM_DUP then "unit error: SYSMAC bus number duplication" else
  if endCode =? END_CODE_UNIT_ERROR_MEM_STATUS then "unit error: memory status error" else
  if endCode =? END_CODE_UNIT_ERROR_SYSMAC_BUS_TERM then "unit error: SYSMAC bus terminator missing" else
  if endCode =? END_CODE_CMD_ERROR_NO_PROTECTION then "command error: no protection" else
  if endCode =? END_CODE_CMD_ERROR_BAD_PASSWORD then "command error: incorrect password" else
  if endCode =? END_CODE_CMD_ERROR_PROTECTED then "command error: protected" else
  if endCode =? END_CODE_CMD_ERROR_SERVICE_EXEC then "command error: service already executing" else
  if endCode =? END_CODE_CMD_ERROR_SERVICE_STOPPED then "command error: service stopped" else
  if endCode =? END_CODE_CMD_ERROR_NO_EXEC_RIGHT then "command error: no execution right" else
  if endCode =? END_CODE_CMD_ERROR_SETTINGS_NOT_COMPLETE then "command error: settings not complete" else
  if endCode =? END_CODE_CMD_ERROR_ITEMS_NOT_SET then "command error: necessary items not set" else
  if endCode =? END_CODE_CMD_ERROR_NUM_ALREADY_DEFINED then "command error: number already defined" else
  if endCode =? END_CODE_CMD_ERROR_ERROR_WONT_CLEAR then "command error: error will not clear" else
  if endCode =? END_CODE_ACCESS_WRITE_NO_RIGHT then "access write error: no access right" else
  if endCode =? END_CODE_ABORT_SERVICE_ABORTED then "abort: service aborted" else
  "unknown error".

(** ** Frames *)

Record FINSAddress := MkFINSAddress { Network : Z; Node : Z; Unit : Z }.

Record FINSHeader := MkFINSHeader {
  ICF : Z; RSV : Z; GCT : Z; Dest : FINSAddress; Src : FINSAddress; SID : Z }.

Record FINSTCPFrame := MkFINSTCPFrame {
  Magic : bytes; Length : Z; Command : Z; ErrorCode : Z; tcp_Data : bytes }.

Record FINSFrame := MkFINSFrame {
  Header : FINSHeader; CommandCode : Z; EndCode : Z; Data : bytes }.

Record MemoryAddress := MkMemoryAddress { Area : Z; Address : Z; BitOffset : Z }.

Definition NewMemoryAddress (area address : Z) : MemoryAddress := MkMemoryAddress area address 0.
Definition NewMemoryAddressWithBit (area address bitOffset : Z) : MemoryAddress :=
  MkMemoryAddress area address bitOffset.

(** The magic number [{'F','I','N','S'}]. *)
Definition FINS_magic : bytes := bytes_of_string "FINS".

Lemma FINS_magic_ok : bytes_ok FINS_magic.
Proof. apply bytes_of_string_ok. Qed.
#[export] Hint Resolve FINS_magic_ok : fins.

(** [DecodeFINSTCPFrame] ([protocol.go] 239-269). *)
Definition DecodeFINSTCPFrame (data : bytes) : res error FINSTCPFrame :=
  if len data <? 12 then Err ErrFrameTooShort else
  magic ← sub data 0 4;
  if negb (bool_decide (magic = FINS_magic)) then Err ErrInvalidFINSHeader else
  l ← sub data 4 8;
  c ← sub data 8 10;
  e ← sub data 10 12;
  let dataLen := Z.max 0 (be_val l - 4) in
  if 12 <? len data then
    let dataLen := Z.min dataLen (len data - 12) in
    d ← zsub data 12 (12 + dataLen);
    Ok (MkFINSTCPFrame magic (be_val l) (be_val c) (be_val e) d)
  else Ok (MkFINSTCPFrame magic (be_val l) (be_val c) (be_val e) []).

(** [EncodeFINSTCPFrame] ([protocol.go] 271-284). *)
Definition EncodeFINSTCPFrame (command errorCode : Z) (finsData : bytes) : bytes :=
  let length_ := u32 (len finsData + 4) in
  let buf := make_bytes (12 + length finsData) in
  let buf := copy_at 0 FINS_magic buf in
  let buf := copy_at 4 (be_bytes 4 length_) buf in
  let buf := copy_at 8 (be_bytes 2 command) buf in
  let buf := copy_at 10 (be_bytes 2 errorCode) buf in
  if 0 <? len finsData then copy_at 12 finsData buf else buf.

(** [DecodeFINSFrame] ([protocol.go] 286-312). *)
Definition DecodeFINSFrame (data : bytes) : res error FINSFrame :=
  if len data <? 14 then Err ErrFrameTooShort else
  icf ← idx data 0; rsv ← idx data 1; gct ← idx data 2;
  dnet ← idx data 3; dnode ← idx data 4; dunit ← idx data 5;
  snet ← idx data 6; snode ← idx data 7; sunit ← idx data 8;
  sid ← idx data 9;
  c ← sub data 10 12;
  e ← sub data 12 14;
  d ← (if 14 <? len data then sub_from data 14 else Ok []);
  Ok (MkFINSFrame
        (MkFINSHeader icf rsv gct (MkFINSAddress dnet dnode dunit) (MkFINSAddress snet snode sunit) sid)
        (be_val c) (be_val e) d).

(** [EncodeFINSFrame] ([protocol.go] 314-336). *)
Definition EncodeFINSFrame (header : FINSHeader) (commandCode endCode : Z) (data : bytes) : bytes :=
  let buf := make_bytes (14 + length data) in
  let buf := <[0%nat := ICF header]> buf in
  let buf := <[1%nat := RSV header]> buf in
  let buf := <[2%nat := GCT header]> buf in
  let buf := <[3%nat := Network (Dest header)]> buf in
  let buf := <[4%nat := Node (Dest header)]> buf in
  let buf := <[5%nat := Unit (Dest header)]> buf in
  let buf := <[6%nat := Network (Src header)]> buf in
  let buf := <[7%nat := Node (Src header)]> buf in
  let buf := <[8%nat := Unit (Src header)]> buf in
  let buf := <[9%nat := SID header]> buf in
  let buf := copy_at 10 (be_bytes 2 commandCode) buf in
  let buf := copy_at 12 (be_bytes 2 endCode) buf in
  if 0 <? len data then copy_at 14 data buf else buf.

(** [EncodeMemoryAddress], [DecodeMemoryAddress] ([protocol.go] 338-352); the
    decoder indexes its argument unchecked. *)
Definition EncodeMemoryAddress (addr : MemoryAddress) : bytes :=
  let buf := make_bytes 4 in
  let buf := <[0%nat := Area addr]> buf in
  let buf := copy_at 1 (be_bytes 2 (Address addr)) buf in
  <[3%nat := BitOffset addr]> buf.

Definition DecodeMemoryAddress (data : bytes) : res error MemoryAddress :=
  a ← idx data 0; w ← sub data 1 3; b ← idx data 3;
  Ok (MkMemoryAddress a (be_val w) b).

(** [DefaultCommandHeader], [DefaultResponseHeader] ([protocol.go] 354-377). *)
Definition DefaultCommandHeader (src dest : FINSAddress) (sid : Z) : FINSHeader :=
  MkFINSHeader (Z.shiftl 1 icfBitBridges) 0x00 0x02 dest src sid.

Definition DefaultResponseHeader (cmdHeader : FINSHeader) : FINSHeader :=
  MkFINSHeader (Z.lor (Z.shiftl 1 icfBitBridges) (Z.shiftl 1 icfBitMessageType))
    0x00 (GCT cmdHeader) (Src cmdHeader) (Dest cmdHeader) (SID cmdHeader).

(** [IsWordArea], [IsBitArea] ([protocol.go] 379-411): the [case] lists. *)
Definition word_areas : list Z :=
  [MemoryAreaCIOWord; MemoryAreaWRWord; MemoryAreaHRWord;
   MemoryAreaARWord; MemoryAreaDMWord; MemoryAreaPVWord;
   MemoryAreaTimerPV;
   MemoryAreaEM0Word; MemoryAreaEM1Word; MemoryAreaEM2Word;
   MemoryAreaEM3Word; MemoryAreaEM4Word; MemoryAreaEM5Word;
   MemoryAreaEM6Word; MemoryAreaEM7Word; MemoryAreaEM8Word;
   MemoryAreaEM9Word; MemoryAreaEM10Word; MemoryAreaEM11Word;
   MemoryAreaEM12Word; MemoryAreaEM13Word; MemoryAreaEM14Word;
   MemoryAreaEM15Word].

Definition bit_areas : list Z :=
  [MemoryAreaCIOBit; MemoryAreaWRBit; MemoryAreaHRBit;
   MemoryAreaARBit; MemoryAreaDMBit; MemoryAreaPVBit;
   MemoryAreaFlagBit; MemoryAreaTaskBit;
   MemoryAreaEM0Bit; MemoryAreaEM1Bit; MemoryAreaEM2Bit;
   MemoryAreaEM3Bit; MemoryAreaEM4Bit; MemoryAreaEM5Bit;
   MemoryAreaEM6Bit; MemoryAreaEM7Bit; MemoryAreaEM8Bit;
   MemoryAreaEM9Bit; MemoryAreaEM10Bit; MemoryAreaEM11Bit;
   MemoryAreaEM12Bit; MemoryAreaEM13Bit; MemoryAreaEM14Bit;
   MemoryAreaEM15Bit].

Definition IsWordArea (area : Z) : bool := existsb (Z.eqb area) word_areas.
Definition IsBitArea (area : Z) : bool := existsb (Z.eqb area) bit_areas.

(** [EMWordArea], [EMBitArea] ([protocol.go] 413-425). *)
Definition EMWordArea (emNumber : Z) : res error Z :=
  if (emNumber <? 0) || (15 <? emNumber) then Err ErrInvalidEMNumber
  else Ok (u8 (MemoryAreaEM0Word + u8 emNumber)).

Definition EMBitArea (emNumber : Z) : res error Z :=
  if (emNumber <? 0) || (15 <? emNumber) then Err ErrInvalidEMNumber
  else Ok (u8 (MemoryAreaEM0Bit + u8 emNumber)).

(** [EncodeReadCommand], [EncodeWriteCommand] ([protocol.go] 427-444). *)
Definition EncodeReadCommand (addr : MemoryAddress) (count : Z) : bytes :=
  let buf := make_bytes 8 in
  let buf := copy_at 0 (be_bytes 2 MRC_MEMORY_AREA_READ) buf in
  let buf := copy_at 2 (EncodeMemoryAddress addr) buf in
  let buf := <[6%nat := 0x00]> buf in
  let buf := <[7%nat := 0x00]> buf in
  copy_at 6 (be_bytes 2 count) buf.

Definition EncodeWriteCommand (addr : MemoryAddress) (count : Z) (data : bytes) : bytes :=
  let buf := make_bytes (8 + length data) in
  let buf := copy_at 0 (be_bytes 2 MRC_MEMORY_AREA_WRITE) buf in
  let buf := copy_at 2 (EncodeMemoryAddress addr) buf in
  let buf := copy_at 6 (be_bytes 2 count) buf in
  copy_at 8 data buf.

(** ** Well-formed values: every field in the range of its Go type *)

Definition FINSAddress_ok (a : FINSAddress) : Prop :=
  in_u 8 (Network a) /\ in_u 8 (Node a) /\ in_u 8 (Unit a).
Definition FINSHeader_ok (h : FINSHeader) : Prop :=
  in_u 8 (ICF h) /\ in_u 8 (RSV h) /\ in_u 8 (GCT h) /\
  FINSAddress_ok (Dest h) /\ FINSAddress_ok (Src h) /\ in_u 8 (SID h).
Definition FINSFrame_ok (f : FINSFrame) : Prop :=
  FINSHeader_ok (Header f) /\ in_u 16 (CommandCode f) /\ in_u 16 (EndCode f) /\ bytes_ok (Data f).
Definition MemoryAddress_ok (a : MemoryAddress) : Prop :=
  in_u 8 (Area a) /\ in_u 16 (Address a) /\ in_u 8 (BitOffset a).

#[export] Instance FINSAddress_ok_dec a : Decision (FINSAddress_ok a).
Proof. unfold FINSAddress_ok. apply _. Defined.
#[export] Instance FINSHeader_ok_dec a : Decision (FINSHeader_ok a).
Proof. unfold FINSHeader_ok. apply _. Defined.
#[export] Instance FINSFrame_ok_dec a : Decision (FINSFrame_ok a).
Proof. unfold FINSFrame_ok. apply _. Defined.
#[export] Instance MemoryAddress_ok_dec a : Decision (MemoryAddress_ok a).
Proof. unfold MemoryAddress_ok. apply _. Defined.

(** ** Layout of the encoders: what the sequence of buffer writes produces *)

(** The ten header bytes in wire order. *)
Definition header_bytes (h : FINSHeader) : bytes :=
  [ICF h; RSV h; GCT h; Network (Dest h); Node (Dest h); Unit (Dest h);
   Network (Src h); Node (Src h); Unit (Src h); SID h].

Lemma copy_at_tail (a : bytes) data i :
  i = length a -> copy_at i data (a ++ make_bytes (length data)) = a ++ data.
Proof.
  intros. rewrite <- (app_nil_r (make_bytes _)), copy_at_app by (try done; unfold make_bytes; by rewrite length_replicate).
  by rewrite app_nil_r.
Qed.

(** The guarded final [copy] of the encoders is the unguarded one. *)
Lemma copy_if_nonempty (a : bytes) data i :
  i = length a ->
  (if 0 <? len data then copy_at i data (a ++ make_bytes (length data)) else a ++ make_bytes (length data))
  = a ++ data.
Proof. intros. rewrite copy_at_tail by done. by destruct data. Qed.

Lemma EncodeFINSTCPFrame_eq c e d :
  EncodeFINSTCPFrame c e d =
    FINS_magic ++ be_bytes 4 (u32 (len d + 4)) ++ be_bytes 2 c ++ be_bytes 2 e ++ d.
Proof.
  transitivity ((FINS_magic ++ be_bytes 4 (u32 (len d + 4)) ++ be_bytes 2 c ++ be_bytes 2 e) ++ d).
  - by rewrite <- (copy_if_nonempty _ d 12).
  - by rewrite <- !app_assoc.
Qed.

Lemma EncodeFINSFrame_eq h c e d :
  EncodeFINSFrame h c e d = header_bytes h ++ be_bytes 2 c ++ be_bytes 2 e ++ d.
Proof.
  transitivity ((header_bytes h ++ be_bytes 2 c ++ be_bytes 2 e) ++ d).
  - by rewrite <- (copy_if_nonempty _ d 14).
  - by rewrite <- !app_assoc.
Qed.

Lemma len_EncodeFINSFrame h c e d : len (EncodeFINSFrame h c e d) = len d + 14.
Proof.
  rewrite EncodeFINSFrame_eq, !len_app, !len_be_bytes. change (len (header_bytes h)) with 10. lia.
Qed.

Lemma EncodeMemoryAddress_eq a :
  EncodeMemoryAddress a = [Area a] ++ be_bytes 2 (Address a) ++ [BitOffset a].
Proof. done. Qed.

Lemma EncodeReadCommand_eq a n :
  EncodeReadCommand a n = be_bytes 2 MRC_MEMORY_AREA_READ ++ EncodeMemoryAddress a ++ be_bytes 2 n.
Proof. done. Qed.

Lemma EncodeWriteCommand_eq a n d :
  EncodeWriteCommand a n d =
    be_bytes 2 MRC_MEMORY_AREA_WRITE ++ EncodeMemoryAddress a ++ be_bytes 2 n ++ d.
Proof.
  transitivity ((be_bytes 2 MRC_MEMORY_AREA_WRITE ++ EncodeMemoryAddress a ++ be_bytes 2 n) ++ d).
  - by rewrite <- (copy_at_tail _ d 8).
  - by rewrite <- !app_assoc.
Qed.

(** ** The decoders on explicit data *)

Lemma at_least_12 (data : bytes) : 12 <= len data ->
  exists b0 b1 b2 b3 b4 b5 b6 b7 b8 b9 b10 b11 rest,
    data = b0 :: b1 :: b2 :: b3 :: b4 :: b5 :: b6 :: b7 :: b8 :: b9 :: b10 :: b11 :: rest.
Proof.
  unfold len. intros H. do 12 (destruct data as [|? data]; [cbn in H; lia|]).
  by repeat eexists.
Qed.

Lemma at_least_14 (data : bytes) : 14 <= len data ->
  exists b0 b1 b2 b3 b4 b5 b6 b7 b8 b9 b10 b11 b12 b13 rest,
    data = b0 :: b1 :: b2 :: b3 :: b4 :: b5 :: b6 :: b7 :: b8 :: b9 :: b10 :: b11 :: b12 :: b13 :: rest.
Proof.
  unfold len. intros H. do 14 (destruct data as [|? data]; [cbn in H; lia|]).
  by repeat eexists.
Qed.

Lemma DecodeFINSTCPFrame_cons b0 b1 b2 b3 b4 b5 b6 b7 b8 b9 b10 b11 rest :
  DecodeFINSTCPFrame (b0 :: b1 :: b2 :: b3 :: b4 :: b5 :: b6 :: b7 :: b8 :: b9 :: b10 :: b11 :: rest) =
    if bool_decide ([b0; b1; b2; b3] = FINS_magic) then
      Ok (MkFINSTCPFrame FINS_magic (be_val [b4; b5; b6; b7]) (be_val [b8; b9]) (be_val [b10; b11])
            (take (Z.to_nat (be_val [b4; b5; b6; b7] - 4)) rest))
    else Err ErrInvalidFINSHeader.
Proof.
  unfold DecodeFINSTCPFrame. pose proof (len_nonneg rest).
  rewrite (proj2 (Z.ltb_ge _ _)) by (rewrite !len_cons; lia).
  cbn -[FINS_magic len be_val zsub Z.sub Z.min Z.max].
  case_bool_decide as Hm; cbn -[FINS_magic len be_val zsub Z.sub Z.min Z.max]; [|done].
  generalize (be_val [b4; b5; b6; b7]) as L; intros L. rewrite Hm.
  case_match; zbool; rewrite !len_cons in *.
  - rewrite zsub_ok by (rewrite ?len_cons; lia). cbn -[FINS_magic len be_val].
    do 2 f_equal. unfold len in *.
    replace (Z.to_nat _) with (Z.to_nat (L - 4) `min` length rest)%nat by lia.
    by rewrite <- firstn_firstn, firstn_all.
  - assert (rest = []) as -> by (apply length_zero_iff_nil; unfold len in *; lia).
    by rewrite !take_nil.
Qed.

Lemma DecodeFINSFrame_cons b0 b1 b2 b3 b4 b5 b6 b7 b8 b9 b10 b11 b12 b13 rest :
  DecodeFINSFrame (b0 :: b1 :: b2 :: b3 :: b4 :: b5 :: b6 :: b7 :: b8 :: b9 :: b10 :: b11 :: b12 :: b13 :: rest) =
    Ok (MkFINSFrame
          (MkFINSHeader b0 b1 b2 (MkFINSAddress b3 b4 b5) (MkFINSAddress b6 b7 b8) b9)
          (be_val [b10; b11]) (be_val [b12; b13]) rest).
Proof.
  unfold DecodeFINSFrame. pose proof (len_nonneg rest).
  rewrite (proj2 (Z.ltb_ge _ _)) by (rewrite !len_cons; lia).
  cbn -[len be_val sub_from].
  case_match; zbool; rewrite !len_cons in *.
  - unfold sub_from. rewrite sub_ok by (cbn; lia). cbn [drop mbind res_bind].
    rewrite take_0, drop_0, (take_ge rest) by (cbn [length]; lia). done.
  - by assert (rest = []) as -> by (apply length_zero_iff_nil; unfold len in *; lia).
Qed.

(** Decoding what [EncodeFINSFrame] wrote. *)
Lemma DecodeFINSFrame_encode h c e d :
  in_u 16 c -> in_u 16 e ->
  DecodeFINSFrame (EncodeFINSFrame h c e d) = Ok (MkFINSFrame h c e d).
Proof.
  intros Hc He. rewrite EncodeFINSFrame_eq.
  destruct h as [icf rsv gct [? ? ?] [? ? ?] sid].
  change (header_bytes _ ++ _) with
    ([icf; rsv; gct; Network0; Node0; Unit0; Network1; Node1; Unit1; sid] ++
     be_bytes 2 c ++ be_bytes 2 e ++ d).
  pose proof (be_val_bytes 2 c Hc) as Ec. pose proof (be_val_bytes 2 e He) as Ee.
  cbn [be_bytes le_bytes rev app] in *.
  by rewrite DecodeFINSFrame_cons, Ec, Ee.
Qed.

(** Encoding what [DecodeFINSFrame] read. *)
Lemma DecodeFINSFrame_inv data :
  bytes_ok data -> 14 <= len data ->
  exists f, DecodeFINSFrame data = Ok f /\ FINSFrame_ok f /\
    EncodeFINSFrame (Header f) (CommandCode f) (EndCode f) (Data f) = data.
Proof.
  intros Hb Hl. apply at_least_14 in Hl.
  destruct Hl as (b0&b1&b2&b3&b4&b5&b6&b7&b8&b9&b10&b11&b12&b13&rest&->).
  rewrite DecodeFINSFrame_cons. eexists. split; [done|].
  unfold bytes_ok in Hb. rewrite !Forall_cons in Hb. ands.
  assert (bytes_ok [b10; b11]) by (unfold bytes_ok; rewrite !Forall_cons; auto using Forall_nil_2).
  assert (bytes_ok [b12; b13]) by (unfold bytes_ok; rewrite !Forall_cons; auto using Forall_nil_2). split.
  - unfold FINSFrame_ok, FINSHeader_ok, FINSAddress_ok. cbn -[in_u be_val].
    split_and!; try done; by apply (be_val_in_u _ 2).
  - rewrite EncodeFINSFrame_eq. cbn [Header CommandCode EndCode Data].
    by rewrite !be_bytes_val.
Qed.

Lemma DecodeFINSFrame_ok data f : bytes_ok data -> DecodeFINSFrame data = Ok f -> FINSFrame_ok f.
Proof.
  intros Hb Hd. destruct (decide (14 <= len data)) as [Hl|Hl].
  - destruct (DecodeFINSFrame_inv data) as (g & Hg & Hok & _); [done..|]. congruence.
  - unfold DecodeFINSFrame in Hd. by rewrite (proj2 (Z.ltb_lt _ _)) in Hd by lia.
Qed.

Lemma DecodeMemoryAddress_encode a rest :
  MemoryAddress_ok a -> DecodeMemoryAddress (EncodeMemoryAddress a ++ rest) = Ok a.
Proof.
  intros (Ha & Hw & Hb). rewrite EncodeMemoryAddress_eq. destruct a as [a w b]; cbn [Area Address BitOffset] in *.
  pose proof (be_val_bytes 2 w Hw) as Ew. cbn [be_bytes le_bytes rev app] in *.
  unfold DecodeMemoryAddress. cbn -[be_val Z.modulo Z.div]. by rewrite Ew.
Qed.

(** ** Properties of the protocol layer *)

(** C13: a FINS/TCP frame round-trips even when more bytes of the stream follow
    it: decoding an encoded frame gives back the magic, the length field, the
    command, the error code and exactly the payload, and none of the following
    bytes. *)
Theorem tcp_frame_roundtrip c e d rest :
  in_u 16 c -> in_u 16 e -> len d + 4 < 2 ^ 32 ->
  DecodeFINSTCPFrame (EncodeFINSTCPFrame c e d ++ rest)
  = Ok (MkFINSTCPFrame FINS_magic (len d + 4) c e d).
Proof.
  intros Hc He Hd. rewrite EncodeFINSTCPFrame_eq, <- !app_assoc.
  assert (in_u 32 (len d + 4)) as Hl by (unfold in_u; pose proof (len_nonneg d); lia).
  rewrite uwrap_id by done.
  pose proof (be_val_bytes 4 _ Hl) as El. pose proof (be_val_bytes 2 c Hc) as Ec.
  pose proof (be_val_bytes 2 e He) as Ee.
  change FINS_magic with [70; 73; 78; 83]. cbn [be_bytes le_bytes rev app] in *.
  rewrite DecodeFINSTCPFrame_cons, El, Ec, Ee. rewrite bool_decide_eq_true_2 by done.
  do 2 f_equal. unfold len. replace (Z.to_nat _) with (length d) by lia.
  apply take_app_length.
Qed.

Lemma tcp_frame_roundtrip_witness :
  DecodeFINSTCPFrame (EncodeFINSTCPFrame 0 2 [1; 2; 255] ++ [70; 73])
  = Ok (MkFINSTCPFrame [70; 73; 78; 83] 7 0 2 [1; 2; 255]).
Proof. apply (tcp_frame_roundtrip 0 2 [1; 2; 255] [70; 73]); vm_compute; intuition congruence. Defined.

(** C14: a FINS frame is exactly its wire form: decoding an encoded frame returns
    the header, codes and data it was built from, and encoding a decoded frame
    returns the bytes that were decoded. *)
Theorem fins_frame_bijection :
  (forall h c e d, FINSFrame_ok (MkFINSFrame h c e d) ->
     DecodeFINSFrame (EncodeFINSFrame h c e d) = Ok (MkFINSFrame h c e d)) /\
  (forall data, bytes_ok data -> 14 <= len data ->
     exists f, DecodeFINSFrame data = Ok f /\ FINSFrame_ok f /\
       EncodeFINSFrame (Header f) (CommandCode f) (EndCode f) (Data f) = data).
Proof.
  split.
  - intros h c e d (_ & Hc & He & _). by apply DecodeFINSFrame_encode.
  - intros data Hb Hl. by apply DecodeFINSFrame_inv.
Qed.

(** The end codes the package names ([protocol.go] 37-123). *)
Definition end_codes : list Z :=
  [END_CODE_NORMAL; END_CODE_SERVICE_INTERRUPTED; END_CODE_LOCAL_NOT_IN_NET; END_CODE_TOKEN_TIMEOUT;
   END_CODE_RETRIES_FAILED; END_CODE_TOO_MANY_FRAMES; END_CODE_NODE_ADDR_RANGE;
   END_CODE_NODE_ADDR_DUP; END_CODE_DEST_NOT_IN_NET; END_CODE_UNIT_MISSING;
   END_CODE_THIRD_NODE_MISSING; END_CODE_DEST_BUSY; END_CODE_RESPONSE_TIMEOUT;
   END_CODE_COMM_CTRL_ERROR; END_CODE_CPU_UNIT_ERROR; END_CODE_CONTROLLER_ERROR;
   END_CODE_UNIT_NUM_ERROR; END_CODE_UNDEFINED_CMD; END_CODE_NOT_SUPPORTED; END_CODE_DEST_ADDR_ERROR;
   END_CODE_NO_ROUTING_TABLE; END_CODE_ROUTING_TABLE_ERR; END_CODE_TOO_MANY_RELAYS;
   END_CODE_CMD_TOO_LONG; END_CODE_CMD_TOO_SHORT; END_CODE_ELEMENTS_MISMATCH;
   END_CODE_CMD_FORMAT_ERROR; END_CODE_HEADER_ERROR; END_CODE_AREA_MISSING; END_CODE_ACCESS_SIZE_ERR;
   END_CODE_ADDR_RANGE_ERR; END_CODE_ADDR_RANGE_EXCEED; END_CODE_PROGRAM_MISSING;
   END_CODE_RELATIONAL_ERROR; END_CODE_DUP_DATA_ACCESS; END_CODE_RESPONSE_TOO_BIG;
   END_CODE_PARAMETER_ERROR; END_CODE_READ_PROTECTED; END_CODE_READ_TABLE_MISSING;
   END_CODE_READ_DATA_MISSING; END_CODE_READ_PROG_MISSING; END_CODE_READ_FILE_MISSING;
   END_CODE_READ_DATA_MISMATCH; END_CODE_WRITE_READ_ONLY; END_CODE_WRITE_PROTECTED;
   END_CODE_WRITE_CANT_REGISTER; END_CODE_WRITE_PROG_MISSING; END_CODE_WRITE_FILE_MISSING;
   END_CODE_WRITE_FILE_EXISTS; END_CODE_WRITE_CANT_CHANGE; END_CODE_NOT_EXEC_DURING_EXEC;
   END_CODE_NOT_EXEC_WHILE_RUNNING; END_CODE_NOT_EXEC_PROG_MODE; END_CODE_NOT_EXEC_DEBUG_MODE;
   END_CODE_NOT_EXEC_MONITOR_MODE; END_CODE_NOT_EXEC_RUN_MODE; END_CODE_NOT_EXEC_NOT_POLLING;
   END_CODE_NOT_EXEC_STEP_CANT; END_CODE_NO_SUCH_DEVICE_FILE; END_CODE_NO_SUCH_DEVICE_MEM;
   END_CODE_NO_SUCH_DEVICE_CLOCK; END_CODE_CANT_START_STOP_TABLE; END_CODE_UNIT_ERROR_MEMORY;
   END_CODE_UNIT_ERROR_IO; END_CODE_UNIT_ERROR_TOO_MANY_IO; END_CODE_UNIT_ERROR_CPU_BUS;
   END_CODE_UNIT_ERROR_IO_DUP; END_CODE_UNIT_ERROR_IO_BUS_ERR; END_CODE_UNIT_ERROR_SYSMAC_BUS2;
   END_CODE_UNIT_ERROR_CPU_BUS_UNIT; END_CODE_UNIT_ERROR_SYSMAC_BUS_NUM_DUP;
   END_CODE_UNIT_ERROR_MEM_STATUS; END_CODE_UNIT_ERROR_SYSMAC_BUS_TERM;
   END_CODE_CMD_ERROR_NO_PROTECTION; END_CODE_CMD_ERROR_BAD_PASSWORD; END_CODE_CMD_ERROR_PROTECTED;
   END_CODE_CMD_ERROR_SERVICE_EXEC; END_CODE_CMD_ERROR_SERVICE_STOPPED;
   END_CODE_CMD_ERROR_NO_EXEC_RIGHT; END_CODE_CMD_ERROR_SETTINGS_NOT_COMPLETE;
   END_CODE_CMD_ERROR_ITEMS_NOT_SET; END_CODE_CMD_ERROR_NUM_ALREADY_DEFINED;
   END_CODE_CMD_ERROR_ERROR_WONT_CLEAR; END_CODE_ACCESS_WRITE_NO_RIGHT;
   END_CODE_ABORT_SERVICE_ABORTED].

(** [DecodeFINSTCPFrame] never panics and classifies every input: too
    short below 12 bytes, a bad header when the first four bytes are not FINS,
    and otherwise a frame whose fields are the big-endian fields of the input and
    whose payload is the announced number of bytes, cut at the end of the input. *)
Theorem tcp_decode_spec data :
  DecodeFINSTCPFrame data =
    if len data <? 12 then Err ErrFrameTooShort
    else if bool_decide (take 4 data = FINS_magic) then
      Ok (MkFINSTCPFrame FINS_magic
            (be_val (take 4 (drop 4 data))) (be_val (take 2 (drop 8 data)))
            (be_val (take 2 (drop 10 data)))
            (take (Z.to_nat (be_val (take 4 (drop 4 data)) - 4)) (drop 12 data)))
    else Err ErrInvalidFINSHeader.
Proof.
  destruct (len data <? 12) eqn:Hl; [by unfold DecodeFINSTCPFrame; rewrite Hl|].
  zbool. apply at_least_12 in Hl.
  destruct Hl as (b0&b1&b2&b3&b4&b5&b6&b7&b8&b9&b10&b11&rest&->).
  by rewrite DecodeFINSTCPFrame_cons.
Qed.

(** A response header answers the command header it is built from: the
    response bit (6) and the gateway bit (7) of ICF are set and the others clear,
    source and destination are exchanged, the service id and gateway count are
    kept; a command header is a command (bit 6 clear) with gateway count 2. *)
Theorem response_header_answers h src dest sid i :
  0 <= i ->
  (Z.testbit (ICF (DefaultResponseHeader h)) i = (i =? 6) || (i =? 7)) /\
  Src (DefaultResponseHeader h) = Dest h /\ Dest (DefaultResponseHeader h) = Src h /\
  SID (DefaultResponseHeader h) = SID h /\ GCT (DefaultResponseHeader h) = GCT h /\
  Z.testbit (ICF (DefaultCommandHeader src dest sid)) i = (i =? 7) /\
  GCT (DefaultCommandHeader src dest sid) = 2 /\ SID (DefaultCommandHeader src dest sid) = sid.
Proof.
  intros Hi. split_and!; try done.
  - change (ICF (DefaultResponseHeader h)) with (Z.lor (2 ^ 7) (2 ^ 6)).
    rewrite Z.lor_spec, !Z.pow2_bits_eqb by lia.
    rewrite (Z.eqb_sym 7), (Z.eqb_sym 6). apply orb_comm.
  - change (ICF _) with (2 ^ 7). by rewrite Z.pow2_bits_eqb, Z.eqb_sym by lia.
Qed.

Lemma response_header_answers_witness :
  Z.testbit (ICF (DefaultResponseHeader (DefaultCommandHeader
     (MkFINSAddress 0 1 255) (MkFINSAddress 0 1 0) 7))) 6 = true.
Proof.
  destruct (response_header_answers (DefaultCommandHeader (MkFINSAddress 0 1 255) (MkFINSAddress 0 1 0) 7)
    (MkFINSAddress 0 1 255) (MkFINSAddress 0 1 0) 7 6) as [H _]; [lia|exact H].
Defined.

(** [EndCodeText] gives every end code the package names a text of its own,
    and the text of an unknown error exactly to the other codes. *)
Theorem end_code_text_faithful :
  (forall a b, In a end_codes -> In b end_codes -> EndCodeText a = EndCodeText b -> a = b) /\
  (forall a, EndCodeText a = "unknown error" <-> ~ In a end_codes).
Proof.
  assert (forallb (fun a => forallb (fun b =>
    implb (bool_decide (EndCodeText a = EndCodeText b)) (a =? b)) end_codes) end_codes = true) as H
    by (vm_compute; reflexivity).
  assert (forallb (fun a => negb (bool_decide (EndCodeText a = "unknown error"))) end_codes = true) as H1
    by (vm_compute; reflexivity).
  split; [|intros a; split].
  - intros a b Ha Hb E. rewrite forallb_forall in H. specialize (H a Ha).
    rewrite forallb_forall in H. specialize (H b Hb).
    rewrite bool_decide_eq_true_2 in H by done. by apply Z.eqb_eq in H.
  - intros E Ha. rewrite forallb_forall in H1. specialize (H1 a Ha).
    by rewrite bool_decide_eq_true_2 in H1.
  - intros Ha. unfold EndCodeText.
    repeat match goal with |- context [a =? ?k] =>
      destruct (Z.eqb_spec a k) as [->|_]; [exfalso; apply Ha, list_elem_of_In, (bool_decide_unpack _); vm_compute; exact I|]
    end. done.
Qed.

(** The word and the bit area codes are disjoint, and for each EM bank
    number 0-15 (and no other) [EMWordArea] and [EMBitArea] return the word and the
    bit code of that bank; distinct banks have distinct codes. *)
Theorem area_codes_partition :
  (forall a, IsWordArea a = true -> IsBitArea a = false) /\
  (forall n, (exists c, EMWordArea n = Ok c) <-> 0 <= n <= 15) /\
  (forall n w b, EMWordArea n = Ok w -> EMBitArea n = Ok b ->
     IsWordArea w = true /\ IsBitArea b = true /\ w = 0xa0 + n /\ b = 0x20 + n).
Proof.
  assert (Hr : forall n, ((n <? 0) || (15 <? n)) = false <-> 0 <= n <= 15) by lia.
  split_and!.
  - intros a Ha. unfold IsWordArea in Ha. apply existsb_exists in Ha as (k & Hk & E).
    apply Z.eqb_eq in E as ->. cbn in Hk.
    repeat destruct Hk as [<-|Hk]; done.
  - intros n. unfold EMWordArea. split; [intros [c Hc]; apply Hr; by case_match|].
    intros Hn. apply Hr in Hn as ->. eauto.
  - intros n w b. unfold EMWordArea, EMBitArea. destruct (_ || _) eqn:Hn; [done|].
    apply Hr in Hn. intros [= <-] [= <-]. enum n 0 16; by vm_compute.
Qed.
