(* ===== verification/Framing.v ===== *)
(** * Stream reassembly

    The receive loops of [Transport.readLoop] ([src/transport.go] 237-290) and of
    [MockPLC.handleConnection] ([src/mock_plc.go] 86-130): TCP delivers the byte
    stream in arbitrary chunks, the loop appends each chunk to an accumulator and
    takes complete frames off its front, dropping one byte at a time while the
    front is not a frame header. *)
From S2P Require Import Prelude Types Protocol.

(** ** The inner loop

    [drain] returns the FINS frames handed to the callback, in order, and the
    accumulator the loop leaves; [None] means that the loop has not left within
    [fuel] rounds. *)
Fixpoint drain (fuel : nat) (accumulator : bytes) : option (list FINSFrame * bytes) :=
  match fuel with
  | O => None
  | S fuel =>
    if len accumulator <? 12 then Some ([], accumulator)
    else match DecodeFINSTCPFrame accumulator with
    | Ok tcpFrame =>
      let frameLen := 12 + Length tcpFrame - 4 in
      if len accumulator <? frameLen then Some ([], accumulator)
      else
        let out := match DecodeFINSFrame (tcp_Data tcpFrame) with Ok f => [f] | _ => [] end in
        if len accumulator <=? frameLen then Some (out, [])
        else
          '(fs, acc) ← drain fuel (drop (Z.to_nat frameLen) accumulator);
          Some (out ++ fs, acc)
    | _ => drain fuel (drop 1 accumulator)
    end
  end.

(** The loop run to its end.  Each round but the last removes a byte, so one more
    round than there are bytes is enough: [drain_enough] shows that the default is
    never taken. *)
Definition drain_all (accumulator : bytes) : list FINSFrame * bytes :=
  default ([], accumulator) (drain (S (length accumulator)) accumulator).

(** The outer loop: one successful [Read] of [chunk]. *)
Definition on_read (accumulator chunk : bytes) : list FINSFrame * bytes :=
  drain_all (accumulator ++ chunk).

(** A sequence of reads. *)
Fixpoint on_reads (accumulator : bytes) (chunks : list bytes) : list FINSFrame * bytes :=
  match chunks with
  | [] => ([], accumulator)
  | c :: cs =>
    let '(fs, acc) := on_read accumulator c in
    let '(gs, acc') := on_reads acc cs in (fs ++ gs, acc')
  end.

(** The bytes a frame is sent as, by client and server alike. *)
Definition wire (f : FINSFrame) : bytes :=
  EncodeFINSTCPFrame TCPCommandFINSFrame 0
    (EncodeFINSFrame (Header f) (CommandCode f) (EndCode f) (Data f)).

(** A frame that fits the 32-bit length field. *)
Definition sendable (f : FINSFrame) : Prop := FINSFrame_ok f /\ len (Data f) + 18 < 2 ^ 32.

#[export] Instance sendable_dec f : Decision (sendable f).
Proof. unfold sendable. apply _. Defined.

(** ** One round of the loop

    [round acc] is [None] when the loop waits for more input and
    [Some (out, rest)] when it removes something from the front. *)
Definition round (acc : bytes) : option (list FINSFrame * bytes) :=
  if len acc <? 12 then None
  else match DecodeFINSTCPFrame acc with
  | Ok tcpFrame =>
    let frameLen := 12 + Length tcpFrame - 4 in
    if len acc <? frameLen then None
    else Some (match DecodeFINSFrame (tcp_Data tcpFrame) with Ok f => [f] | _ => [] end,
               drop (Z.to_nat frameLen) acc)
  | _ => Some ([], drop 1 acc)
  end.

Lemma round_shorter acc out rest :
  bytes_ok acc -> round acc = Some (out, rest) -> (length rest < length acc)%nat /\ bytes_ok rest.
Proof.
  intros Hb. unfold round. case_match; [done|]. zbool. apply at_least_12 in H.
  destruct H as (b0&b1&b2&b3&b4&b5&b6&b7&b8&b9&b10&b11&r&->). rewrite DecodeFINSTCPFrame_cons.
  case_bool_decide.
  - case_match; [done|]. intros [= <- <-]. split; [|by apply bytes_ok_drop].
    cbn [Length] in *.
    pose proof (bytes_ok_take 4 _ (bytes_ok_drop 4 _ Hb) : bytes_ok [b4; b5; b6; b7]) as Hl.
    apply (bo_val_bound BigEndian) in Hl. cbn [bo_val] in Hl.
    rewrite length_drop. cbn [length]. lia.
  - intros [= <- <-]. split; [cbn; lia|]. exact (bytes_ok_drop 1 _ Hb).
Qed.

(** The frames delivered are well formed. *)
Lemma round_frames_ok acc out rest :
  bytes_ok acc -> round acc = Some (out, rest) -> Forall FINSFrame_ok out.
Proof.
  intros Hb. unfold round. case_match; [done|]. zbool. apply at_least_12 in H.
  destruct H as (b0&b1&b2&b3&b4&b5&b6&b7&b8&b9&b10&b11&r&->). rewrite DecodeFINSTCPFrame_cons.
  case_bool_decide; [|by intros [= <- <-]].
  case_match; [done|]. intros [= <- <-]. cbn [tcp_Data].
  case_match; try by constructor. constructor; [|constructor].
  eapply DecodeFINSFrame_ok; [|done]. apply bytes_ok_take. exact (bytes_ok_drop 12 _ Hb).
Qed.

(** One unfolding of [drain] by [round]. *)
Lemma drain_S fuel acc :
  drain (S fuel) acc =
    match round acc with
    | None => Some ([], acc)
    | Some (out, rest) =>
      match rest with
      | [] => Some (out, [])
      | _ => '(fs, acc') ← drain fuel rest; Some (out ++ fs, acc')
      end
    end.
Proof.
  cbn [drain]. unfold round. case_match; [done|]. zbool.
  destruct (DecodeFINSTCPFrame acc) as [t|e|] eqn:Hd.
  - case_match; [done|]. zbool.
    destruct (len acc <=? _) eqn:Hle; zbool.
    + rewrite drop_ge; [done|]. unfold len in *. lia.
    + destruct (drop _ acc) eqn:Hdr; [|done].
      apply (f_equal length) in Hdr. rewrite length_drop in Hdr. cbn in Hdr. unfold len in *. lia.
  - destruct acc as [|b [|c acc]]; [unfold len in *; cbn in *; lia..|].
    cbn [drop]. by destruct (drain fuel (c :: acc)) as [[]|].
  - destruct acc as [|b [|c acc]]; [unfold len in *; cbn in *; lia..|].
    cbn [drop]. by destruct (drain fuel (c :: acc)) as [[]|].
Qed.

(** The loop leaves within one round per byte, and the number of rounds allowed
    beyond that does not matter. *)
Lemma drain_fuel acc f1 f2 :
  bytes_ok acc -> (length acc < f1)%nat -> (length acc < f2)%nat ->
  is_Some (drain f1 acc) /\ drain f1 acc = drain f2 acc.
Proof.
  revert acc f2. induction f1 as [|f1 IH]; intros acc f2 Hb H1 H2; [lia|].
  destruct f2 as [|f2]; [lia|]. rewrite !drain_S.
  destruct (round acc) as [[out rest]|] eqn:Hr; [|by eauto].
  apply round_shorter in Hr as [Hl Hbr]; [|done]. destruct rest as [|b rest]; [by eauto|].
  destruct (IH (b :: rest) f2) as [[[fs r] Hs] <-]; [done|lia..|]. rewrite Hs. cbn. by eauto.
Qed.

Lemma drain_enough fuel acc :
  bytes_ok acc -> (length acc < fuel)%nat -> drain fuel acc = Some (drain_all acc).
Proof.
  intros Hb Hf. destruct (drain_fuel acc fuel (S (length acc)) Hb Hf) as [[x Hx] He]; [lia|].
  unfold drain_all. by rewrite <- He, Hx.
Qed.

(** The recursion equation of [drain_all]. *)
Lemma drain_all_eq acc :
  bytes_ok acc ->
  drain_all acc =
    match round acc with
    | None => ([], acc)
    | Some (out, rest) => let '(fs, acc') := drain_all rest in (out ++ fs, acc')
    end.
Proof.
  intros Hb. unfold drain_all at 1. rewrite drain_S.
  destruct (round acc) as [[out rest]|] eqn:Hr; [|done].
  apply round_shorter in Hr as [Hl Hbr]; [|done].
  destruct rest as [|b rest]; [|].
  { change (drain_all []) with (@nil FINSFrame, @nil Z). cbn. by rewrite app_nil_r. }
  rewrite drain_enough by (done || lia). cbn [mbind option_bind]. by destruct (drain_all (b :: rest)).
Qed.

(** More input behind a round does not change it. *)
Lemma round_app acc more out rest :
  bytes_ok acc -> round acc = Some (out, rest) -> round (acc ++ more) = Some (out, rest ++ more).
Proof.
  intros Hb. unfold round. destruct (len acc <? 12) eqn:Hl; [done|]. zbool. apply at_least_12 in Hl.
  destruct Hl as (b0&b1&b2&b3&b4&b5&b6&b7&b8&b9&b10&b11&r&->).
  pose proof (len_nonneg r). pose proof (len_nonneg more).
  cbn [app]. rewrite (proj2 (Z.ltb_ge _ _)) by (rewrite !len_cons, len_app; lia).
  rewrite !DecodeFINSTCPFrame_cons. case_bool_decide; [|by intros [= <- <-]].
  cbn [Length tcp_Data].
  pose proof (bytes_ok_take 4 _ (bytes_ok_drop 4 _ Hb) : bytes_ok [b4; b5; b6; b7]) as HL.
  apply (bo_val_bound BigEndian) in HL. cbn [bo_val] in HL.
  generalize dependent (be_val [b4; b5; b6; b7]). intros L HL.
  case_match; [done|]. zbool. rewrite !len_cons in *. intros [= <- <-].
  rewrite (proj2 (Z.ltb_ge _ _)) by (rewrite len_app; lia).
  unfold len in *. f_equal. f_equal.
  - by rewrite take_app_le by lia.
  - change (?a :: ?x ++ more) with ((a :: x) ++ more).
    rewrite !app_comm_cons. rewrite drop_app_le by (cbn [length]; lia). done.
Qed.

(** The loop is compositional: draining after more input arrived continues where
    the previous drain stopped. *)
Lemma drain_all_app acc more :
  bytes_ok acc -> bytes_ok more ->
  drain_all (acc ++ more) =
    let '(fs, rest) := drain_all acc in
    let '(gs, rest') := drain_all (rest ++ more) in (fs ++ gs, rest').
Proof.
  intros Hb Hm. remember (length acc) as n eqn:Hn. revert acc Hb Hn.
  induction n as [n IH] using (well_founded_induction lt_wf). intros acc Hb ->.
  rewrite (drain_all_eq acc) by done.
  destruct (round acc) as [[out rest]|] eqn:Hr; [|by destruct (drain_all (acc ++ more))].
  pose proof (round_shorter _ _ _ Hb Hr) as [Hl Hbr].
  rewrite drain_all_eq by (by apply bytes_ok_app).
  rewrite (round_app _ _ _ _ Hb Hr), (IH _ Hl rest Hbr eq_refl).
  destruct (drain_all rest) as [fs r]. destruct (drain_all (r ++ more)) as [gs r'].
  by rewrite app_assoc.
Qed.

Lemma drain_all_frames_ok acc : bytes_ok acc -> Forall FINSFrame_ok (fst (drain_all acc)).
Proof.
  remember (length acc) as n eqn:Hn. revert acc Hn.
  induction n as [n IH] using (well_founded_induction lt_wf). intros acc -> Hb.
  rewrite drain_all_eq by done. destruct (round acc) as [[out rest]|] eqn:Hr; [|constructor].
  destruct (round_shorter _ _ _ Hb Hr) as [Hl Hbr]. specialize (IH _ Hl rest eq_refl Hbr).
  apply round_frames_ok in Hr; [|done]. destruct (drain_all rest). by apply Forall_app.
Qed.

(** What is left over waits for more input. *)
Lemma drain_all_rest acc : bytes_ok acc -> bytes_ok (snd (drain_all acc)) /\ round (snd (drain_all acc)) = None.
Proof.
  remember (length acc) as n eqn:Hn. revert acc Hn.
  induction n as [n IH] using (well_founded_induction lt_wf). intros acc -> Hb.
  rewrite drain_all_eq by done. destruct (round acc) as [[out rest]|] eqn:Hr; [|done].
  destruct (round_shorter _ _ _ Hb Hr) as [Hl Hbr]. specialize (IH _ Hl rest eq_refl Hbr).
  by destruct (drain_all rest).
Qed.

Lemma on_reads_eq acc chunks :
  bytes_ok acc -> Forall bytes_ok chunks -> round acc = None ->
  on_reads acc chunks = drain_all (acc ++ concat chunks).
Proof.
  intros Ha Hc. revert acc Ha. induction Hc as [|c cs Hc Hcs IH]; intros acc Ha Hw; cbn [on_reads].
  - cbn [concat]. rewrite app_nil_r, drain_all_eq by done. by rewrite Hw.
  - unfold on_read.
    assert (bytes_ok (acc ++ c)) as Hac by (by apply bytes_ok_app).
    cbn [concat]. rewrite app_assoc.
    assert (bytes_ok (concat cs)) as Hcs' by (by apply Forall_concat).
    rewrite (drain_all_app (acc ++ c)) by done. destruct (drain_all_rest _ Hac) as [Hb Hr].
    destruct (drain_all (acc ++ c)) as [fs r]. cbn [snd] in *. by rewrite (IH r).
Qed.

Lemma wire_eq f :
  wire f = FINS_magic ++ be_bytes 4 (u32 (len (Data f) + 18)) ++ be_bytes 2 0 ++ be_bytes 2 0 ++
    EncodeFINSFrame (Header f) (CommandCode f) (EndCode f) (Data f).
Proof.
  unfold wire. rewrite EncodeFINSTCPFrame_eq, len_EncodeFINSFrame.
  by rewrite <- Z.add_assoc.
Qed.

Lemma bytes_ok_EncodeFINSFrame f :
  FINSFrame_ok f -> bytes_ok (EncodeFINSFrame (Header f) (CommandCode f) (EndCode f) (Data f)).
Proof.
  intros ((?&?&?&(?&?&?)&(?&?&?)&?) & Hc & He & Hd). rewrite EncodeFINSFrame_eq, !bytes_ok_app.
  split_and!; auto with fins. unfold header_bytes, bytes_ok. rewrite !Forall_cons. auto 20 using Forall_nil_2.
Qed.

Lemma bytes_ok_wire f : FINSFrame_ok f -> bytes_ok (wire f).
Proof.
  intros Hf. rewrite wire_eq, !bytes_ok_app.
  split_and!; auto using bytes_ok_EncodeFINSFrame with fins.
Qed.

(** The loop takes a sent frame off the front of the stream. *)
Lemma round_wire f more : sendable f -> round (wire f ++ more) = Some ([f], more).
Proof.
  intros [(Hh & Hc & He & Hd) Hlen]. rewrite wire_eq, <- !app_assoc.
  set (body := EncodeFINSFrame _ _ _ _).
  assert (len body = len (Data f) + 14) as Hbody by apply len_EncodeFINSFrame.
  pose proof (len_nonneg (Data f)). pose proof (len_nonneg more).
  assert (in_u 32 (len (Data f) + 18)) as Hl by (unfold in_u; lia).
  rewrite uwrap_id by done. pose proof (be_val_bytes 4 _ Hl) as El.
  change FINS_magic with [70; 73; 78; 83]. change (be_bytes 2 0) with [0; 0].
  cbn [be_bytes le_bytes rev app] in *.
  unfold round. rewrite (proj2 (Z.ltb_ge _ _)) by (rewrite !len_cons, len_app; lia).
  rewrite DecodeFINSTCPFrame_cons, bool_decide_eq_true_2, El by done. cbn [Length tcp_Data].
  rewrite (proj2 (Z.ltb_ge _ _)) by (rewrite !len_cons, len_app; lia).
  unfold len in *. rewrite take_app_length' by lia.
  replace (Z.to_nat _) with (12 + length body)%nat by lia.
  unfold body at 1. rewrite DecodeFINSFrame_encode by done.
  replace (MkFINSFrame _ _ _ _) with f by (by destruct f).
  do 2 f_equal. apply drop_app_length.
Qed.

Lemma drain_all_wire f more :
  sendable f -> bytes_ok more ->
  drain_all (wire f ++ more) = let '(fs, r) := drain_all more in (f :: fs, r).
Proof.
  intros Hf Hm. rewrite drain_all_eq by (apply bytes_ok_app; split; [apply bytes_ok_wire, Hf|done]).
  by rewrite round_wire.
Qed.

(** A byte other than [F] in front of at least eleven others is dropped. *)
Lemma round_garbage b more :
  b <> 70 -> 11 <= len more -> round (b :: more) = Some ([], more).
Proof.
  intros Hb Hl. unfold round. rewrite (proj2 (Z.ltb_ge _ _)) by (rewrite len_cons; lia).
  assert (12 <= len (b :: more)) as H by (rewrite len_cons; lia). apply at_least_12 in H.
  destruct H as (b0&b1&b2&b3&b4&b5&b6&b7&b8&b9&b10&b11&r&[= -> ->]).
  rewrite DecodeFINSTCPFrame_cons, bool_decide_eq_false_2; [done|]. by intros [= ->].
Qed.

Lemma bytes_ok_wires fs : Forall sendable fs -> bytes_ok (concat (wire <$> fs)).
Proof.
  intros Hfs. apply Forall_concat, Forall_fmap. eapply Forall_impl; [exact Hfs|].
  intros f Hf. apply bytes_ok_wire, Hf.
Qed.

Lemma drain_all_wires fs : Forall sendable fs -> drain_all (concat (wire <$> fs)) = (fs, []).
Proof.
  induction 1 as [|f fs Hf Hfs IH]; [done|].
  change (concat (wire <$> f :: fs)) with (wire f ++ concat (wire <$> fs)).
  by rewrite drain_all_wire, IH by auto using bytes_ok_wires.
Qed.

(** A stream of sent frames is received as these frames. *)
Lemma on_reads_wire fs chunks :
  Forall sendable fs -> concat chunks = concat (wire <$> fs) -> on_reads [] chunks = (fs, []).
Proof.
  intros Hfs Hcat. pose proof (bytes_ok_wires fs Hfs) as Hb.
  rewrite on_reads_eq; [|by constructor| |done].
  - cbn [app]. rewrite Hcat. by apply drain_all_wires.
  - rewrite <- Hcat in Hb. by apply Forall_concat in Hb.
Qed.

(** ** Properties of stream reassembly *)

(** C6: reassembly does not depend on how TCP cuts the stream: the frames
    delivered and the bytes left over after any sequence of reads are those of one
    read of the whole stream. *)
Theorem reassembly_chunk_independent chunks :
  Forall bytes_ok chunks -> on_reads [] chunks = drain_all (concat chunks).
Proof. intros Hc. apply (on_reads_eq []); [constructor|done..]. Qed.

(** A read command for D100 and its answer, used by the witnesses. *)
Definition sample_request : FINSFrame :=
  MkFINSFrame (DefaultCommandHeader (MkFINSAddress 0 1 255) (MkFINSAddress 0 1 0) 7)
    MRC_MEMORY_AREA_READ 0 [0x82; 0; 100; 0; 0; 1].
Definition sample_response : FINSFrame :=
  MkFINSFrame (DefaultResponseHeader (Header sample_request)) MRC_MEMORY_AREA_READ 0 [0x12; 0x34].

Lemma reassembly_chunk_independent_witness :
  on_reads [] [take 5 (wire sample_request); drop 5 (wire sample_request) ++ [1; 2]]
  = ([sample_request], [1; 2]).
Proof. etransitivity; [apply reassembly_chunk_independent; by_decide|]. vm_compute. reflexivity. Defined.

(** C5: what is sent is received: for any list of frames, each within the 32-bit
    length field, and any way of cutting their wire bytes into chunks, the receive
    loop delivers exactly these frames in order and leaves an empty accumulator. *)
Theorem stream_delivery fs chunks :
  Forall sendable fs -> concat chunks = concat (wire <$> fs) ->
  on_reads [] chunks = (fs, []).
Proof. apply on_reads_wire. Qed.

Lemma stream_delivery_witness :
  on_reads [] [take 3 (wire sample_request); drop 3 (wire sample_request) ++ take 20 (wire sample_response);
    drop 20 (wire sample_response)] = ([sample_request; sample_response], []).
Proof. apply stream_delivery; [by_decide|vm_compute; reflexivity]. Defined.

(** Resynchronisation: bytes that are not the letter F in front of a sent
    frame are discarded and the frame behind them is delivered. *)
Theorem reassembly_resync garbage f more :
  bytes_ok garbage -> Forall (fun b => b <> 70) garbage -> sendable f -> bytes_ok more ->
  drain_all (garbage ++ wire f ++ more) = let '(fs, r) := drain_all more in (f :: fs, r).
Proof.
  intros Hb Hg Hf Hm. rewrite <- drain_all_wire by done.
  assert (bytes_ok (wire f ++ more)) as Hw by (apply bytes_ok_app; split; [apply bytes_ok_wire, Hf|done]).
  assert (11 <= len (wire f ++ more)) as Hlen.
  { rewrite wire_eq, !len_app, len_EncodeFINSFrame, !len_be_bytes.
    pose proof (len_nonneg (Data f)). pose proof (len_nonneg more). pose proof (len_nonneg FINS_magic). lia. }
  clear Hf Hm. revert Hw Hlen. generalize (wire f ++ more). intros w Hw Hlen.
  induction Hg as [|b g Hbg Hg IH]; [done|]. inversion Hb; subst. cbn [app].
  rewrite drain_all_eq; [|by constructor; [|apply bytes_ok_app]].
  pose proof (len_nonneg g).
  rewrite round_garbage, IH; [by destruct (drain_all w)|done|done|rewrite len_app; lia].
Qed.

Lemma reassembly_resync_witness :
  drain_all ([0; 0; 73; 78] ++ wire sample_response ++ [70]) = ([sample_response], [70]).
Proof.
  etransitivity; [apply reassembly_resync; by_decide|]. vm_compute. reflexivity.
Defined.

(** C40: the inner loop terminates: on any accumulator it leaves (with a result, not for
    want of rounds) within one round more than there are bytes, with the same
    frames and rest however many rounds it is given; and on the rest it leaves at once,
    having nothing more to deliver. *)
Theorem drain_terminates acc fuel :
  bytes_ok acc -> (length acc < fuel)%nat ->
  exists fs rest, drain fuel acc = Some (fs, rest) /\ drain (S (length acc)) acc = Some (fs, rest) /\
    (length rest <= length acc)%nat /\ drain 1 rest = Some ([], rest).
Proof.
  intros Hb Hf. destruct (drain_all acc) as [fs rest] eqn:E. exists fs, rest.
  rewrite !drain_enough, E by (done || lia). split_and!; [done..| |].
  - clear Hf. revert fs rest E. remember (length acc) as n eqn:Hn. revert acc Hb Hn.
    induction n as [n IH] using (well_founded_induction lt_wf). intros acc Hb -> fs rest.
    rewrite drain_all_eq by done. destruct (round acc) as [[out r]|] eqn:Hr; [|by intros [= _ <-]].
    destruct (round_shorter _ _ _ Hb Hr) as [Hl Hbr]. specialize (IH _ Hl r Hbr eq_refl).
    destruct (drain_all r) as [gs r']. intros [= _ <-]. specialize (IH gs r' eq_refl). lia.
  - rewrite drain_S. pose proof (drain_all_rest acc Hb) as [_ Hr]. rewrite E in Hr. cbn [snd] in Hr. by rewrite Hr.
Qed.

Lemma drain_terminates_witness :
  drain 100 ([1] ++ wire sample_request ++ [70; 73]) = Some ([sample_request], [70; 73]) /\
  drain 1 [70; 73] = Some ([], [70; 73]).
Proof.
  destruct (drain_terminates ([1] ++ wire sample_request ++ [70; 73]) 100) as (fs & rest & H1 & H2 & _ & H3);
    [by_decide|vm_compute; lia|].
  vm_compute in H2. injection H2 as <- <-. split; [exact H1|exact H3].
Defined.
