(* ===== verification/Strings.v ===== *)
(** * The parts of [strings], [strconv] and [regexp] the decoder uses

    Addresses are ASCII text; on ASCII text [strings.ToUpper] and
    [strings.TrimSpace] act byte by byte as below. *)
From Stdlib Require Import Ascii.
From S2P Require Import Prelude Types.

Abbreviation str := (list ascii).
Definition explode : string -> str := String.list_ascii_of_string.
Definition implode : str -> string := String.string_of_list_ascii.

Lemma explode_implode s : explode (implode s) = s.
Proof. apply String.list_ascii_of_string_of_list_ascii. Qed.
Lemma implode_explode s : implode (explode s) = s.
Proof. apply String.string_of_list_ascii_of_string. Qed.
Lemma explode_inj s t : explode s = explode t -> s = t.
Proof. intros H. by rewrite <- (implode_explode s), H, implode_explode. Qed.

(** ** Characters *)

Definition is_digit (c : ascii) : bool :=
  ((48 <=? byte_of_ascii c) && (byte_of_ascii c <=? 57)).
Definition is_space (c : ascii) : bool :=
  ((9 <=? byte_of_ascii c) && (byte_of_ascii c <=? 13)) || (byte_of_ascii c =? 32).
Definition to_upper (c : ascii) : ascii :=
  if ((97 <=? byte_of_ascii c) && (byte_of_ascii c <=? 122))
  then ascii_of_byte (byte_of_ascii c - 32) else c.

(** [strings.ToUpper], [strings.TrimSpace]. *)
Definition ToUpper (s : str) : str := map to_upper s.

Fixpoint trim_left (s : str) : str :=
  match s with c :: s' => if is_space c then trim_left s' else s | [] => [] end.
Definition TrimSpace (s : str) : str := rev (trim_left (rev (trim_left s))).

(** [strings.HasPrefix], [strings.HasSuffix], [strings.TrimPrefix]. *)
Fixpoint HasPrefix (s p : str) {struct p} : bool :=
  match p, s with
  | [], _ => true
  | c :: p, d :: s => Ascii.eqb c d && HasPrefix s p
  | _ :: _, [] => false
  end.
Definition HasSuffix (s p : str) : bool := HasPrefix (rev s) (rev p).
Definition TrimPrefix (s p : str) : str := if HasPrefix s p then drop (length p) s else s.

(** ** Decimal numbers *)

Definition digit_val (c : ascii) : Z := byte_of_ascii c - 48.
Definition digit_chr (d : Z) : ascii := ascii_of_byte (48 + d).

Definition decimal (s : str) : Z := foldl (fun n c => 10 * n + digit_val c) 0 s.

(** [strconv.Atoi]: an optional sign, then digits, within the range of [int]. *)
Definition Atoi (s : str) : option Z :=
  let (neg, ds) := match s with
    | c :: s' => if Ascii.eqb c "-" then (true, s')
                 else if Ascii.eqb c "+" then (false, s') else (false, s)
    | [] => (false, []) end in
  match ds with
  | [] => None
  | _ => if forallb is_digit ds then
           let n := if (neg : bool) then - decimal ds else decimal ds in
           if decide (in_s 64 n) then Some n else None
         else None
  end.

(** The decimal representation of a natural number ([%d]). *)
Fixpoint itoa_go (fuel : nat) (n : Z) (acc : str) : str :=
  match fuel with
  | O => acc
  | S fuel => let acc := digit_chr (n mod 10) :: acc in
              if n / 10 =? 0 then acc else itoa_go fuel (n / 10) acc
  end.
Definition itoa (n : Z) : str := itoa_go (S (Z.to_nat (Z.log2 n))) n [].

Lemma digit_chr_val d : 0 <= d < 10 -> digit_val (digit_chr d) = d.
Proof. intros. unfold digit_val, digit_chr. rewrite byte_of_ascii_of_byte; unfold in_u; lia. Qed.

Lemma digit_chr_digit d : 0 <= d < 10 -> is_digit (digit_chr d) = true.
Proof. intros. unfold is_digit, digit_chr. rewrite byte_of_ascii_of_byte; unfold in_u; lia. Qed.

Lemma decimal_app s t : decimal (s ++ t) = foldl (fun n c => 10 * n + digit_val c) (decimal s) t.
Proof. unfold decimal. by rewrite foldl_app. Qed.

Lemma itoa_go_spec fuel n acc :
  0 <= n < 2 ^ Z.of_nat fuel -> (0 < fuel)%nat ->
  exists ds, itoa_go fuel n acc = ds ++ acc /\ ds <> [] /\ Forall (fun c => is_digit c = true) ds
    /\ decimal ds = n.
Proof.
  revert n acc. induction fuel as [|fuel IH]; intros n acc Hn Hf; [lia|]. cbn [itoa_go].
  assert (0 <= n mod 10 < 10) as Hm by (apply Z.mod_pos_bound; lia).
  destruct (n / 10 =? 0) eqn:Hd; zbool.
  - exists [digit_chr (n mod 10)]. split_and!; try done.
    + constructor; [by apply digit_chr_digit|constructor].
    + unfold decimal. cbn [foldl]. rewrite digit_chr_val by done. zdm.
  - rewrite Nat2Z.inj_succ, Z.pow_succ_r in Hn by lia.
    assert (0 < fuel)%nat. { destruct fuel; [|lia]. cbn in Hn. exfalso. apply Hd. zdm. }
    destruct (IH (n / 10) (digit_chr (n mod 10) :: acc)) as (ds & -> & Hne & Hall & Hdec); [zdm|done|].
    exists (ds ++ [digit_chr (n mod 10)]). split_and!.
    + by rewrite <- app_assoc.
    + by destruct ds.
    + apply Forall_app; split; [done|]. constructor; [by apply digit_chr_digit|constructor].
    + rewrite decimal_app, Hdec. cbn [foldl]. rewrite digit_chr_val by done. zdm.
Qed.

Lemma itoa_spec n :
  0 <= n -> itoa n <> [] /\ Forall (fun c => is_digit c = true) (itoa n) /\ decimal (itoa n) = n.
Proof.
  intros Hn. unfold itoa.
  destruct (itoa_go_spec (S (Z.to_nat (Z.log2 n))) n []) as (ds & -> & ? & ? & ?); [|lia|by rewrite app_nil_r].
  rewrite Nat2Z.inj_succ, Z2Nat.id by apply Z.log2_nonneg.
  split; [done|]. destruct (decide (n = 0)) as [->|]; [done|].
  apply Z.log2_spec. lia.
Qed.

Lemma forallb_Forall {A} (p : A -> bool) l : forallb p l = true <-> Forall (fun x => p x = true) l.
Proof. rewrite forallb_forall, List.Forall_forall. done. Qed.

(** [Atoi] on a string of digits: the number, unless it exceeds [int]. *)
Lemma Atoi_digits s :
  s <> [] -> Forall (fun c => is_digit c = true) s ->
  Atoi s = if decide (in_s 64 (decimal s)) then Some (decimal s) else None.
Proof.
  intros Hne Hs. destruct s as [|c s]; [done|]. unfold Atoi.
  assert (is_digit c = true) as Hc by (by inversion Hs).
  destruct (Ascii.eqb_spec c "-") as [->|_]; [done|].
  destruct (Ascii.eqb_spec c "+") as [->|_]; [done|].
  by rewrite (proj2 (forallb_Forall _ _) Hs).
Qed.

Lemma decimal_nonneg s : Forall (fun c => is_digit c = true) s -> 0 <= decimal s.
Proof.
  unfold decimal. assert (forall n, 0 <= n -> Forall (fun c => is_digit c = true) s ->
    0 <= foldl (fun n c => 10 * n + digit_val c) n s) as H; [|intros; by apply H].
  induction s as [|c s IH]; intros n Hn Hs; [done|]. cbn. inversion Hs; subst.
  apply IH; [|done]. unfold is_digit in *. zbool. unfold digit_val. lia.
Qed.

Lemma Atoi_itoa n : 0 <= n <= max_int -> Atoi (itoa n) = Some n.
Proof.
  intros Hn. destruct (itoa_spec n) as (H1 & H2 & H3); [lia|].
  rewrite Atoi_digits, H3, decide_True; try done. unfold in_s, max_int in *. lia.
Qed.

(** ** Regular expressions

    A backtracking matcher with the leftmost-first preference of [regexp]:
    greedy operators try the longer match first, an alternation its left side.
    [Plus] repeats a single character class. *)
Inductive regex :=
| Lit (s : str)
| Class (p : ascii -> bool)
| Plus (p : ascii -> bool)
| Opt (r : regex)
| Alt (r1 r2 : regex)
| Seq (r1 r2 : regex)
| Group (n : nat) (r : regex)
| Eot.

Abbreviation captures := (list (nat * str)).

Fixpoint lit_match (l s : str) : option str :=
  match l, s with
  | [], _ => Some s
  | c :: l, d :: s => if Ascii.eqb c d then lit_match l s else None
  | _ :: _, [] => None
  end.

Fixpoint plus_match {R} (p : ascii -> bool) (s : str) (k : str -> option R) : option R :=
  match s with
  | c :: s' => if p c then match plus_match p s' k with Some r => Some r | None => k s' end else None
  | [] => None
  end.

Fixpoint rmatch {R} (r : regex) (s : str) (c : captures) (k : str -> captures -> option R) : option R :=
  match r with
  | Lit l => match lit_match l s with Some s' => k s' c | None => None end
  | Class p => match s with x :: s' => if p x then k s' c else None | [] => None end
  | Plus p => plus_match p s (fun s' => k s' c)
  | Opt r => match rmatch r s c k with Some x => Some x | None => k s c end
  | Alt r1 r2 => match rmatch r1 s c k with Some x => Some x | None => rmatch r2 s c k end
  | Seq r1 r2 => rmatch r1 s c (fun s' c' => rmatch r2 s' c' k)
  | Group n r => rmatch r s c (fun s' c' => k s' ((n, take (length s - length s') s) :: c'))
  | Eot => match s with [] => k s c | _ => None end
  end.

(** [FindStringSubmatch] of a regular expression anchored at the start; a group
    that took no part in the match is the empty string. *)
Definition find_submatch (r : regex) (s : str) : option captures :=
  rmatch r s [] (fun _ c => Some c).
Definition capture (n : nat) (c : captures) : str :=
  match find (fun p => Nat.eqb n (fst p)) c with Some (_, s) => s | None => [] end.

Lemma plus_match_greedy {R} p ds rest (k : str -> option R) r :
  ds <> [] -> Forall (fun c => p c = true) ds -> (forall c l, rest = c :: l -> p c = false) ->
  k rest = Some r -> plus_match p (ds ++ rest) k = Some r.
Proof.
  intros Hne Hds Hrest Hk. induction Hds as [|c ds Hc Hds IH]; [done|]. cbn [app plus_match].
  rewrite Hc. destruct ds as [|d ds].
  - cbn [app]. destruct rest as [|x rest]; cbn [plus_match]; [done|]. by rewrite (Hrest x rest).
  - by rewrite IH.
Qed.

Lemma plus_match_inv {R} p s (k : str -> option R) r :
  plus_match p s k = Some r ->
  exists ds rest, s = ds ++ rest /\ ds <> [] /\ Forall (fun c => p c = true) ds /\ k rest = Some r.
Proof.
  induction s as [|c s IH]; cbn; [done|]. destruct (p c) eqn:Hc; [|done].
  destruct (plus_match p s k) eqn:E.
  - intros [= ->]. destruct IH as (ds & rest & -> & Hne & Hds & Hk); [done|].
    exists (c :: ds), rest. split_and!; try done. by constructor.
  - intros Hk. exists [c], s. split_and!; try done. by repeat constructor.
Qed.

Lemma lit_match_app l s : lit_match l (l ++ s) = Some s.
Proof. induction l; cbn; [done|]. by rewrite Ascii.eqb_refl. Qed.

Lemma lit_match_inv l s s' : lit_match l s = Some s' -> s = l ++ s'.
Proof.
  revert s. induction l as [|c l IH]; intros [|d s]; cbn; try congruence.
  destruct (Ascii.eqb_spec c d) as [->|]; [|done]. intros H. by rewrite (IH _ H).
Qed.
