(* ===== verification/Floats.v ===== *)
(** * Floating-point conversions of Go

    A [float64] or [float32] is its IEEE 754 bit pattern, so that
    [math.Float64bits], [math.Float64frombits] and their 32-bit versions are the
    identity.  The conversions follow the language: a conversion to an integer
    type truncates towards zero and is implementation-dependent when the result
    does not fit; [float32(f)] rounds to nearest, ties to even. *)
From S2P Require Import Prelude Types.

(** What the language leaves to the implementation. *)
Class GoFloat := {
  conv_oob_u : Z -> Z -> Z;             (* width, bits of the float64 *)
  conv_oob_s : Z -> Z -> Z;
  conv_nan32 : Z -> Z;                  (* which NaN a converted NaN is *)
  conv_oob_u_ok : forall w bits, 0 < w -> in_u w (conv_oob_u w bits);
  conv_oob_s_ok : forall w bits, 0 < w -> in_s w (conv_oob_s w bits);
  conv_nan32_ok : forall bits, in_u 32 (conv_nan32 bits)
}.

Definition f64_sign (bits : Z) : bool := Z.testbit bits 63.
Definition f64_exp (bits : Z) : Z := Z.land (Z.shiftr bits 52) 0x7ff.
Definition f64_man (bits : Z) : Z := Z.land bits (2 ^ 52 - 1).

(** The value of a finite [float64] is (-1)^sign * significand * 2^exponent. *)
Definition f64_significand (bits : Z) : Z :=
  if f64_exp bits =? 0 then f64_man bits else f64_man bits + 2 ^ 52.
Definition f64_exponent (bits : Z) : Z := Z.max 1 (f64_exp bits) - 1075.
Definition f64_finite (bits : Z) : bool := negb (f64_exp bits =? 2047).

(** Truncation towards zero. *)
Definition f64_trunc (bits : Z) : option Z :=
  if f64_finite bits then
    let e := f64_exponent bits in
    let mag := if 0 <=? e then f64_significand bits * 2 ^ e
               else f64_significand bits / 2 ^ (- e) in
    Some (if f64_sign bits then - mag else mag)
  else None.

Section conversions.
Context `{GoFloat}.

(** [uintW(f)] and [intW(f)]. *)
Definition f64_to_u (w bits : Z) : Z :=
  match f64_trunc bits with
  | Some n => if decide (in_u w n) then n else conv_oob_u w bits
  | None => conv_oob_u w bits
  end.
Definition f64_to_s (w bits : Z) : Z :=
  match f64_trunc bits with
  | Some n => if decide (in_s w n) then n else conv_oob_s w bits
  | None => conv_oob_s w bits
  end.

(** [float32(f)]: round the significand to 24 bits (fewer for a subnormal
    result), nearest, ties to even; the carry of the rounding runs into the
    exponent field, and above the largest finite value the result is infinite. *)
Definition f64_to_f32 (bits : Z) : Z :=
  let sgn := if f64_sign bits then 2 ^ 31 else 0 in
  let m := f64_significand bits in
  if negb (f64_finite bits) then
    if f64_man bits =? 0 then sgn + 0x7f800000 else conv_nan32 bits
  else if m =? 0 then sgn
  else
    let e := f64_exponent bits in
    let e' := Z.max (-149) (Z.log2 m + e - 23) in
    let shift := e' - e in
    let q := if 0 <? shift then
               let q := m / 2 ^ shift in
               let r := m mod 2 ^ shift in
               let half := 2 ^ (shift - 1) in
               if (half <? r) || ((half =? r) && Z.odd q) then q + 1 else q
             else m * 2 ^ (- shift) in
    sgn + Z.min 0x7f800000 ((e' + 149) * 2 ^ 23 + q).

Lemma f64_to_u_ok w bits : 0 < w -> in_u w (f64_to_u w bits).
Proof. intros. unfold f64_to_u. repeat case_match; auto using conv_oob_u_ok. Qed.
Lemma f64_to_s_ok w bits : 0 < w -> in_s w (f64_to_s w bits).
Proof. intros. unfold f64_to_s. repeat case_match; auto using conv_oob_s_ok. Qed.

Lemma f64_significand_nonneg bits : 0 <= f64_significand bits.
Proof.
  assert (0 <= f64_man bits) by (apply Z.land_nonneg; right; lia).
  unfold f64_significand. case_match; lia.
Qed.

Lemma f64_to_f32_ok bits : in_u 32 (f64_to_f32 bits).
Proof.
  unfold f64_to_f32. pose proof (conv_nan32_ok bits) as Hn.
  set (sgn := if f64_sign bits then 2 ^ 31 else 0).
  assert (sgn = 0 \/ sgn = 2 ^ 31) as Hs by (unfold sgn; case_match; auto).
  pose proof (f64_significand_nonneg bits) as Hm.
  repeat case_match; auto; try (unfold in_u; destruct Hs as [-> | ->]; lia).
  all: match goal with |- in_u _ (_ + Z.min _ (_ + ?q)) => assert (0 <= q) as Hq end.
  all: try (apply Z.add_nonneg_nonneg; [|lia]).
  all: try (apply Z.div_pos; [done|apply Z.pow_pos_nonneg; zbool; lia]).
  all: try (apply Z.mul_nonneg_nonneg; [done|apply Z.pow_nonneg; lia]).
  all: unfold in_u; destruct Hs as [-> | ->]; lia.
Qed.
End conversions.

#[export] Hint Resolve f64_to_u_ok f64_to_s_ok f64_to_f32_ok : fins.

(** An implementation: zero for a value out of range, the canonical NaN. *)
Definition simple_float : GoFloat.
Proof.
  refine {| conv_oob_u := fun _ _ => 0; conv_oob_s := fun _ _ => 0;
            conv_nan32 := fun _ => 0x7fc00000 |}.
  - intros. unfold in_u. pose proof (Z.pow_pos_nonneg 2 w). lia.
  - intros. unfold in_s. pose proof (Z.pow_pos_nonneg 2 (w - 1)). lia.
  - intros. unfold in_u. lia.
Defined.

(** 25.5, 3.14159, 0.1, 1e39, the smallest [float32] and half of it, -7.9. *)
Example f32_of_f64_values :
  map (@f64_to_f32 simple_float)
    [0x4039800000000000; 0x400921F9F01B866E; 0x3FB999999999999A; 0x48078287F49C4A1D;
     0x36A0000000000000; 0x3690000000000000; 0xC01F99999999999A]
  = [0x41CC0000; 0x40490FD0; 0x3DCCCCCD; 0x7F800000; 1; 0; 0xC0FCCCCD].
Proof. vm_compute. reflexivity. Qed.

Example u8_of_f64_values :
  (f64_trunc 0xC01F99999999999A, @f64_to_u simple_float 8 0x4039800000000000) = (Some (-7), 25).
Proof. vm_compute. reflexivity. Qed.
