(* ===== verification/Decoder.v ===== *)
(** * Decoder ([src/decoder.go])

    The table of memory areas, the address parser and the value codecs. *)
From Stdlib Require Import Ascii.
From S2P Require Import Prelude Types Protocol Strings Floats.

(** ** The area table ([initAreaMap], [decoder.go] 33-49) *)

Definition base_areas : list (string * AreaInfo) :=
  [("CIO", MkAreaInfo MemoryAreaCIOWord "CIO" false true true);
   ("W", MkAreaInfo MemoryAreaWRWord "Work" false true true);
   ("H", MkAreaInfo MemoryAreaHRWord "Holding" false true true);
   ("A", MkAreaInfo MemoryAreaARWord "Auxiliary" true true true);
   ("D", MkAreaInfo MemoryAreaDMWord "Data Memory" false true true);
   ("P", MkAreaInfo MemoryAreaPVWord "PVs" false true false);
   ("F", MkAreaInfo MemoryAreaFlagBit "Flag" true true false);
   ("T", MkAreaInfo MemoryAreaTimerPV "Timer" false true false);
   ("C", MkAreaInfo MemoryAreaCounterPV "Counter" false true false)].

(** The loop [for i := 0; i <= 15; i++]. *)
Definition em_area (i : Z) : string * AreaInfo :=
  let key := implode (explode "EM" ++ itoa i) in
  let wordCode := match EMWordArea i with Ok c => c | _ => 0 end in
  (key, MkAreaInfo wordCode key false true true).

Definition area_entries : list (string * AreaInfo) :=
  base_areas ++ map em_area (seqZ 0 16).

Definition areaMap : gmap string AreaInfo :=
  foldl (fun m e => <[e.1 := e.2]> m) ∅ area_entries.

(** [GetAreaInfo], [GetAreaCode] ([decoder.go] 51-62). *)
Definition GetAreaInfo (areaName : string) : option AreaInfo :=
  areaMap !! implode (ToUpper (explode areaName)).

(** Whether the area of an address is one the table does not mark as read-only. *)
Definition writable (a : ParsedAddress) : bool :=
  match GetAreaInfo (pa_Area a) with Some info => negb (ReadOnly info) | None => false end.

Definition GetAreaCode (areaName : string) : res error Z :=
  match GetAreaInfo areaName with
  | None => Err ErrUnsupportedArea
  | Some info => Ok (Code info)
  end.

(** ** Addresses *)

Definition one_of (l : str) (c : ascii) : bool := existsb (Ascii.eqb c) l.

(** [^(CIO|EM\d+W?|[WHDAPTC])(\d+)(?:\.(\d+)([HL])?)?$] ([decoder.go] 64). *)
Definition addressRegex : regex :=
  Seq (Group 1 (Alt (Lit (explode "CIO"))
               (Alt (Seq (Lit (explode "EM")) (Seq (Plus is_digit) (Opt (Lit (explode "W")))))
                    (Class (one_of (explode "WHDAPTC"))))))
  (Seq (Group 2 (Plus is_digit))
  (Seq (Opt (Seq (Lit (explode ".")) (Seq (Group 3 (Plus is_digit))
                                          (Opt (Group 4 (Class (one_of (explode "HL"))))))))
  Eot)).

(** The [if dotNumStr != ""] block ([decoder.go] 106-137). *)
Definition parse_suffix (parsed : ParsedAddress) (areaInfo : AreaInfo) (lookupArea : string)
    (dotNumStr byteOrderStr : str) : res error ParsedAddress :=
  match dotNumStr with
  | [] => Ok parsed
  | _ =>
    match Atoi dotNumStr with
    | None => Err ErrInvalidAddress
    | Some dotNum =>
      let isString := negb (bool_decide (byteOrderStr = []))
                      || (bool_decide (lookupArea = "D") && (15 <? dotNum)) in
      let isBit := negb isString && (0 <=? dotNum) && (dotNum <=? 15) in
      if isString then
        if negb (SupportString areaInfo) then Err ErrInvalidAddress
        else if dotNum <=? 0 then Err ErrInvalidAddress
        else Ok {| pa_Area := pa_Area parsed; AreaCode := AreaCode parsed; EMNumber := EMNumber parsed;
                   pa_Address := pa_Address parsed; Bit := Bit parsed; StringLen := dotNum;
                   pa_ByteOrder := if bool_decide (byteOrderStr = explode "H")
                                   then ByteOrderHigh else ByteOrderLow;
                   IsBit := IsBit parsed; IsString := true |}
      else if isBit then
        if negb (SupportBit areaInfo) then Err ErrInvalidAddress
        else Ok {| pa_Area := pa_Area parsed; AreaCode := AreaCode parsed; EMNumber := EMNumber parsed;
                   pa_Address := pa_Address parsed; Bit := dotNum; StringLen := StringLen parsed;
                   pa_ByteOrder := pa_ByteOrder parsed; IsBit := true; IsString := IsString parsed |}
      else Err ErrInvalidAddress
    end
  end.

(** [ParseAddress] ([decoder.go] 66-140). *)
Definition ParseAddress (addr : string) : res error ParsedAddress :=
  let addr := ToUpper (TrimSpace (explode addr)) in
  match find_submatch addressRegex addr with
  | None => Err ErrInvalidAddress
  | Some m =>
    let areaName := capture 1 m in
    let addrStr := capture 2 m in
    let dotNumStr := capture 3 m in
    let byteOrderStr := capture 4 m in
    let lookupArea :=
      if HasPrefix areaName (explode "EM") && HasSuffix areaName (explode "W")
      then take (length areaName - 1) areaName else areaName in
    match GetAreaInfo (implode lookupArea) with
    | None => Err ErrUnsupportedArea
    | Some areaInfo =>
      match Atoi addrStr with
      | None => Err ErrInvalidAddress
      | Some address =>
        let emNum := if HasPrefix lookupArea (explode "EM")
                     then default 0 (Atoi (TrimPrefix lookupArea (explode "EM"))) else 0 in
        let parsed := {| pa_Area := implode lookupArea; AreaCode := Code areaInfo; EMNumber := emNum;
                         pa_Address := address; Bit := -1; StringLen := 0;
                         pa_ByteOrder := ByteOrderHigh; IsBit := false; IsString := false |} in
        parse_suffix parsed areaInfo (implode lookupArea) dotNumStr byteOrderStr
      end
    end
  end.

(** ** Values *)

Definition addr_IsBit (addr : option ParsedAddress) : bool :=
  match addr with Some a => IsBit a | None => false end.

(** The byte order chosen at the top of [EncodeValue] and [DecodeValue]. *)
Definition value_order (addr : option ParsedAddress) : byte_order :=
  match addr with
  | Some a => if IsString a && bool_decide (pa_ByteOrder a = ByteOrderLow) then LittleEndian else BigEndian
  | None => BigEndian
  end.

(** Whether the address gives the length of a string, and the bytes a string takes. *)
Definition has_field (addr : option ParsedAddress) : bool :=
  match addr with Some a => 0 <? StringLen a | None => false end.

Definition string_len (addr : option ParsedAddress) (s : string) : Z :=
  match addr with
  | Some a => if 0 <? StringLen a then StringLen a else len (bytes_of_string s)
  | None => len (bytes_of_string s)
  end.

(** [EncodeValue] ([decoder.go] 142-298). *)
Definition EncodeValue `{GoFloat} (value : goval) (dataType : DataType) (addr : option ParsedAddress)
    : res error bytes :=
  if addr_IsBit addr then
    match value with
    | VBool true => Ok [0x01]
    | VBool false => Ok [0x00]
    | _ => Err ErrInvalidDataType
    end
  else
  let bo := value_order addr in
  if bool_decide (dataType = DataTypeUINT8) then
    match value with
    | VUint8 v => Ok [v]
    | VFloat64 f => Ok [f64_to_u 8 f]
    | _ => Err ErrInvalidDataType
    end
  else if bool_decide (dataType = DataTypeINT8) then
    match value with
    | VInt8 v => Ok [u8 v]
    | VFloat64 f => Ok [u8 (f64_to_s 8 f)]
    | _ => Err ErrInvalidDataType
    end
  else if bool_decide (dataType = DataTypeUINT16) then
    match value with
    | VUint16 v => Ok (bo_bytes bo 2 v)
    | VFloat64 f => Ok (bo_bytes bo 2 (f64_to_u 16 f))
    | _ => Err ErrInvalidDataType
    end
  else if bool_decide (dataType = DataTypeINT16) then
    match value with
    | VInt16 v => Ok (bo_bytes bo 2 (u16 v))
    | VFloat64 f => Ok (bo_bytes bo 2 (u16 (f64_to_s 16 f)))
    | _ => Err ErrInvalidDataType
    end
  else if bool_decide (dataType = DataTypeUINT32) then
    match value with
    | VUint32 v => Ok (bo_bytes bo 4 v)
    | VFloat64 f => Ok (bo_bytes bo 4 (f64_to_u 32 f))
    | _ => Err ErrInvalidDataType
    end
  else if bool_decide (dataType = DataTypeINT32) then
    match value with
    | VInt32 v => Ok (bo_bytes bo 4 (u32 v))
    | VFloat64 f => Ok (bo_bytes bo 4 (u32 (f64_to_s 32 f)))
    | _ => Err ErrInvalidDataType
    end
  else if bool_decide (dataType = DataTypeUINT64) then
    match value with
    | VUint64 v => Ok (bo_bytes bo 8 v)
    | VFloat64 f => Ok (bo_bytes bo 8 (f64_to_u 64 f))
    | _ => Err ErrInvalidDataType
    end
  else if bool_decide (dataType = DataTypeINT64) then
    match value with
    | VInt64 v => Ok (bo_bytes bo 8 (u64 v))
    | VFloat64 f => Ok (bo_bytes bo 8 (u64 (f64_to_s 64 f)))
    | _ => Err ErrInvalidDataType
    end
  else if bool_decide (dataType = DataTypeFLOAT) then
    match value with
    | VFloat32 v => Ok (bo_bytes bo 4 v)
    | VFloat64 f => Ok (bo_bytes bo 4 (f64_to_f32 f))
    | _ => Err ErrInvalidDataType
    end
  else if bool_decide (dataType = DataTypeDOUBLE) then
    match value with
    | VFloat64 v => Ok (bo_bytes bo 8 v)
    | _ => Err ErrInvalidDataType
    end
  else if bool_decide (dataType = DataTypeSTRING) then
    match value with
    | VString s =>
      buf ← makeslice (string_len addr s);
      Ok (copy_at 0 (bytes_of_string s) buf)
    | _ => Err ErrInvalidDataType
    end
  else Err ErrUnsupportedDataType.

(** [strings.IndexByte(s, 0)] and the cut [s[:idx]]. *)
Fixpoint until_nul (l : bytes) : bytes :=
  match l with b :: l => if b =? 0 then [] else b :: until_nul l | [] => [] end.

(** [DecodeValue] ([decoder.go] 300-394). *)
Definition DecodeValue (data : bytes) (dataType : DataType) (addr : option ParsedAddress)
    : res error goval :=
  if addr_IsBit addr then
    if len data <? 1 then Err ErrDataTooShort
    else b ← idx data 0; Ok (VBool (negb (Z.land b 0x01 =? 0)))
  else
  let bo := value_order addr in
  if bool_decide (dataType = DataTypeUINT8) then
    if len data <? 1 then Err ErrDataTooShort else b ← idx data 0; Ok (VUint8 b)
  else if bool_decide (dataType = DataTypeINT8) then
    if len data <? 1 then Err ErrDataTooShort else b ← idx data 0; Ok (VInt8 (s8 b))
  else if bool_decide (dataType = DataTypeUINT16) then
    if len data <? 2 then Err ErrDataTooShort else d ← sub data 0 2; Ok (VUint16 (bo_val bo d))
  else if bool_decide (dataType = DataTypeINT16) then
    if len data <? 2 then Err ErrDataTooShort else d ← sub data 0 2; Ok (VInt16 (s16 (bo_val bo d)))
  else if bool_decide (dataType = DataTypeUINT32) then
    if len data <? 4 then Err ErrDataTooShort else d ← sub data 0 4; Ok (VUint32 (bo_val bo d))
  else if bool_decide (dataType = DataTypeINT32) then
    if len data <? 4 then Err ErrDataTooShort else d ← sub data 0 4; Ok (VInt32 (s32 (bo_val bo d)))
  else if bool_decide (dataType = DataTypeUINT64) then
    if len data <? 8 then Err ErrDataTooShort else d ← sub data 0 8; Ok (VUint64 (bo_val bo d))
  else if bool_decide (dataType = DataTypeINT64) then
    if len data <? 8 then Err ErrDataTooShort else d ← sub data 0 8; Ok (VInt64 (s64 (bo_val bo d)))
  else if bool_decide (dataType = DataTypeFLOAT) then
    if len data <? 4 then Err ErrDataTooShort else d ← sub data 0 4; Ok (VFloat32 (bo_val bo d))
  else if bool_decide (dataType = DataTypeDOUBLE) then
    if len data <? 8 then Err ErrDataTooShort else d ← sub data 0 8; Ok (VFloat64 (bo_val bo d))
  else if bool_decide (dataType = DataTypeSTRING) then
    let strLen := match addr with
                  | Some a => if (0 <? StringLen a) && (StringLen a <? len data)
                              then StringLen a else len data
                  | None => len data
                  end in
    d ← zsub data 0 strLen;
    Ok (VString (string_of_bytes (until_nul d)))
  else if bool_decide (dataType = DataTypeBIT) then
    if len data <? 1 then Err ErrDataTooShort
    else b ← idx data 0; Ok (VBool (negb (Z.land b 0x01 =? 0)))
  else Err ErrUnsupportedDataType.

(** [DataTypeSize], [IsBitDataType] ([decoder.go] 396-415). *)
Definition DataTypeSize (dataType : DataType) : res error Z :=
  if bool_decide (dataType ∈ [DataTypeUINT8; DataTypeINT8]) then Ok 1
  else if bool_decide (dataType ∈ [DataTypeUINT16; DataTypeINT16]) then Ok 2
  else if bool_decide (dataType ∈ [DataTypeUINT32; DataTypeINT32; DataTypeFLOAT]) then Ok 4
  else if bool_decide (dataType ∈ [DataTypeUINT64; DataTypeINT64; DataTypeDOUBLE]) then Ok 8
  else if bool_decide (dataType = DataTypeSTRING) then Ok 0
  else Err ErrUnsupportedDataType.

Definition IsBitDataType (dataType : DataType) : bool := bool_decide (dataType = DataTypeBIT).

(** ** Area codes *)

(** [GetWordAreaCode] ([decoder.go] 417-439). *)
Definition GetWordAreaCode (bitAreaCode : Z) : res error Z :=
  if bitAreaCode =? MemoryAreaCIOBit then Ok MemoryAreaCIOWord
  else if bitAreaCode =? MemoryAreaWRBit then Ok MemoryAreaWRWord
  else if bitAreaCode =? MemoryAreaHRBit then Ok MemoryAreaHRWord
  else if bitAreaCode =? MemoryAreaARBit then Ok MemoryAreaARWord
  else if bitAreaCode =? MemoryAreaDMBit then Ok MemoryAreaDMWord
  else if bitAreaCode =? MemoryAreaPVBit then Ok MemoryAreaPVWord
  else if bitAreaCode =? MemoryAreaFlagBit then Ok MemoryAreaFlagBit
  else if (MemoryAreaEM0Bit <=? bitAreaCode) && (bitAreaCode <=? MemoryAreaEM15Bit)
  then Ok (u8 (MemoryAreaEM0Word + u8 (bitAreaCode - MemoryAreaEM0Bit)))
  else Err (ErrUnknownBitArea bitAreaCode).

(** [GetBitAreaCode] ([decoder.go] 441-461). *)
Definition GetBitAreaCode (wordAreaCode : Z) : res error Z :=
  if wordAreaCode =? MemoryAreaCIOWord then Ok MemoryAreaCIOBit
  else if wordAreaCode =? MemoryAreaWRWord then Ok MemoryAreaWRBit
  else if wordAreaCode =? MemoryAreaHRWord then Ok MemoryAreaHRBit
  else if wordAreaCode =? MemoryAreaARWord then Ok MemoryAreaARBit
  else if wordAreaCode =? MemoryAreaDMWord then Ok MemoryAreaDMBit
  else if wordAreaCode =? MemoryAreaPVWord then Ok MemoryAreaPVBit
  else if (MemoryAreaEM0Word <=? wordAreaCode) && (wordAreaCode <=? MemoryAreaEM15Word)
  then Ok (u8 (MemoryAreaEM0Bit + u8 (wordAreaCode - MemoryAreaEM0Word)))
  else Err (ErrUnknownWordArea wordAreaCode).

(** ** The area table *)

Lemma areaMap_entries k i : areaMap !! k = Some i -> In (k, i) area_entries.
Proof.
  unfold areaMap.
  assert (forall l (m : gmap string AreaInfo),
    foldl (fun m e => <[e.1 := e.2]> m) m l !! k = Some i -> m !! k = Some i \/ In (k, i) l) as H.
  { induction l as [|[k' i'] l IH]; intros m Hm; cbn in *; [auto|].
    destruct (IH _ Hm) as [H|H]; [|auto].
    apply lookup_insert_Some in H as [[-> ->]|[_ H]]; auto. }
  intros Hk. destruct (H _ _ Hk) as [H0|]; [|done]. by rewrite lookup_empty in H0.
Qed.

(** An area the address pattern can name: the string, its EM number and entry. *)
Definition parsable_area (a : string) (n : Z) (i : AreaInfo) : Prop :=
  (In (a, i) base_areas /\ a <> "F" /\ n = 0) \/ (0 <= n < 16 /\ em_area n = (a, i)).

Lemma parsable_area_lookup a n i :
  parsable_area a n i ->
  areaMap !! a = Some i /\ ToUpper (explode a) = explode a /\
  (if HasPrefix (explode a) (explode "EM")
   then default 0 (Atoi (TrimPrefix (explode a) (explode "EM"))) else 0) = n.
Proof.
  intros [(Hin & HF & ->)|(Hn & Ha)].
  - cbn in Hin. repeat destruct Hin as [Hin|Hin]; simplify_eq; try done.
  - enum n 0 16; vm_compute in Ha; simplify_eq; vm_compute; done.
Qed.

(** ** The address pattern *)

Definition digits (s : str) : Prop := s <> [] /\ Forall (fun c => is_digit c = true) s.

Lemma itoa_digits n : 0 <= n -> digits (itoa n).
Proof. intros H. by destruct (itoa_spec n H) as (? & ? & _). Qed.

Lemma take_app_prefix {A} (a b : list A) : take (length (a ++ b) - length b) (a ++ b) = a.
Proof. rewrite length_app, Nat.add_sub. apply take_app_length. Qed.

Lemma group_plus_greedy {R} n p ds rest c (k : str -> captures -> option R) r :
  ds <> [] -> Forall (fun x => p x = true) ds -> (forall x l, rest = x :: l -> p x = false) ->
  k rest ((n, ds) :: c) = Some r -> rmatch (Group n (Plus p)) (ds ++ rest) c k = Some r.
Proof.
  intros ? ? ? Hk. cbn [rmatch]. apply plus_match_greedy; try done. by rewrite take_app_prefix.
Qed.

(** What may follow the word address: nothing, [.n], or [.n] and a byte order. *)
Definition suffix_text (dot order : str) : str :=
  match dot with [] => [] | _ => explode "." ++ dot ++ order end.

Definition suffix_ok (dot order : str) : Prop :=
  (dot = [] /\ order = []) \/
  (digits dot /\ (order = [] \/ order = explode "H" \/ order = explode "L")).

(** The pattern after its first group. *)
Definition address_tail : regex :=
  Seq (Group 2 (Plus is_digit))
  (Seq (Opt (Seq (Lit (explode ".")) (Seq (Group 3 (Plus is_digit))
                                          (Opt (Group 4 (Class (one_of (explode "HL"))))))))
  Eot).

Definition tail_result (c m : captures) (ds dot order : str) : Prop :=
  capture 2 m = ds /\ capture 3 m = dot /\ capture 4 m = order /\ capture 1 m = capture 1 c.

Lemma address_tail_match ds dot order area c :
  digits ds -> suffix_ok dot order -> c = [(1%nat, area)] ->
  exists m, rmatch address_tail (ds ++ suffix_text dot order) c (fun _ c => Some c) = Some m
    /\ tail_result c m ds dot order.
Proof.
  intros [Hne Hds] Hs ->.
  destruct Hs as [[-> ->]|[[Hne' Hdot] Ho]].
  - exists [(2%nat, ds); (1%nat, area)]. split; [|done]. cbn [suffix_text].
    unfold address_tail. cbn [rmatch]. apply plus_match_greedy; [done..|].
    by rewrite take_app_prefix.
  - assert (suffix_text dot order = explode "." ++ dot ++ order) as -> by (by destruct dot).
    exists (match order with [] => [] | _ => [(4%nat, order)] end ++ [(3%nat, dot); (2%nat, ds); (1%nat, area)]).
    split; [|destruct Ho as [->|[->| ->]]; done].
    unfold address_tail. cbn [rmatch].
    apply plus_match_greedy; [done|done|by intros x l [= <- _]|].
    rewrite take_app_prefix, lit_match_app.
    erewrite plus_match_greedy; [done|done|done| |].
    + intros x l E. destruct Ho as [->|[->| ->]]; cbn in E; by simplify_eq.
    + cbn beta. rewrite take_app_prefix. by destruct Ho as [->|[->| ->]].
Qed.

(** The text of an area as the pattern spells it: EM banks carry a [W]. *)
Definition area_text (a : string) : str :=
  explode a ++ (if HasPrefix (explode a) (explode "EM") then explode "W" else []).

(** The first group of the pattern. *)
Definition address_area : regex :=
  Alt (Lit (explode "CIO"))
    (Alt (Seq (Lit (explode "EM")) (Seq (Plus is_digit) (Opt (Lit (explode "W")))))
         (Class (one_of (explode "WHDAPTC")))).

Lemma addressRegex_eq : addressRegex = Seq (Group 1 address_area) address_tail.
Proof. done. Qed.

Lemma digit_not d c : is_digit d = true -> is_digit c = false -> Ascii.eqb c d = false.
Proof. intros Hd Hc. apply Ascii.eqb_neq. intros ->. congruence. Qed.

(** The first group matches the text of an area in front of a digit. *)
Lemma address_area_match {R} a n i d tl (k : str -> captures -> option R) r :
  parsable_area a n i -> is_digit d = true -> k (d :: tl) [] = Some r ->
  rmatch address_area (area_text a ++ d :: tl) [] k = Some r.
Proof.
  intros Ha Hd Hk. unfold address_area. cbn [rmatch].
  destruct Ha as [(Hin & HF & ->)|(Hn & Hem)].
  - cbn in Hin. repeat destruct Hin as [Hin|Hin]; simplify_eq; try done.
    all: match goal with |- context [area_text ?a] =>
           let v := eval vm_compute in (area_text a) in change (area_text a) with v end.
    all: cbn -[is_digit Ascii.eqb]; try rewrite (digit_not d "I"%char Hd eq_refl); cbn -[is_digit].
    all: by rewrite Hk.
  - unfold em_area in Hem. simplify_eq. unfold area_text. rewrite explode_implode.
    cbn -[itoa is_digit plus_match]. rewrite <- app_assoc. cbn [app].
    destruct (itoa_digits n) as [Hne Hit]; [lia|].
    rewrite (plus_match_greedy is_digit (itoa n) _ _ r Hne Hit); [done| |].
    + intros x l E. cbn in E. by injection E as <- _.
    + cbn. by rewrite Hk.
Qed.

Lemma address_match a n i ds dot order :
  parsable_area a n i -> digits ds -> suffix_ok dot order ->
  exists m, find_submatch addressRegex (area_text a ++ ds ++ suffix_text dot order) = Some m /\
    capture 1 m = area_text a /\ capture 2 m = ds /\ capture 3 m = dot /\ capture 4 m = order.
Proof.
  intros Ha Hds Hs.
  destruct (address_tail_match ds dot order (area_text a) _ Hds Hs eq_refl) as (m & Hm & ?&?&?&?).
  exists m. split_and!; try done. unfold find_submatch. rewrite addressRegex_eq.
  destruct Hds as [? Hds]. destruct ds as [|d ds]; [done|]. inversion Hds; subst. cbn [app].
  cbn [rmatch]. eapply address_area_match; [done..|].
  by rewrite take_app_prefix.
Qed.

(** ** Printing a parsed address *)

(** The result of a successful parse: an area of the table other than F, a
    non-negative word address, and exactly one of three kinds of access. *)
Definition well_parsed (p : ParsedAddress) : Prop :=
  exists i, parsable_area (pa_Area p) (EMNumber p) i /\ AreaCode p = Code i /\
    0 <= pa_Address p <= max_int /\
    ((IsBit p = false /\ IsString p = false /\ Bit p = -1 /\ StringLen p = 0 /\ pa_ByteOrder p = ByteOrderHigh) \/
     (IsBit p = true /\ IsString p = false /\ 0 <= Bit p <= 15 /\ StringLen p = 0 /\
      pa_ByteOrder p = ByteOrderHigh /\ SupportBit i = true) \/
     (IsBit p = false /\ IsString p = true /\ Bit p = -1 /\ 0 < StringLen p <= max_int /\ SupportString i = true)).

Definition dot_text (p : ParsedAddress) : str :=
  if IsBit p then itoa (Bit p) else if IsString p then itoa (StringLen p) else [].
Definition order_text (p : ParsedAddress) : str :=
  if IsString p then explode (match pa_ByteOrder p with ByteOrderHigh => "H" | ByteOrderLow => "L" end) else [].

(** The canonical spelling of an address. *)
Definition print_address (p : ParsedAddress) : string :=
  implode (area_text (pa_Area p) ++ itoa (pa_Address p) ++ suffix_text (dot_text p) (order_text p)).

(** Characters that neither [TrimSpace] nor [ToUpper] touches. *)
Definition plain (c : ascii) : Prop := is_space c = false /\ to_upper c = c.

Lemma digit_plain c : is_digit c = true -> plain c.
Proof.
  unfold is_digit, plain, is_space, to_upper. intros H. zbool. split.
  - lia.
  - by rewrite (proj2 (andb_false_iff _ _)) by lia.
Qed.

Lemma ToUpper_plain s : Forall plain s -> ToUpper s = s.
Proof. unfold ToUpper. induction 1 as [|c s [_ Hc] Hs IH]; cbn; [done|]. by rewrite Hc, IH. Qed.

Lemma trim_left_plain s : Forall plain s -> trim_left s = s.
Proof. intros [|c s' [Hc _] _]; cbn; [done|]. by rewrite Hc. Qed.

Lemma TrimSpace_plain s : Forall plain s -> TrimSpace s = s.
Proof.
  intros Hs. unfold TrimSpace. rewrite (trim_left_plain s) by done.
  by rewrite trim_left_plain, rev_involutive by (by apply List.Forall_rev).
Qed.

Lemma digits_plain s : Forall (fun c => is_digit c = true) s -> Forall plain s.
Proof. intros H. eapply Forall_impl; [exact H|]. apply digit_plain. Qed.

Lemma plain_letters s :
  forallb (fun c => negb (is_space c) && Ascii.eqb (to_upper c) c) (explode s) = true -> Forall plain (explode s).
Proof.
  intros H. apply forallb_Forall in H. eapply Forall_impl; [exact H|].
  intros c Hc. cbn in Hc. zbool. split; [done|]. by apply Ascii.eqb_eq.
Qed.

Lemma area_text_plain a n i : parsable_area a n i -> Forall plain (area_text a).
Proof.
  intros [(Hin & HF & ->)|(Hn & Hem)]; unfold area_text; apply Forall_app; split.
  - cbn in Hin. repeat destruct Hin as [Hin|Hin]; simplify_eq; try done; by apply plain_letters.
  - case_match; [|constructor]. by apply (plain_letters "W").
  - unfold em_area in Hem. simplify_eq. rewrite explode_implode. apply Forall_app; split.
    + by apply (plain_letters "EM").
    + apply digits_plain. by destruct (itoa_spec n) as (_ & ? & _); [lia|].
  - case_match; [|constructor]. by apply (plain_letters "W").
Qed.

Lemma suffix_text_plain dot order : suffix_ok dot order -> Forall plain (suffix_text dot order).
Proof.
  intros [[-> ->]|[[Hne Hd] Ho]]; [constructor|].
  destruct dot as [|c dot]; [done|]. unfold suffix_text. rewrite !Forall_app. split_and!.
  - by apply (plain_letters ".").
  - by apply digits_plain.
  - destruct Ho as [->|[->| ->]]; [constructor|by apply (plain_letters "H")|by apply (plain_letters "L")].
Qed.

Lemma well_parsed_suffix p : well_parsed p -> suffix_ok (dot_text p) (order_text p).
Proof.
  intros (i & _ & _ & _ & H). unfold suffix_ok, dot_text, order_text.
  destruct H as [(-> & -> & _)|[(-> & -> & Hb & _)|(-> & -> & _ & Hl & _)]].
  - by left.
  - right. split; [|by left]. apply itoa_digits. lia.
  - right. split; [apply itoa_digits; lia|]. right. destruct (pa_ByteOrder p); auto.
Qed.

(** The lookup name recovered from the text of an area. *)
Lemma area_text_lookup a n i :
  parsable_area a n i ->
  implode (if HasPrefix (area_text a) (explode "EM") && HasSuffix (area_text a) (explode "W")
           then take (length (area_text a) - 1) (area_text a) else area_text a) = a.
Proof.
  intros [(Hin & HF & ->)|(Hn & Hem)].
  - cbn in Hin. repeat destruct Hin as [Hin|Hin]; simplify_eq; try done.
  - unfold em_area in Hem. simplify_eq. unfold area_text. rewrite explode_implode. cbn [HasPrefix explode].
    set (s := explode "EM" ++ itoa n).
    change (HasPrefix s (explode "EM")) with true. cbv iota.
    change (HasPrefix (s ++ explode "W") (explode "EM")) with true.
    unfold HasSuffix. rewrite rev_app_distr. cbn [explode String.list_ascii_of_string rev app HasPrefix].
    rewrite Ascii.eqb_refl. cbn [andb]. f_equal.
    rewrite length_app. cbn [length]. rewrite Nat.add_sub. apply take_app_length.
Qed.

Lemma Atoi_range s n : Atoi s = Some n -> in_s 64 n.
Proof. unfold Atoi. repeat case_match; intros; by simplify_eq. Qed.

(** The parser on a text of the expected form: what is left is the suffix. *)
Lemma ParseAddress_text a n i adr dot order :
  parsable_area a n i -> 0 <= adr <= max_int -> suffix_ok dot order ->
  ParseAddress (implode (area_text a ++ itoa adr ++ suffix_text dot order)) =
    parse_suffix (MkParsedAddress a (Code i) n adr (-1) 0 ByteOrderHigh false false) i a dot order.
Proof.
  intros Ha Hadr Hs. destruct (itoa_digits adr) as [Hne Hdig]; [lia|].
  unfold ParseAddress. rewrite explode_implode.
  assert (Forall plain (area_text a ++ itoa adr ++ suffix_text dot order)) as Hpl.
  { rewrite !Forall_app. split_and!; eauto using area_text_plain, digits_plain, suffix_text_plain. }
  rewrite TrimSpace_plain, ToUpper_plain by done.
  destruct (address_match _ _ _ (itoa adr) _ _ Ha (conj Hne Hdig) Hs) as (m & -> & -> & -> & -> & ->).
  pose proof (area_text_lookup _ _ _ Ha) as Hl.
  destruct (parsable_area_lookup _ _ _ Ha) as (Hmap & Hup & Hem).
  set (la := if _ && _ then _ else _) in *. clearbody la. rewrite <- Hl in Hmap, Hup, Hem.
  rewrite explode_implode in Hup, Hem.
  unfold GetAreaInfo. rewrite explode_implode, Hup, Hmap, Atoi_itoa by done.
  by rewrite Hem, Hl.
Qed.

(** The number after the dot, printed. *)
Lemma parse_suffix_itoa parsed i a k order :
  0 <= k <= max_int ->
  parse_suffix parsed i a (itoa k) order =
    let isString := negb (bool_decide (order = [])) || (bool_decide (a = "D") && (15 <? k)) in
    if isString then
      if negb (SupportString i) then Err ErrInvalidAddress
      else if k <=? 0 then Err ErrInvalidAddress
      else Ok (MkParsedAddress (pa_Area parsed) (AreaCode parsed) (EMNumber parsed) (pa_Address parsed)
                 (Bit parsed) k (if bool_decide (order = explode "H") then ByteOrderHigh else ByteOrderLow)
                 (IsBit parsed) true)
    else if k <=? 15 then
      if negb (SupportBit i) then Err ErrInvalidAddress
      else Ok (MkParsedAddress (pa_Area parsed) (AreaCode parsed) (EMNumber parsed) (pa_Address parsed)
                 k (StringLen parsed) (pa_ByteOrder parsed) true (IsString parsed))
    else Err ErrInvalidAddress.
Proof.
  intros Hk. unfold parse_suffix. destruct (itoa_digits k) as [Hne _]; [lia|].
  destruct (itoa k) eqn:E; [done|]. rewrite <- E, Atoi_itoa by lia.
  destruct (_ || _); cbn [negb andb]; [done|]. by rewrite (proj2 (Z.leb_le 0 k)) by lia.
Qed.

Lemma ParseAddress_print p : well_parsed p -> ParseAddress (print_address p) = Ok p.
Proof.
  intros Hp. pose proof (well_parsed_suffix p Hp) as Hs.
  destruct Hp as (i & Ha & Hc & Hadr & Hkind). unfold print_address.
  rewrite (ParseAddress_text _ _ _ _ _ _ Ha Hadr Hs).
  destruct p as [area code em adr bit sl bo ib ist]; cbn in *. subst code.
  destruct Hkind as [(-> & -> & -> & -> & ->)|[(-> & -> & Hb & -> & -> & Hsup)|(-> & -> & -> & Hsl & Hsup)]];
    unfold dot_text, order_text; cbn [IsBit IsString Bit StringLen pa_ByteOrder]; [done|..].
  - rewrite parse_suffix_itoa by (unfold max_int; lia). cbv zeta.
    rewrite (bool_decide_eq_true_2 ([] = [])), (proj2 (Z.ltb_ge 15 bit)), andb_false_r by (done || lia).
    cbn [negb orb]. by rewrite (proj2 (Z.leb_le bit 15)), Hsup by lia.
  - rewrite parse_suffix_itoa by lia. cbv zeta.
    rewrite (bool_decide_eq_false_2 (_ = [])) by (by destruct bo). cbn [negb orb].
    rewrite Hsup, (proj2 (Z.leb_gt sl 0)) by lia. by destruct bo.
Qed.

(** The shapes the first group can take. *)
Definition area_shape (a : str) : Prop :=
  a = explode "CIO" \/
  (exists es, digits es /\ (a = explode "EM" ++ es \/ a = explode "EM" ++ es ++ explode "W")) \/
  (exists c, a = [c] /\ one_of (explode "WHDAPTC") c = true).

Lemma address_tail_inv s c m :
  rmatch address_tail s c (fun _ c => Some c) = Some m ->
  exists ds dot order, s = ds ++ suffix_text dot order /\ digits ds /\ suffix_ok dot order /\
    m = match order with [] => [] | _ => [(4%nat, order)] end ++
        match dot with [] => [] | _ => [(3%nat, dot)] end ++ (2%nat, ds) :: c.
Proof.
  unfold address_tail. cbn [rmatch]. intros H.
  apply plus_match_inv in H as (ds & rest & -> & Hne & Hds & H). rewrite take_app_prefix in H.
  exists ds. revert H. destruct (lit_match _ rest) as [s1|] eqn:El; cbn -[plus_match one_of explode].
  - apply lit_match_inv in El as ->.
    destruct (plus_match _ s1 _) as [x|] eqn:Ep.
    + intros [= ->]. apply plus_match_inv in Ep as (dot & r & -> & Hne' & Hdot & H).
      rewrite take_app_prefix in H. exists dot. destruct r as [|x [|y r]].
      * exists []. cbn in H. simplify_eq. split_and!; [by destruct dot| done| |by destruct dot].
        right. split; [done|by left].
      * exists [x]. destruct (one_of (explode "HL") x) eqn:Ex;
          cbn -[one_of explode] in H; simplify_eq.
        split_and!; [by destruct dot|done| |destruct dot; [congruence|reflexivity]].
        right. split; [done|]. right.
        cbn in Ex. zbool. destruct (Ascii.eqb_spec x "H") as [->|]; [by left|].
        destruct (Ascii.eqb_spec x "L") as [->|]; [by right|]. done.
      * exfalso. cbn -[one_of explode] in H. by destruct (one_of (explode "HL") x).
    + by cbn.
  - destruct rest; [|done]. intros [= <-]. exists [], []. split_and!; try done. by left.
Qed.

Lemma address_inv s m :
  find_submatch addressRegex s = Some m ->
  exists a ds dot order, s = a ++ ds ++ suffix_text dot order /\ area_shape a /\ digits ds /\
    suffix_ok dot order /\ capture 1 m = a /\ capture 2 m = ds /\ capture 3 m = dot /\ capture 4 m = order.
Proof.
  unfold find_submatch. rewrite addressRegex_eq. cbn [rmatch address_area]. intros H.
  assert (exists a rest, s = a ++ rest /\ area_shape a /\
    rmatch address_tail rest [(1%nat, a)] (fun _ c => Some c) = Some m) as (a & rest & -> & Hsh & Hm).
  { revert H. destruct (lit_match (explode "CIO") s) as [s1|] eqn:E1.
    - apply lit_match_inv in E1 as ->. rewrite take_app_prefix.
      destruct (rmatch address_tail s1 _ _) eqn:Em.
      + intros [= ->]. exists (explode "CIO"), s1. split_and!; try done. by left.
      + cbn -[address_tail rmatch explode]. intros H.
        exfalso. revert H. by cbn -[address_tail rmatch].
    - destruct (lit_match (explode "EM") s) as [s1|] eqn:E2.
      + apply lit_match_inv in E2 as ->.
        destruct (plus_match _ s1 _) as [x|] eqn:Ep.
        * intros [= ->]. apply plus_match_inv in Ep as (es & r & -> & Hne & Hes & H).
          destruct (lit_match (explode "W") r) as [r'|] eqn:Ew.
          -- apply lit_match_inv in Ew as ->. 
             destruct (rmatch address_tail r' _ _) eqn:Em in H.
             ++ simplify_eq. exists (explode "EM" ++ es ++ explode "W"), r'.
                rewrite !app_assoc, take_app_prefix in Em. rewrite <- !app_assoc in *.
                split_and!; try done. right; left. exists es. split; [done|by right].
             ++ discriminate H.
          -- rewrite app_assoc, take_app_prefix in H.
             exists (explode "EM" ++ es), r. rewrite <- app_assoc.
             split_and!; try done. right; left. exists es. split; [done|by left].
        * by cbn.
      + destruct s as [|c s]; [done|]. destruct (one_of _ c) eqn:Ec; [|done].
        intros H. exists [c], s. split_and!; [done|right; right; by exists c|].
        by rewrite (take_app_prefix [c] s : take (length (c :: s) - length s) (c :: s) = [c]) in H. }
  apply address_tail_inv in Hm as (ds & dot & order & -> & Hds & Hs & ->).
  exists a, ds, dot, order. split_and!; try done; by destruct order, dot.
Qed.

Definition em_number (la : str) : Z :=
  if HasPrefix la (explode "EM") then default 0 (Atoi (TrimPrefix la (explode "EM"))) else 0.

Lemma em_lookup es i :
  digits es -> GetAreaInfo (implode (explode "EM" ++ es)) = Some i ->
  parsable_area (implode (explode "EM" ++ es)) (em_number (explode "EM" ++ es)) i.
Proof.
  intros [Hne Hes] H. unfold GetAreaInfo in H.
  rewrite explode_implode, ToUpper_plain in H.
  2: { apply Forall_app; split; [by apply (plain_letters "EM")|by apply digits_plain]. }
  apply areaMap_entries, in_app_or in H as [H|H].
  - exfalso. cbn in H. repeat destruct H as [H|H]; try done; injection H; intros; done.
  - apply in_map_iff in H as (n & Hn & Hin). rewrite <- list_elem_of_In, elem_of_seqZ in Hin.
    assert (parsable_area (implode (explode "EM" ++ es)) n i) as Hp by (right; split; [lia|done]).
    destruct (parsable_area_lookup _ _ _ Hp) as (_ & _ & He). rewrite explode_implode in He.
    unfold em_number. by rewrite He.
Qed.

Lemma HasSuffix_W s d : HasSuffix (s ++ [d]) (explode "W") = Ascii.eqb "W" d.
Proof. unfold HasSuffix. rewrite rev_app_distr. cbn -[Ascii.eqb]. apply andb_true_r. Qed.

Lemma shape_lookup a i :
  area_shape a ->
  let la := if HasPrefix a (explode "EM") && HasSuffix a (explode "W") then take (length a - 1) a else a in
  GetAreaInfo (implode la) = Some i -> parsable_area (implode la) (em_number la) i.
Proof.
  intros [->|[(es & Hes & [->| ->])|(c & -> & Hc)]]; intros la Hi.
  - vm_compute in Hi. simplify_eq. left. cbn. split_and!; try done. by left.
  - assert (la = explode "EM" ++ es) as ->; [|by apply em_lookup].
    unfold la. destruct Hes as [Hne Hes]. destruct (exists_last Hne) as (es' & d & ->).
    apply Forall_app in Hes as [_ Hd]. inversion Hd; subst.
    by rewrite (app_assoc _ es'), HasSuffix_W, (digit_not d "W"%char), andb_false_r by done.
  - assert (la = explode "EM" ++ es) as ->; [|by apply em_lookup].
    unfold la. change (HasPrefix (explode "EM" ++ es ++ explode "W") (explode "EM")) with true.
    rewrite app_assoc, (HasSuffix_W _ "W"%char : HasSuffix (_ ++ explode "W") _ = _).
    cbn [andb]. rewrite length_app, Nat.add_sub. apply take_app_length.
  - cbn in Hc. zbool. repeat (apply orb_true_iff in Hc as [Hc|Hc];
      [apply Ascii.eqb_eq in Hc as ->; vm_compute in Hi; simplify_eq; left; cbn; by auto 20|]). done.
Qed.

Lemma ParseAddress_sound s p : ParseAddress s = Ok p -> well_parsed p.
Proof.
  unfold ParseAddress. intros H.
  destruct (find_submatch _ _) as [m|] eqn:Hm; [|done].
  apply address_inv in Hm as (a & ds & dot & order & _ & Hsh & Hds & Hs & Hc1 & Hc2 & Hc3 & Hc4).
  rewrite Hc1, Hc2, Hc3, Hc4 in H. pose proof (shape_lookup a) as Hl. cbv zeta in Hl.
  set (la := if _ && _ then _ else _) in *. clearbody la.
  destruct (GetAreaInfo (implode la)) as [i|] eqn:Hi; [|done].
  specialize (Hl i Hsh eq_refl). unfold em_number in Hl.
  set (em := if HasPrefix la _ then _ else 0) in *. clearbody em.
  destruct Hds as [Hne Hdig]. rewrite Atoi_digits in H by done.
  destruct (decide _) as [Hr|]; [|done].
  pose proof (decimal_nonneg ds Hdig). unfold in_s in Hr. change (64 - 1) with 63 in Hr.
  assert (0 <= decimal ds <= max_int) as Hadr by (unfold max_int; lia).
  exists i. unfold parse_suffix in H. destruct dot as [|d0 dot].
  { injection H as <-. refine (conj Hl (conj eq_refl (conj Hadr _))). by left. }
  destruct Hs as [[? _]|[[_ Hdot] Ho]]; [done|].
  destruct (Atoi (d0 :: dot)) as [n|] eqn:Hn; [|done].
  rewrite Atoi_digits in Hn by done. case_decide as Hr'; [|done]. injection Hn as Hn.
  pose proof (decimal_nonneg _ Hdot). unfold in_s in Hr'. change (64 - 1) with 63 in Hr'.
  destruct (_ || _) eqn:His.
  - destruct (SupportString i) eqn:Hsup; cbn [negb] in H; [|discriminate].
    destruct (n <=? 0) eqn:Hn0; [done|]. zbool. injection H as <-.
    refine (conj Hl (conj eq_refl (conj Hadr _))). right; right. cbn. unfold max_int. split_and!; auto; lia.
  - cbn [negb andb] in H. destruct ((0 <=? n) && (n <=? 15)) eqn:Hb; [|discriminate]. zbool.
    destruct (SupportBit i) eqn:Hsup; cbn [negb] in H; [|discriminate]. injection H as <-.
    refine (conj Hl (conj eq_refl (conj Hadr _))). right; left. cbn. split_and!; auto; lia.
Qed.

(** ** Properties of the address parser *)

(** Every well-formed address has a spelling the parser reads back to it:
    parsing the printed address returns the same area, area code, EM bank, word
    address, bit or string length and byte order. *)
Theorem address_print_parse p : well_parsed p -> ParseAddress (print_address p) = Ok p.
Proof. apply ParseAddress_print. Qed.

Definition sample_address : ParsedAddress :=
  MkParsedAddress "EM10" 0xaa 10 100 5 0 ByteOrderHigh true false.

Lemma address_print_parse_witness :
  print_address sample_address = "EM10W100.5" /\ ParseAddress "EM10W100.5" = Ok sample_address.
Proof.
  split; [vm_compute; reflexivity|]. apply (address_print_parse sample_address).
  exists (MkAreaInfo 0xaa "EM10" false true true). split_and!; try done; [|by right; left].
  right. split; [vm_compute; intuition congruence|vm_compute; reflexivity].
Defined.

(** C12: whatever the parser accepts is well formed (an area of the table other
    than F with the code of that area, a word address in the range of [int], at
    most one of a bit 0-15 in an area with bit access and a positive string length
    in an area with string access), and its canonical spelling parses to the same
    address, so parsing is idempotent up to spelling. *)
Theorem address_parse_canonical s p :
  ParseAddress s = Ok p -> well_parsed p /\ ParseAddress (print_address p) = Ok p.
Proof.
  intros H. apply ParseAddress_sound in H. auto using ParseAddress_print.
Qed.

Lemma address_parse_canonical_witness :
  ParseAddress " d010.020l" = Ok (MkParsedAddress "D" 0x82 0 10 (-1) 20 ByteOrderLow false true) /\
  ParseAddress "D10.20L" = Ok (MkParsedAddress "D" 0x82 0 10 (-1) 20 ByteOrderLow false true).
Proof.
  split; [vm_compute; reflexivity|].
  apply (address_parse_canonical " d010.020l" (MkParsedAddress "D" 0x82 0 10 (-1) 20 ByteOrderLow false true)).
  vm_compute. reflexivity.
Defined.

(** The Flag area cannot be addressed: an address that starts with F is
    rejected with [ErrInvalidAddress], although the area table has an entry for
    it. *)
Theorem flag_area_unreachable s rest :
  ToUpper (TrimSpace (explode s)) = "F"%char :: rest ->
  ParseAddress s = Err ErrInvalidAddress /\ GetAreaCode "F" = Ok MemoryAreaFlagBit.
Proof.
  intros Hs. split; [|vm_compute; reflexivity]. unfold ParseAddress. rewrite Hs.
  destruct (find_submatch _ _) as [m|] eqn:Hm; [|done]. exfalso.
  apply address_inv in Hm as (a & ds & dot & order & E & Hsh & _).
  destruct Hsh as [->|[(es & _ & [->| ->])|(c & -> & Hc)]]; try done.
  injection E as <- _. done.
Qed.

Lemma flag_area_unreachable_witness : ParseAddress "F0" = Err ErrInvalidAddress.
Proof. apply (flag_area_unreachable "F0" ["0"%char]). vm_compute. reflexivity. Defined.

(** Outside area D a number above 15 after the dot needs an explicit byte
    order: without one the address is rejected, with H or L it is a string of that
    length when the area has string access; in area D it is a string of low byte
    order either way. *)
Theorem dot_number_above_15 a n i adr k :
  parsable_area a n i -> 0 <= adr <= max_int -> 15 < k <= max_int ->
  ParseAddress (implode (area_text a ++ itoa adr ++ explode "." ++ itoa k)) =
    if bool_decide (a = "D")
    then Ok (MkParsedAddress a (Code i) n adr (-1) k ByteOrderLow false true)
    else Err ErrInvalidAddress.
Proof.
  intros Ha Hadr Hk. destruct (itoa_digits k) as [Hne' Hdig']; [lia|].
  assert (suffix_ok (itoa k) []) as Hs by (right; split; [done|by left]).
  assert (explode "." ++ itoa k = suffix_text (itoa k) []) as ->.
  { unfold suffix_text. destruct (itoa k) eqn:E; [done|]. by rewrite app_nil_r. }
  rewrite (ParseAddress_text _ _ _ _ _ _ Ha Hadr Hs), parse_suffix_itoa by lia. cbv zeta.
  rewrite (bool_decide_eq_true_2 ([] = [])), (proj2 (Z.ltb_lt 15 k)), andb_true_r by (done || lia).
  case_bool_decide as HD; cbn [negb orb].
  - destruct (parsable_area_lookup _ _ _ Ha) as (Hmap & _ & _).
    rewrite HD in Hmap. vm_compute in Hmap. injection Hmap as <-.
    cbn [SupportString negb]. by rewrite (proj2 (Z.leb_gt k 0)) by lia.
  - by rewrite (proj2 (Z.leb_gt k 15)) by lia.
Qed.

Lemma dot_number_above_15_witness :
  ParseAddress "CIO0.20" = Err ErrInvalidAddress /\
  ParseAddress "D10.20" = Ok (MkParsedAddress "D" 0x82 0 10 (-1) 20 ByteOrderLow false true).
Proof.
  split.
  - apply (dot_number_above_15 "CIO" 0 (MkAreaInfo 0xb0 "CIO" false true true) 0 20);
      [by left; split_and!; [left|..]|vm_compute; intuition congruence..].
  - apply (dot_number_above_15 "D" 0 (MkAreaInfo 0x82 "Data Memory" false true true) 10 20);
      [left; split_and!; [cbn; tauto|done..]|vm_compute; intuition congruence..].
Defined.

(** ** Properties of the value codecs *)

(** The Go type of a value, for the fixed-size data types. *)
Definition has_type (dt : DataType) (v : goval) : Prop :=
  match v with
  | VUint8 _ => dt = DataTypeUINT8 | VInt8 _ => dt = DataTypeINT8
  | VUint16 _ => dt = DataTypeUINT16 | VInt16 _ => dt = DataTypeINT16
  | VUint32 _ => dt = DataTypeUINT32 | VInt32 _ => dt = DataTypeINT32
  | VUint64 _ => dt = DataTypeUINT64 | VInt64 _ => dt = DataTypeINT64
  | VFloat32 _ => dt = DataTypeFLOAT | VFloat64 _ => dt = DataTypeDOUBLE
  | _ => False
  end.

Lemma sub_prefix n (bs rest : bytes) : length bs = n -> @sub error _ (bs ++ rest) 0 n = Ok bs.
Proof.
  intros <-. rewrite sub_ok by (rewrite length_app; lia).
  by rewrite Nat.sub_0_r, drop_0, take_app_length.
Qed.

Lemma len_ltb_app n (bs rest : bytes) : length bs = n -> (len (bs ++ rest) <? Z.of_nat n) = false.
Proof. intros <-. apply Z.ltb_ge. rewrite len_app. pose proof (len_nonneg rest). unfold len at 1. lia. Qed.

(** The body of a numeric case of [DecodeValue] on encoded bytes. *)
Lemma number_roundtrip bo n x rest (f : Z -> goval) :
  in_u (8 * Z.of_nat n) x ->
  (if len (bo_bytes bo n x ++ rest) <? Z.of_nat n then Err ErrDataTooShort
   else d ← sub (bo_bytes bo n x ++ rest) 0 n; Ok (f (bo_val bo d))) = Ok (f x).
Proof.
  intros Hx. rewrite len_ltb_app, sub_prefix by apply length_bo_bytes.
  cbn. by rewrite bo_val_bytes.
Qed.

Lemma byte_roundtrip x rest (f : Z -> goval) :
  (if len ([x] ++ rest) <? 1 then Err ErrDataTooShort
   else b ← idx ([x] ++ rest) 0; Ok (f b)) = @Ok error _ (f x).
Proof. by rewrite (len_ltb_app 1). Qed.

(** Normalise the dispatch on a concrete data type. *)
Ltac dispatch :=
  repeat match goal with
  | |- context [bool_decide (?a = ?b :> string)] =>
    let v := eval vm_compute in (bool_decide (a = b)) in
    change (bool_decide (a = b)) with v; cbv iota
  end.

Lemma value_codec `{GoFloat} v dt addr rest :
  goval_ok v -> has_type dt v -> addr_IsBit addr = false ->
  exists bs, EncodeValue v dt addr = Ok bs /\ bytes_ok bs /\
    DataTypeSize dt = Ok (len bs) /\ DecodeValue (bs ++ rest) dt addr = Ok v.
Proof.
  intros Hv Ht Hb. unfold EncodeValue, DecodeValue. rewrite Hb.
  generalize (value_order addr). intros bo.
  destruct v; cbn in Hv, Ht; try done; subst dt; dispatch.
  all: eexists; split; [reflexivity|].
  all: split; [auto with fins|].
  all: split; [unfold len; rewrite ?length_bo_bytes; vm_compute; reflexivity|].
  all: first
    [ apply (byte_roundtrip _ _ VUint8) | apply (number_roundtrip _ 2 _ _ VUint16); done
    | apply (number_roundtrip _ 4 _ _ VUint32); done | apply (number_roundtrip _ 8 _ _ VUint64); done
    | apply (number_roundtrip _ 4 _ _ VFloat32); done | apply (number_roundtrip _ 8 _ _ VFloat64); done
    | etransitivity; [first
        [ apply (byte_roundtrip _ _ (fun z => VInt8 (s8 z)))
        | apply (number_roundtrip _ 2 _ _ (fun z => VInt16 (s16 z))); by apply uwrap_in_u
        | apply (number_roundtrip _ 4 _ _ (fun z => VInt32 (s32 z))); by apply uwrap_in_u
        | apply (number_roundtrip _ 8 _ _ (fun z => VInt64 (s64 z))); by apply uwrap_in_u ]
      | cbv beta; by rewrite swrap_uwrap by (done || lia) ] ].
Qed.

(** *** Strings *)

Lemma until_nul_zeros l n : until_nul (l ++ replicate n 0) = until_nul l.
Proof.
  induction l as [|b l IH]; cbn; [by destruct n|]. by rewrite IH.
Qed.

Lemma until_nul_id l : Forall (fun b => b <> 0) l -> until_nul l = l.
Proof. induction 1 as [|b l Hb _ IH]; cbn; [done|]. by rewrite (proj2 (Z.eqb_neq b 0) Hb), IH. Qed.

(** [make] then [copy]: pad with zeros or cut. *)
Lemma copy_into_zeros l n :
  copy_at 0 l (make_bytes n) = take n l ++ replicate (n - length l) 0.
Proof.
  cbn. unfold make_bytes. revert n. induction l as [|b l IH]; intros [|n]; cbn; try done.
  by rewrite IH.
Qed.

Lemma string_len_bounds addr s : 0 <= string_len addr s.
Proof. unfold string_len. pose proof (len_nonneg (bytes_of_string s)). repeat case_match; zbool; lia. Qed.

(** The bytes a string is stored as. *)
Definition stored_string (addr : option ParsedAddress) (s : string) : bytes :=
  take (Z.to_nat (string_len addr s)) (bytes_of_string s) ++
  replicate (Z.to_nat (string_len addr s) - length (bytes_of_string s)) 0.

Lemma len_stored_string addr s : len (stored_string addr s) = string_len addr s.
Proof.
  pose proof (string_len_bounds addr s). unfold stored_string, len. rewrite length_app, length_take, length_replicate. lia.
Qed.

Lemma stored_string_ok addr s : bytes_ok (stored_string addr s).
Proof. apply Forall_app. split; [apply Forall_take, bytes_of_string_ok|]. by apply Forall_replicate. Qed.

(** What is read back of a value: a string is cut to its field and at its first NUL. *)
Definition read_back (addr : option ParsedAddress) (v : goval) : goval :=
  match v with
  | VString s => VString (string_of_bytes (until_nul (take (Z.to_nat (string_len addr s)) (bytes_of_string s))))
  | _ => v
  end.

Lemma read_back_id addr s :
  Forall (fun b => b <> 0) (bytes_of_string s) -> len (bytes_of_string s) <= string_len addr s ->
  read_back addr (VString s) = VString s.
Proof.
  intros Hn Hl. cbn [read_back]. unfold len in Hl. rewrite take_ge by lia.
  by rewrite until_nul_id, string_of_bytes_of_string.
Qed.

Lemma string_codec `{GoFloat} s addr rest :
  addr_IsBit addr = false -> string_len addr s <= maxAlloc -> has_field addr = true \/ rest = [] ->
  EncodeValue (VString s) DataTypeSTRING addr = Ok (stored_string addr s) /\
  DecodeValue (stored_string addr s ++ rest) DataTypeSTRING addr = Ok (read_back addr (VString s)).
Proof.
  intros Hb Hmax Hrest. pose proof (len_nonneg rest). pose proof (string_len_bounds addr s) as Hsl.
  pose proof (len_stored_string addr s) as Hlen.
  unfold EncodeValue, DecodeValue. rewrite Hb. dispatch. rewrite makeslice_ok by lia. cbn [mbind res_bind].
  rewrite copy_into_zeros. split; [done|].
  match goal with |- context [zsub _ 0 ?n] => assert (n = string_len addr s) as Hn end.
  { rewrite len_app, Hlen. unfold has_field, string_len in *. destruct addr as [a|].
    - destruct (0 <? StringLen a); cbn [andb]; [case_match; zbool; lia|]. destruct Hrest as [| ->]; [done|]. rewrite len_nil. lia.
    - destruct Hrest as [| ->]; [done|]. rewrite len_nil. lia. }
  rewrite Hn, zsub_ok by (rewrite ?len_app; lia). rewrite Z.sub_0_r, drop_0. cbn [mbind res_bind read_back].
  rewrite take_app_length' by (unfold len in Hlen; lia). unfold stored_string. by rewrite until_nul_zeros.
Qed.

(** *** All values *)

(** The values a point of data type [dt] at [addr] takes: booleans on a bit address, strings
    for STRING, else numbers of the Go type of the data type. *)
Definition value_of (dt : DataType) (addr : option ParsedAddress) (v : goval) : Prop :=
  match v with
  | VBool _ => addr_IsBit addr = true
  | VString s => dt = DataTypeSTRING /\ addr_IsBit addr = false /\ string_len addr s <= maxAlloc
  | _ => has_type dt v /\ addr_IsBit addr = false
  end.

(** The number of bytes a value is stored in. *)
Definition value_len (dt : DataType) (addr : option ParsedAddress) (v : goval) : Z :=
  match v with
  | VBool _ => 1
  | VString s => string_len addr s
  | _ => match DataTypeSize dt with Ok n => n | _ => 0 end
  end.

(** Whether the end of the value follows from its type and address. *)
Definition delimited (addr : option ParsedAddress) (v : goval) : bool :=
  match v with VString _ => has_field addr | _ => true end.

Lemma bool_codec `{GoFloat} b dt addr rest :
  addr_IsBit addr = true ->
  EncodeValue (VBool b) dt addr = Ok [Z.b2z b] /\ DecodeValue (Z.b2z b :: rest) dt addr = Ok (VBool b).
Proof.
  intros Hb. unfold EncodeValue, DecodeValue. rewrite Hb. pose proof (len_nonneg rest).
  rewrite (proj2 (Z.ltb_ge _ _)) by (rewrite len_cons; lia). by destruct b.
Qed.

(** C11: values round-trip: a value that a point of its data type takes (a number of the
    Go type of one of the ten number types, a boolean on a bit address, a string of at most
    2^48 bytes for STRING) is encoded without error to as many bytes as its type or field
    says, and decoding these bytes gives it back in either byte order, whatever follows
    them when the end of the value is known: numbers and booleans unchanged, a string cut to the length of its
    field and at its first NUL, so that a string without NUL that fits its field comes
    back unchanged as well. *)
Theorem value_roundtrip `{GoFloat} v dt addr rest :
  goval_ok v -> value_of dt addr v -> delimited addr v = true \/ rest = [] ->
  exists bs, EncodeValue v dt addr = Ok bs /\ bytes_ok bs /\ len bs = value_len dt addr v /\
    DecodeValue (bs ++ rest) dt addr = Ok (read_back addr v) /\
    match v with
    | VString s => Forall (fun b => b <> 0) (bytes_of_string s) -> len (bytes_of_string s) <= string_len addr s ->
        read_back addr v = v
    | _ => read_back addr v = v
    end.
Proof.
  intros Hv Ho Hd. assert (has_type dt v -> addr_IsBit addr = false -> read_back addr v = v ->
    exists bs, EncodeValue v dt addr = Ok bs /\ bytes_ok bs /\ len bs = (match DataTypeSize dt with Ok n => n | _ => 0 end) /\
      DecodeValue (bs ++ rest) dt addr = Ok (read_back addr v) /\ read_back addr v = v) as Hnum.
  { intros Ht Hb Hr. destruct (value_codec v dt addr rest Hv Ht Hb) as (bs & He & Hbs & Hs & Hdec).
    exists bs. by rewrite Hs, Hr. }
  destruct v; try (by destruct Ho; apply Hnum).
  - destruct (bool_codec b dt addr rest Ho) as [He Hdec]. exists [Z.b2z b]. split_and!; try done; destruct b; by_decide.
  - destruct Ho as (-> & Hb & Hmax). destruct (string_codec s addr rest Hb Hmax Hd) as [He Hdec].
    exists (stored_string addr s). split_and!; [done|apply stored_string_ok|apply len_stored_string|done|apply read_back_id].
Qed.

(** A string of five letters in a field of four and a negative number in low byte order. *)
Lemma value_roundtrip_witness :
  (exists bs, @EncodeValue simple_float (VInt32 (-123456789)) DataTypeINT32 None = Ok bs /\ len bs = 4 /\
    DecodeValue (bs ++ [9; 9]) DataTypeINT32 None = Ok (VInt32 (-123456789))) /\
  (exists bs, @EncodeValue simple_float (VString "Hello") DataTypeSTRING
      (Some (MkParsedAddress "D" 0x82 0 600 (-1) 4 ByteOrderLow false true)) = Ok bs /\ len bs = 4 /\
    DecodeValue (bs ++ [9; 9]) DataTypeSTRING
      (Some (MkParsedAddress "D" 0x82 0 600 (-1) 4 ByteOrderLow false true)) = Ok (VString "Hell")).
Proof.
  split.
  - destruct (@value_roundtrip simple_float (VInt32 (-123456789)) DataTypeINT32 None [9; 9]) as (bs & He & _ & Hl & Hd & _);
      [by_decide|split; reflexivity|by left|]. by exists bs.
  - destruct (@value_roundtrip simple_float (VString "Hello") DataTypeSTRING
      (Some (MkParsedAddress "D" 0x82 0 600 (-1) 4 ByteOrderLow false true)) [9; 9]) as (bs & He & _ & Hl & Hd & _);
      [done|split_and!; try reflexivity; vm_compute; discriminate|by left|]. exists bs. split; [exact He|]. split; [exact Hl|exact Hd].
Defined.

(** *** Bits and errors *)

(** The data types [EncodeValue] knows. *)
Definition encodable : list DataType :=
  [DataTypeUINT8; DataTypeINT8; DataTypeUINT16; DataTypeINT16; DataTypeUINT32; DataTypeINT32;
   DataTypeUINT64; DataTypeINT64; DataTypeFLOAT; DataTypeDOUBLE; DataTypeSTRING].

(** The minimal number of bytes [DecodeValue] reads. *)
Definition decode_min (dt : DataType) (addr : option ParsedAddress) : Z :=
  if addr_IsBit addr || bool_decide (dt = DataTypeBIT) then 1
  else match DataTypeSize dt with Ok n => n | _ => 0 end.

(** A string field longer than a slice can be. *)
Definition huge_string (v : goval) (dt : DataType) (addr : option ParsedAddress) : Prop :=
  addr_IsBit addr = false /\ dt = DataTypeSTRING /\ exists s, v = VString s /\ maxAlloc < string_len addr s.

Lemma EncodeValue_cases `{GoFloat} v dt addr :
  goval_ok v ->
  match EncodeValue v dt addr with
  | Ok bs => bytes_ok bs /\ (addr_IsBit addr = true \/ In dt encodable)
  | Err e => e = ErrInvalidDataType \/ (e = ErrUnsupportedDataType /\ addr_IsBit addr = false /\ ~ In dt encodable)
  | Panic => huge_string v dt addr
  end.
Proof.
  intros Hv. unfold EncodeValue. destruct (addr_IsBit addr) eqn:Ha.
  { destruct v; try (by left). destruct b; (split; [by_decide|by left]). }
  generalize (value_order addr). intros bo.
  do 10 (case_bool_decide; [subst dt; destruct v; try (by left); cbn in Hv;
    (split; [auto 6 using Forall_copy_at with fins|right; cbn; tauto])|]).
  case_bool_decide.
  { subst dt. destruct v; try (by left). pose proof (string_len_bounds addr s).
    destruct (decide (string_len addr s <= maxAlloc)).
    - rewrite makeslice_ok by lia. cbn [mbind res_bind].
      split; [auto 6 using Forall_copy_at with fins|right; cbn; tauto].
    - unfold makeslice. rewrite (proj2 (Z.ltb_lt maxAlloc _)), orb_true_r by lia. cbn.
      split_and!; [done..|]. exists s. split; [done|lia]. }
  right. split_and!; [done..|]. unfold encodable. cbn. intuition congruence.
Qed.

Lemma DecodeValue_cases data dt addr :
  match DecodeValue data dt addr with
  | Ok _ => decode_min dt addr <= len data
  | Err ErrDataTooShort => len data < decode_min dt addr
  | Err e => e = ErrUnsupportedDataType /\ addr_IsBit addr = false /\ ~ In dt (DataTypeBIT :: encodable)
  | Panic => False
  end.
Proof.
  unfold DecodeValue, decode_min. pose proof (len_nonneg data).
  destruct (addr_IsBit addr) eqn:Ha; cbn [orb].
  { destruct (len data <? 1) eqn:Hl; zbool; [done|]. destruct data; [by rewrite len_nil in *|done]. }
  generalize (value_order addr). intros bo.
  do 10 (case_bool_decide; [subst dt; dispatch;
    match goal with |- context [len data <? ?n] => destruct (len data <? n) eqn:Hl end; zbool; [done|];
    first [rewrite sub_ok by (unfold len in *; lia); done|destruct data; [by rewrite len_nil in *|done]]|]).
  case_bool_decide.
  { subst dt. dispatch.
    match goal with |- context [zsub data 0 ?n] => assert (0 <= n <= len data) as Hn end.
    { destruct addr as [a|]; [|lia]. destruct (_ && _) eqn:Hc; zbool; lia. }
    by rewrite zsub_ok by lia. }
  case_bool_decide.
  { subst dt. dispatch. destruct (len data <? 1) eqn:Hl; zbool; [done|].
    destruct data; [by rewrite len_nil in *|done]. }
  split_and!; [done..|]. cbn. intuition congruence.
Qed.

Lemma ParseAddress_not_panic s : ParseAddress s <> Panic.
Proof. unfold ParseAddress, parse_suffix. by repeat case_match. Qed.

(** Bit access takes and yields booleans only: on a bit address a boolean
    round-trips through one byte whatever the data type, and any other value is
    refused; on a word address data type BIT is not encodable at all. *)
Theorem bit_values `{GoFloat} b v dt a rest :
  IsBit a = true ->
  (exists x, EncodeValue (VBool b) dt (Some a) = Ok [x] /\
     DecodeValue (x :: rest) dt (Some a) = Ok (VBool b)) /\
  ((forall c, v <> VBool c) -> EncodeValue v dt (Some a) = Err ErrInvalidDataType) /\
  (forall addr, addr_IsBit addr = false -> EncodeValue v DataTypeBIT addr = Err ErrUnsupportedDataType).
Proof.
  intros Hb. split_and!.
  - exists (if b then 1 else 0). unfold EncodeValue, DecodeValue, addr_IsBit. rewrite Hb.
    pose proof (len_nonneg rest). rewrite (proj2 (Z.ltb_ge _ _)) by (rewrite len_cons; lia).
    by destruct b.
  - intros Hv. unfold EncodeValue, addr_IsBit. rewrite Hb. destruct v; try done. by destruct (Hv b0).
  - intros addr Ha. unfold EncodeValue. rewrite Ha. by dispatch.
Qed.

Lemma bit_values_witness :
  exists x, @EncodeValue simple_float (VBool true) DataTypeBIT (Some sample_address) = Ok [x] /\
     DecodeValue [x] DataTypeBIT (Some sample_address) = Ok (VBool true).
Proof.
  destruct (@bit_values simple_float true VNil DataTypeBIT sample_address []) as (H & _); [reflexivity|exact H].
Defined.

(** [EncodeValue] on every value: for a value that fits its Go type it yields bytes; it
    fails only with [ErrInvalidDataType] or, for a data type outside the list on a word
    address, with [ErrUnsupportedDataType]; and it panics exactly on a string whose field
    is longer than a slice can be. *)
Theorem encode_total `{GoFloat} v dt addr :
  goval_ok v ->
  match EncodeValue v dt addr with
  | Ok bs => bytes_ok bs /\ (addr_IsBit addr = true \/ In dt encodable)
  | Err e => e = ErrInvalidDataType \/ (e = ErrUnsupportedDataType /\ addr_IsBit addr = false /\ ~ In dt encodable)
  | Panic => huge_string v dt addr
  end /\
  (huge_string v dt addr -> EncodeValue v dt addr = Panic).
Proof.
  intros Hv. split; [by apply EncodeValue_cases|]. intros (Hb & -> & s & -> & Hs).
  unfold EncodeValue. rewrite Hb. dispatch. unfold makeslice. by rewrite (proj2 (Z.ltb_lt maxAlloc _)), orb_true_r by lia.
Qed.

Lemma encode_total_witness :
  @EncodeValue simple_float (VString "x") DataTypeSTRING
    (Some (MkParsedAddress "D" 0x82 0 0 (-1) 9223372036854775807 ByteOrderLow false true)) = Panic /\
  ParseAddress "D0.9223372036854775807" = Ok (MkParsedAddress "D" 0x82 0 0 (-1) 9223372036854775807 ByteOrderLow false true).
Proof.
  split; [|vm_compute; reflexivity].
  apply (proj2 (@encode_total simple_float (VString "x") DataTypeSTRING
    (Some (MkParsedAddress "D" 0x82 0 0 (-1) 9223372036854775807 ByteOrderLow false true)) I)).
  split; [reflexivity|]. split; [reflexivity|]. exists "x". split; [reflexivity|]. vm_compute. reflexivity.
Defined.

(** [DecodeValue] never panics; it fails with [ErrDataTooShort] exactly when
    the data is shorter than the type needs (one byte for bit access), and with
    [ErrUnsupportedDataType] exactly for an unknown data type on a word address. *)
Theorem decode_total data dt addr :
  match DecodeValue data dt addr with
  | Ok _ => decode_min dt addr <= len data
  | Err ErrDataTooShort => len data < decode_min dt addr
  | Err e => e = ErrUnsupportedDataType /\ addr_IsBit addr = false /\ ~ In dt (DataTypeBIT :: encodable)
  | Panic => False
  end.
Proof. apply DecodeValue_cases. Qed.

(** The Go type of a decoded value: a boolean for bit access and for data type BIT, a
    string for STRING, else the number type the data type names. *)
Definition decoded_as (dt : DataType) (addr : option ParsedAddress) (v : goval) : Prop :=
  if addr_IsBit addr then exists b, v = VBool b
  else has_type dt v \/ (dt = DataTypeBIT /\ exists b, v = VBool b) \/ (dt = DataTypeSTRING /\ exists s, v = VString s).

Lemma number_typed n data (bo : byte_order) (f : bytes -> goval) (P : goval -> Prop) v :
  bytes_ok data -> (forall d, in_u (8 * Z.of_nat n) (bo_val bo d) -> P (f d)) ->
  (if len data <? Z.of_nat n then Err ErrDataTooShort else d ← sub data 0 n; Ok (f d)) = Ok v -> P v.
Proof.
  intros Hd HP. destruct (len data <? Z.of_nat n) eqn:E; [done|]. zbool. unfold len in E.
  rewrite sub_ok by lia. cbn [mbind res_bind]. intros [= <-]. apply HP.
  assert (length (take (n - 0) (drop 0 data)) = n) as Hl by (rewrite length_take, drop_0; lia).
  pose proof (bo_val_bound bo (take (n - 0) (drop 0 data)) ltac:(auto with fins)) as Hb. unfold len in Hb. rewrite Hl in Hb.
  unfold in_u. by rewrite Z.pow_mul_r by lia.
Qed.

Lemma byte_typed data (f : Z -> goval) (P : goval -> Prop) v :
  bytes_ok data -> (forall x, in_u 8 x -> P (f x)) ->
  (if len data <? 1 then Err ErrDataTooShort else b ← idx data 0; Ok (f b)) = Ok v -> P v.
Proof.
  intros Hd HP. destruct (len data <? 1); [done|]. destruct Hd as [|b data Hb _]; [done|]. cbn. intros [= <-]. by apply HP.
Qed.

(** Name the conclusion of the goal as a predicate of [v]. *)
Ltac as_predicate v P :=
  match goal with |- ?H -> ?G =>
    let Q := eval pattern v in G in match Q with ?F v => set (P := F); change (H -> P v) end
  end.

(** C38: decoding is typed: from any bytes, whatever data type and address are asked for, a
    value that [DecodeValue] returns has the Go type of the data type, a boolean for bit
    access, and lies in the range of that type. *)
Theorem decode_typed data dt addr v :
  bytes_ok data -> DecodeValue data dt addr = Ok v -> goval_ok v /\ decoded_as dt addr v.
Proof.
  intros Hd. unfold DecodeValue, decoded_as. destruct (addr_IsBit addr).
  { as_predicate v P. apply (byte_typed _ _ P _ Hd). intros x _. split; [done|by eexists]. }
  generalize (value_order addr). intros bo.
  do 10 (case_bool_decide; [subst dt; as_predicate v P;
    first [apply (byte_typed _ _ P _ Hd)|apply (number_typed 2 _ bo _ P _ Hd)|apply (number_typed 4 _ bo _ P _ Hd)
          |apply (number_typed 8 _ bo _ P _ Hd)]; intros x Hx; (split; [|by left]); first [exact Hx|by apply swrap_in_s]|]).
  case_bool_decide.
  { subst dt. intros (d & _ & [= <-])%res_bind_Ok. split; [done|]. right. right. split; [done|by eexists]. }
  case_bool_decide; [|done]. subst dt. as_predicate v P. apply (byte_typed _ _ P _ Hd). intros x _. split; [done|].
  right. left. split; [done|by eexists].
Qed.

Lemma decode_typed_witness : goval_ok (VInt16 (-2)) /\ decoded_as DataTypeINT16 None (VInt16 (-2)).
Proof. apply (decode_typed [0xff; 0xfe] DataTypeINT16 None); [by_decide|vm_compute; reflexivity]. Defined.

(** ** Properties of the area codes *)

(** The bit code of a word area and the word code of a bit area are inverse
    to each other where both are defined: each EM bank and each of the areas CIO, W,
    H, A, D, P keeps its identity when an access changes between word and bit; the
    timer and counter areas have no bit code. *)
Theorem area_codes_inverse :
  (forall w b, GetBitAreaCode w = Ok b -> GetWordAreaCode b = Ok w /\ IsBitArea b = true) /\
  (forall w b, in_u 8 b -> GetWordAreaCode b = Ok w -> b <> MemoryAreaFlagBit -> GetBitAreaCode w = Ok b) /\
  (exists e, GetBitAreaCode MemoryAreaTimerPV = Err e).
Proof.
  split_and!.
  - intros w b. unfold GetBitAreaCode.
    repeat match goal with |- context [w =? ?k] => destruct (Z.eqb_spec w k) as [->|_]; [by vm_compute; intros [= <-]|] end.
    destruct ((MemoryAreaEM0Word <=? w) && (w <=? MemoryAreaEM15Word)) eqn:Hr; [|done]. zbool. intros [= <-].
    unfold MemoryAreaEM0Word, MemoryAreaEM15Word in *. enum w 0xa0 16; by vm_compute.
  - intros w b Hb8. unfold GetWordAreaCode.
    repeat match goal with |- context [b =? ?k] => destruct (Z.eqb_spec b k) as [->|_]; [by vm_compute; intros [= <-]|] end.
    destruct ((MemoryAreaEM0Bit <=? b) && (b <=? MemoryAreaEM15Bit)) eqn:Hr; [|done]. zbool. intros [= <-] _.
    unfold MemoryAreaEM0Bit, MemoryAreaEM15Bit in *. enum b 0x20 16; by vm_compute.
  - eexists. vm_compute. reflexivity.
Qed.
