(* ===== verification/Interfaces.v ===== *)
(** * Interfaces between components

    What [Scheduler] ([src/scheduler.go]) uses of its surroundings, as type
    classes: the memory operations of [Transport], the clock, and the choices of the
    Go runtime (iteration order of a map, order of equal elements in [sort.Slice]).
    The scheduler's theorems are proved against the laws stated here; [Transport.v]
    and [Loopback.v] provide the implementation. *)
From S2P Require Import Prelude Types Protocol.

(** ** The transport, as the scheduler calls it

    A call takes the state of the outside world and returns the new one.  [Now] is
    [time.Now()] in nanoseconds, [Sleep] is [time.Sleep]. *)
Class MemoryTransport (T : Type) := {
  mt_ReadMemory : T -> Z -> Z -> Z -> T * res error bytes;
  mt_WriteMemory : T -> Z -> Z -> Z -> bytes -> T * res error unit;
  mt_ReadBits : T -> Z -> Z -> Z -> Z -> T * res error (list bool);
  mt_WriteBits : T -> Z -> Z -> Z -> list bool -> T * res error unit;
  mt_IsConnected : T -> bool;
  Now : T -> T * Z;
  Sleep : T -> Z -> T }.

(** ** Memory behind the transport

    The contents a PLC holds: for an area code, the number of words it has, its
    bytes, and the bits by word and bit number. *)
Record memory := MkMemory {
  m_words : Z -> Z;
  m_byte : Z -> Z -> Z;
  m_bits : Z -> Z -> Z -> option bool }.

Definition m_bytes (M : memory) (area start n : Z) : bytes :=
  m_byte M area <$> seqZ start n.

Lemma len_m_bytes M area start n : 0 <= n -> len (m_bytes M area start n) = n.
Proof. intros. unfold len, m_bytes. rewrite length_fmap, length_seqZ. lia. Qed.

(** A slice of a read is the read of the slice. *)
Lemma m_bytes_slice M area start n i k :
  0 <= i -> 0 <= k -> i + k <= n ->
  take (Z.to_nat k) (drop (Z.to_nat i) (m_bytes M area start n)) = m_bytes M area (start + i) k.
Proof.
  intros Hi Hk Hn. unfold m_bytes. apply list_eq. intros j.
  destruct (decide (Z.of_nat j < k)).
  - rewrite lookup_take_lt, lookup_drop, !list_lookup_fmap, !lookup_seqZ_lt by lia. cbn. do 2 f_equal. lia.
  - rewrite lookup_take_ge, list_lookup_fmap, lookup_seqZ_ge by lia. done.
Qed.

(** The laws: while nobody writes, successful reads return the contents [M] (two
    bytes per element, except through a bit code); the calls keep that; and when the
    connection is [reliable] a read inside the area succeeds.  A failed read may have
    any reason. *)
Class StableMemory (T : Type) `{MemoryTransport T} := {
  serves : T -> memory -> Prop;
  reliable : T -> Prop;
  read_memory_law t M area a n t' r :
    serves t M -> in_u 8 area -> IsBitArea area = false -> in_u 16 a -> in_u 16 n ->
    mt_ReadMemory t area a n = (t', r) ->
    serves t' M /\ (reliable t -> reliable t') /\
    match r with
    | Ok d => d = m_bytes M area (2 * a) (2 * n)
    | Err _ => reliable t -> m_words M area < a + n
    | Panic => False
    end;
  read_bit_law t M area a b t' r :
    serves t M -> in_u 8 area -> in_u 16 a -> in_u 8 b ->
    mt_ReadBits t area a b 1 = (t', r) ->
    serves t' M /\ (reliable t -> reliable t') /\
    match r with
    | Ok d => exists x, d = [x] /\ m_bits M area a b = Some x
    | Err _ => reliable t -> m_bits M area a b = None
    | Panic => False
    end;
  now_law t M : serves t M -> serves (fst (Now t)) M /\ (reliable t -> reliable (fst (Now t)));
  sleep_law t M d : serves t M -> serves (Sleep t d) M /\ (reliable t -> reliable (Sleep t d)) }.

(** The clock does not go backwards, and [Sleep] pauses for at least its argument. *)
Class SteadyClock (T : Type) `{MemoryTransport T} := {
  now_now_law t : snd (Now t) <= snd (Now (fst (Now t)));
  now_sleep_law t d : snd (Now t) + d <= snd (Now (Sleep (fst (Now t)) d)) }.

(** ** The Go runtime

    [range] over a map visits its entries in some order; [sort.Slice] returns some
    sorted rearrangement. *)
Class GoRuntime := {
  map_order {A} : list A -> list A;
  map_order_perm {A} (l : list A) : map_order l ≡ₚ l;
  sort_slice {A} (less : A -> A -> bool) : list A -> list A;
  sort_slice_perm {A} (less : A -> A -> bool) l : sort_slice less l ≡ₚ l;
  sort_slice_sorted {A} (less : A -> A -> bool) l :
    (forall x y z, less x y = false -> less y z = false -> less x z = false) ->
    (forall x y, less x y = true -> less y x = false) ->
    forall i j x y, (i < j)%nat -> sort_slice less l !! i = Some x -> sort_slice less l !! j = Some y ->
    less y x = false }.

(** A runtime that keeps the insertion order of a map and sorts by merging. *)
Section merging.
Context {A : Type} (less : A -> A -> bool).
Hypothesis less_trans : forall x y z, less x y = false -> less y z = false -> less x z = false.
Hypothesis less_asym : forall x y, less x y = true -> less y x = false.

Definition not_greater (x y : A) : Prop := less y x = false.

#[local] Instance not_greater_dec : RelDecision not_greater.
Proof. intros x y. unfold not_greater. apply _. Defined.

#[local] Instance not_greater_total : Total not_greater.
Proof using less_asym.
  intros x y. unfold not_greater. destruct (less y x) eqn:E; [|by left].
  right. by apply less_asym.
Qed.

#[local] Instance not_greater_trans : Transitive not_greater.
Proof using less_trans. intros x y z H1 H2. unfold not_greater in *. by apply (less_trans z y x). Qed.

Lemma merge_sort_ordered l i j x y :
  (i < j)%nat -> merge_sort not_greater l !! i = Some x -> merge_sort not_greater l !! j = Some y ->
  less y x = false.
Proof using less_trans less_asym.
  pose proof (StronglySorted_merge_sort not_greater l) as Hs.
  generalize dependent (merge_sort not_greater l). intros m Hs. revert i j.
  induction Hs as [|a m Hs IH Ha]; intros i j Hij Hi Hj; [done|].
  destruct j as [|j]; [lia|]. destruct i as [|i]; cbn in *.
  - simplify_eq. by eapply Forall_lookup in Ha.
  - eapply (IH i j); [lia|done..].
Qed.
End merging.

Definition sort_by {A} (less : A -> A -> bool) : list A -> list A :=
  @merge_sort A (not_greater less) (fun x y => decide (less y x = false)).

Definition merge_runtime : GoRuntime.
Proof.
  refine {| map_order := fun A l => l; sort_slice := fun A less => sort_by less |}.
  - done.
  - intros. apply merge_sort_Permutation.
  - intros A less l Ht Ha i j x y. apply (merge_sort_ordered less Ht Ha).
Defined.

(** ** A simple world

    A fixed memory read over a connection that never fails, with a clock that
    advances one nanosecond per reading; writes are refused. *)
Definition world : Type := memory * Z.

Definition world_transport : MemoryTransport world := {|
  mt_ReadMemory := fun w area a n =>
    (w, if m_words (fst w) area <? a + n then Err (ErrFINS 0) else Ok (m_bytes (fst w) area (2 * a) (2 * n)));
  mt_WriteMemory := fun w _ _ _ _ => (w, Err (ErrFINS 0));
  mt_ReadBits := fun w area a b n =>
    (w, match m_bits (fst w) area a b with Some x => Ok [x] | None => Err (ErrFINS 0) end);
  mt_WriteBits := fun w _ _ _ _ => (w, Err (ErrFINS 0));
  mt_IsConnected := fun _ => true;
  Now := fun w => ((fst w, snd w + 1), snd w);
  Sleep := fun w d => (fst w, snd w + Z.max 0 d) |}.

Definition world_stable : @StableMemory world world_transport.
Proof.
  refine {| serves := fun w M => fst w = M; reliable := fun _ => True |}.
  - intros t M area a n t' r <- _ _ _ _ [= <- <-]. split_and!; try done. destruct (_ <? _) eqn:E; zbool; auto.
  - intros t M area a b t' r <- _ _ _ [= <- <-]. split_and!; try done. destruct (m_bits _ _ _ _); eauto.
  - done.
  - done.
Defined.

Definition world_clock : @SteadyClock world world_transport.
Proof. split; intros; cbn; lia. Defined.
