(* ===== verification/Scheduler.v ===== *)
(** * The request scheduler ([src/scheduler.go])

    [ReadPoints] parses the addresses, batches the points of an area into few
    memory reads, and cuts each point's value out of the data read; [WritePoint]
    encodes and writes one value.  The functions are over any transport and any Go
    runtime ([Interfaces.v]). *)
From S2P Require Import Prelude Types Protocol Floats Decoder Interfaces.

(** Arithmetic on [int]. *)
Notation "a +i b" := (s64 (a + b)) (at level 50, left associativity) : go_scope.
Notation "a -i b" := (s64 (a - b)) (at level 50, left associativity) : go_scope.
Notation "a *i b" := (s64 (a * b)) (at level 40, left associativity) : go_scope.
Local Open Scope go_scope.

(** ** State *)

Record Scheduler := MkScheduler {
  maxFrameLength : Z; minInterval : Z;
  totalRequests : Z; successCount : Z; failureCount : Z;
  lastRequestTime : Z }.

(** A configuration is a [map[string]interface{}]. *)
Abbreviation config := (gmap string goval).

Definition Millisecond : Z := 1000000.

(** [v, ok := cfg[k].(float64)], else [v, ok := cfg[k].(int)], as an [int]. *)
Definition cfg_int `{GoFloat} (cfg : config) (k : string) : option Z :=
  match cfg !! k with
  | Some (VFloat64 v) => Some (f64_to_s 64 v)
  | Some (VInt v) => Some v
  | _ => None
  end.

Definition NewScheduler `{GoFloat} (cfg : config) : Scheduler :=
  MkScheduler (default 64 (cfg_int cfg "maxFrameLength"))
    (default 0 ((fun v => v *i Millisecond) <$> cfg_int cfg "minInterval"))
    0 0 0 0.

Definition add_total (s : Scheduler) : Scheduler :=
  MkScheduler (maxFrameLength s) (minInterval s) (totalRequests s +i 1) (successCount s) (failureCount s) (lastRequestTime s).
Definition add_success (s : Scheduler) : Scheduler :=
  MkScheduler (maxFrameLength s) (minInterval s) (totalRequests s) (successCount s +i 1) (failureCount s) (lastRequestTime s).
Definition add_failure (s : Scheduler) : Scheduler :=
  MkScheduler (maxFrameLength s) (minInterval s) (totalRequests s) (successCount s) (failureCount s +i 1) (lastRequestTime s).

Definition GetStats (s : Scheduler) : SchedulerStats :=
  MkSchedulerStats (totalRequests s) (successCount s) (failureCount s).
Definition ResetStats (s : Scheduler) : Scheduler :=
  MkScheduler (maxFrameLength s) (minInterval s) 0 0 0 (lastRequestTime s).
Definition MaxFrameLength (s : Scheduler) : Z := maxFrameLength s.
Definition SetMaxFrameLength (s : Scheduler) (length : Z) : Scheduler :=
  if 0 <? length
  then MkScheduler length (minInterval s) (totalRequests s) (successCount s) (failureCount s) (lastRequestTime s)
  else s.
Definition SetMinInterval (s : Scheduler) (interval : Z) : Scheduler :=
  MkScheduler (maxFrameLength s) interval (totalRequests s) (successCount s) (failureCount s) (lastRequestTime s).

(** ** Grouping *)

Record groupedPoint := MkGroupedPoint { point : Point; parsed : ParsedAddress; offset : Z }.

Record pointGroup := MkPointGroup {
  areaCode : Z; startAddr : Z; count : Z; points : list groupedPoint; isBit : bool }.

(** The key of a parsed point: area code and kind of access. *)
Definition point_isBit (p : Point) (a : ParsedAddress) : bool :=
  IsBit a || bool_decide (point_DataType p = DataTypeBIT).

Definition group_key (p : Point) (a : ParsedAddress) : Z * bool :=
  if point_isBit p a then
    match GetBitAreaCode (AreaCode a) with
    | Ok bitCode => (bitCode, true)
    | _ => (AreaCode a, true)
    end
  else (AreaCode a, false).

(** The first loop: points whose address parsed, by key.  The entries of
    [parsedPoints] are the point and the outcome of [ParseAddress]. *)
Definition add_point (groupsMap : gmap (Z * bool) (list groupedPoint))
    (pp : Point * res error ParsedAddress) : gmap (Z * bool) (list groupedPoint) :=
  match snd pp with
  | Ok a =>
    let key := group_key (fst pp) a in
    <[key := default [] (groupsMap !! key) ++ [MkGroupedPoint (fst pp) a 0]]> groupsMap
  | _ => groupsMap
  end.

Definition groupsMap (parsedPoints : list (Point * res error ParsedAddress)) :=
  foldl add_point ∅ parsedPoints.

(** The order given to [sort.Slice]. *)
Definition point_less (p q : groupedPoint) : bool :=
  if negb (pa_Address (parsed p) =? pa_Address (parsed q))
  then pa_Address (parsed p) <? pa_Address (parsed q)
  else Bit (parsed p) <? Bit (parsed q).

Definition bit_group (key : Z) (p : groupedPoint) : pointGroup :=
  MkPointGroup key (u16 (pa_Address (parsed p))) 1 [p] true.

(** [typeSize, _ := DataTypeSize(...)]: the error is dropped, its value is 0. *)
Definition type_size (dt : DataType) : Z := match DataTypeSize dt with Ok n => n | _ => 0 end.

Definition point_size (p : groupedPoint) : Z :=
  let typeSize := type_size (point_DataType (point p)) in
  if typeSize =? 0 then (if IsString (parsed p) then StringLen (parsed p) else 2) else typeSize.

Definition wordCount (p : groupedPoint) : Z := Z.quot (point_size p +i 1) 2.

Definition with_offset (p : groupedPoint) (o : Z) : groupedPoint := MkGroupedPoint (point p) (parsed p) o.

(** One iteration of the word loop on [(result, currentGroup)]. *)
Definition word_step (maxBytes key : Z) (st : list pointGroup * pointGroup) (p : groupedPoint)
    : list pointGroup * pointGroup :=
  let '(result, cur) := st in
  let wordOffset := pa_Address (parsed p) in
  match points cur with
  | [] => (result, MkPointGroup (areaCode cur) (u16 wordOffset) (u16 (wordCount p)) [with_offset p 0] (isBit cur))
  | _ =>
    let endAddr := startAddr cur +i count cur in
    let newEnd := wordOffset +i wordCount p in
    let totalBytes := (newEnd -i startAddr cur) *i 2 in
    if (wordOffset <=? endAddr +i 10) && (totalBytes <=? maxBytes) then
      let count' := if startAddr cur +i count cur <? wordOffset +i wordCount p
                    then u16 ((wordOffset +i wordCount p) -i startAddr cur) else count cur in
      (result, MkPointGroup (areaCode cur) (startAddr cur) count'
                 (points cur ++ [with_offset p ((wordOffset -i startAddr cur) *i 2)]) (isBit cur))
    else
      (result ++ [cur], MkPointGroup key (u16 wordOffset) (u16 (wordCount p)) [p] false)
  end.

Definition word_groups (maxBytes key : Z) (ps : list groupedPoint) : list pointGroup :=
  let '(result, cur) := foldl (word_step maxBytes key) ([], MkPointGroup key 0 0 [] false) ps in
  match points cur with [] => result | _ => result ++ [cur] end.

(** The groups of one entry of the map. *)
Definition key_groups `{GoRuntime} (maxFrameLength : Z) (kv : (Z * bool) * list groupedPoint) : list pointGroup :=
  let '((code, bit), ps) := kv in
  let ps := sort_slice point_less ps in
  if bit then bit_group code <$> ps
  else word_groups (maxFrameLength *i 2) code ps.

Definition groupPoints `{GoRuntime} (s : Scheduler) (parsedPoints : list (Point * res error ParsedAddress))
    : list pointGroup :=
  concat (key_groups (maxFrameLength s) <$> map_order (map_to_list (groupsMap parsedPoints))).

(** ** Reading *)

Section reading.
Context {T : Type} `{MemoryTransport T}.

(** [waitMinInterval] with the lock held throughout; [time.Since] saturates. *)
Definition since (now last : Z) : Z := Z.max (- 2 ^ 63) (Z.min max_int (now - last)).

Definition waitMinInterval (s : Scheduler) (t : T) : Scheduler * T :=
  if minInterval s <=? 0 then (s, t) else
  let '(t, now) := Now t in
  let elapsed := since now (lastRequestTime s) in
  let t := if elapsed <? minInterval s then Sleep t (minInterval s -i elapsed) else t in
  let '(t, now) := Now t in
  (MkScheduler (maxFrameLength s) (minInterval s) (totalRequests s) (successCount s) (failureCount s) now, t).

Definition readWordGroup (t : T) (group : pointGroup) : T * res error bytes :=
  mt_ReadMemory t (areaCode group) (startAddr group) (count group).

Definition readBitGroup (t : T) (group : pointGroup) : T * res error bytes :=
  match points group with
  | [] => (t, Ok [])
  | p :: _ =>
    let '(t, r) := mt_ReadBits t (areaCode group) (u16 (pa_Address (parsed p))) (u8 (Bit (parsed p))) 1 in
    (t, match r with
        | Ok bits => Ok ((fun b : bool => if b then 0x01 else 0x00) <$> bits)
        | Err e => Err e
        | Panic => Panic
        end)
  end.

Definition decodePointValue (data : bytes) (gp : groupedPoint) (group : pointGroup) : res error goval :=
  if isBit group then
    if len data <? 1 then Err ErrDataTooShort
    else b ← idx data 0; Ok (VBool (negb (Z.land b 0x01 =? 0)))
  else
  let offset := offset gp in
  let typeSize := type_size (point_DataType (point gp)) in
  if IsString (parsed gp) then
    let end_ := offset +i StringLen (parsed gp) in
    let end_ := if len data <? end_ then len data else end_ in
    strData ← zsub data offset end_;
    DecodeValue strData DataTypeSTRING (Some (parsed gp))
  else
  let typeSize := if typeSize =? 0 then 2 else typeSize in
  if len data <? offset +i typeSize then Err ErrDataTooShort else
  d ← zsub data offset (offset +i typeSize);
  DecodeValue d (point_DataType (point gp)) (Some (parsed gp)).

Abbreviation results := (gmap string Value).

Definition bad (ts : Z) : Value := MkValue VNil QualityBad ts.

(** The points of a group whose read failed; each gets its own time stamp. *)
Fixpoint mark_bad (t : T) (rs : results) (gps : list groupedPoint) : T * results :=
  match gps with
  | [] => (t, rs)
  | gp :: gps => let '(t, ts) := Now t in mark_bad t (<[ID (point gp) := bad ts]> rs) gps
  end.

(** The points of a group whose read succeeded. *)
Fixpoint decode_all (group : pointGroup) (data : bytes) (now : Z) (rs : results) (gps : list groupedPoint)
    : res error results :=
  match gps with
  | [] => Ok rs
  | gp :: gps =>
    v ← match decodePointValue data gp group with
        | Ok val => Ok (MkValue val QualityGood now)
        | Err _ => Ok (bad now)
        | Panic => Panic
        end;
    decode_all group data now (<[ID (point gp) := v]> rs) gps
  end.

(** One iteration of the loop over the groups. *)
Definition read_group (s : Scheduler) (t : T) (rs : results) (group : pointGroup)
    : res error (Scheduler * T * results) :=
  let '(s, t) := waitMinInterval s t in
  let s := add_total s in
  let '(t, r) := if isBit group then readBitGroup t group else readWordGroup t group in
  match r with
  | Ok data =>
    let s := add_success s in
    let '(t, now) := Now t in
    rs ← decode_all group data now rs (points group);
    Ok (s, t, rs)
  | Err _ =>
    let '(t, rs) := mark_bad t rs (points group) in Ok (add_failure s, t, rs)
  | Panic => Panic
  end.

Fixpoint read_groups (s : Scheduler) (t : T) (rs : results) (groups : list pointGroup)
    : res error (Scheduler * T * results) :=
  match groups with
  | [] => Ok (s, t, rs)
  | g :: groups =>
    r ← read_group s t rs g;
    let '(s, t, rs) := r in read_groups s t rs groups
  end.

(** The first loop of [ReadPoints]: points whose address does not parse are bad. *)
Fixpoint parse_points (t : T) (rs : results) (ps : list Point)
    : T * results * list (Point * res error ParsedAddress) :=
  match ps with
  | [] => (t, rs, [])
  | p :: ps =>
    let r := ParseAddress (point_Address p) in
    let '(t, rs) := match r with
                    | Ok _ => (t, rs)
                    | _ => let '(t, ts) := Now t in (t, <[ID p := bad ts]> rs)
                    end in
    let '(t, rs, pps) := parse_points t rs ps in (t, rs, (p, r) :: pps)
  end.

Definition ReadPoints `{GoRuntime} (s : Scheduler) (t : T) (ps : list Point)
    : res error (Scheduler * T * results) :=
  match ps with
  | [] => Ok (s, t, ∅)
  | _ =>
    let '(t, rs, parsedPoints) := parse_points t ∅ ps in
    read_groups s t rs (groupPoints s parsedPoints)
  end.

(** ** Writing *)

Definition WritePoint `{GoFloat} (s : Scheduler) (t : T) (p : Point) (value : goval)
    : Scheduler * T * res error unit :=
  let s := add_total s in
  match ParseAddress (point_Address p) with
  | Ok parsed =>
    let isBit := point_isBit p parsed in
    match EncodeValue value (point_DataType p) (Some parsed) with
    | Ok encoded =>
      let '(s, t) := waitMinInterval s t in
      let '(t, r) :=
        if isBit then
          let bitArea := match GetBitAreaCode (AreaCode parsed) with Ok c => c | _ => AreaCode parsed end in
          let boolVal := match encoded with b :: _ => negb (b =? 0) | [] => false end in
          mt_WriteBits t bitArea (u16 (pa_Address parsed)) (u8 (Bit parsed)) [boolVal]
        else
          let wordCount := u16 (Z.quot (len encoded +i 1) 2) in
          let '(wordCount, encoded) :=
            if bool_decide (point_DataType p = DataTypeSTRING) && (0 <? StringLen parsed) then
              let wordCount := u16 (Z.quot (StringLen parsed +i 1) 2) in
              if len encoded <? wordCount * 2
              then (wordCount, copy_at 0 encoded (make_bytes (Z.to_nat (wordCount * 2))))
              else (wordCount, encoded)
            else (wordCount, encoded) in
          mt_WriteMemory t (AreaCode parsed) (u16 (pa_Address parsed)) wordCount encoded in
      match r with
      | Ok _ => (add_success s, t, Ok tt)
      | Err e => (add_failure s, t, Err e)
      | Panic => (s, t, Panic)
      end
    | Err e => (add_failure s, t, Err e)
    | Panic => (s, t, Panic)
    end
  | Err e => (add_failure s, t, Err e)
  | Panic => (s, t, Panic)
  end.

Definition Health (t : T) : HealthStatus := if mt_IsConnected t then HealthStatusUp else HealthStatusDown.

End reading.

(** ** Grouping loses and duplicates nothing *)

Definition strip (gp : groupedPoint) : Point * ParsedAddress := (point gp, parsed gp).

(** The points of a list of groups. *)
Definition grouped (gs : list pointGroup) : list (Point * ParsedAddress) :=
  strip <$> concat (points <$> gs).

Lemma grouped_app gs hs : grouped (gs ++ hs) = grouped gs ++ grouped hs.
Proof. unfold grouped. by rewrite fmap_app, concat_app, fmap_app. Qed.

Lemma grouped_one g : grouped [g] = strip <$> points g.
Proof. unfold grouped. cbn. by rewrite app_nil_r. Qed.

Lemma word_step_grouped mb k st p :
  grouped (fst (word_step mb k st p)) ++ (strip <$> points (snd (word_step mb k st p))) =
  (grouped (fst st) ++ (strip <$> points (snd st))) ++ [strip p].
Proof.
  destruct st as [res cur]. unfold word_step. destruct (points cur) as [|q qs] eqn:Hp.
  - cbn. rewrite Hp. by rewrite app_nil_r.
  - case_match; cbn [fst snd points].
    + by rewrite Hp, fmap_app, <- app_assoc.
    + by rewrite grouped_app, grouped_one, Hp.
Qed.

Lemma word_groups_grouped mb k ps : grouped (word_groups mb k ps) = strip <$> ps.
Proof.
  unfold word_groups. set (st0 := ([], MkPointGroup k 0 0 [] false)).
  assert (forall st, grouped (fst (foldl (word_step mb k) st ps)) ++
     (strip <$> points (snd (foldl (word_step mb k) st ps))) =
     (grouped (fst st) ++ (strip <$> points (snd st))) ++ (strip <$> ps)) as H.
  { induction ps as [|p ps IH]; intros st; cbn [foldl]; [by rewrite app_nil_r|].
    rewrite IH, word_step_grouped, <- app_assoc. done. }
  specialize (H st0). destruct (foldl _ _ _) as [res cur]. cbn [fst snd st0 points] in H. cbn in H.
  destruct (points cur) eqn:Hp.
  - by rewrite app_nil_r in H.
  - by rewrite grouped_app, grouped_one, Hp.
Qed.

Lemma Permutation_concat {A} (l l' : list (list A)) : l ≡ₚ l' -> concat l ≡ₚ concat l'.
Proof.
  induction 1; cbn; auto.
  - by apply Permutation_app_head.
  - rewrite !app_assoc. apply Permutation_app_tail, Permutation_app_comm.
  - by etrans.
Qed.

Section grouping.
Context `{GoRuntime}.

Lemma key_groups_grouped mf kv : grouped (key_groups mf kv) ≡ₚ strip <$> kv.2.
Proof.
  destruct kv as [[code bit] ps]. unfold key_groups. cbn [snd]. destruct bit.
  - trans (strip <$> sort_slice point_less ps); [|by rewrite sort_slice_perm].
    induction (sort_slice _ _) as [|p l IH]; [done|].
    rewrite fmap_cons. change (bit_group code p :: ?r) with ([bit_group code p] ++ r).
    rewrite grouped_app, grouped_one, IH. done.
  - rewrite word_groups_grouped. by rewrite sort_slice_perm.
Qed.

(** The parsed points as entries of the map. *)
Definition parsed_ok (pps : list (Point * res error ParsedAddress)) : list groupedPoint :=
  omap (fun pp => match snd pp with Ok a => Some (MkGroupedPoint (fst pp) a 0) | _ => None end) pps.

Lemma map_append_perm {K} `{Countable K} {A} (m : gmap K (list A)) k x :
  concat (snd <$> map_to_list (<[k := default [] (m !! k) ++ [x]]> m)) ≡ₚ
  concat (snd <$> map_to_list m) ++ [x].
Proof.
  rewrite <- insert_delete_eq. rewrite map_to_list_insert by apply lookup_delete_eq. cbn.
  destruct (m !! k) as [l|] eqn:Hk; cbn.
  - rewrite <- (map_to_list_delete m k l Hk). cbn.
    rewrite <- !app_assoc. apply Permutation_app_head, Permutation_app_comm.
  - rewrite delete_id by done. by rewrite Permutation_app_comm.
Qed.

Lemma groupsMap_perm pps : concat (snd <$> map_to_list (groupsMap pps)) ≡ₚ parsed_ok pps.
Proof.
  unfold groupsMap. induction pps as [|pp pps IH] using rev_ind; [done|].
  rewrite foldl_app. cbn [foldl]. unfold parsed_ok in *. rewrite omap_app. unfold add_point at 1.
  cbn [omap list_omap]. destruct (snd pp).
  - rewrite map_append_perm, IH. done.
  - by rewrite IH, app_nil_r.
  - by rewrite IH, app_nil_r.
Qed.

Lemma groupPoints_perm s pps : grouped (groupPoints s pps) ≡ₚ strip <$> parsed_ok pps.
Proof.
  unfold groupPoints. rewrite <- groupsMap_perm.
  trans (strip <$> concat (snd <$> map_order (map_to_list (groupsMap pps)))).
  2: { apply Permutation_map, Permutation_concat. by rewrite map_order_perm. }
  induction (map_order _) as [|kv l IH]; [done|].
  rewrite !fmap_cons. cbn [concat]. by rewrite grouped_app, fmap_app, IH, key_groups_grouped.
Qed.
End grouping.

(** ** Every group has one key *)

Definition gp_key (gp : groupedPoint) : Z * bool := group_key (point gp) (parsed gp).

Lemma group_key_bit p a : snd (group_key p a) = point_isBit p a.
Proof. unfold group_key. destruct (point_isBit p a); [|done]. by case_match. Qed.

Lemma groupsMap_keys pps k l :
  groupsMap pps !! k = Some l -> Forall (fun gp => gp_key gp = k /\ offset gp = 0) l.
Proof.
  unfold groupsMap. revert k l. induction pps as [|pp pps IH] using rev_ind; intros k l; [done|].
  rewrite foldl_app. cbn [foldl]. unfold add_point at 1. destruct (snd pp) as [a| |]; [|apply IH..].
  intros [[<- <-]|[_ Hk]]%lookup_insert_Some; [|by apply IH].
  apply Forall_app. split; [|by repeat constructor].
  destruct (foldl _ _ _ !! _) eqn:E; [by apply IH|constructor].
Qed.

(** A group belongs to a key: its own code and kind, and those of its points. *)
Definition keyed (k : Z * bool) (g : pointGroup) : Prop :=
  (areaCode g, isBit g) = k /\ Forall (fun gp => gp_key gp = k) (points g).

Lemma word_step_keyed mb code res cur p :
  Forall (keyed (code, false)) res -> keyed (code, false) cur -> gp_key p = (code, false) ->
  Forall (keyed (code, false)) (fst (word_step mb code (res, cur) p)) /\
  keyed (code, false) (snd (word_step mb code (res, cur) p)).
Proof.
  intros Hres [Hk Hps] Hp. unfold word_step, keyed in *.
  destruct (points cur) eqn:Hcur; [|case_match]; cbn [fst snd areaCode isBit points].
  - split; [done|]. split; [done|]. by repeat constructor.
  - split; [done|]. split; [done|]. apply Forall_app. split; [done|]. by repeat constructor.
  - split; [apply Forall_app; split; [done|]; repeat constructor; [done|by rewrite Hcur]|].
    split; [done|]. by repeat constructor.
Qed.

Lemma word_groups_keyed mb code ps :
  Forall (fun gp => gp_key gp = (code, false)) ps -> Forall (keyed (code, false)) (word_groups mb code ps).
Proof.
  intros Hps. unfold word_groups.
  assert (forall st, Forall (keyed (code, false)) (fst st) -> keyed (code, false) (snd st) ->
    Forall (keyed (code, false)) (fst (foldl (word_step mb code) st ps)) /\
    keyed (code, false) (snd (foldl (word_step mb code) st ps))) as H.
  { induction Hps as [|p ps Hp Hps IH]; intros [res cur] H1 H2; [done|]. cbn [foldl].
    apply IH; by apply word_step_keyed. }
  destruct (H ([], MkPointGroup code 0 0 [] false)) as [H1 H2]; [constructor|by split; constructor|].
  destruct (foldl _ _ _) as [res cur]. cbn [fst snd] in *. case_match; [done|].
  apply Forall_app. split; [done|]. by apply Forall_singleton.
Qed.

(** ** Word groups cover their points *)

(** A point whose words lie below 65536, so that no [uint16] conversion of the
    grouping truncates.  A group of all 65536 words would be counted as none; it can only
    arise with the last word and a frame limit above 65535 words. *)
Definition fits (maxBytes : Z) (gp : groupedPoint) : Prop :=
  0 <= pa_Address (parsed gp) <= 65535 /\ 0 <= point_size gp < 2 ^ 62 /\ wordCount gp <= 65535 /\
  pa_Address (parsed gp) + wordCount gp <= 65536 /\
  (pa_Address (parsed gp) + wordCount gp = 65536 -> maxBytes <= 2 * 65535).

#[export] Instance fits_dec mb gp : Decision (fits mb gp).
Proof. unfold fits. apply _. Defined.

Lemma s64_id x : - 2 ^ 63 <= x < 2 ^ 63 -> s64 x = x.
Proof. intros. by apply swrap_id. Qed.

Lemma wordCount_eq gp : 0 <= point_size gp < 2 ^ 62 -> wordCount gp = (point_size gp + 1) / 2.
Proof. intros. unfold wordCount. rewrite s64_id, Z.quot_div_nonneg by lia. done. Qed.

Lemma fits_wordCount mb gp : fits mb gp -> 0 <= wordCount gp <= 65535 /\ point_size gp <= 2 * wordCount gp.
Proof. intros (? & ? & ? & _). rewrite wordCount_eq in * by done. zdm. Qed.

(** What the group of a point must contain for its value to be cut out. *)
Definition covers (g : pointGroup) (gp : groupedPoint) : Prop :=
  startAddr g <= pa_Address (parsed gp) /\
  pa_Address (parsed gp) + wordCount gp <= startAddr g + count g /\
  offset gp = 2 * (pa_Address (parsed gp) - startAddr g).

(** A word group: it covers its points, ends with one of them, stays within the
    address space, and is longer than [maxBytes] only for the sake of its first point. *)
Definition word_group_ok (maxBytes : Z) (g : pointGroup) : Prop :=
  isBit g = false /\ Forall (fits maxBytes) (points g) /\ Forall (covers g) (points g) /\
  0 <= startAddr g <= 65535 /\ 0 <= count g <= 65535 /\ startAddr g + count g <= 65536 /\
  (exists gp, gp ∈ points g /\ startAddr g + count g = pa_Address (parsed gp) + wordCount gp) /\
  exists p0 ps, points g = p0 :: ps /\ 2 * count g <= Z.max maxBytes (2 * wordCount p0).

Lemma word_group_start mb code p :
  fits mb p -> offset p = 0 ->
  word_group_ok mb (MkPointGroup code (u16 (pa_Address (parsed p))) (u16 (wordCount p)) [p] false).
Proof.
  intros Hp Ho. pose proof (fits_wordCount mb p Hp). pose proof Hp as (? & ? & ? & ? & ?).
  rewrite !uwrap_id by (unfold in_u; lia). unfold word_group_ok, covers. cbn [isBit points startAddr count].
  split_and!; try done; try lia.
  - by apply Forall_singleton.
  - apply Forall_singleton. lia.
  - exists p. split; [by left|done].
  - exists p, []. split; [done|]. lia.
Qed.

Lemma fits_with_offset mb p o : fits mb (with_offset p o) <-> fits mb p.
Proof. done. Qed.

Lemma word_step_ok mb code res cur p :
  Forall (word_group_ok mb) res -> word_group_ok mb cur -> fits mb p -> offset p = 0 ->
  startAddr cur <= pa_Address (parsed p) ->
  Forall (word_group_ok mb) (fst (word_step mb code (res, cur) p)) /\
  word_group_ok mb (snd (word_step mb code (res, cur) p)) /\
  startAddr (snd (word_step mb code (res, cur) p)) <= pa_Address (parsed p).
Proof.
  intros Hres Hcur Hp Hoff Hs. pose proof (fits_wordCount mb p Hp) as Hwc. pose proof Hp as (Ha & Hsz & _ & Hend & Hlast).
  pose proof Hcur as (Hb & Hfit & Hcov & Hs0 & Hc0 & Hmax & (lst & Hlst & Hle) & (p0 & ps & Hps & Hlen)).
  unfold word_step. rewrite Hps. rewrite !(s64_id (_ + _)), !(s64_id (_ - _)), !(s64_id (_ * _)) by (rewrite ?s64_id by lia; lia).
  destruct (_ && _) eqn:Hm; cbn [fst snd].
  - zbool. split; [done|]. cbn [startAddr]. split; [|lia].
    set (c' := if _ <? _ then _ else _).
    assert (c' = Z.max (count cur) (pa_Address (parsed p) + wordCount p - startAddr cur)) as Hc'.
    { subst c'. case_match; zbool; [rewrite uwrap_id by (unfold in_u; lia)|]; lia. }
    set (p' := with_offset p _).
    unfold word_group_ok. cbn [isBit points startAddr count]. rewrite <- Hps.
    split_and!; try done; try lia.
    + apply Forall_app. split; [done|]. constructor; [by apply fits_with_offset|constructor].
    + apply Forall_app. split.
      * eapply Forall_impl; [exact Hcov|]. unfold covers. cbn. intros gp. lia.
      * constructor; [|constructor]. unfold covers. cbn [startAddr count]. change (wordCount p') with (wordCount p).
        cbn. lia.
    + destruct (decide (count cur < pa_Address (parsed p) + wordCount p - startAddr cur)).
      * exists p'. split; [apply elem_of_app; right; by left|]. change (wordCount p') with (wordCount p). cbn. lia.
      * exists lst. split; [apply elem_of_app; by left|]. lia.
    + rewrite Hps. exists p0, (ps ++ [p']). split; [done|]. lia.
  - split; [apply Forall_app; split; [done|by apply Forall_singleton]|].
    split; [by apply word_group_start|]. cbn [startAddr]. rewrite uwrap_id by (unfold in_u; lia). done.
Qed.

Definition addr_le (p q : groupedPoint) : Prop := pa_Address (parsed p) <= pa_Address (parsed q).

Lemma StronglySorted_lookup {A} (R : A -> A -> Prop) (l : list A) :
  (forall i j x y, (i < j)%nat -> l !! i = Some x -> l !! j = Some y -> R x y) -> StronglySorted R l.
Proof.
  induction l as [|a l IH]; intros H; constructor.
  - apply IH. intros i j x y Hij Hi Hj. apply (H (S i) (S j)); [lia|done..].
  - apply Forall_lookup. intros j y Hj. apply (H O (S j)); [lia|done..].
Qed.

Lemma sort_slice_addr `{GoRuntime} ps : StronglySorted addr_le (sort_slice point_less ps).
Proof.
  apply StronglySorted_lookup. intros i j x y Hij Hi Hj.
  enough (point_less y x = false) as Hl.
  { unfold addr_le. unfold point_less in Hl. case_match; zbool; lia. }
  refine (sort_slice_sorted point_less ps _ _ i j x y Hij Hi Hj); unfold point_less; clear.
  - intros x y z. repeat case_match; zbool; intros; zbool; rewrite ?Z.ltb_ge; lia.
  - intros x y. repeat case_match; zbool; intros; zbool; rewrite ?Z.ltb_ge; lia.
Qed.

Lemma word_groups_ok mb code ps :
  StronglySorted addr_le ps -> Forall (fits mb) ps -> Forall (fun p => offset p = 0) ps ->
  Forall (word_group_ok mb) (word_groups mb code ps).
Proof.
  intros Hs Hf Ho. unfold word_groups.
  assert (forall ps res cur, StronglySorted addr_le ps -> Forall (fits mb) ps -> Forall (fun p => offset p = 0) ps ->
    Forall (word_group_ok mb) res -> word_group_ok mb cur ->
    Forall (fun p => startAddr cur <= pa_Address (parsed p)) ps ->
    Forall (word_group_ok mb) (fst (foldl (word_step mb code) (res, cur) ps)) /\
    word_group_ok mb (snd (foldl (word_step mb code) (res, cur) ps))) as H.
  { clear. induction ps as [|p ps IH]; intros res cur Hs Hf Ho Hres Hcur Hst; [done|].
    apply StronglySorted_inv in Hs as [Hs Hp]. inversion Hf; inversion Ho; inversion Hst; subst. cbn [foldl].
    destruct (word_step_ok mb code res cur p) as (H1' & H2' & H3'); [done..|].
    destruct (word_step mb code (res, cur) p) as [res' cur']. cbn [fst snd] in *.
    apply IH; [done..|]. eapply Forall_impl; [exact Hp|]. unfold addr_le. intros q. cbn. lia. }
  destruct ps as [|p ps]; [constructor|]. cbn [foldl]. unfold word_step at 2. cbn [points areaCode isBit].
  apply StronglySorted_inv in Hs as [Hs Hp]. inversion Hf as [|? ? Hfp ?]; inversion Ho; subst.
  destruct (H ps [] (MkPointGroup code (u16 (pa_Address (parsed p))) (u16 (wordCount p)) [with_offset p 0] false))
    as [Hr Hc]; [done|done|done|constructor|exact (word_group_start mb code (with_offset p 0) Hfp eq_refl)| |].
  { eapply Forall_impl; [exact Hp|]. unfold addr_le. cbn. intros q. destruct Hfp as (? & _).
    rewrite uwrap_id; [done|unfold in_u]. lia. }
  destruct (foldl _ _ _) as [res cur]. cbn [fst snd] in *.
  case_match; [done|]. apply Forall_app. split; [done|]. by apply Forall_singleton.
Qed.

(** ** All groups *)

Section all_groups.
Context `{GoRuntime}.

(** What the groups are, whatever order the runtime chose. *)
Lemma groupPoints_in s pps g :
  g ∈ groupPoints s pps ->
  exists k l, groupsMap pps !! k = Some l /\ g ∈ key_groups (maxFrameLength s) (k, l).
Proof.
  unfold groupPoints. intros Hg. apply list_elem_of_In, in_concat in Hg as (gs & Hgs & Hg).
  apply list_elem_of_In, list_elem_of_fmap in Hgs as ([k l] & -> & Hkv).
  rewrite map_order_perm in Hkv. apply elem_of_map_to_list in Hkv.
  exists k, l. split; [done|]. by apply list_elem_of_In.
Qed.

Lemma bit_groups_in code l g : g ∈ (bit_group code <$> sort_slice point_less l) ->
  exists p, p ∈ l /\ g = bit_group code p.
Proof. intros (p & -> & Hp)%list_elem_of_fmap. rewrite sort_slice_perm in Hp. by eauto. Qed.

Lemma groupPoints_keyed s pps g : g ∈ groupPoints s pps -> keyed (areaCode g, isBit g) g.
Proof.
  intros ([code bit] & l & Hk & Hg)%groupPoints_in. apply groupsMap_keys in Hk.
  cbn [key_groups] in Hg. destruct bit.
  - apply bit_groups_in in Hg as (p & Hp & ->). split; [done|]. cbn. apply Forall_singleton.
    rewrite Forall_forall in Hk. by apply Hk.
  - assert (Forall (fun gp => gp_key gp = (code, false)) (sort_slice point_less l)) as Hl.
    { rewrite sort_slice_perm. eapply Forall_impl; [exact Hk|]. by intros ? [? _]. }
    apply (word_groups_keyed (maxFrameLength s *i 2)) in Hl. rewrite Forall_forall in Hl.
    destruct (Hl g Hg) as [He Hps]. by rewrite He.
Qed.

(** A bit group is one point; a word group covers its points. *)
Definition group_ok (maxBytes : Z) (g : pointGroup) : Prop :=
  if isBit g
  then exists gp, points g = [gp] /\ offset gp = 0 /\ startAddr g = u16 (pa_Address (parsed gp)) /\ count g = 1
  else word_group_ok maxBytes g.

Lemma groupPoints_ok s pps :
  Forall (fun gp => point_isBit (point gp) (parsed gp) = false -> fits (maxFrameLength s *i 2) gp) (parsed_ok pps) ->
  Forall (group_ok (maxFrameLength s *i 2)) (groupPoints s pps).
Proof.
  intros Hfit. apply Forall_forall. intros g ([code bit] & l & Hk & Hg)%groupPoints_in.
  pose proof (groupsMap_keys _ _ _ Hk) as Hkeys. rewrite Forall_forall in Hkeys.
  assert (forall gp, gp ∈ l -> gp ∈ parsed_ok pps) as Hin.
  { intros gp Hgp. rewrite <- groupsMap_perm. apply list_elem_of_In, in_concat. exists l.
    split; [|by apply list_elem_of_In]. apply list_elem_of_In, list_elem_of_fmap. exists ((code, bit), l).
    split; [done|]. by apply elem_of_map_to_list. }
  cbn [key_groups] in Hg. destruct bit.
  - apply bit_groups_in in Hg as (p & Hp & ->). exists p. split_and!; try done. by apply Hkeys.
  - assert (Forall (word_group_ok (maxFrameLength s *i 2)) (word_groups (maxFrameLength s *i 2) code (sort_slice point_less l))) as Hok.
    { apply word_groups_ok; [apply sort_slice_addr|rewrite sort_slice_perm..];
        apply Forall_forall; intros gp Hgp; destruct (Hkeys gp Hgp) as [Hkey Hoff]; [|done].
      rewrite Forall_forall in Hfit. apply Hfit; [by apply Hin|].
      pose proof (group_key_bit (point gp) (parsed gp)) as E. unfold gp_key in Hkey. by rewrite Hkey in E. }
    rewrite Forall_forall in Hok. specialize (Hok g Hg). unfold group_ok.
    destruct Hok as (Hb & ?). rewrite Hb. by split.
Qed.
End all_groups.

(** ** The value of a point *)

(** The value the PLC contents [M] give a word point: the bytes at its address,
    decoded. *)
Definition word_value (M : memory) (code : Z) (p : Point) (a : ParsedAddress) : res error goval :=
  if IsString a
  then DecodeValue (m_bytes M code (2 * pa_Address a) (StringLen a)) DataTypeSTRING (Some a)
  else
    let typeSize := type_size (point_DataType p) in
    DecodeValue (m_bytes M code (2 * pa_Address a) (if typeSize =? 0 then 2 else typeSize))
      (point_DataType p) (Some a).

(** The value of any point, read on its own; [None] when it has none. *)
Definition point_value (M : memory) (p : Point) : option goval :=
  match ParseAddress (point_Address p) with
  | Ok a =>
    let '(code, bit) := group_key p a in
    if bit then VBool <$> m_bits M code (pa_Address a) (Bit a)
    else match word_value M code p a with Ok v => Some v | _ => None end
  | _ => None
  end.

(** Points the scheduler handles without truncation: they lie below address 65536, a bit
    point has a bit number, and a string address is read as a string. *)
Definition point_ok (maxBytes : Z) (p : Point) : Prop :=
  match ParseAddress (point_Address p) with
  | Ok a =>
    if point_isBit p a then pa_Address a <= 65535 /\ 0 <= Bit a
    else fits maxBytes (MkGroupedPoint p a 0) /\ (IsString a = true -> type_size (point_DataType p) = 0)
  | _ => True
  end.

#[export] Instance point_ok_dec mb p : Decision (point_ok mb p).
Proof. unfold point_ok. repeat case_match; apply _. Defined.

(** A point that ends before the last word is handled under any frame limit. *)
Definition low_point (p : Point) : Prop := point_ok (2 * 65536) p.

#[export] Instance low_point_dec p : Decision (low_point p).
Proof. unfold low_point. apply _. Defined.

Lemma low_point_ok mb p : low_point p -> point_ok mb p.
Proof.
  unfold low_point, point_ok. repeat case_match; try done. intros [(? & ? & ? & ? & ?) ?]. split; [|done].
  split_and!; done || lia.
Qed.

(** The words of a point exist in the PLC. *)
Definition in_range (M : memory) (p : Point) : Prop :=
  match ParseAddress (point_Address p) with
  | Ok a => point_isBit p a = false ->
      pa_Address a + wordCount (MkGroupedPoint p a 0) <= m_words M (AreaCode a)
  | _ => True
  end.

#[export] Instance in_range_dec M p : Decision (in_range M p).
Proof. unfold in_range. case_match; apply _. Defined.

(** A result is right when it carries the point's value with good quality, or no
    value with bad quality; under [strict] the latter only when there is no value. *)
Definition answers (strict : Prop) (M : memory) (p : Point) (v : Value) : Prop :=
  (val_Quality v = QualityGood /\ point_value M p = Some (val_Value v)) \/
  (val_Quality v = QualityBad /\ val_Value v = VNil /\ (strict -> point_value M p = None)).

Lemma decodePointValue_covered mb M g gp :
  word_group_ok mb g -> gp ∈ points g ->
  (IsString (parsed gp) = true -> type_size (point_DataType (point gp)) = 0) ->
  decodePointValue (m_bytes M (areaCode g) (2 * startAddr g) (2 * count g)) gp g =
    word_value M (areaCode g) (point gp) (parsed gp).
Proof.
  intros (Hb & Hfit & Hcov & Hs0 & Hc0 & Hmax & _) Hgp Hcons.
  rewrite Forall_forall in Hfit. rewrite Forall_forall in Hcov.
  specialize (Hfit gp Hgp). destruct (Hcov gp Hgp) as (H1 & H2 & H3).
  pose proof (fits_wordCount mb gp Hfit) as (_ & Hsize). destruct Hfit as (Ha & Hsz & _).
  unfold decodePointValue, word_value. rewrite Hb, H3, len_m_bytes by lia.
  destruct (IsString (parsed gp)) eqn:Hstr.
  - assert (point_size gp = StringLen (parsed gp)) as Heq by (unfold point_size; by rewrite Hcons, Hstr).
    rewrite s64_id, (proj2 (Z.ltb_ge _ _)), zsub_ok by (rewrite ?len_m_bytes by lia; lia).
    cbn [mbind res_bind]. replace (_ - _) with (StringLen (parsed gp)) by lia.
    rewrite m_bytes_slice by lia.
    by replace (2 * startAddr g + _) with (2 * pa_Address (parsed gp)) by lia.
  - set (n := if type_size _ =? 0 then 2 else _).
    assert (point_size gp = n) as Heq by (unfold point_size, n; by rewrite Hstr).
    rewrite s64_id, (proj2 (Z.ltb_ge _ _)), zsub_ok by (rewrite ?len_m_bytes by lia; lia).
    cbn [mbind res_bind]. replace (_ - _) with n by lia.
    rewrite m_bytes_slice by lia.
    by replace (2 * startAddr g + _) with (2 * pa_Address (parsed gp)) by lia.
Qed.

Lemma DecodeValue_not_panic data dt addr : DecodeValue data dt addr <> Panic.
Proof. intros E. pose proof (DecodeValue_cases data dt addr) as H. by rewrite E in H. Qed.

Lemma word_value_not_panic M code p a : word_value M code p a <> Panic.
Proof. unfold word_value. case_match; apply DecodeValue_not_panic. Qed.

(** Area codes are bytes. *)
Lemma parsed_code s a : ParseAddress s = Ok a -> in_u 8 (AreaCode a).
Proof.
  intros (i & Hi & -> & _)%ParseAddress_sound. destruct Hi as [(Hin & _ & _)|(Hn & He)].
  - cbn in Hin. repeat destruct Hin as [Hin|Hin]; simplify_eq; done.
  - unfold em_area, EMWordArea in He. injection He as _ <-. cbn [Code].
    case_match; [case_match; simplify_eq; apply uwrap_in_u; lia|done..].
Qed.

Lemma parsed_word_code s a : ParseAddress s = Ok a -> IsBitArea (AreaCode a) = false.
Proof.
  intros (i & Hi & -> & _)%ParseAddress_sound. destruct Hi as [(Hin & HF & _)|(Hn & He)].
  - cbn in Hin. repeat destruct Hin as [Hin|Hin]; simplify_eq; done.
  - revert Hn He. generalize (EMNumber a) as n. intros n Hn He. unfold em_area in He. injection He as _ <-.
    cbn [Code]. enum n 0 16; reflexivity.
Qed.

Lemma GetBitAreaCode_byte c b : GetBitAreaCode c = Ok b -> in_u 8 b.
Proof.
  unfold GetBitAreaCode. repeat case_match; intros [= <-]; try done. apply uwrap_in_u. lia.
Qed.

Lemma group_key_byte s p a : ParseAddress s = Ok a -> in_u 8 (fst (group_key p a)).
Proof.
  intros Ha%parsed_code. unfold group_key. case_match; [|done].
  case_match; [by eapply GetBitAreaCode_byte|done..].
Qed.

(** ** Reading all groups *)

Section read_correct.
Context {T : Type} {MT : MemoryTransport T} {SM : StableMemory T} {RT : GoRuntime}.
Context (M : memory) (ps : list Point) (strict : Prop) (mb : Z).

Definition good_results (rs : gmap string Value) : Prop :=
  forall id v, rs !! id = Some v -> exists p, p ∈ ps /\ ID p = id /\ answers strict M p v.

Lemma good_results_insert rs p v :
  good_results rs -> p ∈ ps -> answers strict M p v -> good_results (<[ID p := v]> rs).
Proof. intros Hrs Hp Hv id w [[<- <-]|[_ Hw]]%lookup_insert_Some; [by eauto|by apply Hrs]. Qed.

Lemma answers_bad p ts : (strict -> point_value M p = None) -> answers strict M p (bad ts).
Proof. intros Hp. right. by split_and!. Qed.

(** The identifiers of a list of points. *)
Definition ids (gps : list groupedPoint) : gset string := list_to_set ((fun gp => ID (point gp)) <$> gps).

Lemma dom_insert_ids (rs : gmap string Value) gp gps v :
  dom (<[ID (point gp) := v]> rs) ∪ ids gps = dom rs ∪ ids (gp :: gps).
Proof. rewrite dom_insert_L. unfold ids. cbn. by rewrite (assoc_L (∪)), (comm_L (∪) (dom rs)). Qed.

Lemma waitMinInterval_serves s (t : T) :
  serves t M ->
  let '(s', t') := waitMinInterval s t in
  serves t' M /\ (reliable t -> reliable t') /\ maxFrameLength s' = maxFrameLength s.
Proof.
  intros Ht. unfold waitMinInterval. destruct (minInterval s <=? 0); [done|].
  destruct (Now t) as [t1 n1] eqn:E1.
  pose proof (now_law t M Ht) as [H1 H2]. rewrite E1 in *. cbn [fst] in *.
  set (t2 := if _ <? _ then _ else _).
  assert (serves t2 M /\ (reliable t1 -> reliable t2)) as [H3 H4].
  { subst t2. destruct (_ <? _); [by apply sleep_law|done]. }
  destruct (Now t2) as [t3 n3] eqn:E3. pose proof (now_law t2 M H3) as [H5 H6]. rewrite E3 in *. cbn [fst] in *.
  by split_and!; auto.
Qed.

Lemma mark_bad_ok gps : forall (t : T) rs,
  serves t M -> good_results rs ->
  Forall (fun gp => point gp ∈ ps /\ (strict -> point_value M (point gp) = None)) gps ->
  let '(t', rs') := mark_bad t rs gps in
  serves t' M /\ (reliable t -> reliable t') /\ good_results rs' /\ dom rs' = dom rs ∪ ids gps.
Proof.
  induction gps as [|gp gps IH]; intros t rs Ht Hrs Hall; cbn [mark_bad].
  { split_and!; try done. unfold ids. cbn. by rewrite union_empty_r_L. }
  inversion Hall as [|? ? [Hin Hv] Hrest]; subst.
  pose proof (now_law t M Ht) as [H3 H4]. destruct (Now t) as [t1 ts]. cbn [fst] in *.
  specialize (IH t1 (<[ID (point gp) := bad ts]> rs) H3).
  destruct (mark_bad t1 _ gps) as [t' rs'].
  destruct IH as (? & ? & ? & Hdom); [by apply good_results_insert, answers_bad|done|].
  split_and!; auto. by rewrite Hdom, dom_insert_ids.
Qed.

Lemma decode_all_ok g data now gps : forall rs,
  good_results rs ->
  Forall (fun gp => point gp ∈ ps /\ decodePointValue data gp g <> Panic /\
    point_value M (point gp) = match decodePointValue data gp g with Ok v => Some v | _ => None end) gps ->
  exists rs', decode_all g data now rs gps = Ok rs' /\ good_results rs' /\ dom rs' = dom rs ∪ ids gps.
Proof.
  induction gps as [|gp gps IH]; intros rs Hrs Hall; cbn [decode_all].
  { exists rs. split_and!; try done. unfold ids. cbn. by rewrite union_empty_r_L. }
  inversion Hall as [|? ? (Hin & Hnp & Hv) Hrest]; subst.
  assert (forall v, answers strict M (point gp) v ->
    exists rs', decode_all g data now (<[ID (point gp) := v]> rs) gps = Ok rs' /\ good_results rs' /\
      dom rs' = dom rs ∪ ids (gp :: gps)) as Hgo.
  { intros v Ha. destruct (IH (<[ID (point gp) := v]> rs)) as (rs' & -> & Hg & Hd); [by apply good_results_insert|done|].
    exists rs'. split_and!; try done. by rewrite Hd, dom_insert_ids. }
  destruct (decodePointValue data gp g) as [v|e|]; [..|done]; cbn [mbind res_bind]; apply Hgo.
  - by left.
  - by apply answers_bad.
Qed.

(** A grouped point comes from the points asked for. *)
Definition from_points (gp : groupedPoint) : Prop :=
  point gp ∈ ps /\ ParseAddress (point_Address (point gp)) = Ok (parsed gp) /\
  point_ok mb (point gp) /\ (strict -> in_range M (point gp)).

Lemma point_value_grouped gp :
  from_points gp ->
  point_value M (point gp) =
    if snd (gp_key gp) then VBool <$> m_bits M (fst (gp_key gp)) (pa_Address (parsed gp)) (Bit (parsed gp))
    else match word_value M (fst (gp_key gp)) (point gp) (parsed gp) with Ok v => Some v | _ => None end.
Proof. intros (_ & Hp & _). unfold point_value, gp_key. rewrite Hp. by destruct (group_key _ _). Qed.

(** What a group's read returns: data from which every point's value is cut, or an
    error. *)
Definition group_data (g : pointGroup) (r : res error bytes) : Prop :=
  match r with
  | Ok data => Forall (fun gp => decodePointValue data gp g <> Panic /\
      point_value M (point gp) = match decodePointValue data gp g with Ok v => Some v | _ => None end) (points g)
  | Err _ => Forall (fun gp => strict -> point_value M (point gp) = None) (points g)
  | Panic => False
  end.

Lemma key_code_byte gp code bit : from_points gp -> gp_key gp = (code, bit) -> in_u 8 code.
Proof.
  intros (_ & Hparse & _) Hkey. pose proof (group_key_byte _ (point gp) _ Hparse) as E.
  unfold gp_key in Hkey. by rewrite Hkey in E.
Qed.

Lemma bit_point_range gp code :
  from_points gp -> gp_key gp = (code, true) -> 0 <= pa_Address (parsed gp) <= 65535 /\ 0 <= Bit (parsed gp) <= 15.
Proof.
  intros (_ & Hp & Hok & _) Hkey. unfold point_ok in Hok. rewrite Hp in Hok.
  pose proof (group_key_bit (point gp) (parsed gp)) as E. unfold gp_key in Hkey. rewrite Hkey in E. cbn in E.
  rewrite <- E in Hok. apply ParseAddress_sound in Hp as (i & _ & _ & [? _] & Hc). naive_solver lia.
Qed.

Lemma bit_point_unwrapped gp code :
  from_points gp -> gp_key gp = (code, true) -> u16 (pa_Address (parsed gp)) = pa_Address (parsed gp).
Proof. intros Hf Hk. destruct (bit_point_range gp code Hf Hk). apply uwrap_id. unfold in_u. lia. Qed.

Lemma bit_point_number gp code :
  from_points gp -> gp_key gp = (code, true) -> u8 (Bit (parsed gp)) = Bit (parsed gp).
Proof. intros Hf Hk. destruct (bit_point_range gp code Hf Hk). apply uwrap_id. unfold in_u. lia. Qed.

Lemma readBitGroup_ok (t : T) g gp t' r :
  serves t M -> (strict -> reliable t) -> isBit g = true -> points g = [gp] ->
  gp_key gp = (areaCode g, true) -> from_points gp -> readBitGroup t g = (t', r) ->
  serves t' M /\ (strict -> reliable t') /\ group_data g r.
Proof.
  intros Ht Hrel Hbit Hps Hkey Hfrom. unfold readBitGroup, group_data. rewrite Hps.
  pose proof (point_value_grouped gp Hfrom) as Hpv. rewrite Hkey in Hpv. cbn [fst snd] in Hpv.
  pose proof (key_code_byte _ _ _ Hfrom Hkey) as Hcode.
  rewrite <- (bit_point_unwrapped gp _ Hfrom Hkey) in Hpv. rewrite <- (bit_point_number gp _ Hfrom Hkey) in Hpv.
  destruct (mt_ReadBits _ _ _ _ _) as [t2 r2] eqn:Er. intros [= <- <-].
  destruct (read_bit_law _ M _ _ _ _ _ Ht Hcode (uwrap_in_u 16 _ ltac:(lia)) (uwrap_in_u 8 _ ltac:(lia)) Er)
    as (Ht2 & Hr2 & Hres).
  split; [done|]. split; [by auto|]. destruct r2 as [d|e|]; [..|done]; apply Forall_singleton.
  - destruct Hres as (x & -> & Hx). unfold decodePointValue. rewrite Hbit, Hpv, Hx. by destruct x.
  - intros Hst. by rewrite Hpv, (Hres (Hrel Hst)).
Qed.

Lemma readWordGroup_ok (t : T) g t' r :
  serves t M -> (strict -> reliable t) -> word_group_ok mb g ->
  Forall (fun gp => gp_key gp = (areaCode g, false)) (points g) -> Forall from_points (points g) ->
  readWordGroup t g = (t', r) ->
  serves t' M /\ (strict -> reliable t') /\ group_data g r.
Proof.
  intros Ht Hrel Hok Hkey Hfrom Er. unfold readWordGroup in Er.
  pose proof Hok as (_ & Hfit & _ & Hs0 & Hc0 & Hmax & (lst & Hlst & Hend) & _).
  rewrite Forall_forall in Hkey. rewrite Forall_forall in Hfrom.
  pose proof (key_code_byte _ _ _ (Hfrom _ Hlst) (Hkey _ Hlst)) as Hcode.
  assert (forall gp, gp ∈ points g -> point_isBit (point gp) (parsed gp) = false /\ AreaCode (parsed gp) = areaCode g) as Hword.
  { intros gp Hgp. specialize (Hkey gp Hgp). pose proof (group_key_bit (point gp) (parsed gp)) as E.
    unfold gp_key in Hkey. rewrite Hkey in E. cbn in E. unfold group_key in Hkey. rewrite <- E in Hkey. by simplify_eq. }
  destruct (read_memory_law t M (areaCode g) (startAddr g) (count g) t' r) as (Ht2 & Hr2 & Hres);
    [done|done| |unfold in_u; lia..|done|].
  { destruct (Hword lst Hlst) as [_ <-]. destruct (Hfrom lst Hlst) as (_ & Hparse & _). by eapply parsed_word_code. }
  split; [done|]. split; [by auto|]. destruct r as [d|e|]; [..|done]; apply Forall_forall; intros gp Hgp.
  - subst d. destruct (Hfrom gp Hgp) as (_ & Hparse & Hpok & _). unfold point_ok in Hpok. rewrite Hparse in Hpok.
    rewrite (proj1 (Hword gp Hgp)) in Hpok.
    rewrite (decodePointValue_covered mb) by (done || apply Hpok).
    split; [apply word_value_not_panic|].
    rewrite point_value_grouped, (Hkey gp Hgp) by auto. done.
  - intros Hst. exfalso. specialize (Hres (Hrel Hst)).
    destruct (Hfrom lst Hlst) as (_ & Hparse & _ & Hrange). specialize (Hrange Hst).
    unfold in_range in Hrange. rewrite Hparse in Hrange. destruct (Hword lst Hlst) as [Hb Hc].
    specialize (Hrange Hb). rewrite Hc in Hrange.
    change (wordCount (MkGroupedPoint _ _ 0)) with (wordCount lst) in Hrange. lia.
Qed.

(** One group, its data requested and cut up. *)
Lemma read_group_ok s (t : T) rs g :
  serves t M -> (strict -> reliable t) -> good_results rs ->
  group_ok mb g -> keyed (areaCode g, isBit g) g -> Forall from_points (points g) ->
  exists s' t' rs', read_group s t rs g = Ok (s', t', rs') /\
    serves t' M /\ (strict -> reliable t') /\ good_results rs' /\ dom rs' = dom rs ∪ ids (points g).
Proof.
  intros Ht Hrel Hrs Hok [_ Hkey] Hfrom. unfold read_group.
  pose proof (waitMinInterval_serves s t Ht) as Hw. destruct (waitMinInterval s t) as [s1 t1].
  destruct Hw as (Ht1 & Hr1 & _).
  assert (Forall (fun gp => point gp ∈ ps) (points g)) as Hin.
  { eapply Forall_impl; [exact Hfrom|]. by intros gp (? & _). }
  destruct (if isBit g then _ else _) as [t2 r] eqn:Er.
  assert (serves t2 M /\ (strict -> reliable t2) /\ group_data g r) as (Ht2 & Hr2 & Hdata).
  { unfold group_ok in Hok. destruct (isBit g) eqn:Hbit.
    - destruct Hok as (gp & Hps & _). rewrite Hps in *. rewrite Forall_singleton in Hkey. rewrite Forall_singleton in Hfrom.
      eapply readBitGroup_ok; [exact Ht1|by auto|done..].
    - eapply readWordGroup_ok; [exact Ht1|by auto|done..]. }
  destruct r as [data|e|]; [..|done]; cbn in Hdata.
  - pose proof (now_law t2 M Ht2) as [H1 H2]. destruct (Now t2) as [t3 now]. cbn [fst] in *.
    destruct (decode_all_ok g data now (points g) rs Hrs) as (rs' & -> & Hg & Hdom).
    { rewrite Forall_forall in *. auto. }
    cbn [mbind res_bind]. do 3 eexists. split; [done|]. split_and!; auto.
  - pose proof (mark_bad_ok (points g) t2 rs Ht2 Hrs) as Hm. destruct (mark_bad t2 rs (points g)) as [t3 rs'].
    destruct Hm as (? & ? & ? & ?); [rewrite Forall_forall in *; auto|].
    do 3 eexists. split; [done|]. split_and!; auto.
Qed.
End read_correct.

Section read_points.
Context {T : Type} {MT : MemoryTransport T} {SM : StableMemory T} {RT : GoRuntime}.
Context (M : memory) (ps : list Point) (strict : Prop) (mb : Z).

Lemma read_groups_ok gs : forall s (t : T) rs,
  serves t M -> (strict -> reliable t) -> good_results M ps strict rs ->
  Forall (fun g => group_ok mb g /\ keyed (areaCode g, isBit g) g /\ Forall (from_points M ps strict mb) (points g)) gs ->
  exists s' t' rs', read_groups s t rs gs = Ok (s', t', rs') /\
    serves t' M /\ (strict -> reliable t') /\ good_results M ps strict rs' /\ dom rs' = dom rs ∪ ids (concat (points <$> gs)).
Proof.
  induction gs as [|g gs IH]; intros s t rs Ht Hr Hrs Hall; cbn [read_groups].
  { exists s, t, rs. split_and!; try done. unfold ids. cbn. by rewrite union_empty_r_L. }
  inversion Hall as [|? ? (H1 & H2 & H3) Hrest]; subst.
  destruct (read_group_ok M ps strict mb s t rs g) as (s1 & t1 & rs1 & -> & Ht1 & Hr1 & Hg1 & Hd1); [done..|].
  cbn [mbind res_bind]. destruct (IH s1 t1 rs1) as (s2 & t2 & rs2 & -> & Ht2 & Hr2 & Hg2 & Hd2); [done..|].
  do 3 eexists. split_and!; try done. rewrite Hd2, Hd1, fmap_cons. cbn [concat]. unfold ids.
  by rewrite fmap_app, list_to_set_app_L, (assoc_L (∪)).
Qed.

Definition parse_all (qs : list Point) : list (Point * res error ParsedAddress) :=
  (fun p => (p, ParseAddress (point_Address p))) <$> qs.

Lemma parse_points_ok qs : forall (t : T) rs,
  serves t M -> (strict -> reliable t) -> good_results M ps strict rs -> (forall p, p ∈ qs -> p ∈ ps) ->
  exists t' rs', parse_points t rs qs = (t', rs', parse_all qs) /\
    serves t' M /\ (strict -> reliable t') /\ good_results M ps strict rs' /\
    forall id, id ∈ dom rs' <-> id ∈ dom rs \/ exists p, p ∈ qs /\ ID p = id /\ is_ok (ParseAddress (point_Address p)) = false.
Proof.
  induction qs as [|p qs IH]; intros t rs Ht Hr Hrs Hin; cbn [parse_points].
  { exists t, rs. split_and!; try done. intros id. split; [by left|]. intros [?|(p & Hp & _)]; [done|].
    by apply elem_of_nil in Hp. }
  assert (exists t1 rs1, (match ParseAddress (point_Address p) with
      | Ok _ => (t, rs) | _ => let '(t, ts) := Now t in (t, <[ID p := bad ts]> rs) end) = (t1, rs1) /\
      serves t1 M /\ (strict -> reliable t1) /\ good_results M ps strict rs1 /\
      forall id, id ∈ dom rs1 <-> id ∈ dom rs \/ (id = ID p /\ is_ok (ParseAddress (point_Address p)) = false))
    as (t1 & rs1 & -> & Ht1 & Hr1 & Hg1 & Hd1).
  { destruct (ParseAddress (point_Address p)) as [a|e|] eqn:E.
    { exists t, rs. split_and!; try done. naive_solver. }
    all: pose proof (now_law t M Ht) as [H1 H2]; destruct (Now t) as [t1 ts]; cbn [fst] in *.
    all: do 2 eexists; split; [done|]; split_and!; [done|by auto| |].
    1,3: apply good_results_insert; [done|apply Hin; by left|]; apply answers_bad; intros _;
         unfold point_value; by rewrite E.
    all: intros id; rewrite dom_insert_L, elem_of_union, elem_of_singleton; naive_solver. }
  destruct (IH t1 rs1) as (t2 & rs2 & -> & Ht2 & Hr2 & Hg2 & Hd2); [done..|intros q Hq; apply Hin; by right|].
  do 2 eexists. split; [done|]. split_and!; try done. intros id. rewrite Hd2, Hd1.
  setoid_rewrite elem_of_cons. naive_solver.
Qed.

(** The grouped points are the points asked for. *)
Lemma groupPoints_from s g gp :
  g ∈ groupPoints s (parse_all ps) -> gp ∈ points g ->
  point gp ∈ ps /\ ParseAddress (point_Address (point gp)) = Ok (parsed gp).
Proof.
  intros Hg Hgp. assert (strip gp ∈ grouped (groupPoints s (parse_all ps))) as Hin.
  { unfold grouped. apply list_elem_of_fmap. exists gp. split; [done|].
    apply list_elem_of_In, in_concat. exists (points g). split; [|by apply list_elem_of_In].
    apply list_elem_of_In, list_elem_of_fmap. by exists g. }
  rewrite groupPoints_perm in Hin. apply list_elem_of_fmap in Hin as (q & Hs & Hq).
  apply list_elem_of_omap in Hq as (pp & Hpp & E). apply list_elem_of_fmap in Hpp as (p & -> & Hp). cbn in E.
  destruct (ParseAddress (point_Address p)) as [a| |] eqn:Ea; [|done..].
  injection E as <-. unfold strip in Hs. cbn in Hs. by injection Hs as -> ->.
Qed.

Lemma groupPoints_complete s p a :
  p ∈ ps -> ParseAddress (point_Address p) = Ok a ->
  exists gp, gp ∈ concat (points <$> groupPoints s (parse_all ps)) /\ point gp = p.
Proof.
  intros Hp Ha. assert ((p, a) ∈ grouped (groupPoints s (parse_all ps))) as Hin.
  { rewrite groupPoints_perm. apply list_elem_of_fmap. exists (MkGroupedPoint p a 0). split; [done|].
    apply list_elem_of_omap. exists (p, Ok a). split; [|done].
    apply list_elem_of_fmap. exists p. by rewrite Ha. }
  apply list_elem_of_fmap in Hin as (gp & E & Hgp). exists gp. split; [done|]. unfold strip in E. by simplify_eq.
Qed.

Lemma ReadPoints_ok s (t : T) :
  serves t M -> (strict -> reliable t) -> (strict -> Forall (in_range M) ps) -> mb = maxFrameLength s *i 2 -> Forall (point_ok mb) ps ->
  exists s' t' rs, ReadPoints s t ps = Ok (s', t', rs) /\ serves t' M /\ (strict -> reliable t') /\
    dom rs = list_to_set (ID <$> ps) /\ good_results M ps strict rs.
Proof.
  intros Ht Hr Hrange Hmb Hok. unfold ReadPoints. destruct (decide (ps = [])) as [->|Hne].
  { exists s, t, ∅. split_and!; try done. }
  destruct (parse_points_ok ps t ∅) as (t1 & rs1 & Hparse & Ht1 & Hr1 & Hg1 & Hd1); [done..|].
  destruct (read_groups_ok (groupPoints s (parse_all ps)) s t1 rs1)
    as (s2 & t2 & rs2 & Hread & Ht2 & Hr2 & Hg2 & Hd2); [done..| |].
  - apply Forall_forall. intros g Hg. split_and!; [|by eapply groupPoints_keyed|].
    + revert g Hg. rewrite Hmb. apply Forall_forall, groupPoints_ok, Forall_forall. intros gp Hgp Hbit. rewrite <- Hmb.
      apply list_elem_of_omap in Hgp as (pp & Hpp & E). apply list_elem_of_fmap in Hpp as (p & -> & Hp).
      cbn in E. rewrite Forall_forall in Hok. specialize (Hok p Hp). unfold point_ok in Hok.
      destruct (ParseAddress (point_Address p)); simplify_eq. cbn in Hbit. rewrite Hbit in Hok. apply Hok.
    + apply Forall_forall. intros gp Hgp. destruct (groupPoints_from s g gp Hg Hgp) as [Hp Ha].
      split_and!; try done; [by eapply Forall_forall in Hok|].
      intros Hst. specialize (Hrange Hst). by eapply Forall_forall in Hrange.
  - exists s2, t2, rs2. destruct ps as [|p0 ps0] eqn:Eps; [done|]. rewrite <- Eps in *.
    rewrite Hparse. split_and!; try done. rewrite Hd2. apply set_eq. intros id.
    rewrite elem_of_union, Hd1. unfold ids. rewrite !elem_of_list_to_set, !list_elem_of_fmap. split.
    + intros [[?|(p & ? & ? & _)]|(gp & -> & Hgp)]; [set_solver|by eauto|].
      apply list_elem_of_In, in_concat in Hgp as (l & Hl & Hgp).
      apply list_elem_of_In, list_elem_of_fmap in Hl as (g & -> & Hg). apply list_elem_of_In in Hgp.
      destruct (groupPoints_from s g gp Hg Hgp) as [? _]. eauto.
    + intros (p & -> & Hp). destruct (ParseAddress (point_Address p)) as [a| |] eqn:Ea.
      * right. destruct (groupPoints_complete s p a Hp Ea) as (gp & Hgp & <-). eauto.
      * left. right. exists p. by rewrite Ea.
      * left. right. exists p. by rewrite Ea.
Qed.
End read_points.

(** ** Properties of the scheduler *)

(** C9: grouping neither loses nor duplicates a point: whatever order the runtime
    picks for the map and for equal addresses, the points of all groups are, up to
    order, the points whose address parsed; and all points of a group have the area
    code and the kind of access of the group. *)
Theorem groups_partition `{GoRuntime} s pps :
  grouped (groupPoints s pps) ≡ₚ (strip <$> parsed_ok pps) /\
  Forall (fun g => keyed (areaCode g, isBit g) g) (groupPoints s pps).
Proof.
  split; [apply groupPoints_perm|]. apply Forall_forall. intros g Hg. by eapply groupPoints_keyed.
Qed.

(** C8: every group can serve its points: when the word points lie below address
    65536, a bit group holds exactly one point, and a word group reads every word of
    each of its points, at the offset recorded for the point, stops at the last of
    them and stays in the 16-bit address space.  A group is longer than [maxFrameLength]
    words (twice as many bytes) only when its first point alone is, and then no longer than
    that point; so when every point is within the limit every group is. *)
Theorem groups_cover_points `{GoRuntime} s pps :
  Forall (fun gp => point_isBit (point gp) (parsed gp) = false -> fits (maxFrameLength s *i 2) gp) (parsed_ok pps) ->
  Forall (group_ok (maxFrameLength s *i 2)) (groupPoints s pps) /\
  (0 <= maxFrameLength s < 2 ^ 62 ->
   Forall (fun gp => point_isBit (point gp) (parsed gp) = false -> wordCount gp <= maxFrameLength s) (parsed_ok pps) ->
   Forall (fun g => isBit g = false -> count g <= maxFrameLength s) (groupPoints s pps)).
Proof.
  intros Hfit. pose proof (groupPoints_ok s pps Hfit) as Hok. split; [done|]. intros Hm Hlim.
  apply Forall_forall. intros g Hg Hbit. rewrite Forall_forall in Hok. specialize (Hok g Hg).
  unfold group_ok in Hok. rewrite Hbit in Hok. destruct Hok as (_ & _ & _ & _ & _ & _ & _ & p0 & qs & Hps & Hlen).
  rewrite s64_id in Hlen by lia. enough (wordCount p0 <= maxFrameLength s) by lia.
  destruct (groupPoints_keyed s pps g Hg) as [_ Hk]. rewrite Hps, Hbit in Hk. inversion Hk as [|? ? Hk0 _]; subst.
  pose proof (group_key_bit (point p0) (parsed p0)) as E. unfold gp_key in Hk0. rewrite Hk0 in E. cbn in E.
  assert (strip p0 ∈ strip <$> parsed_ok pps) as Hin.
  { rewrite <- (groupPoints_perm s pps). unfold grouped. apply list_elem_of_fmap. exists p0. split; [done|].
    apply list_elem_of_In, in_concat. exists (points g). split; [|rewrite Hps; by left].
    apply list_elem_of_In, list_elem_of_fmap. by exists g. }
  apply list_elem_of_fmap in Hin as (q & Hq & Hin). rewrite Forall_forall in Hlim. specialize (Hlim q Hin).
  destruct p0, q. unfold strip in Hq. cbn in *. injection Hq as -> ->. by apply Hlim.
Qed.

(** Three points of the DM area, the middle one a string. *)
Definition sample_points : list Point :=
  [MkPoint "a" "D100" DataTypeUINT16 "r"; MkPoint "b" "D105.4H" DataTypeSTRING "r";
   MkPoint "c" "D101" DataTypeUINT32 "r"; MkPoint "d" "W3.5" DataTypeBIT "r"; MkPoint "e" "X1" DataTypeBIT "r"].

Definition sample_scheduler : Scheduler := MkScheduler 64 0 0 0 0 0.

Lemma groups_cover_points_witness :
  Forall (group_ok 128) (@groupPoints merge_runtime sample_scheduler (parse_all sample_points)) /\
  Forall (fun g => isBit g = false -> count g <= 64) (@groupPoints merge_runtime sample_scheduler (parse_all sample_points)).
Proof.
  destruct (@groups_cover_points merge_runtime sample_scheduler (parse_all sample_points)) as [H1 H2]; [by_decide|].
  split; [exact H1|]. apply H2; by_decide.
Defined.

(** C2: batching is transparent: for points below address 65536 whose bit points have a bit
    number ([point_ok]), whatever the runtime's choices and whatever read
    fails, [ReadPoints] does not panic, returns one result for every identifier asked
    for and no other, and each result is the value the PLC holds for a point of that
    identifier, decoded as if read alone, or bad with no value; when the connection
    is reliable and the points exist in the PLC ([in_range]), it is bad only for a point
    that has no value. *)
Theorem read_points_correct {T} {MT : MemoryTransport T} {SM : StableMemory T} {RT : GoRuntime} M s t ps :
  serves t M -> Forall (point_ok (maxFrameLength s *i 2)) ps ->
  exists s' t' rs, ReadPoints s t ps = Ok (s', t', rs) /\ serves t' M /\
    dom rs = list_to_set (ID <$> ps) /\
    forall id v, rs !! id = Some v ->
      exists p, p ∈ ps /\ ID p = id /\ answers (reliable t /\ Forall (in_range M) ps) M p v.
Proof.
  intros Ht Hok.
  destruct (ReadPoints_ok M ps (reliable t /\ Forall (in_range M) ps) (maxFrameLength s *i 2) s t)
    as (s' & t' & rs & ? & ? & _ & ?); [tauto..|done|done|].
  by exists s', t', rs.
Qed.

(** A DM area of 32768 words holding 0, 1, 2, ... and a work area whose bits are set
    in odd words. *)
Definition sample_memory : memory :=
  MkMemory (fun area => if area =? MemoryAreaDMWord then 32768 else 0)
    (fun _ i => (i / 2) mod 256) (fun _ a _ => Some (Z.odd a)).

Lemma read_points_correct_witness :
  exists s' t' rs, @ReadPoints world world_transport merge_runtime sample_scheduler (sample_memory, 0) sample_points
    = Ok (s', t', rs) /\ dom rs = list_to_set ["a"; "b"; "c"; "d"; "e"] /\
    forall v, rs !! "a" = Some v -> val_Value v = VUint16 (100 * 256 + 100) /\ val_Quality v = QualityGood.
Proof.
  destruct (@read_points_correct world world_transport world_stable merge_runtime sample_memory
    sample_scheduler (sample_memory, 0) sample_points) as (s' & t' & rs & H & _ & Hd & Ha); [reflexivity|by_decide|].
  exists s', t', rs. split; [exact H|]. split; [exact Hd|]. intros v Hv. destruct (Ha "a" v Hv) as (p & Hp & Hid & Hans).
  assert (p = MkPoint "a" "D100" DataTypeUINT16 "r") as ->.
  { clear -Hp Hid. unfold sample_points in Hp.
    repeat (apply elem_of_cons in Hp as [->|Hp]; [first [reflexivity|discriminate Hid]|]). by apply elem_of_nil in Hp. }
  destruct Hans as [[Hq Hv']|(Hq & _ & Hs)].
  - destruct v as [x q ts]. cbn [val_Value val_Quality] in *. vm_compute in Hv'. injection Hv' as <-.
    split; [reflexivity|exact Hq].
  - exfalso. enough (point_value sample_memory (MkPoint "a" "D100" DataTypeUINT16 "r") = None) as E by (vm_compute in E; discriminate E).
    apply Hs. split; [exact I|]. clear. by_decide.
Defined.

(** *** Panics *)

(** A point that is not a string is decoded or refused. *)
Lemma decode_number_no_panic data gp g :
  0 <= offset gp < 2 ^ 62 -> isBit g = true \/ IsString (parsed gp) = false -> decodePointValue data gp g <> Panic.
Proof.
  intros Ho Hs. pose proof (len_nonneg data). unfold decodePointValue. destruct (isBit g).
  { case_match; zbool; [done|]. by destruct data. }
  destruct Hs as [?|Hs]; [done|]. rewrite Hs.
  assert (0 <= type_size (point_DataType (point gp)) <= 8) as Hts.
  { unfold type_size, DataTypeSize. repeat case_match; simplify_eq; lia. }
  set (n := if _ =? 0 then _ else _). assert (0 <= n <= 8) by (subst n; case_match; lia).
  rewrite s64_id by lia. case_match; zbool; [done|]. rewrite zsub_ok by lia. intros Hp.
  by apply DecodeValue_not_panic in Hp.
Qed.

(** The only panic of [decodePointValue]: for a point with a non-negative offset
    it panics exactly when the point is a string of a word group and the PLC returned
    fewer bytes than the point's offset; data that is too short for a number is an
    error. *)
Theorem decode_point_panics data gp g :
  0 <= offset gp < 2 ^ 62 -> 0 <= StringLen (parsed gp) < 2 ^ 62 ->
  decodePointValue data gp g = Panic <-> isBit g = false /\ IsString (parsed gp) = true /\ len data < offset gp.
Proof.
  intros Ho Hl. destruct (decide (isBit g = true \/ IsString (parsed gp) = false)) as [Hn|Hn].
  { split; [|naive_solver congruence]. intros Hp. by apply decode_number_no_panic in Hp. }
  assert (isBit g = false /\ IsString (parsed gp) = true) as [Hb Hs] by (destruct (isBit g), (IsString (parsed gp)); naive_solver).
  pose proof (len_nonneg data). unfold decodePointValue. rewrite Hb, Hs.
  rewrite s64_id by lia. set (e := if _ <? _ then _ else _).
  assert (e = Z.min (len data) (offset gp + StringLen (parsed gp))) as He by (subst e; case_match; zbool; lia).
  split.
  - intros Hp. split_and!; try done. destruct (decide (len data < offset gp)); [done|].
    rewrite zsub_ok in Hp by lia. cbn in Hp. by apply DecodeValue_not_panic in Hp.
  - intros (_ & _ & Hlt). by rewrite zsub_panic by lia.
Qed.

Lemma decode_point_panics_witness :
  exists g gp, g ∈ @groupPoints merge_runtime sample_scheduler (parse_all sample_points) /\ gp ∈ points g /\
    decodePointValue [0; 100] gp g = Panic.
Proof.
  set (gp := MkGroupedPoint (MkPoint "b" "D105.4H" DataTypeSTRING "r")
    (MkParsedAddress "D" 0x82 0 105 (-1) 4 ByteOrderHigh false true) 10).
  set (gs := @groupPoints merge_runtime sample_scheduler (parse_all sample_points)).
  assert (exists g, g ∈ gs /\ gp ∈ points g /\ isBit g = false) as (g & Hg & Hgp & Hb).
  { vm_compute in gs. first [eexists; split; [left|]; split; [right; right; left|reflexivity]
                            |eexists; split; [right; left|]; split; [right; right; left|reflexivity]]. }
  exists g, gp. split; [exact Hg|]. split; [exact Hgp|].
  apply (decode_point_panics [0; 100] gp g); [vm_compute; intuition congruence..|].
  split; [exact Hb|]. by vm_compute.
Defined.

(** Offsets are small and not negative, whatever the addresses. *)
Definition offsets_ok (g : pointGroup) : Prop :=
  0 <= startAddr g <= 65535 /\ 0 <= count g <= 65535 /\ Forall (fun gp => 0 <= offset gp < 2 ^ 62) (points g).

Lemma u16_le x : 0 <= x -> 0 <= u16 x <= 65535 /\ u16 x <= x.
Proof. intros. unfold uwrap. pose proof (Z.mod_le x (2 ^ 16)). zdm. Qed.

Lemma u16_bounds x : 0 <= u16 x <= 65535.
Proof. unfold uwrap. zdm. Qed.

Lemma word_step_offsets mb code res cur p :
  Forall offsets_ok res -> offsets_ok cur -> offset p = 0 -> 0 <= pa_Address (parsed p) ->
  startAddr cur <= pa_Address (parsed p) ->
  Forall offsets_ok (fst (word_step mb code (res, cur) p)) /\ offsets_ok (snd (word_step mb code (res, cur) p)) /\
  startAddr (snd (word_step mb code (res, cur) p)) <= pa_Address (parsed p).
Proof.
  intros Hres Hcur Ho Ha Hs. pose proof Hcur as (Hst & Hc & Hoff). pose proof (u16_le _ Ha) as [Hu Hle].
  pose proof (u16_bounds (wordCount p)) as Hw.
  unfold word_step. destruct (points cur) as [|q qs] eqn:Hps.
  { unfold offsets_ok. cbn. split_and!; first [done|lia|constructor; [cbn; lia|constructor]]. }
  rewrite (s64_id (startAddr cur + count cur)), (s64_id (startAddr cur + count cur + 10)) by lia.
  destruct (_ && _) eqn:Hm; cbn [fst snd].
  - apply andb_true_iff in Hm as [Hm _]. zbool. cbn [startAddr]. split; [done|]. split; [|lia].
    rewrite (s64_id (pa_Address (parsed p) - startAddr cur)), (s64_id ((pa_Address (parsed p) - startAddr cur) * 2)) by lia.
    split; [done|]. cbn [count points]. split; [case_match; [apply u16_bounds|done]|].
    apply Forall_app. split; [done|]. constructor; [|constructor]. cbn. lia.
  - split; [apply Forall_app; split; [done|by apply Forall_singleton]|]. unfold offsets_ok. cbn.
    split_and!; first [done|lia|constructor; [lia|constructor]].
Qed.

Lemma word_groups_offsets mb code ps :
  StronglySorted addr_le ps -> Forall (fun p => offset p = 0 /\ 0 <= pa_Address (parsed p)) ps ->
  Forall offsets_ok (word_groups mb code ps).
Proof.
  intros Hs Hp. unfold word_groups.
  assert (forall ps res cur, StronglySorted addr_le ps -> Forall (fun p => offset p = 0 /\ 0 <= pa_Address (parsed p)) ps ->
    Forall offsets_ok res -> offsets_ok cur -> Forall (fun p => startAddr cur <= pa_Address (parsed p)) ps ->
    Forall offsets_ok (fst (foldl (word_step mb code) (res, cur) ps)) /\
    offsets_ok (snd (foldl (word_step mb code) (res, cur) ps))) as H.
  { clear. induction ps as [|p ps IH]; intros res cur Hs Hp Hres Hcur Hst; [done|].
    apply StronglySorted_inv in Hs as [Hs Hle]. apply Forall_cons in Hp as [[Ho Ha] Hp].
    apply Forall_cons in Hst as [Hst _]. cbn [foldl].
    destruct (word_step_offsets mb code res cur p) as (H1 & H2 & H3); [done..|].
    destruct (word_step mb code (res, cur) p) as [res' cur']. cbn [fst snd] in *.
    apply IH; [done..|]. eapply Forall_impl; [exact Hle|]. unfold addr_le. intros q. cbn. lia. }
  destruct (H ps [] (MkPointGroup code 0 0 [] false)) as [Hr Hc]; [done|done|constructor|..].
  { split_and!; try done. }
  { eapply Forall_impl; [exact Hp|]. by intros q [_ ?]. }
  destruct (foldl _ _ _) as [res cur]. cbn [fst snd] in *. case_match; [done|]. apply Forall_app. split; [done|].
  by apply Forall_singleton.
Qed.

Lemma groupPoints_offsets `{GoRuntime} s ps g gp :
  g ∈ groupPoints s (parse_all ps) -> gp ∈ points g -> 0 <= offset gp < 2 ^ 62.
Proof.
  intros Hg Hgp. pose proof (groupPoints_in s _ g Hg) as ([code bit] & l & Hk & Hin).
  pose proof (groupsMap_keys _ _ _ Hk) as Hkeys.
  assert (Forall (fun p => offset p = 0 /\ 0 <= pa_Address (parsed p)) l) as Hl.
  { apply Forall_forall. intros q Hq. rewrite Forall_forall in Hkeys. split; [by apply Hkeys|].
    assert (q ∈ parsed_ok (parse_all ps)) as Hpo.
    { rewrite <- groupsMap_perm. apply list_elem_of_In, in_concat. exists l. split; [|by apply list_elem_of_In].
      apply list_elem_of_In, list_elem_of_fmap. exists ((code, bit), l). split; [done|]. by apply elem_of_map_to_list. }
    apply list_elem_of_omap in Hpo as (pp & Hpp & E). apply list_elem_of_fmap in Hpp as (p & -> & _). cbn in E.
    destruct (ParseAddress (point_Address p)) as [a| |] eqn:Ea; [|done..]. injection E as <-. cbn.
    by apply ParseAddress_sound in Ea as (i & _ & _ & [? _] & _). }
  cbn [key_groups] in Hin. destruct bit.
  - apply bit_groups_in in Hin as (q & Hq & ->). cbn in Hgp. apply list_elem_of_singleton in Hgp as ->.
    rewrite Forall_forall in Hl. destruct (Hl q Hq) as [-> _]. lia.
  - rewrite <- (sort_slice_perm point_less l) in Hl.
    pose proof (word_groups_offsets (maxFrameLength s *i 2) code _ (sort_slice_addr l) Hl) as Ho.
    rewrite Forall_forall in Ho. destruct (Ho g Hin) as (_ & _ & Hf). rewrite Forall_forall in Hf. by apply Hf.
Qed.

Section panics.
Context {T : Type} {MT : MemoryTransport T} {RT : GoRuntime}.

Lemma decode_all_panic g data now gps : forall rs,
  decode_all g data now rs gps = Panic -> exists gp, gp ∈ gps /\ decodePointValue data gp g = Panic.
Proof.
  induction gps as [|gp gps IH]; intros rs; cbn [decode_all]; [done|].
  destruct (decodePointValue data gp g) eqn:E; cbn [mbind res_bind];
    [intros (q & ? & ?)%IH; exists q; split; [by right|done]..|]. intros _. exists gp. split; [by left|done].
Qed.

Lemma parse_points_all qs : forall (t : T) rs, snd (parse_points t rs qs) = parse_all qs.
Proof.
  induction qs as [|p qs IH]; intros t rs; cbn [parse_points]; [done|].
  destruct (match ParseAddress _ with Ok _ => _ | _ => _ end) as [t1 rs1]. specialize (IH t1 rs1).
  destruct (parse_points t1 rs1 qs) as [[t2 rs2] pps]. cbn in *. by rewrite IH.
Qed.

Hypothesis read_memory_quiet : forall (t : T) area a n, snd (mt_ReadMemory t area a n) <> Panic.
Hypothesis read_bits_quiet : forall (t : T) area a b n, snd (mt_ReadBits t area a b n) <> Panic.

Lemma read_group_panic s (t : T) rs g :
  read_group s t rs g = Panic -> exists data gp, gp ∈ points g /\ decodePointValue data gp g = Panic.
Proof using read_memory_quiet read_bits_quiet.
  unfold read_group. destruct (waitMinInterval s t) as [s1 t1].
  assert (snd (if isBit g then readBitGroup t1 g else readWordGroup t1 g) <> Panic) as Hr.
  { destruct (isBit g); [|apply read_memory_quiet]. unfold readBitGroup. destruct (points g) as [|p0 l]; [done|].
    match goal with |- context [mt_ReadBits ?t ?c ?a ?b ?n] => pose proof (read_bits_quiet t c a b n) as Hq end.
    by destruct (mt_ReadBits _ _ _ _ _) as [t2 []]. }
  destruct (if isBit g then _ else _) as [t2 [data| |]]; [..|done].
  - destruct (Now t2) as [t3 now]. destruct (decode_all g data now rs (points g)) eqn:E; [done..|].
    intros _. apply decode_all_panic in E as (gp & ? & ?). by exists data, gp.
  - by destruct (mark_bad t2 rs (points g)).
Qed.

Lemma read_groups_panic gs : forall s (t : T) rs,
  read_groups s t rs gs = Panic -> exists g data gp, g ∈ gs /\ gp ∈ points g /\ decodePointValue data gp g = Panic.
Proof using read_memory_quiet read_bits_quiet.
  induction gs as [|g gs IH]; intros s t rs; cbn [read_groups]; [done|].
  destruct (read_group s t rs g) as [[[s1 t1] rs1]| |] eqn:E; cbn [mbind res_bind]; [|done|].
  - intros (h & data & gp & ? & ?)%IH. exists h, data, gp. split; [by right|done].
  - intros _. apply read_group_panic in E as (data & gp & ?). exists g, data, gp. split; [by left|done].
Qed.

(** A read panics only on account of a string point among those asked for. *)
Lemma ReadPoints_panic s (t : T) ps :
  ReadPoints s t ps = Panic -> exists p a, p ∈ ps /\ ParseAddress (point_Address p) = Ok a /\ IsString a = true.
Proof using read_memory_quiet read_bits_quiet.
  unfold ReadPoints. destruct ps as [|p0 ps0] eqn:Eps; [done|]. rewrite <- Eps.
  pose proof (parse_points_all ps t ∅) as Hp. destruct (parse_points t ∅ ps) as [[t1 rs1] pps]. cbn in Hp. subst pps.
  intros (g & data & gp & Hg & Hgp & Hpan)%read_groups_panic.
  destruct (groupPoints_from ps s g gp Hg Hgp) as [Hin Ha]. exists (point gp), (parsed gp). split_and!; [done..|].
  destruct (IsString (parsed gp)) eqn:Hs; [done|]. exfalso.
  apply decode_number_no_panic in Hpan; [done|by eapply groupPoints_offsets|by right].
Qed.
End panics.

(** *** Counters *)

(** The counters balance: every request counted was counted as a success or a
    failure (in the 64-bit counters). *)
Definition balanced (s : Scheduler) : Prop := totalRequests s = successCount s +i failureCount s.

Lemma s64_succ x y : s64 (s64 (x + y) + 1) = s64 (s64 (x + 1) + y) /\ s64 (s64 (x + y) + 1) = s64 (x + s64 (y + 1)).
Proof. unfold swrap. split; zdm. Qed.

Lemma balanced_success s : balanced s -> balanced (add_success (add_total s)).
Proof. unfold balanced. cbn. intros ->. apply s64_succ. Qed.

Lemma balanced_failure s : balanced s -> balanced (add_failure (add_total s)).
Proof. unfold balanced. cbn. intros ->. apply s64_succ. Qed.

Section stats.
Context {T : Type} {MT : MemoryTransport T}.

Lemma waitMinInterval_counts s (t : T) :
  balanced s -> let s' := fst (waitMinInterval s t) in balanced s' /\ GetStats s' = GetStats s.
Proof. unfold waitMinInterval. intros Hb. repeat case_match; done. Qed.

Lemma read_group_counts s (t : T) rs g s' t' rs' :
  balanced s -> read_group s t rs g = Ok (s', t', rs') ->
  balanced s' /\ totalRequests s' = totalRequests s +i 1.
Proof.
  intros Hb. unfold read_group. pose proof (waitMinInterval_counts s t Hb) as [Hw Hst].
  destruct (waitMinInterval s t) as [s1 t1]. cbn [fst] in *. injection Hst as Htot _ _.
  destruct (if isBit g then _ else _) as [t2 [d|e|]]; [..|done].
  - destruct (Now t2) as [t3 now]. destruct (decode_all _ _ _ _ _); [|done..]. cbn. intros [= <- _ _].
    split; [by apply balanced_success|]. cbn. by rewrite Htot.
  - destruct (mark_bad t2 rs (points g)) as [t3 rs3]. intros [= <- _ _].
    split; [by apply balanced_failure|]. cbn. by rewrite Htot.
Qed.

Lemma read_groups_counts gs : forall s (t : T) rs s' t' rs',
  balanced s -> read_groups s t rs gs = Ok (s', t', rs') ->
  balanced s' /\ s64 (totalRequests s') = s64 (totalRequests s + len gs).
Proof.
  induction gs as [|g gs IH]; intros s t rs s' t' rs' Hb; cbn [read_groups].
  { intros [= <- _ _]. by rewrite len_nil, Z.add_0_r. }
  destruct (read_group s t rs g) as [[[s1 t1] rs1]| |] eqn:E; [|done..]. cbn. intros H.
  apply read_group_counts in E as [Hb1 Ht1]; [|done]. apply IH in H as [Hb2 Ht2]; [|done].
  split; [done|]. rewrite Ht2, Ht1, len_cons. unfold swrap. zdm.
Qed.

End stats.

(** C33: the statistics balance: they do so in a new scheduler and after a reset,
    and a call keeps that: [WritePoint] counts one request, as a success exactly when
    it returns no error; [ReadPoints] counts one request per group, each as a success
    or a failure. *)
Theorem stats_balance {T} {MT : MemoryTransport T} {RT : GoRuntime} `{GoFloat} cfg s (t : T) p v ps :
  balanced (NewScheduler cfg) /\ balanced (ResetStats s) /\
  (balanced s ->
    (let '(s', _, r) := WritePoint s t p v in
     r <> Panic -> balanced s' /\ totalRequests s' = totalRequests s +i 1 /\
       successCount s' = (if is_ok r then successCount s +i 1 else successCount s)) /\
    (forall s' t' rs, ReadPoints s t ps = Ok (s', t', rs) ->
       balanced s' /\ s64 (totalRequests s') = s64 (totalRequests s + len (groupPoints s (parse_all ps))))).
Proof.
  split; [done|]. split; [done|]. intros Hb. split.
  - assert (forall s1, GetStats s1 = GetStats (add_total s) ->
      (balanced (add_success s1) /\ totalRequests (add_success s1) = totalRequests s +i 1 /\
        successCount (add_success s1) = successCount s +i 1) /\
      (balanced (add_failure s1) /\ totalRequests (add_failure s1) = totalRequests s +i 1 /\
        successCount (add_failure s1) = successCount s)) as Hone.
    { intros [mf mi tr sc fc lr] [= -> -> ->]. pose proof (balanced_success s Hb). pose proof (balanced_failure s Hb).
      by split_and!. }
    unfold WritePoint. destruct (ParseAddress _) as [a|e|]; [|intros _; by apply Hone|done].
    destruct (EncodeValue _ _ _) as [enc|e|]; [|intros _; by apply Hone|done].
    destruct (waitMinInterval (add_total s) t) as [s1 t1] eqn:Hw.
    assert (GetStats s1 = GetStats (add_total s)) as Hst.
    { unfold waitMinInterval in Hw. destruct (minInterval _ <=? 0); [by simplify_eq|].
      destruct (Now t) as [ta na]. destruct (Now (if _ <? _ then _ else _)) as [tb nb]. by simplify_eq. }
    destruct (if point_isBit p a then _ else _) as [t2 [u|e|]]; intros Hp; [by apply Hone|by apply Hone|done].
  - intros s' t' rs Hr. unfold ReadPoints in Hr. destruct ps as [|p0 ps0] eqn:Eps.
    { injection Hr as <- _ _. split; [done|]. f_equal.
      assert (groupPoints s (parse_all []) = []) as ->.
      { unfold groupPoints. change (map_to_list _) with (@nil ((Z * bool) * list groupedPoint)).
        pose proof (map_order_perm (@nil ((Z * bool) * list groupedPoint))) as E.
        by apply Permutation_nil_r in E as ->. }
      rewrite len_nil. lia. }
    rewrite <- Eps in *. pose proof (parse_points_all ps t ∅) as Hparse.
    destruct (parse_points t ∅ ps) as [[t1 rs1] pps]. cbn in Hparse. subst pps. by eapply read_groups_counts.
Qed.

(** *** Pacing *)

Lemma waitMinInterval_paced {T} {MT : MemoryTransport T} {SC : SteadyClock T} s (t : T) :
  0 < minInterval s <= max_int -> lastRequestTime s <= snd (Now t) ->
  let '(s', t') := waitMinInterval s t in
  minInterval s' = minInterval s /\ lastRequestTime s + minInterval s <= lastRequestTime s' /\
  lastRequestTime s' <= snd (Now t').
Proof.
  intros Hm Hl. unfold waitMinInterval. rewrite (proj2 (Z.leb_gt _ _)) by lia.
  pose proof (now_now_law t) as Hn. pose proof (now_sleep_law t) as Hsl.
  destruct (Now t) as [t1 n1]. cbn [fst snd] in *. unfold since, max_int in *.
  destruct (_ <? minInterval s) eqn:E; zbool.
  - rewrite s64_id by lia. pose proof (now_now_law (Sleep t1 (minInterval s - Z.max (- 2 ^ 63) (Z.min (2 ^ 63 - 1) (n1 - lastRequestTime s))))) as Hn2.
    specialize (Hsl (minInterval s - Z.max (- 2 ^ 63) (Z.min (2 ^ 63 - 1) (n1 - lastRequestTime s)))).
    destruct (Now (Sleep _ _)) as [t2 n2]. cbn [fst snd minInterval lastRequestTime] in *. split_and!; [done|lia..].
  - pose proof (now_now_law t1) as Hn2. destruct (Now t1) as [t2 n2]. cbn [fst snd minInterval lastRequestTime] in *.
    split_and!; [done|lia..].
Qed.

(** Pacing: with a positive minimum interval, two requests are at least that far
    apart: [waitMinInterval] lets the next request start no earlier than
    [minInterval] after the time recorded for the previous one, and the one after
    that no earlier than twice that. *)
Theorem min_interval_respected {T} {MT : MemoryTransport T} {SC : SteadyClock T} s (t : T) s1 t1 s2 t2 :
  0 < minInterval s <= max_int -> lastRequestTime s <= snd (Now t) ->
  waitMinInterval s t = (s1, t1) -> waitMinInterval s1 t1 = (s2, t2) ->
  lastRequestTime s + minInterval s <= lastRequestTime s1 /\
  lastRequestTime s1 + minInterval s <= lastRequestTime s2.
Proof.
  intros Hm Hl E1 E2. pose proof (waitMinInterval_paced s t Hm Hl) as H1. rewrite E1 in H1.
  destruct H1 as (Hm1 & H1 & Hl1). pose proof (waitMinInterval_paced s1 t1) as H2. rewrite E2, Hm1 in H2.
  split; [done|]. apply H2; done.
Qed.

Lemma min_interval_respected_witness :
  exists s1 t1 s2 t2,
    @waitMinInterval world world_transport (MkScheduler 64 1000 0 0 0 0) (sample_memory, 500) = (s1, t1) /\
    @waitMinInterval world world_transport s1 t1 = (s2, t2) /\
    1000 <= lastRequestTime s1 /\ lastRequestTime s1 + 1000 <= lastRequestTime s2.
Proof.
  do 4 eexists. split; [reflexivity|]. split; [reflexivity|].
  eapply (@min_interval_respected world world_transport world_clock (MkScheduler 64 1000 0 0 0 0) (sample_memory, 500));
    [vm_compute; intuition congruence..|reflexivity|reflexivity].
Defined.

(** *** Addresses that do not fit *)

Lemma groupPoints_single `{GoRuntime} s p a :
  ParseAddress (point_Address p) = Ok a -> point_isBit p a = false ->
  groupPoints s (parse_all [p]) =
    [MkPointGroup (AreaCode a) (u16 (pa_Address a)) (u16 (wordCount (MkGroupedPoint p a 0))) [MkGroupedPoint p a 0] false].
Proof.
  intros Ha Hb. unfold groupPoints, groupsMap, parse_all. cbn [fmap list_fmap foldl]. rewrite Ha.
  assert (group_key p a = (AreaCode a, false)) as Hk by (unfold group_key; by rewrite Hb).
  unfold add_point. cbn [fst snd]. rewrite Hk, lookup_empty. cbn [default app].
  set (gp := MkGroupedPoint p a 0).
  pose proof (map_order_perm (map_to_list (<[(AreaCode a, false) := [gp]]> (∅ : gmap (Z * bool) (list groupedPoint))))) as Hp.
  rewrite (insert_empty (M := gmap (Z * bool))), (map_to_list_singleton (M := gmap (Z * bool))) in *.
  apply Permutation_singleton_r in Hp as ->. cbn [fmap list_fmap concat key_groups].
  pose proof (sort_slice_perm point_less [gp]) as Hs. apply Permutation_singleton_r in Hs as ->.
  by rewrite app_nil_r.
Qed.

(** A word address above 65535 is read modulo 65536: for a single word point the
    one request made asks for the 16-bit truncation of its address, and when it
    succeeds the point gets, with good quality, the value found there. *)
Theorem read_address_wraps {T} {MT : MemoryTransport T} {RT : GoRuntime} s (t t' : T) p a data :
  ParseAddress (point_Address p) = Ok a -> point_isBit p a = false -> minInterval s = 0 ->
  mt_ReadMemory t (AreaCode a) (pa_Address a mod 65536) (u16 (wordCount (MkGroupedPoint p a 0))) = (t', Ok data) ->
  forall v, decodePointValue data (MkGroupedPoint p a 0) (MkPointGroup 0 0 0 [] false) = Ok v ->
  exists s'' t'' ts, ReadPoints s t [p] = Ok (s'', t'', {[ID p := MkValue v QualityGood ts]}).
Proof.
  intros Ha Hb Hmi Hr v Hv. unfold ReadPoints.
  assert (parse_points t ∅ [p] = (t, ∅, parse_all [p])) as -> by (cbn; by rewrite Ha).
  rewrite (groupPoints_single s p a Ha Hb). cbn [read_groups]. unfold read_group, waitMinInterval.
  rewrite Hmi. cbn [Z.leb]. change (0 <=? 0) with true. cbn [isBit]. unfold readWordGroup. cbn [areaCode startAddr count].
  change (u16 (pa_Address a)) with (pa_Address a mod 65536). rewrite Hr.
  destruct (Now t') as [t2 now]. cbn [points decode_all].
  change (decodePointValue data (MkGroupedPoint p a 0) (MkPointGroup (AreaCode a) _ _ _ false))
    with (decodePointValue data (MkGroupedPoint p a 0) (MkPointGroup 0 0 0 [] false)).
  rewrite Hv. cbn. do 3 eexists. done.
Qed.

Lemma read_address_wraps_witness :
  exists s'' t'' ts, @ReadPoints world world_transport merge_runtime sample_scheduler (sample_memory, 0)
    [MkPoint "x" "D65546" DataTypeUINT16 "r"]
    = Ok (s'', t'', {["x" := MkValue (VUint16 0x0a0a) QualityGood ts]}).
Proof.
  refine (@read_address_wraps world world_transport merge_runtime sample_scheduler (sample_memory, 0) (sample_memory, 0)
    (MkPoint "x" "D65546" DataTypeUINT16 "r") (MkParsedAddress "D" 0x82 0 65546 (-1) 0 ByteOrderHigh false false)
    [10; 10] _ _ _ _ (VUint16 0x0a0a) _); vm_compute; reflexivity.
Defined.

(** Data type BIT on an address without a bit number: reading asks the PLC for
    bit 255 of the word (the absent number is -1), and writing always fails. *)
Theorem bit_type_needs_bit_number {T} {MT : MemoryTransport T} `{GoFloat} s (t : T) p a v code :
  ParseAddress (point_Address p) = Ok a -> IsBit a = false -> point_DataType p = DataTypeBIT ->
  readBitGroup t (bit_group code (MkGroupedPoint p a 0)) =
    (let '(t', r) := mt_ReadBits t code (u16 (pa_Address a)) 255 1 in
     (t', match r with Ok bits => Ok ((fun b : bool => if b then 0x01 else 0x00) <$> bits) | Err e => Err e | Panic => Panic end)) /\
  WritePoint s t p v = (add_failure (add_total s), t, Err ErrUnsupportedDataType).
Proof.
  intros Ha Hb Hdt. assert (Bit a = -1) as Hbit.
  { apply ParseAddress_sound in Ha as (i & _ & _ & _ & [(_ & _ & ? & _)|[(? & _)|(_ & _ & ? & _)]]); congruence. }
  split; [unfold readBitGroup; cbn; by rewrite Hbit|].
  unfold WritePoint. rewrite Ha, Hdt. unfold EncodeValue, addr_IsBit. by rewrite Hb.
Qed.

Lemma bit_type_needs_bit_number_witness :
  @WritePoint world world_transport simple_float sample_scheduler (sample_memory, 0)
    (MkPoint "x" "W5" DataTypeBIT "rw") (VBool true)
    = (add_failure (add_total sample_scheduler), (sample_memory, 0), Err ErrUnsupportedDataType).
Proof.
  refine (proj2 (@bit_type_needs_bit_number world world_transport simple_float sample_scheduler (sample_memory, 0)
    (MkPoint "x" "W5" DataTypeBIT "rw") (MkParsedAddress "W" 0xb1 0 5 (-1) 0 ByteOrderHigh false false) (VBool true) 0 _ _ _));
    vm_compute; reflexivity.
Defined.
