(* ===== verification/Simulation.v ===== *)
(** * General facts about [ReadPoints] and [WritePoint]

    Which points get an answer whatever the transport does, and transport
    morphisms: a map between two transports that commutes with every call commutes with
    the scheduler ([src/scheduler.go]), so that a theorem about the one holds of the
    other. *)
From S2P Require Import Prelude Types Protocol Floats Decoder Interfaces Scheduler.

(** ** Every point is answered *)

Section answered.
Context {T : Type} `{MemoryTransport T}.

Lemma mark_bad_dom gps : forall (t : T) rs, dom (snd (mark_bad t rs gps)) = dom rs ∪ ids gps.
Proof.
  induction gps as [|gp gps IH]; intros t rs; cbn [mark_bad]; [unfold ids; cbn; set_solver|].
  destruct (Now t) as [t1 ts]. by rewrite IH, dom_insert_ids.
Qed.

Lemma decode_all_dom g data now gps : forall rs,
  match decode_all g data now rs gps with
  | Ok rs' => dom rs' = dom rs ∪ ids gps
  | Err _ => False
  | Panic => True
  end.
Proof.
  induction gps as [|gp gps IH]; intros rs; cbn [decode_all]; [unfold ids; cbn; set_solver|].
  destruct (decodePointValue data gp g); cbn [mbind res_bind]; [..|done];
    (match goal with |- context [decode_all g data now ?r gps] => specialize (IH r) end;
     destruct (decode_all _ _ _ _ _); [by rewrite IH, dom_insert_ids|done..]).
Qed.

Lemma read_group_dom s (t : T) rs g :
  match read_group s t rs g with
  | Ok (_, _, rs') => dom rs' = dom rs ∪ ids (points g)
  | Err _ => False
  | Panic => True
  end.
Proof.
  unfold read_group. destruct (waitMinInterval s t) as [s1 t1].
  destruct (if isBit g then _ else _) as [t2 [data|e|]]; [| |done].
  - destruct (Now t2) as [t3 now]. pose proof (decode_all_dom g data now (points g) rs) as Hd.
    by destruct (decode_all _ _ _ _ _).
  - pose proof (mark_bad_dom (points g) t2 rs) as Hd. by destruct (mark_bad _ _ _).
Qed.

Lemma read_groups_dom gs : forall s (t : T) rs,
  match read_groups s t rs gs with
  | Ok (_, _, rs') => dom rs' = dom rs ∪ ids (concat (points <$> gs))
  | Err _ => False
  | Panic => True
  end.
Proof.
  induction gs as [|g gs IH]; intros s t rs; cbn [read_groups]; [unfold ids; cbn; set_solver|].
  pose proof (read_group_dom s t rs g) as Hg. destruct (read_group s t rs g) as [[[s1 t1] rs1]|e|]; [|done..].
  cbn [mbind res_bind]. specialize (IH s1 t1 rs1). destruct (read_groups _ _ _ _) as [[[s2 t2] rs2]|e|]; [|done..].
  rewrite IH, Hg. unfold ids. cbn [concat fmap list_fmap]. rewrite fmap_app. set_solver.
Qed.

Lemma parse_points_dom ps : forall (t : T) rs t' rs' pps,
  parse_points t rs ps = (t', rs', pps) ->
  pps = parse_all ps /\
  dom rs' ∪ list_to_set (ID ∘ point <$> parsed_ok pps) = dom rs ∪ list_to_set (ID <$> ps).
Proof.
  induction ps as [|p ps IH]; intros t rs t' rs' pps; cbn [parse_points].
  { intros [= <- <- <-]. split; [done|]. set_solver. }
  destruct (ParseAddress (point_Address p)) as [a|e|] eqn:Ea; [|destruct (Now t) as [t1 ts]..];
    (destruct (parse_points _ _ ps) as [[t2 rs2] pps2] eqn:E; intros [= <- <- <-];
     apply IH in E as [-> Hd]; split; [unfold parse_all; cbn; by rewrite Ea|]);
    unfold parsed_ok in *; cbn; [set_solver|rewrite Hd, dom_insert_L; set_solver..].
Qed.

(** Every point asked for, and no other, is in the result; [ReadPoints] returns no error. *)
Lemma ReadPoints_dom `{GoRuntime} s (t : T) ps :
  match ReadPoints s t ps with
  | Ok (_, _, rs) => dom rs = list_to_set (ID <$> ps)
  | Err _ => False
  | Panic => True
  end.
Proof.
  unfold ReadPoints. destruct ps as [|p ps]; [done|].
  destruct (parse_points t ∅ (p :: ps)) as [[t1 rs1] pps] eqn:E. apply parse_points_dom in E as [-> Hd].
  pose proof (read_groups_dom (groupPoints s (parse_all (p :: ps))) s t1 rs1) as Hg.
  destruct (read_groups _ _ _ _) as [[[s2 t2] rs2]|e|]; [|done..]. rewrite Hg.
  rewrite dom_empty_L, (left_id_L ∅ (∪)) in Hd. rewrite <- Hd. f_equal. unfold ids.
  pose proof (groupPoints_perm s (parse_all (p :: ps))) as Hp.
  assert (forall l : list groupedPoint, (fun gp => ID (point gp)) <$> l = (ID ∘ fst) <$> (strip <$> l)) as Hs.
  { intros l. by rewrite <- list_fmap_compose. }
  unfold grouped in Hp. rewrite (Hs (concat _)), Hp. by rewrite <- list_fmap_compose.
Qed.
End answered.

(** ** Morphisms *)

Class TransportMorphism {T U : Type} `{MemoryTransport T} `{MemoryTransport U} (f : T -> U) := {
  mor_ReadMemory t area a n : mt_ReadMemory (f t) area a n = prod_map f id (mt_ReadMemory t area a n);
  mor_WriteMemory t area a n d : mt_WriteMemory (f t) area a n d = prod_map f id (mt_WriteMemory t area a n d);
  mor_ReadBits t area a b n : mt_ReadBits (f t) area a b n = prod_map f id (mt_ReadBits t area a b n);
  mor_WriteBits t area a b l : mt_WriteBits (f t) area a b l = prod_map f id (mt_WriteBits t area a b l);
  mor_Now t : Now (f t) = prod_map f id (Now t);
  mor_Sleep t d : Sleep (f t) d = f (Sleep t d) }.

Section morphism.
Context {T U : Type} `{TM : TransportMorphism T U f}.

Lemma waitMinInterval_mor s t : waitMinInterval s (f t) = prod_map id f (waitMinInterval s t).
Proof using TM.
  unfold waitMinInterval. destruct (_ <=? _); [done|]. rewrite mor_Now. destruct (Now t) as [t1 now].
  cbn [prod_map fst snd id]. rewrite mor_Sleep.
  destruct (since now (lastRequestTime s) <? minInterval s); rewrite mor_Now; by destruct (Now _).
Qed.

Lemma mark_bad_mor gps : forall t rs, mark_bad (f t) rs gps = prod_map f id (mark_bad t rs gps).
Proof using TM.
  induction gps as [|gp gps IH]; intros t rs; cbn [mark_bad]; [done|].
  rewrite mor_Now. destruct (Now t) as [t1 ts]. apply IH.
Qed.

(** The result of a read, seen through [f]. *)
Definition read_map (r : res error (Scheduler * T * gmap string Value)) : res error (Scheduler * U * gmap string Value) :=
  match r with Ok (s, t, rs) => Ok (s, f t, rs) | Err e => Err e | Panic => Panic end.

Lemma read_group_mor s t rs g : read_group s (f t) rs g = read_map (read_group s t rs g).
Proof using TM.
  unfold read_group. rewrite waitMinInterval_mor. destruct (waitMinInterval s t) as [s1 t1]. cbn [prod_map fst snd id].
  replace (if isBit g then readBitGroup (f t1) g else readWordGroup (f t1) g)
    with (prod_map f id (if isBit g then readBitGroup t1 g else readWordGroup t1 g)).
  - destruct (if isBit g then _ else _) as [t2 [data|e|]]; cbn [prod_map fst snd id]; [| |done].
    + rewrite mor_Now. destruct (Now t2) as [t3 now]. cbn. by destruct (decode_all _ _ _ _ _).
    + rewrite mark_bad_mor. by destruct (mark_bad _ _ _).
  - unfold readBitGroup, readWordGroup. destruct (isBit g), (points g) as [|p ps]; rewrite ?mor_ReadMemory, ?mor_ReadBits; try done.
    by destruct (mt_ReadBits _ _ _ _ _).
Qed.

Lemma read_groups_mor gs : forall s t rs, read_groups s (f t) rs gs = read_map (read_groups s t rs gs).
Proof using TM.
  induction gs as [|g gs IH]; intros s t rs; cbn [read_groups]; [done|].
  rewrite read_group_mor. destruct (read_group s t rs g) as [[[s1 t1] rs1]|e|]; [|done..]. apply IH.
Qed.

Lemma parse_points_mor ps : forall t rs,
  parse_points (f t) rs ps = (let '(t', rs', pps) := parse_points t rs ps in (f t', rs', pps)).
Proof using TM.
  induction ps as [|p ps IH]; intros t rs; cbn [parse_points]; [done|].
  destruct (ParseAddress (point_Address p)); rewrite ?mor_Now; [|destruct (Now t) as [t1 ts]; cbn [prod_map fst snd id]..];
    rewrite IH; by destruct (parse_points _ _ ps) as [[? ?] ?].
Qed.

Lemma ReadPoints_mor `{GoRuntime} s t ps : ReadPoints s (f t) ps = read_map (ReadPoints s t ps).
Proof using TM.
  unfold ReadPoints. destruct ps as [|p ps]; [done|]. rewrite parse_points_mor.
  destruct (parse_points t ∅ (p :: ps)) as [[t1 rs1] pps]. apply read_groups_mor.
Qed.

Lemma WritePoint_mor `{GoFloat} s t p v :
  WritePoint s (f t) p v = (let '(s', t', r) := WritePoint s t p v in (s', f t', r)).
Proof using TM.
  unfold WritePoint. destruct (ParseAddress (point_Address p)) as [a| |]; [|done..].
  destruct (EncodeValue v (point_DataType p) (Some a)) as [bs| |]; [|done..].
  rewrite waitMinInterval_mor. destruct (waitMinInterval (add_total s) t) as [s1 t1]. cbn [prod_map fst snd id].
  destruct (point_isBit p a).
  - rewrite mor_WriteBits. destruct (mt_WriteBits _ _ _ _ _) as [t2 [[]| |]]; done.
  - match goal with |- context [if ?b then _ else (u16 _, bs)] => destruct (if b then _ else (u16 _, bs)) as [n d] end.
    rewrite mor_WriteMemory. destruct (mt_WriteMemory _ _ _ _ _) as [t2 [[]| |]]; done.
Qed.
End morphism.
