(* ===== verification/Transport.v ===== *)
(** * The TCP transport ([src/transport.go]), sequential part

    Configuration, service identifiers, the commands built from a memory access and
    the interpretation of the answer, and the reconnection loop.  The goroutines of
    the transport and the channels between them are in [Session.v]. *)
From S2P Require Import Prelude Types Protocol Floats Scheduler.
Local Open Scope go_scope.

(** ** Configuration *)

Definition Second : Z := 1000 * Millisecond.

(** The fields set from the configuration. *)
Record TransportConfig := MkTransportConfig {
  plcIP : string; plcPort : Z; timeout : Z; maxRetries : Z; retryInterval : Z; maxBackoff : Z;
  heartbeatInterval : Z; srcAddr : FINSAddress; dstAddr : FINSAddress }.

Definition cfg_ms `{GoFloat} (cfg : config) (k : string) (d : Z) : Z :=
  match cfg_int cfg k with Some v => v *i Millisecond | None => d end.

(** [loadConfig], with the defaults [NewTransport] puts in place first. *)
Definition loadConfig `{GoFloat} (cfg : config) : res error TransportConfig :=
  match cfg !! "plcIP" with
  | Some (VString ip) =>
    let int_or k d := default d (cfg_int cfg k) in
    let srcNet := int_or "srcNetworkAddr" 0 in
    let srcNode := int_or "srcNodeAddr" 1 in
    let srcUnit := int_or "srcUnitAddr" 255 in
    let dstNet := int_or "dstNetworkAddr" 0 in
    let dstNode := int_or "dstNodeAddr" 1 in
    let dstUnit := int_or "dstUnitAddr" 0 in
    Ok {| plcIP := ip;
          plcPort := int_or "plcPort" 9600;
          timeout := cfg_ms cfg "timeout" (3000 * Millisecond);
          maxRetries := int_or "maxRetries" 3;
          retryInterval := cfg_ms cfg "retryInterval" (1000 * Millisecond);
          maxBackoff := 30 * Second;
          heartbeatInterval := cfg_ms cfg "heartbeatInterval" (30 * Second);
          srcAddr := MkFINSAddress (u8 srcNet) (u8 srcNode) (u8 srcUnit);
          dstAddr := MkFINSAddress (u8 dstNet) (u8 dstNode) (u8 dstUnit) |}
  | _ => Err ErrPlcIPRequired
  end.

(** ** Service identifiers *)

(** [nextSID]: the new counter, which is the identifier returned. *)
Definition nextSID (sidCounter : Z) : Z :=
  let c := u8 (sidCounter + 1) in if c =? 0 then 1 else c.

(** ** Commands *)

(** The bytes [SendCommand] writes; slicing [commandData] panics when it is shorter
    than two bytes. *)
Definition command_frame (src dst : FINSAddress) (sid : Z) (commandData : bytes) : res error bytes :=
  code ← sub commandData 0 2;
  rest ← sub_from commandData 2;
  let header := DefaultCommandHeader src dst sid in
  let finsFrame := EncodeFINSFrame header (be_val code) 0 rest in
  Ok (EncodeFINSTCPFrame TCPCommandFINSFrame 0 finsFrame).

(** The end-code check all four memory operations make. *)
Definition check_end {A} (k : FINSFrame -> A) (r : res error FINSFrame) : res error A :=
  match r with
  | Ok resp => if negb (EndCode resp =? END_CODE_NORMAL) then Err (ErrFINS (EndCode resp)) else Ok (k resp)
  | Err e => Err e
  | Panic => Panic
  end.

Section memory_operations.
Context {T : Type} (SendCommand : T -> bytes -> T * res error FINSFrame).

Definition ReadMemory (t : T) (area address count : Z) : T * res error bytes :=
  let memAddr := NewMemoryAddress area address in
  let cmd := EncodeReadCommand memAddr count in
  let '(t, r) := SendCommand t cmd in (t, check_end Data r).

Definition WriteMemory (t : T) (area address count : Z) (data : bytes) : T * res error unit :=
  let memAddr := NewMemoryAddress area address in
  let cmd := EncodeWriteCommand memAddr count data in
  let '(t, r) := SendCommand t cmd in (t, check_end (fun _ => tt) r).

(** [bits[i] = resp.Data[i]&0x01 != 0] for the bytes there are. *)
Fixpoint bits_of (count : nat) (data : bytes) : list bool :=
  match count, data with
  | S count, b :: data => negb (Z.land b 0x01 =? 0) :: bits_of count data
  | _, _ => replicate count false
  end.

Definition ReadBits (t : T) (area address bitOffset count : Z) : T * res error (list bool) :=
  let memAddr := NewMemoryAddressWithBit area address bitOffset in
  let cmd := EncodeReadCommand memAddr count in
  let '(t, r) := SendCommand t cmd in (t, check_end (fun resp => bits_of (Z.to_nat count) (Data resp)) r).

Definition WriteBits (t : T) (area address bitOffset : Z) (values : list bool) : T * res error unit :=
  let memAddr := NewMemoryAddressWithBit area address bitOffset in
  let data := (fun v : bool => if v then 0x01 else 0x00) <$> values in
  let cmd := EncodeWriteCommand memAddr (u16 (len values)) data in
  let '(t, r) := SendCommand t cmd in (t, check_end (fun _ => tt) r).
End memory_operations.

(** ** Reconnecting: the abstract schedule

    [Lifecycle.v] shows that [Reconnect] follows it. *)

(** The loop of [Reconnect] from attempt [attempt] on: [dial] says whether the
    [n]-th call of [Connect] succeeds, [cancelled] whether the context ends during the
    wait after it.  Returns the outcome and the waits made, in order. *)
Fixpoint reconnect_loop (fuel : nat) (cfg : TransportConfig) (dial cancelled : Z -> bool)
    (attempt interval : Z) : res error unit * list Z :=
  match fuel with
  | O => (Err (ErrReconnectFailed (maxRetries cfg)), [])
  | S fuel =>
    if attempt <? maxRetries cfg then
      if dial attempt then (Ok tt, [])
      else if attempt <? maxRetries cfg -i 1 then
        if cancelled attempt then (Err ErrContext, [interval])
        else
          let interval' := interval *i 2 in
          let interval' := if maxBackoff cfg <? interval' then maxBackoff cfg else interval' in
          let '(r, ws) := reconnect_loop fuel cfg dial cancelled (attempt + 1) interval' in
          (r, interval :: ws)
      else reconnect_loop fuel cfg dial cancelled (attempt + 1) interval
    else (Err (ErrReconnectFailed (maxRetries cfg)), [])
  end.

(** The whole schedule. *)
Definition reconnect_schedule (cfg : TransportConfig) (dial cancelled : Z -> bool) : res error unit * list Z :=
  reconnect_loop (S (Z.to_nat (maxRetries cfg))) cfg dial cancelled 0 (retryInterval cfg).

(** ** Identifiers in sequence *)

(** The identifier of the [k]-th command after the counter stood at [c]. *)
Definition sid_at (c : Z) (k : nat) : Z := Nat.iter k nextSID c.

Lemma nextSID_eq c : 0 <= c <= 255 -> nextSID c = if c =? 255 then 1 else c + 1.
Proof.
  intros Hc. unfold nextSID, uwrap. destruct (Z.eqb_spec c 255) as [->|Hne]; [done|].
  rewrite Z.mod_small by lia. by rewrite (proj2 (Z.eqb_neq _ _)) by lia.
Qed.

Lemma sid_at_eq c k :
  0 <= c <= 255 -> (0 < k)%nat -> sid_at c k = (c - 1 + Z.of_nat k) mod 255 + 1.
Proof.
  intros Hc. induction k as [|[|k] IH]; intros Hk; [lia| |].
  - change (sid_at c 1) with (nextSID c). rewrite nextSID_eq by done. destruct (Z.eqb_spec c 255); zdm.
  - change (sid_at c (S (S k))) with (nextSID (sid_at c (S k))). rewrite IH by lia.
    rewrite nextSID_eq by zdm. destruct (Z.eqb_spec ((c - 1 + Z.of_nat (S k)) mod 255 + 1) 255); zdm.
Qed.

(** Service identifiers: the commands sent one after another never use
    identifier 0, any 255 consecutive commands use different ones, and the 256th
    command reuses the identifier of the first. *)
Theorem sid_window c i j :
  in_u 8 c -> (0 < i < j)%nat ->
  1 <= sid_at c i <= 255 /\ ((j - i < 255)%nat -> sid_at c i <> sid_at c j) /\
  sid_at c (i + 255) = sid_at c i.
Proof.
  unfold in_u. intros Hc Hij. rewrite !sid_at_eq by lia. split_and!; [zdm|zdm| |zdm].
  intros Hlt Heq.
  assert ((c - 1 + Z.of_nat i) mod 255 = (c - 1 + Z.of_nat j) mod 255) as E by lia. clear Heq. zdm.
Qed.

Lemma sid_window_witness :
  sid_at 0 1 = 1 /\ sid_at 200 5 <> sid_at 200 259 /\ sid_at 200 260 = sid_at 200 5.
Proof.
  split; [reflexivity|].
  destruct (sid_window 200 5 259) as (_ & H1 & H2); [by_decide|lia|]. split; [|exact H2].
  apply H1. lia.
Defined.

(** ** Backoff *)

(** The values the variable [interval] of the loop takes: doubled each time, then capped;
    the first one is not capped. *)
Fixpoint interval_at (cfg : TransportConfig) (n : nat) : Z :=
  match n with O => retryInterval cfg | S n => Z.min (maxBackoff cfg) (2 * interval_at cfg n) end.

(** The documented wait after attempt [n] (counted from 0):
    [min (retryInterval * 2^n) maxBackoff]. *)
Definition backoff (cfg : TransportConfig) (n : nat) : Z :=
  Z.min (maxBackoff cfg) (retryInterval cfg * 2 ^ Z.of_nat n).

(** The loop waits as documented, but for a first interval above the cap. *)
Lemma interval_at_backoff cfg n :
  0 <= retryInterval cfg -> 0 <= maxBackoff cfg -> (0 < n)%nat \/ retryInterval cfg <= maxBackoff cfg ->
  interval_at cfg n = backoff cfg n.
Proof.
  intros Hr Hm Hn. unfold backoff. induction n as [|n IH]; cbn [interval_at]; [change (2 ^ Z.of_nat 0) with 1; lia|].
  assert (1 <= 2 ^ Z.of_nat n) as Hp by (apply (Z.pow_le_mono_r 2 0); lia).
  rewrite Nat2Z.inj_succ, Z.pow_succ_r by lia. destruct n as [|n].
  - change (2 ^ Z.of_nat 0) with 1. cbn [interval_at]. lia.
  - rewrite IH by (left; lia). nia.
Qed.

Lemma interval_bounds cfg n :
  0 <= retryInterval cfg < 2 ^ 61 -> 0 <= maxBackoff cfg < 2 ^ 61 -> 0 <= interval_at cfg n < 2 ^ 61.
Proof. intros. induction n; cbn [interval_at]; lia. Qed.

(** Some attempt from [a] on succeeds, and nothing ended the loop before it. *)
Definition succeeds_from (cfg : TransportConfig) (dial cancelled : Z -> bool) (a : Z) : Prop :=
  exists n, a <= n < maxRetries cfg /\ dial n = true /\
    forall m, a <= m < n -> dial m = false /\ cancelled m = false.

Section succeeds.
Context (cfg : TransportConfig) (dial cancelled : Z -> bool) (a : Z).

Lemma succeeds_over : maxRetries cfg <= a -> ~ succeeds_from cfg dial cancelled a.
Proof. intros ? (n & ? & _). lia. Qed.

Lemma succeeds_now : a < maxRetries cfg -> dial a = true -> succeeds_from cfg dial cancelled a.
Proof. intros ? Hd. exists a. split_and!; [lia..|done|]. intros. lia. Qed.

Lemma succeeds_cancelled : dial a = false -> cancelled a = true -> ~ succeeds_from cfg dial cancelled a.
Proof.
  intros Hd Hc (n & Hn & Hdn & Hm). destruct (decide (n = a)) as [->|]; [congruence|].
  destruct (Hm a) as [_ ?]; [lia|congruence].
Qed.

Lemma succeeds_next :
  dial a = false -> (a < maxRetries cfg - 1 -> cancelled a = false) ->
  succeeds_from cfg dial cancelled a <-> succeeds_from cfg dial cancelled (a + 1).
Proof.
  intros Hd Hc. split; intros (n & Hn & Hdn & Hm); exists n.
  - destruct (decide (n = a)) as [->|]; [congruence|]. split_and!; [lia..|done|]. intros m Hmn. apply Hm. lia.
  - split_and!; [lia..|done|]. intros m Hmn. destruct (decide (m = a)) as [->|]; [split; [done|apply Hc; lia]|].
    apply Hm. lia.
Qed.
End succeeds.

Lemma reconnect_loop_spec fuel cfg dial cancelled : forall attempt r ws,
  0 <= retryInterval cfg < 2 ^ 61 -> 0 <= maxBackoff cfg < 2 ^ 61 -> maxRetries cfg < 2 ^ 62 ->
  0 <= attempt -> maxRetries cfg < attempt + Z.of_nat fuel ->
  reconnect_loop fuel cfg dial cancelled attempt (interval_at cfg (Z.to_nat attempt)) = (r, ws) ->
  ws = interval_at cfg <$> seq (Z.to_nat attempt) (length ws) /\
  attempt + len ws <= Z.max attempt (maxRetries cfg - 1) /\
  (r = Ok tt <-> succeeds_from cfg dial cancelled attempt).
Proof.
  induction fuel as [|fuel IH]; intros attempt r ws Hri Hmb Hmr Ha Hf; cbn [reconnect_loop].
  { intros [= <- <-]. change (len (@nil Z)) with 0. split_and!; [done|lia|]. split; [done|].
    intros H. apply succeeds_over in H; [done|lia]. }
  destruct (attempt <? maxRetries cfg) eqn:Hlt; zbool.
  2:{ intros [= <- <-]. change (len (@nil Z)) with 0. split_and!; [done|lia|]. split; [done|].
      intros H. by apply succeeds_over in H. }
  destruct (dial attempt) eqn:Hd.
  { intros [= <- <-]. change (len (@nil Z)) with 0. split_and!; [done|lia|]. split; [|done]. intros _.
    by apply succeeds_now. }
  pose proof (interval_bounds cfg (Z.to_nat attempt) Hri Hmb) as Hb.
  rewrite (s64_id (maxRetries cfg - 1)) by lia.
  destruct (attempt <? maxRetries cfg - 1) eqn:Hlt2; zbool.
  - destruct (cancelled attempt) eqn:Hc.
    { intros [= <- <-]. split; [done|]. rewrite len_cons, len_nil. split; [lia|]. split; [done|].
      intros H. by apply succeeds_cancelled in H. }
    rewrite s64_id by lia.
    replace (if _ <? _ then _ else _) with (interval_at cfg (Z.to_nat (attempt + 1))).
    2:{ replace (Z.to_nat (attempt + 1)) with (S (Z.to_nat attempt)) by lia. cbn [interval_at]. case_match; zbool; lia. }
    destruct (reconnect_loop fuel cfg dial cancelled (attempt + 1) _) as [r' ws'] eqn:E. intros [= <- <-].
    destruct (IH (attempt + 1) r' ws') as (Hw & Hl & Hr); [done..|lia|lia|done|].
    split_and!; [|rewrite len_cons; lia|rewrite Hr; symmetry; by apply succeeds_next].
    cbn [length seq fmap list_fmap]. f_equal. rewrite Hw at 1.
    by replace (Z.to_nat (attempt + 1)) with (S (Z.to_nat attempt)) by lia.
  - rewrite succeeds_next by (done || lia). destruct fuel; cbn [reconnect_loop];
      rewrite ?(proj2 (Z.ltb_ge (attempt + 1) _)) by lia; (intros [= <- <-]; change (len (@nil Z)) with 0;
      split_and!; [done|lia|]; split; [done|]; intros H; apply succeeds_over in H; [done|lia]).
Qed.

(** The schedule succeeds exactly when one of the first [maxRetries] attempts does and
    the context has not ended before, and waits between attempts only. *)
Lemma reconnect_schedule_spec cfg dial cancelled r ws :
  0 <= retryInterval cfg < 2 ^ 61 -> 0 <= maxBackoff cfg < 2 ^ 61 -> maxRetries cfg < 2 ^ 62 ->
  reconnect_schedule cfg dial cancelled = (r, ws) ->
  ws = interval_at cfg <$> seq 0 (length ws) /\ len ws <= Z.max 0 (maxRetries cfg - 1) /\
  (r = Ok tt <-> succeeds_from cfg dial cancelled 0).
Proof.
  intros. destruct (reconnect_loop_spec (S (Z.to_nat (maxRetries cfg))) cfg dial cancelled 0 r ws)
    as (? & ? & ?); try done; lia.
Qed.
