(* ===== verification/Lifecycle.v ===== *)
(** * The life of a connection ([src/transport.go])

    [Connect], [Disconnect], [Reconnect], [SendCommand] and [GetMetrics] of one
    transport used by one goroutine at a time, over a network given by its calls:
    what a dial returns, which frames arrive after a command, when the context ends.
    The receive loop shows up as the frames it dispatches and as [lost], its exit when
    the peer closes the connection.  [Session.v] has the interleavings of
    concurrent callers, [Heartbeat.v] the heartbeat goroutine. *)
From S2P Require Import Prelude Types Protocol Floats Interfaces Scheduler Transport.
Local Open Scope go_scope.

(** ** The network *)

(** [net.Conn]: the addresses, [nil] or their text. *)
Record Conn := MkConn { conn_LocalAddr : option string; conn_RemoteAddr : option string }.

(** What became of a command: the write failed, or it was written and the receive
    loop dispatched [frames] before the timer or the context ended the wait. *)
Inductive exchange :=
| WriteFailed
| Exchanged (frames : list FINSFrame) (ctx_done : bool).

Class Network (W : Type) := {
  net_dial : W -> string -> Z -> Z -> W * option Conn;   (* host, port, timeout *)
  net_close : W -> Conn -> W;
  net_exchange : W -> bytes -> W * exchange;
  net_now : W -> W * Z;
  net_sleep : W -> Z -> W;
  net_wait : W -> Z -> W * bool }.                        (* true: the context ended first *)

(** ** State *)

Record transport := MkTransport {
  t_cfg : TransportConfig; t_conn : option Conn; t_connected : bool; t_closed : bool;
  t_connectTime : Z; t_lastDisconnectTime : Z; t_reconnectCount : Z;
  t_heartbeatRunning : bool; t_stopHeartbeat : bool; t_sidCounter : Z }.

Definition NewTransport `{GoFloat} (cfg : config) : res error transport :=
  c ← loadConfig cfg;
  Ok (MkTransport c None false false 0 0 0 false false 0).

Definition set_closed b (t : transport) :=
  MkTransport (t_cfg t) (t_conn t) (t_connected t) b (t_connectTime t) (t_lastDisconnectTime t)
    (t_reconnectCount t) (t_heartbeatRunning t) (t_stopHeartbeat t) (t_sidCounter t).
Definition set_connected c now (t : transport) :=
  MkTransport (t_cfg t) (Some c) true (t_closed t) now (t_lastDisconnectTime t)
    (t_reconnectCount t) (t_heartbeatRunning t) (t_stopHeartbeat t) (t_sidCounter t).
Definition set_disconnected now (t : transport) :=
  MkTransport (t_cfg t) (t_conn t) false (t_closed t) (t_connectTime t) now
    (t_reconnectCount t) (t_heartbeatRunning t) (t_stopHeartbeat t) (t_sidCounter t).
Definition add_reconnect (t : transport) :=
  MkTransport (t_cfg t) (t_conn t) (t_connected t) (t_closed t) (t_connectTime t) (t_lastDisconnectTime t)
    (s32 (t_reconnectCount t + 1)) (t_heartbeatRunning t) (t_stopHeartbeat t) (t_sidCounter t).
Definition set_stopHeartbeat (t : transport) :=
  MkTransport (t_cfg t) (t_conn t) (t_connected t) (t_closed t) (t_connectTime t) (t_lastDisconnectTime t)
    (t_reconnectCount t) (t_heartbeatRunning t) true (t_sidCounter t).
Definition set_sidCounter n (t : transport) :=
  MkTransport (t_cfg t) (t_conn t) (t_connected t) (t_closed t) (t_connectTime t) (t_lastDisconnectTime t)
    (t_reconnectCount t) (t_heartbeatRunning t) (t_stopHeartbeat t) n.

(** The synchronous part of [startHeartbeat]: the flag. *)
Definition startHeartbeat (t : transport) :=
  if t_heartbeatRunning t then t else
  MkTransport (t_cfg t) (t_conn t) (t_connected t) (t_closed t) (t_connectTime t) (t_lastDisconnectTime t)
    (t_reconnectCount t) true (t_stopHeartbeat t) (t_sidCounter t).

Definition SetTimeout (t : transport) (d : Z) : transport :=
  let c := t_cfg t in
  MkTransport (MkTransportConfig (plcIP c) (plcPort c) d (maxRetries c) (retryInterval c) (maxBackoff c)
                (heartbeatInterval c) (srcAddr c) (dstAddr c))
    (t_conn t) (t_connected t) (t_closed t) (t_connectTime t) (t_lastDisconnectTime t)
    (t_reconnectCount t) (t_heartbeatRunning t) (t_stopHeartbeat t) (t_sidCounter t).
Definition GetTimeout (t : transport) : Z := timeout (t_cfg t).
Definition SrcAddress (t : transport) : FINSAddress := srcAddr (t_cfg t).
Definition DstAddress (t : transport) : FINSAddress := dstAddr (t_cfg t).
Definition IsConnected (t : transport) : bool := t_connected t.

Definition GetMetrics (t : transport) : ConnectionMetrics :=
  let text f := match t_conn t with Some c => default "" (f c) | None => "" end in
  MkConnectionMetrics (t_connected t) (t_connectTime t) (t_lastDisconnectTime t) (t_reconnectCount t)
    (text conn_LocalAddr) (text conn_RemoteAddr).

(** ** Operations *)

Section operations.
Context {W : Type} {NW : Network W}.
Implicit Types (t : transport) (w : W).

Definition Connect (tw : transport * W) : (transport * W) * res error unit :=
  let '(t, w) := tw in
  if t_connected t then ((t, w), Ok tt) else
  let t := set_closed false t in
  match net_dial w (plcIP (t_cfg t)) (plcPort (t_cfg t)) (timeout (t_cfg t)) with
  | (w, None) => ((t, w), Err ErrConnectFailed)
  | (w, Some c) =>
    let '(w, now) := net_now w in
    let t := set_connected c now t in
    let t := if 0 <? heartbeatInterval (t_cfg t) then startHeartbeat t else t in
    ((t, w), Ok tt)
  end.

(** No call of [SendCommand] is in progress, so the table of channels is empty. *)
Definition Disconnect (tw : transport * W) : (transport * W) * res error unit :=
  let '(t, w) := tw in
  if negb (t_connected t) then ((t, w), Ok tt) else
  let t := set_stopHeartbeat (set_closed true t) in
  let w := match t_conn t with Some c => net_close w c | None => w end in
  let '(w, now) := net_now w in
  ((set_disconnected now t, w), Ok tt).

(** The deferred function of [readLoop] when the connection ends. *)
Definition lost (tw : transport * W) : transport * W :=
  let '(t, w) := tw in
  if t_connected t && negb (t_closed t) then
    let '(w, now) := net_now w in (set_disconnected now t, w)
  else (t, w).

(** The loop of [Reconnect] with [n] attempts to go. *)
Fixpoint reconnect_attempts (n : nat) (interval : Z) (tw : transport * W) : (transport * W) * res error unit :=
  match n with
  | O => (tw, Err (ErrReconnectFailed (maxRetries (t_cfg (fst tw)))))
  | S n =>
    match Connect tw with
    | ((t, w), Ok _) => ((add_reconnect t, w), Ok tt)
    | ((t, w), _) =>
      match n with
      | O => reconnect_attempts n interval (t, w)
      | _ =>
        let '(w, ctx_done) := net_wait w interval in
        if ctx_done then ((t, w), Err ErrContext)
        else
          let interval := interval *i 2 in
          let interval := if maxBackoff (t_cfg t) <? interval then maxBackoff (t_cfg t) else interval in
          reconnect_attempts n interval (t, w)
      end
    end
  end.

Definition Reconnect (tw : transport * W) : (transport * W) * res error unit :=
  let '(tw, _) := Disconnect tw in
  reconnect_attempts (Z.to_nat (maxRetries (t_cfg (fst tw)))) (retryInterval (t_cfg (fst tw))) tw.

Definition SendCommand (tw : transport * W) (commandData : bytes) : (transport * W) * res error FINSFrame :=
  let '(t, w) := tw in
  if negb (t_connected t) then ((t, w), Err ErrNotConnected) else
  let sid := nextSID (t_sidCounter t) in
  let t := set_sidCounter sid t in
  match command_frame (srcAddr (t_cfg t)) (dstAddr (t_cfg t)) sid commandData with
  | Ok tcpFrame =>
    match t_conn t with
    | None => ((t, w), Err ErrNotConnected)
    | Some _ =>
      match net_exchange w tcpFrame with
      | (w, WriteFailed) => ((t, w), Err ErrSendFailed)
      | (w, Exchanged frames ctx_done) =>
        ((t, w),
         match List.find (fun f => SID (Header f) =? sid) frames with
         | Some f => Ok f
         | None => Err (if ctx_done then ErrContext else ErrResponseTimeout)
         end)
      end
    end
  | _ => ((t, w), Panic)
  end.

#[export] Instance link_transport : MemoryTransport (transport * W) := {|
  mt_ReadMemory := ReadMemory SendCommand;
  mt_WriteMemory := WriteMemory SendCommand;
  mt_ReadBits := ReadBits SendCommand;
  mt_WriteBits := WriteBits SendCommand;
  mt_IsConnected := fun tw => t_connected (fst tw);
  Now := fun tw => let '(w, now) := net_now (snd tw) in ((fst tw, w), now);
  Sleep := fun tw d => (fst tw, net_sleep (snd tw) d) |}.
End operations.

(** ** Histories *)

(** A clock that all calls only move forward. *)
Class NetClock (W : Type) `{Network W} := {
  clock : W -> Z;
  clock_now w : snd (net_now w) = clock w;
  clock_after_now w : clock w <= clock (fst (net_now w));
  clock_dial w ip port d : clock w <= clock (fst (net_dial w ip port d));
  clock_close w c : clock w <= clock (net_close w c);
  clock_exchange w b : clock w <= clock (fst (net_exchange w b));
  clock_wait w d : clock w <= clock (fst (net_wait w d)) }.

Inductive op := OpConnect | OpDisconnect | OpReconnect | OpLost | OpSend (cmd : bytes) | OpSetTimeout (d : Z).

Section histories.
Context {W : Type} {NW : Network W} {NC : NetClock W}.
Implicit Types (t : transport) (w : W).

(** One operation, and whether it was a successful [Reconnect]. *)
Definition run_op (tw : transport * W) (o : op) : (transport * W) * Z :=
  match o with
  | OpConnect => (fst (Connect tw), 0)
  | OpDisconnect => (fst (Disconnect tw), 0)
  | OpReconnect => let '(tw, r) := Reconnect tw in (tw, if is_ok r then 1 else 0)
  | OpLost => (lost tw, 0)
  | OpSend cmd => (fst (SendCommand tw cmd), 0)
  | OpSetTimeout d => ((SetTimeout (fst tw) d, snd tw), 0)
  end.

Fixpoint run (tw : transport * W) (ops : list op) : (transport * W) * Z :=
  match ops with
  | [] => (tw, 0)
  | o :: ops => let '(tw, k) := run_op tw o in let '(tw, n) := run tw ops in (tw, k + n)
  end.

(** The flags, the connection and the times agree. *)
Definition link_inv (tw : transport * W) : Prop :=
  let '(t, w) := tw in
  if t_connected t
  then t_conn t <> None /\ t_closed t = false /\ t_lastDisconnectTime t <= t_connectTime t <= clock w
  else t_connectTime t <= t_lastDisconnectTime t <= clock w.

Lemma Connect_inv tw tw' r :
  Connect tw = (tw', r) -> link_inv tw ->
  link_inv tw' /\ t_connected (fst tw') = is_ok r /\ t_reconnectCount (fst tw') = t_reconnectCount (fst tw) /\
  t_cfg (fst tw') = t_cfg (fst tw).
Proof.
  destruct tw as [t w]. unfold Connect, link_inv. destruct (t_connected t) eqn:Hc.
  { intros [= <- <-] H. by rewrite Hc. }
  pose proof (clock_dial w (plcIP (t_cfg (set_closed false t))) (plcPort (t_cfg (set_closed false t)))
    (timeout (t_cfg (set_closed false t)))) as Hd.
  destruct (net_dial w _ _ _) as [w1 [c|]]; cbn in Hd.
  2:{ intros [= <- <-] H. cbn. rewrite Hc. split_and!; try done; lia. }
  pose proof (clock_now w1) as Hn. pose proof (clock_after_now w1) as Ha.
  destruct (net_now w1) as [w2 now]. cbn in Hn, Ha. subst now. intros [= <- <-] H.
  destruct (0 <? _); cbn; unfold startHeartbeat; cbn; destruct (t_heartbeatRunning t); cbn; split_and!; done || lia.
Qed.

Lemma Disconnect_inv tw tw' r :
  Disconnect tw = (tw', r) -> link_inv tw ->
  link_inv tw' /\ t_connected (fst tw') = false /\ r = Ok tt /\ t_reconnectCount (fst tw') = t_reconnectCount (fst tw) /\
  t_cfg (fst tw') = t_cfg (fst tw).
Proof.
  destruct tw as [t w]. unfold Disconnect, link_inv. destruct (t_connected t) eqn:Hc; cbn [negb].
  2:{ intros [= <- <-] H. by rewrite Hc. }
  intros E (Hconn & _ & Hle). cbn in E. destruct (t_conn t) as [c|]; [|done].
  pose proof (clock_close w c). pose proof (clock_now (net_close w c)) as Hn. pose proof (clock_after_now (net_close w c)) as Ha.
  destruct (net_now _) as [w2 now]. cbn in Hn, Ha. injection E as <- <-. cbn. split_and!; done || lia.
Qed.

Lemma lost_inv tw : link_inv tw -> link_inv (lost tw) /\ t_reconnectCount (fst (lost tw)) = t_reconnectCount (fst tw).
Proof.
  destruct tw as [t w]. unfold lost, link_inv. destruct (t_connected t) eqn:Hc; cbn [andb]; [|by rewrite Hc].
  intros (Hconn & -> & Hle). cbn [negb]. pose proof (clock_now w) as Hn. pose proof (clock_after_now w) as Ha.
  destruct (net_now w) as [w2 now]. cbn in *. split; [lia|done].
Qed.

Lemma SendCommand_inv tw cmd :
  link_inv tw -> link_inv (fst (SendCommand tw cmd)) /\
  t_reconnectCount (fst (fst (SendCommand tw cmd))) = t_reconnectCount (fst tw).
Proof.
  destruct tw as [t w]. intros H. unfold SendCommand. destruct (t_connected t) eqn:Hc; cbn [negb]; [|done].
  unfold link_inv in H. rewrite Hc in H.
  destruct (command_frame _ _ _ _); cbn; rewrite ?Hc; [|done..].
  destruct H as (Hconn & Hcl & Hle). destruct (t_conn t) eqn:Ht; [|done].
  pose proof (clock_exchange w a) as He. destruct (net_exchange w _) as [w2 [|frames d]]; cbn in *; rewrite ?Hc, ?Ht;
    split_and!; done || lia.
Qed.

Lemma reconnect_attempts_inv n : forall interval tw tw' r,
  reconnect_attempts n interval tw = (tw', r) -> link_inv tw -> t_connected (fst tw) = false ->
  link_inv tw' /\ t_connected (fst tw') = is_ok r /\ r <> Panic /\
  t_reconnectCount (fst tw') = if is_ok r then s32 (t_reconnectCount (fst tw) + 1) else t_reconnectCount (fst tw).
Proof.
  induction n as [|n IH]; intros interval tw tw' r; cbn [reconnect_attempts].
  { by intros [= <- <-] H Hc. }
  destruct (Connect tw) as [[t1 w1] r1] eqn:E. intros Hr Hi Hc.
  destruct (Connect_inv _ _ _ E Hi) as (Hi1 & Hc1 & Hn1 & _). cbn [fst] in *. destruct r1 as [[]| |].
  { injection Hr as <- <-. cbn [fst is_ok add_reconnect t_connected t_reconnectCount] in *. rewrite Hn1.
    split_and!; try done. }
  2:{ destruct tw as [t w]. unfold Connect in E. repeat case_match; simplify_eq. }
  cbn [is_ok] in Hc1. destruct n as [|n].
  { destruct (IH _ _ _ _ Hr) as (? & ? & ? & ?); [done..|]. by rewrite <- Hn1. }
  pose proof (clock_wait w1 interval) as Hw. destruct (net_wait w1 interval) as [w2 []]; cbn [fst] in Hw.
  - injection Hr as <- <-. cbn [fst is_ok] in *. split_and!; try done. unfold link_inv in *. rewrite Hc1 in *. lia.
  - destruct (IH _ _ _ _ Hr) as (? & ? & ? & ?); [unfold link_inv in *; rewrite Hc1 in *; lia|done|]. by rewrite <- Hn1.
Qed.

Lemma Reconnect_inv tw tw' r :
  Reconnect tw = (tw', r) -> link_inv tw ->
  link_inv tw' /\ t_connected (fst tw') = is_ok r /\ r <> Panic /\
  t_reconnectCount (fst tw') = if is_ok r then s32 (t_reconnectCount (fst tw) + 1) else t_reconnectCount (fst tw).
Proof.
  unfold Reconnect. destruct (Disconnect tw) as [tw1 r1] eqn:E. intros Hr Hi.
  destruct (Disconnect_inv _ _ _ E Hi) as (Hi1 & Hc1 & _ & Hn & _). rewrite <- Hn.
  by apply (reconnect_attempts_inv _ _ _ _ _ Hr).
Qed.

Lemma run_op_inv tw o tw' k :
  run_op tw o = (tw', k) -> link_inv tw ->
  link_inv tw' /\ 0 <= k /\ t_reconnectCount (fst tw') = (if k =? 0 then t_reconnectCount (fst tw) else s32 (t_reconnectCount (fst tw) + k)).
Proof.
  intros E Hi. destruct o; cbn in E; [..|destruct tw as [t w]; by injection E as <- <-].
  - injection E as <- <-. destruct (Connect tw) as [tw1 r1] eqn:E1. by destruct (Connect_inv _ _ _ E1 Hi) as (? & _ & ? & _).
  - injection E as <- <-. destruct (Disconnect tw) as [tw1 r1] eqn:E1. by destruct (Disconnect_inv _ _ _ E1 Hi) as (? & _ & _ & ? & _).
  - destruct (Reconnect tw) as [tw1 r1] eqn:E1. injection E as <- <-.
    destruct (Reconnect_inv _ _ _ E1 Hi) as (? & _ & _ & Hn). by destruct r1.
  - injection E as <- <-. by destruct (lost_inv tw Hi).
  - injection E as <- <-. by destruct (SendCommand_inv tw cmd Hi).
Qed.

Lemma s32_add x y : s32 (s32 x + y) = s32 (x + y).
Proof. unfold swrap. f_equal. rewrite <- (Zplus_mod_idemp_l (x + _)). zdm. Qed.

Lemma run_inv ops : forall tw tw' n,
  run tw ops = (tw', n) -> link_inv tw -> in_s 32 (t_reconnectCount (fst tw)) ->
  link_inv tw' /\ t_reconnectCount (fst tw') = s32 (t_reconnectCount (fst tw) + n).
Proof.
  induction ops as [|o ops IH]; intros tw tw' n; cbn [run].
  { intros [= <- <-] Hi Hs. by rewrite Z.add_0_r, swrap_id. }
  destruct (run_op tw o) as [tw1 k] eqn:E1, (run tw1 ops) as [tw2 m] eqn:E2. intros [= <- <-] Hi Hs.
  destruct (run_op_inv _ _ _ _ E1 Hi) as (Hi1 & _ & Hc1).
  assert (t_reconnectCount (fst tw1) = s32 (t_reconnectCount (fst tw) + k)) as Hc.
  { rewrite Hc1. destruct (Z.eqb_spec k 0) as [->|]; [|done]. by rewrite Z.add_0_r, swrap_id. }
  destruct (IH _ _ _ E2 Hi1) as (Hi2 & Hc2); [rewrite Hc; auto with fins lia|].
  split; [done|]. by rewrite Hc2, Hc, s32_add, Z.add_assoc.
Qed.

(** C30: the metrics describe the connection: after any sequence of operations on a new
    transport, with the peer closing connections at any time, a transport
    that reports a connection has one, whose addresses are reported, and connected no
    earlier than it last disconnected; one that reports none disconnected no earlier
    than it last connected. *)
Theorem metrics_track_connection `{GoFloat} cfg t0 w0 ops t w n :
  NewTransport cfg = Ok t0 -> 0 <= clock w0 -> run (t0, w0) ops = ((t, w), n) ->
  if cm_Connected (GetMetrics t)
  then exists c, t_conn t = Some c /\ LocalAddr (GetMetrics t) = default "" (conn_LocalAddr c) /\
         RemoteAddr (GetMetrics t) = default "" (conn_RemoteAddr c) /\
         LastDisconnectTime (GetMetrics t) <= ConnectTime (GetMetrics t)
  else ConnectTime (GetMetrics t) <= LastDisconnectTime (GetMetrics t).
Proof.
  intros Hn Hw Hr. unfold NewTransport in Hn. destruct (loadConfig cfg) as [c| |]; [|done..].
  injection Hn as <-. destruct (run_inv _ _ _ _ Hr) as [Hi _]; [cbn; lia|by_decide|].
  unfold link_inv in Hi. cbn. destruct (t_connected t); [|lia].
  destruct (t_conn t) as [x|]; [|by destruct Hi]. exists x. split_and!; done || lia.
Qed.

(** The reconnect counter is the number of successful calls of [Reconnect] (modulo 2^32), not
    of attempts, as the documentation of the metrics has it: a call that fails after
    [maxRetries] attempts leaves it as it was. *)
Theorem reconnect_count_successes `{GoFloat} cfg t0 w0 ops t w n :
  NewTransport cfg = Ok t0 -> 0 <= clock w0 -> run (t0, w0) ops = ((t, w), n) ->
  ReconnectCount (GetMetrics t) = s32 n.
Proof.
  intros Hn Hw Hr. unfold NewTransport in Hn. destruct (loadConfig cfg) as [c| |]; [|done..].
  injection Hn as <-. destruct (run_inv _ _ _ _ Hr) as [_ Hc]; [cbn; lia|by_decide|]. done.
Qed.
End histories.

(** ** A scripted network

    The outcome of the dials and waits is given in advance; the waits and the closed
    connections are recorded, commands are never answered. *)
Record script := MkScript {
  sc_dial : Z -> bool; sc_cancel : Z -> bool; sc_attempt : Z; sc_waits : list Z; sc_closed : list Conn; sc_clock : Z }.

Definition sc_conn : Conn := MkConn (Some "10.0.0.1:49152") (Some "10.0.0.2:9600").

#[export] Instance script_network : Network script := {|
  net_dial := fun w _ _ _ =>
    (MkScript (sc_dial w) (sc_cancel w) (sc_attempt w + 1) (sc_waits w) (sc_closed w) (sc_clock w),
     if sc_dial w (sc_attempt w) then Some sc_conn else None);
  net_close := fun w c => MkScript (sc_dial w) (sc_cancel w) (sc_attempt w) (sc_waits w) (sc_closed w ++ [c]) (sc_clock w);
  net_exchange := fun w _ => (w, Exchanged [] false);
  net_now := fun w => (MkScript (sc_dial w) (sc_cancel w) (sc_attempt w) (sc_waits w) (sc_closed w) (sc_clock w + 1), sc_clock w);
  net_sleep := fun w d => MkScript (sc_dial w) (sc_cancel w) (sc_attempt w) (sc_waits w) (sc_closed w) (sc_clock w + Z.max 0 d);
  net_wait := fun w d =>
    (MkScript (sc_dial w) (sc_cancel w) (sc_attempt w) (sc_waits w ++ [d]) (sc_closed w) (sc_clock w + Z.max 0 d),
     sc_cancel w (sc_attempt w - 1)) |}.

#[export] Instance script_clock : NetClock script.
Proof. refine {| clock := sc_clock |}; intros; cbn; lia. Defined.

(** [Reconnect] follows the schedule of [Transport.v]. *)
Lemma reconnect_attempts_schedule n : forall interval t w t' w' r,
  t_connected t = false -> maxRetries (t_cfg t) = sc_attempt w + Z.of_nat n -> maxRetries (t_cfg t) < 2 ^ 62 ->
  0 <= sc_attempt w ->
  reconnect_attempts n interval (t, w) = ((t', w'), r) ->
  exists ws, sc_waits w' = sc_waits w ++ ws /\ sc_closed w' = sc_closed w /\
    reconnect_loop (S n) (t_cfg t) (sc_dial w) (sc_cancel w) (sc_attempt w) interval = (r, ws).
Proof.
  induction n as [|n IH]; intros interval t w t' w' r Hc Hm Hb Ha; cbn [reconnect_attempts].
  { intros [= <- <- <-]. exists []. rewrite app_nil_r. split_and!; [done..|]. cbn [reconnect_loop].
    by rewrite (proj2 (Z.ltb_ge _ _)) by lia. }
  unfold Connect. rewrite Hc. cbn [net_dial script_network]. remember (S n) as k eqn:Hk. cbn [reconnect_loop].
  rewrite (proj2 (Z.ltb_lt _ _)) by lia. rewrite (s64_id (_ - 1)) by lia.
  destruct (sc_dial w (sc_attempt w)) eqn:Hd.
  { cbn. intros [= <- <- <-]. exists []. by rewrite app_nil_r. }
  destruct n as [|n].
  - intros [= <- <- <-]. exists []. cbn. rewrite app_nil_r. split_and!; [done..|].
    rewrite (proj2 (Z.ltb_ge _ (_ - 1))) by lia. subst k. cbn [reconnect_loop].
    by rewrite (proj2 (Z.ltb_ge _ _)) by lia.
  - rewrite (proj2 (Z.ltb_lt _ (_ - 1))) by lia. cbn [net_wait script_network sc_cancel sc_attempt].
    replace (sc_attempt w + 1 - 1) with (sc_attempt w) by lia. destruct (sc_cancel w (sc_attempt w)) eqn:Hx.
    { intros [= <- <- <-]. by eexists. }
    intros H. apply IH in H as (ws & Hw & Hcl & Hl); [|done|cbn; lia|done|cbn; lia].
    subst k. cbn [set_closed t_cfg sc_dial sc_cancel sc_attempt sc_waits sc_closed] in *. rewrite Hl. cbn beta iota.
    eexists. split_and!; [|done|done]. by rewrite Hw, <- app_assoc.
Qed.

Lemma disconnect_script t w t1 w1 r1 :
  Disconnect (t, w) = ((t1, w1), r1) ->
  t_connected t1 = false /\ t_cfg t1 = t_cfg t /\ sc_dial w1 = sc_dial w /\ sc_cancel w1 = sc_cancel w /\
  sc_attempt w1 = sc_attempt w /\ sc_waits w1 = sc_waits w /\ t_reconnectCount t1 = t_reconnectCount t.
Proof.
  unfold Disconnect. destruct (t_connected t) eqn:Hc; cbn; [|by intros [= <- <- <-]].
  destruct (t_conn t); by intros [= <- <- <-].
Qed.

Lemma reconnect_attempts_outcome n interval : forall (tw : transport * script) tw' r,
  reconnect_attempts n interval tw = (tw', r) -> t_connected (fst tw) = false ->
  t_connected (fst tw') = is_ok r.
Proof.
  revert interval. induction n as [|n IH]; intros interval [t w] tw' r; cbn [reconnect_attempts fst].
  { by intros [= <- <-]. }
  unfold Connect. intros H Hc. rewrite Hc in H. cbn [net_dial script_network] in H.
  destruct (sc_dial w (sc_attempt w)).
  { cbn in H. injection H as <- <-. cbn. unfold startHeartbeat. by repeat case_match. }
  destruct n as [|n].
  { injection H as <- <-. done. }
  cbn [net_wait script_network] in H. destruct (sc_cancel _ _).
  { by injection H as <- <-. }
  by apply IH in H.
Qed.

(** [Reconnect] and the intervals of its loop. *)
Lemma reconnect_intervals t w t' w' r :
  0 <= retryInterval (t_cfg t) < 2 ^ 61 -> 0 <= maxBackoff (t_cfg t) < 2 ^ 61 -> 0 <= maxRetries (t_cfg t) < 2 ^ 62 ->
  sc_attempt w = 0 -> sc_waits w = [] -> Reconnect (t, w) = ((t', w'), r) ->
  sc_waits w' = interval_at (t_cfg t) <$> seq 0 (length (sc_waits w')) /\
  len (sc_waits w') <= Z.max 0 (maxRetries (t_cfg t) - 1) /\
  (r = Ok tt <-> succeeds_from (t_cfg t) (sc_dial w) (sc_cancel w) 0) /\
  t_connected t' = is_ok r.
Proof.
  intros Hri Hmb Hmr Ha Hws. unfold Reconnect. destruct (Disconnect (t, w)) as [[t1 w1] r1] eqn:E.
  destruct (disconnect_script _ _ _ _ _ E) as (Hc1 & Hcfg & Hd & Hx & Ha1 & Hw1 & Hn). cbn [fst]. rewrite Hcfg. intros Hr.
  pose proof (reconnect_attempts_outcome _ _ _ _ _ Hr Hc1) as Hup. cbn [fst] in *.
  apply reconnect_attempts_schedule in Hr as (ws & Hw' & _ & Hl); [|done|rewrite Hcfg, Ha1; lia|rewrite Hcfg; lia|lia].
  rewrite Hw1, Hws in Hw'. cbn in Hw'. subst ws. rewrite Hcfg, Hd, Hx, Ha1, Ha in Hl.
  by destruct (reconnect_schedule_spec _ _ _ _ _ Hri Hmb (proj2 Hmr) Hl) as (? & ? & ?).
Qed.

(** C29: reconnection, for a first interval that is not above the cap: [Reconnect] succeeds
    exactly when one of the first [maxRetries]
    dials does and the context has not ended before; it waits between attempts
    only, at most [maxRetries - 1] times, and the wait after attempt [n] is the documented
    [min (retryInterval * 2^n) maxBackoff]; the transport is then connected
    exactly when it succeeded. *)
Theorem reconnect_backoff t w t' w' r :
  0 <= retryInterval (t_cfg t) <= maxBackoff (t_cfg t) -> maxBackoff (t_cfg t) < 2 ^ 61 -> 0 <= maxRetries (t_cfg t) < 2 ^ 62 ->
  sc_attempt w = 0 -> sc_waits w = [] -> Reconnect (t, w) = ((t', w'), r) ->
  sc_waits w' = backoff (t_cfg t) <$> seq 0 (length (sc_waits w')) /\
  len (sc_waits w') <= Z.max 0 (maxRetries (t_cfg t) - 1) /\
  (r = Ok tt <-> succeeds_from (t_cfg t) (sc_dial w) (sc_cancel w) 0) /\
  t_connected t' = is_ok r.
Proof.
  intros Hri Hmb Hmr Ha Hws Hr.
  destruct (reconnect_intervals t w t' w' r) as (Hw & Hl & Hs & Hup); [lia|lia|done..|]. split_and!; try done.
  rewrite Hw at 1. apply list_fmap_ext. intros i n _. apply interval_at_backoff; lia.
Qed.

(** The first wait is not capped: with a [retryInterval] above [maxBackoff] the wait after
    the first attempt is [retryInterval], where the documentation caps every wait; the later
    ones are [maxBackoff]. *)
Theorem first_wait_uncapped t w t' w' r :
  0 <= maxBackoff (t_cfg t) < retryInterval (t_cfg t) -> retryInterval (t_cfg t) < 2 ^ 61 -> 0 <= maxRetries (t_cfg t) < 2 ^ 62 ->
  sc_attempt w = 0 -> sc_waits w = [] -> Reconnect (t, w) = ((t', w'), r) ->
  forall n, (n < length (sc_waits w'))%nat ->
  sc_waits w' !! n = Some (if decide (n = 0%nat) then retryInterval (t_cfg t) else maxBackoff (t_cfg t)).
Proof.
  intros Hri Hmb Hmr Ha Hws Hr n Hn.
  destruct (reconnect_intervals t w t' w' r) as (Hw & _); [lia|lia|done..|].
  rewrite Hw, list_lookup_fmap, lookup_seq_lt by done. cbn. f_equal. destruct n as [|n]; [done|].
  rewrite interval_at_backoff by lia. unfold backoff. rewrite decide_False by lia.
  assert (1 <= 2 ^ Z.of_nat (S n)) by (apply (Z.pow_le_mono_r 2 0); lia). nia.
Qed.

Definition sample_config : TransportConfig :=
  MkTransportConfig "127.0.0.1" 9600 (3 * Second) 4 (20 * Second) (30 * Second) (30 * Second)
    (MkFINSAddress 0 1 255) (MkFINSAddress 0 1 0).
Definition sample_transport : transport := MkTransport sample_config (Some sc_conn) true false 5 2 0 true false 7.
Definition sample_script (dial : Z -> bool) : script := MkScript dial (fun _ => false) 0 [] [] 100.

Lemma reconnect_backoff_witness :
  exists t' w', Reconnect (sample_transport, sample_script (fun n => n =? 3)) = ((t', w'), Ok tt) /\
    sc_waits w' = [20 * Second; 30 * Second; 30 * Second] /\ t_connected t' = true.
Proof.
  destruct (Reconnect (sample_transport, sample_script (fun n => n =? 3))) as [[t' w'] r] eqn:E.
  destruct (reconnect_backoff sample_transport (sample_script (fun n => n =? 3)) t' w' r) as (Hw & _ & Hr & Hup);
    [vm_compute; intuition congruence..|reflexivity|reflexivity|exact E|].
  assert (r = Ok tt) as ->.
  { apply Hr. exists 3. split; [vm_compute; intuition congruence|]. split; [reflexivity|]. intros m Hm. split; [apply Z.eqb_neq; lia|reflexivity]. }
  exists t', w'. split; [reflexivity|]. split; [|exact Hup].
  clear Hw Hr Hup. vm_compute in E. injection E as <- <-. reflexivity.
Defined.

Lemma first_wait_uncapped_witness :
  exists t' w', Reconnect (MkTransport (MkTransportConfig "127.0.0.1" 9600 (3 * Second) 4 (40 * Second) (30 * Second) (30 * Second)
      (MkFINSAddress 0 1 255) (MkFINSAddress 0 1 0)) None false false 0 0 0 false false 0, sample_script (fun n => n =? 2))
    = ((t', w'), Ok tt) /\ sc_waits w' !! 0%nat = Some (40 * Second) /\ sc_waits w' !! 1%nat = Some (30 * Second).
Proof.
  set (t := MkTransport _ _ _ _ _ _ _ _ _ _). destruct (Reconnect (t, sample_script (fun n => n =? 2))) as [[t' w'] r] eqn:E.
  pose proof (first_wait_uncapped t (sample_script (fun n => n =? 2)) t' w' r) as H.
  assert (r = Ok tt /\ length (sc_waits w') = 2%nat) as [-> Hl] by (vm_compute in E; injection E as _ <- <-; split; reflexivity).
  exists t', w'. split; [reflexivity|].
  split; apply H; first [exact E|reflexivity|rewrite Hl; lia|vm_compute; intuition congruence].
Defined.

(** A connection the peer has closed is never closed on this side: [Reconnect] on
    a transport that still counts as connected closes its connection first, but after
    the receive loop has noticed the end it closes nothing, whatever the dials do. *)
Theorem lost_connection_leaks t w c :
  t_connected t = true -> t_closed t = false -> t_conn t = Some c ->
  0 <= maxRetries (t_cfg t) < 2 ^ 62 -> sc_attempt w = 0 ->
  sc_closed (snd (fst (Reconnect (t, w)))) = sc_closed w ++ [c] /\
  sc_closed (snd (fst (Reconnect (lost (t, w))))) = sc_closed w.
Proof.
  intros Hc Hcl Hconn Hmr Ha.
  assert (forall t1 (w1 : script), t_connected t1 = false -> t_cfg t1 = t_cfg t -> sc_attempt w1 = 0 ->
    sc_closed (snd (fst (reconnect_attempts (Z.to_nat (maxRetries (t_cfg t1))) (retryInterval (t_cfg t1)) (t1, w1)))) = sc_closed w1) as Hloop.
  { intros t1 w1 H1 H2 H3. destruct (reconnect_attempts _ _ (t1, w1)) as [[t' w'] r] eqn:E.
    apply reconnect_attempts_schedule in E as (ws & _ & H & _); [done|done|rewrite H2; lia|rewrite H2; lia|lia]. }
  split; unfold Reconnect.
  - destruct (Disconnect (t, w)) as [[t1 w1] r1] eqn:E. pose proof (disconnect_script _ _ _ _ _ E) as (? & ? & _ & _ & ? & _).
    cbn [fst]. rewrite Hloop by congruence. unfold Disconnect in E. rewrite Hc in E. cbn in E. rewrite Hconn in E.
    by injection E as <- <- <-.
  - unfold lost. rewrite Hc, Hcl. cbn [andb negb net_now script_network].
    unfold Disconnect. cbn [t_connected set_disconnected negb fst]. by rewrite Hloop.
Qed.

Lemma lost_connection_leaks_witness :
  sc_closed (snd (fst (Reconnect (sample_transport, sample_script (fun _ => true))))) = [sc_conn] /\
  sc_closed (snd (fst (Reconnect (lost (sample_transport, sample_script (fun _ => true)))))) = [].
Proof.
  refine (lost_connection_leaks sample_transport (sample_script (fun _ => true)) sc_conn _ _ _ _ _);
    [reflexivity..|vm_compute; intuition congruence|reflexivity].
Defined.

Definition sample_new : transport :=
  MkTransport (MkTransportConfig "10.0.0.2" 9600 (3 * Second) 3 Second (30 * Second) (30 * Second)
    (MkFINSAddress 0 1 255) (MkFINSAddress 0 1 0)) None false false 0 0 0 false false 0.
Definition sample_history : (transport * script) * Z :=
  run (sample_new, sample_script (fun n => negb (n =? 1))) [OpConnect; OpLost; OpReconnect; OpDisconnect; OpConnect].

Lemma metrics_track_connection_witness :
  cm_Connected (GetMetrics (fst (fst sample_history))) = true /\
  LastDisconnectTime (GetMetrics (fst (fst sample_history))) <= ConnectTime (GetMetrics (fst (fst sample_history))).
Proof.
  assert (NewTransport (H := simple_float) {["plcIP" := VString "10.0.0.2"]} = Ok sample_new) as E0 by (vm_compute; reflexivity).
  assert (0 <= clock (sample_script (fun n => negb (n =? 1)))) as Hw by (cbn; lia).
  assert (sample_history = ((fst (fst sample_history), snd (fst sample_history)), snd sample_history)) as E
    by (destruct sample_history as [[? ?] ?]; reflexivity).
  pose proof (metrics_track_connection (H := simple_float) _ sample_new _ _ _ _ _ E0 Hw E) as Hm. clear E0 Hw E.
  split; [vm_compute; reflexivity|].
  replace (cm_Connected _) with true in Hm by (vm_compute; reflexivity). destruct Hm as (? & _ & _ & _ & H). exact H.
Defined.

(** Two calls of [Reconnect], the second of which fails after all its attempts: it is not counted. *)
Lemma reconnect_count_successes_witness :
  ReconnectCount (GetMetrics (fst (fst (run (sample_new, sample_script (fun n => n =? 0)) [OpReconnect; OpReconnect])))) = 1.
Proof.
  set (h := run (sample_new, sample_script (fun n => n =? 0)) [OpReconnect; OpReconnect]).
  assert (NewTransport (H := simple_float) {["plcIP" := VString "10.0.0.2"]} = Ok sample_new) as E0 by (vm_compute; reflexivity).
  assert (h = ((fst (fst h), snd (fst h)), snd h)) as E by (destruct h as [[? ?] ?]; reflexivity).
  assert (0 <= clock (sample_script (fun n => n =? 0))) as Hw by (cbn; lia).
  rewrite (reconnect_count_successes (H := simple_float) _ sample_new (sample_script (fun n => n =? 0))
    [OpReconnect; OpReconnect] _ _ _ E0 Hw E). vm_compute. reflexivity.
Defined.
