(* ===== verification/Heartbeat.v ===== *)
(** * The heartbeat goroutine ([startHeartbeat], [src/transport.go] 451-478)

    [Connect] starts a goroutine that sends a command on every tick; [Disconnect]
    leaves a token in the channel [stopHeartbeat] for it.  The flag
    [heartbeatRunning] keeps [Connect] from starting a second one.  The goroutines, the
    two calls (one at a time, under [mu]) and the receive loop interleave at every
    access of a shared flag or channel. *)
From S2P Require Import Prelude.

(** Where a heartbeat goroutine is. *)
Inductive beat :=
| BSelect          (* at the select *)
| BConnected       (* after a tick, before t.connected.Load() *)
| BClosed          (* before t.closed.Load() *)
| BSend            (* in SendCommand *)
| BReturn          (* returned; heartbeatRunning.Store(false) pending *)
| BGone.

(** Where the holder of [mu] is. *)
Inductive call :=
| Idle
| CDial            (* Connect: closed stored, dialling *)
| CRunning         (* connected stored, before heartbeatRunning.Load() *)
| CStore           (* before heartbeatRunning.Store(true) *)
| CGo              (* before the go statement *)
| DToken           (* Disconnect: closed stored, before the send on stopHeartbeat *)
| DStore.          (* before connected.Store(false) *)

Record heart := MkHeart {
  h_connected : bool; h_closed : bool; h_running : bool; h_token : bool; h_call : call; h_beats : gmap nat beat }.

Definition new_heart : heart := MkHeart false false false false Idle ∅.

Inductive beat_step : heart -> heart -> Prop :=
(* Connect, with a positive heartbeatInterval *)
| connect_begin k r q b :
    beat_step (MkHeart false k r q Idle b) (MkHeart false false r q CDial b)
| connect_fails c k r q b :
    beat_step (MkHeart c k r q CDial b) (MkHeart c k r q Idle b)
| connect_stores c k r q b :
    beat_step (MkHeart c k r q CDial b) (MkHeart true k r q CRunning b)
| start_running c k q b :
    beat_step (MkHeart c k true q CRunning b) (MkHeart c k true q Idle b)
| start_not_running c k q b :
    beat_step (MkHeart c k false q CRunning b) (MkHeart c k false q CStore b)
| start_stores c k r q b :
    beat_step (MkHeart c k r q CStore b) (MkHeart c k true q CGo b)
| start_go c k r q b i :
    b !! i = None -> beat_step (MkHeart c k r q CGo b) (MkHeart c k r q Idle (<[i := BSelect]> b))
(* Disconnect *)
| disconnect_begin k r q b :
    beat_step (MkHeart true k r q Idle b) (MkHeart true true r q DToken b)
| disconnect_token c k r q b :
    beat_step (MkHeart c k r q DToken b) (MkHeart c k r true DStore b)
| disconnect_stores c k r q b :
    beat_step (MkHeart c k r q DStore b) (MkHeart false k r q Idle b)
(* the receive loop ends *)
| receive_ends r q x b :
    beat_step (MkHeart true false r q x b) (MkHeart false false r q x b)
(* the goroutine *)
| beat_tick c k r q x b i :
    b !! i = Some BSelect -> beat_step (MkHeart c k r q x b) (MkHeart c k r q x (<[i := BConnected]> b))
| beat_stop c k r x b i :
    b !! i = Some BSelect -> beat_step (MkHeart c k r true x b) (MkHeart c k r false x (<[i := BReturn]> b))
| beat_connected c k r q x b i :
    b !! i = Some BConnected ->
    beat_step (MkHeart c k r q x b) (MkHeart c k r q x (<[i := if c then BClosed else BReturn]> b))
| beat_closed c k r q x b i :
    b !! i = Some BClosed ->
    beat_step (MkHeart c k r q x b) (MkHeart c k r q x (<[i := if k then BReturn else BSend]> b))
| beat_sent c k r q x b i :
    b !! i = Some BSend -> beat_step (MkHeart c k r q x b) (MkHeart c k r q x (<[i := BSelect]> b))
| beat_return c k r q x b i :
    b !! i = Some BReturn -> beat_step (MkHeart c k r q x b) (MkHeart c k false q x (<[i := BGone]> b)).

Definition beat_reachable : heart -> Prop := rtc beat_step new_heart.

(** ** One heartbeat at most *)

Definition alive (b : gmap nat beat) (i : nat) : Prop := exists p, b !! i = Some p /\ p <> BGone.

Definition heart_inv (h : heart) : Prop :=
  (forall i j, alive (h_beats h) i -> alive (h_beats h) j -> i = j) /\
  ((exists i, alive (h_beats h) i) -> h_running h = true) /\
  (h_call h = CStore -> h_running h = false) /\
  (h_call h = CGo -> h_running h = true /\ forall i, ~ alive (h_beats h) i).

Lemma alive_update b i p q j : b !! i = Some p -> p <> BGone -> alive (<[i := q]> b) j -> alive b j.
Proof.
  intros Hi Hp (x & Hx & Hne). apply lookup_insert_Some in Hx as [[-> _]|[_ Hx]]; [by exists p|by exists x].
Qed.

(** A goroutine that moves on changes nothing for the invariant. *)
Lemma inv_update c k r q c' k' q' x b i p p' :
  b !! i = Some p -> p <> BGone ->
  heart_inv (MkHeart c k r q x b) -> heart_inv (MkHeart c' k' r q' x (<[i := p']> b)).
Proof.
  intros Hi Hp (Hu & Hr & Hs & Hg). unfold heart_inv in *. cbn in *. split_and!.
  - intros j l ?%(alive_update b i p) ?%(alive_update b i p); auto.
  - intros [j Hj]. apply Hr. exists j. by eapply alive_update.
  - done.
  - intros E. destruct (Hg E) as [? Hn]. split; [done|]. intros j Hj. eapply Hn. by eapply alive_update.
Qed.

Lemma heart_step_inv h h' : beat_step h h' -> heart_inv h -> heart_inv h'.
Proof.
  intros Hst Hi. destruct Hst; try (by eapply inv_update); destruct Hi as (Hu & Hr & Hs & Hg); unfold heart_inv; cbn in *.
  all: try (by split_and!; auto).
  - split_and!; try done. intros _. split; [done|]. intros i Hi. specialize (Hs eq_refl). rewrite Hr in Hs by eauto. done.
  - destruct (Hg eq_refl) as [-> Hn].
    assert (forall j, alive (<[i:=BSelect]> b) j -> j = i) as Ha.
    { intros j (y & Hy & Hne). apply lookup_insert_Some in Hy as [[? _]|[_ ?]]; [done|]. exfalso. eapply Hn. by exists y. }
    split_and!; try done. intros j l Hj%Ha Hl%Ha. congruence.
  - assert (forall j, ~ alive (<[i:=BGone]> b) j) as Ha.
    { intros j (y & Hy & Hne). apply lookup_insert_Some in Hy as [[_ ?]|[Hij ?]]; [done|].
      apply Hij. apply Hu; [by exists BReturn|by exists y]. }
    split_and!; try done.
    + intros j l Hj. by apply Ha in Hj.
    + intros [j Hj]. by apply Ha in Hj.
    + intros E. destruct (Hg E) as [_ []%(fun Hn => Hn i)]. by exists BReturn.
Qed.

Lemma beat_reachable_inv h : beat_reachable h -> heart_inv h.
Proof.
  intros Hr. assert (heart_inv new_heart) as H0.
  { unfold heart_inv, alive. cbn. split_and!; try done; [|intros (i & p & Hp & _)]; set_solver. }
  revert H0. induction Hr; eauto using heart_step_inv.
Qed.

(** C31: at most one heartbeat goroutine runs at any time, in every interleaving, and
    while it runs the flag [heartbeatRunning] is set. *)
Theorem heartbeat_unique h i j :
  beat_reachable h -> alive (h_beats h) i -> alive (h_beats h) j -> i = j /\ h_running h = true.
Proof. intros (Hu & Hr & _)%beat_reachable_inv Hi Hj. eauto. Qed.

(** A connection with its heartbeat. *)
Definition first_beat : heart := MkHeart true false true false Idle {[0%nat := BSelect]}.

Lemma first_beat_reachable : beat_reachable first_beat.
Proof.
  eapply rtc_l; [apply connect_begin|]. eapply rtc_l; [apply connect_stores|].
  eapply rtc_l; [apply start_not_running|]. eapply rtc_l; [apply start_stores|].
  apply rtc_once. apply (start_go true false true false ∅ 0%nat). done.
Qed.

Lemma heartbeat_unique_witness : 0%nat = 0%nat /\ h_running first_beat = true.
Proof. apply (heartbeat_unique first_beat 0 0 first_beat_reachable); exists BSelect; split; done. Defined.

(** C32: a quick reconnect loses the heartbeat: when [Connect] runs before the goroutine of
    the old connection has taken its stop token, the flag is still set and no new
    goroutine is started; the old one then stops.  The transport is connected without
    a heartbeat, and stays so until it is disconnected again. *)
Theorem heartbeat_lost :
  exists h, beat_reachable h /\ h_connected h = true /\ h_closed h = false /\ h_call h = Idle /\
    (forall i, ~ alive (h_beats h) i) /\
    forall h', beat_step h h' -> h_call h' = DToken \/ h_connected h' = false.
Proof.
  exists (MkHeart true false false false Idle {[0%nat := BGone]}).
  assert (forall (i : nat) p, ({[0%nat := BGone]} : gmap nat beat) !! i = Some p -> p = BGone) as Hg.
  { intros i p Hp. by apply lookup_singleton_Some in Hp as [_ <-]. }
  split_and!; try done.
  - unfold beat_reachable. trans first_beat; [apply first_beat_reachable|].
    eapply rtc_l; [apply disconnect_begin|]. eapply rtc_l; [apply disconnect_token|].
    eapply rtc_l; [apply disconnect_stores|]. eapply rtc_l; [apply connect_begin|].
    eapply rtc_l; [apply connect_stores|]. eapply rtc_l; [apply start_running|].
    eapply rtc_l; [by apply (beat_stop _ _ _ _ _ 0%nat)|].
    eapply rtc_l; [by apply (beat_return _ _ _ _ _ _ 0%nat)|]. by rewrite !insert_insert_eq.
  - intros i (p & Hp & Hne). by apply Hg in Hp.
  - intros h' Hst. inversion Hst; subst; auto;
      match goal with H : _ !! _ = Some _ |- _ => by apply Hg in H end.
Qed.
