(* ===== verification/Session.v ===== *)
(** * The goroutines of the transport ([src/transport.go])

    Concurrent callers of [SendCommand], the goroutine [readLoop], and [Connect] /
    [Disconnect] share the flags, the SID counter and the table of response
    channels.  Each is a program counter here, and a step of the system is one
    atomic access of one of them: a critical section under [respMu], [sidMu] or [mu],
    an atomic flag, or a channel operation.  The network is the environment: any
    bytes may arrive at any time, any write may fail, and any wait may end by its
    timer or its context. *)
From S2P Require Import Prelude Types Protocol Framing Transport.

(** ** State *)

(** A channel made by [make(chan *FINSFrame, 1)]: its one buffer slot and whether it
    was closed; [ch_sid] records for which identifier it was made. *)
Record channel := MkChannel { ch_buf : option FINSFrame; ch_closed : bool; ch_sid : Z }.

(** A call of [SendCommand]. *)
Inductive sender :=
| SStart (cmd : bytes)                                  (* before [connected.Load()] *)
| SNext (cmd : bytes)                                   (* before [nextSID] *)
| SRegister (cmd : bytes) (sid : Z)                     (* before storing its channel *)
| SWrite (cmd : bytes) (sid : Z) (ch : nat)             (* before the write to the connection *)
| SWait (sid : Z) (ch : nat)                            (* in the [select] *)
| SCleanup (sid : Z) (ch : nat) (r : res error FINSFrame)  (* the deferred [delete] *)
| SDone (sid : Z) (r : res error FINSFrame).            (* returned *)

(** A [readLoop] goroutine: its accumulator, the frames it has decoded and not yet
    dispatched, the channel it has taken from the table with the frame to send, and
    whether its deferred function has decided to clear [connected]. *)
Record reader := MkReader {
  r_acc : bytes; r_queue : list FINSFrame; r_hold : option (nat * FINSFrame); r_exit : bool }.

(** The holder of [mu]: nobody, [Connect] while it dials, [Disconnect] after
    [closed.Store(true)] and after [connected.Store(false)]. *)
Inductive holder := MFree | MDialing | MClosed | MDisconnected.

Record session := MkSession {
  conn : bool;                       (* [t.conn != nil] *)
  connected : bool; closed : bool;
  sidCounter : Z;
  responseChans : gmap Z nat;
  chans : gmap nat channel;
  senders : gmap nat sender;
  readers : gmap nat reader;
  mu : holder;
  sent : list bytes;                 (* frames written, in order *)
  panicked : bool }.

Definition initial : session :=
  MkSession false false false 0 ∅ ∅ ∅ ∅ MFree [] false.

(** ** Updates *)

Definition set_conn c k x (s : session) :=
  MkSession c k x (sidCounter s) (responseChans s) (chans s) (senders s) (readers s) (mu s) (sent s) (panicked s).
Definition set_sid n (s : session) :=
  MkSession (conn s) (connected s) (closed s) n (responseChans s) (chans s) (senders s) (readers s) (mu s) (sent s) (panicked s).
Definition set_table t (s : session) :=
  MkSession (conn s) (connected s) (closed s) (sidCounter s) t (chans s) (senders s) (readers s) (mu s) (sent s) (panicked s).
Definition set_chans c (s : session) :=
  MkSession (conn s) (connected s) (closed s) (sidCounter s) (responseChans s) c (senders s) (readers s) (mu s) (sent s) (panicked s).
Definition set_sender i x (s : session) :=
  MkSession (conn s) (connected s) (closed s) (sidCounter s) (responseChans s) (chans s) (<[i := x]> (senders s)) (readers s) (mu s) (sent s) (panicked s).
Definition set_readers r (s : session) :=
  MkSession (conn s) (connected s) (closed s) (sidCounter s) (responseChans s) (chans s) (senders s) r (mu s) (sent s) (panicked s).
Definition set_mu d (s : session) :=
  MkSession (conn s) (connected s) (closed s) (sidCounter s) (responseChans s) (chans s) (senders s) (readers s) d (sent s) (panicked s).
Definition add_sent b (s : session) :=
  MkSession (conn s) (connected s) (closed s) (sidCounter s) (responseChans s) (chans s) (senders s) (readers s) (mu s) (sent s ++ [b]) (panicked s).
Definition set_panicked (s : session) :=
  MkSession (conn s) (connected s) (closed s) (sidCounter s) (responseChans s) (chans s) (senders s) (readers s) (mu s) (sent s) true.

(** [close(ch)] panics on a closed channel; so does a send. *)
Definition close_chan (s : session) (c : nat) : session :=
  match chans s !! c with
  | Some ch => if ch_closed ch then set_panicked s
               else set_chans (<[c := MkChannel (ch_buf ch) true (ch_sid ch)]> (chans s)) s
  | None => set_panicked s
  end.

(** The [select] of [dispatchResponse]: send when the slot is free, else drop. *)
Definition try_send (s : session) (c : nat) (f : FINSFrame) : session :=
  match chans s !! c with
  | Some ch => if ch_closed ch then set_panicked s
               else match ch_buf ch with
                    | None => set_chans (<[c := MkChannel (Some f) false (ch_sid ch)]> (chans s)) s
                    | Some _ => s
                    end
  | None => set_panicked s
  end.

(** The loop of [Disconnect] over the table, with its deletions. *)
Definition close_all (s : session) : session :=
  set_table ∅ (foldl (fun s kc => close_chan s (snd kc)) s (map_to_list (responseChans s))).

(** ** Steps *)

Section steps.
Context (src dst : FINSAddress).

Inductive step : session -> session -> Prop :=
(* a new call of SendCommand, by a user or by the heartbeat *)
| step_call s i cmd :
    senders s !! i = None -> (2 <= length cmd)%nat ->
    step s (set_sender i (SStart cmd) s)
(* if !t.connected.Load() { return nil, ErrNotConnected } *)
| step_not_connected s i cmd :
    senders s !! i = Some (SStart cmd) -> connected s = false ->
    step s (set_sender i (SDone 0 (Err ErrNotConnected)) s)
| step_connected s i cmd :
    senders s !! i = Some (SStart cmd) -> connected s = true ->
    step s (set_sender i (SNext cmd) s)
(* sid := t.nextSID() *)
| step_sid s i cmd :
    senders s !! i = Some (SNext cmd) ->
    step s (set_sender i (SRegister cmd (nextSID (sidCounter s))) (set_sid (nextSID (sidCounter s)) s))
(* respCh := make(...); t.responseChans[sid] = respCh *)
| step_register s i cmd sid c :
    senders s !! i = Some (SRegister cmd sid) -> chans s !! c = None ->
    step s (set_sender i (SWrite cmd sid c)
             (set_chans (<[c := MkChannel None false sid]> (chans s)) (set_table (<[sid := c]> (responseChans s)) s)))
(* the write to the connection, under mu *)
| step_no_conn s i cmd sid c :
    senders s !! i = Some (SWrite cmd sid c) -> mu s = MFree -> conn s = false ->
    step s (set_sender i (SCleanup sid c (Err ErrNotConnected)) s)
| step_write s i cmd sid c b :
    senders s !! i = Some (SWrite cmd sid c) -> mu s = MFree -> conn s = true ->
    command_frame src dst sid cmd = Ok b ->
    step s (set_sender i (SWait sid c) (add_sent b s))
| step_write_panic s i cmd sid c :
    senders s !! i = Some (SWrite cmd sid c) -> command_frame src dst sid cmd = Panic ->
    step s (set_panicked s)
| step_write_fails s i cmd sid c :
    senders s !! i = Some (SWrite cmd sid c) -> mu s = MFree -> conn s = true ->
    step s (set_sender i (SCleanup sid c (Err ErrSendFailed)) s)
(* the select: a frame, a closed channel, the context, the timer *)
| step_receive s i sid c ch f :
    senders s !! i = Some (SWait sid c) -> chans s !! c = Some ch -> ch_buf ch = Some f ->
    step s (set_sender i (SCleanup sid c (Ok f))
             (set_chans (<[c := MkChannel None (ch_closed ch) (ch_sid ch)]> (chans s)) s))
| step_receive_closed s i sid c ch :
    senders s !! i = Some (SWait sid c) -> chans s !! c = Some ch -> ch_buf ch = None -> ch_closed ch = true ->
    step s (set_sender i (SCleanup sid c (Err ErrConnectionClosed)) s)
| step_context s i sid c :
    senders s !! i = Some (SWait sid c) ->
    step s (set_sender i (SCleanup sid c (Err ErrContext)) s)
| step_timeout s i sid c :
    senders s !! i = Some (SWait sid c) ->
    step s (set_sender i (SCleanup sid c (Err ErrResponseTimeout)) s)
(* the deferred delete(t.responseChans, sid) *)
| step_cleanup s i sid c r :
    senders s !! i = Some (SCleanup sid c r) ->
    step s (set_sender i (SDone sid r) (set_table (delete sid (responseChans s)) s))
(* readLoop: bytes arrive *)
| step_read s g r chunk fs acc :
    readers s !! g = Some r -> r_queue r = [] -> r_hold r = None -> r_exit r = false -> bytes_ok chunk ->
    on_read (r_acc r) chunk = (fs, acc) ->
    step s (set_readers (<[g := MkReader acc fs None false]> (readers s)) s)
(* dispatchResponse: take the channel out of the table, then send *)
| step_dispatch_unknown s g r f fs :
    readers s !! g = Some r -> r_hold r = None -> r_queue r = f :: fs ->
    responseChans s !! SID (Header f) = None ->
    step s (set_readers (<[g := MkReader (r_acc r) fs None false]> (readers s)) s)
| step_dispatch_take s g r f fs c :
    readers s !! g = Some r -> r_hold r = None -> r_queue r = f :: fs ->
    responseChans s !! SID (Header f) = Some c ->
    step s (set_readers (<[g := MkReader (r_acc r) fs (Some (c, f)) false]> (readers s))
             (set_table (delete (SID (Header f)) (responseChans s)) s))
| step_dispatch_send s g r c f :
    readers s !! g = Some r -> r_hold r = Some (c, f) ->
    step s (try_send (set_readers (<[g := MkReader (r_acc r) (r_queue r) None false]> (readers s)) s) c f)
(* the loop ends (closed, or an error of the connection): the deferred function
   loads the flags, then clears [connected] *)
| step_reader_stop s g r :
    readers s !! g = Some r -> r_queue r = [] -> r_hold r = None -> r_exit r = false ->
    step s (set_readers (if connected s && negb (closed s)
                         then <[g := MkReader (r_acc r) [] None true]> (readers s)
                         else delete g (readers s)) s)
| step_reader_mark s g r :
    readers s !! g = Some r -> r_exit r = true ->
    step s (set_readers (delete g (readers s)) (set_conn (conn s) false (closed s) s))
(* Connect, under mu *)
| step_connect s :
    mu s = MFree -> connected s = false ->
    step s (set_mu MDialing (set_conn (conn s) (connected s) false s))
| step_dialed s g :
    mu s = MDialing -> readers s !! g = None ->
    step s (set_mu MFree (set_readers (<[g := MkReader [] [] None false]> (readers s)) (set_conn true true (closed s) s)))
| step_dial_fails s :
    mu s = MDialing -> step s (set_mu MFree s)
(* Disconnect, under mu *)
| step_disconnect s :
    mu s = MFree -> connected s = true ->
    step s (set_mu MClosed (set_conn (conn s) (connected s) true s))
| step_disconnect_flag s :
    mu s = MClosed ->
    step s (set_mu MDisconnected (set_conn (conn s) false (closed s) s))
| step_disconnect_chans s :
    mu s = MDisconnected ->
    step s (set_mu MFree (close_all s)).

Inductive reachable : session -> Prop :=
| reachable_initial : reachable initial
| reachable_step s s' : reachable s -> step s s' -> reachable s'.

End steps.

(** ** Invariant *)

(** The channels: one in the table is open, empty and made for its key; one held by
    a reader is open, empty, made for the frame's identifier, not in the table and
    held by no other reader; a buffered frame has the channel's identifier. *)
Record chan_inv (T : gmap Z nat) (C : gmap nat channel) (R : gmap nat reader) : Prop := {
  inv_table sid c : T !! sid = Some c -> C !! c = Some (MkChannel None false sid);
  inv_hold g r c f : R !! g = Some r -> r_hold r = Some (c, f) ->
    C !! c = Some (MkChannel None false (SID (Header f))) /\ forall sid, T !! sid <> Some c;
  inv_excl g1 g2 r1 r2 c f1 f2 :
    R !! g1 = Some r1 -> R !! g2 = Some r2 -> r_hold r1 = Some (c, f1) -> r_hold r2 = Some (c, f2) -> g1 = g2;
  inv_buf c ch f : C !! c = Some ch -> ch_buf ch = Some f -> SID (Header f) = ch_sid ch }.

(** An outcome of a call with identifier [sid]: an answer carries that identifier. *)
Definition outcome_ok (sid : Z) (r : res error FINSFrame) : Prop :=
  match r with Ok f => SID (Header f) = sid | Err _ => True | Panic => False end.

Definition has_chan (C : gmap nat channel) (sid : Z) (c : nat) : Prop :=
  exists ch, C !! c = Some ch /\ ch_sid ch = sid.

Definition sender_inv (C : gmap nat channel) (x : sender) : Prop :=
  match x with
  | SStart cmd | SNext cmd => (2 <= length cmd)%nat
  | SRegister cmd sid => (2 <= length cmd)%nat /\ 1 <= sid <= 255
  | SWrite cmd sid c => (2 <= length cmd)%nat /\ 1 <= sid <= 255 /\ has_chan C sid c
  | SWait sid c => 1 <= sid <= 255 /\ has_chan C sid c
  | SCleanup sid c r => 1 <= sid <= 255 /\ outcome_ok sid r
  | SDone sid r => (sid = 0 /\ r = Err ErrNotConnected) \/ (1 <= sid <= 255 /\ outcome_ok sid r)
  end.

Definition inv (s : session) : Prop :=
  chan_inv (responseChans s) (chans s) (readers s) /\
  map_Forall (fun _ x => sender_inv (chans s) x) (senders s) /\
  0 <= sidCounter s <= 255 /\ panicked s = false.

(** [C'] knows every channel of [C], with the same identifier. *)
Definition extends (C C' : gmap nat channel) : Prop := forall sid c, has_chan C sid c -> has_chan C' sid c.

Lemma sender_inv_extends C C' x : extends C C' -> sender_inv C x -> sender_inv C' x.
Proof. intros He. destruct x; cbn; naive_solver. Qed.

Lemma extends_new C c ch : C !! c = None -> extends C (<[c := ch]> C).
Proof. intros Hc sid d (ch' & Hd & Hs). exists ch'. split; [|done]. rewrite lookup_insert_ne; [done|congruence]. Qed.

Lemma extends_update C c ch b k : C !! c = Some ch -> extends C (<[c := MkChannel b k (ch_sid ch)]> C).
Proof.
  intros Hc sid d (ch' & Hd & Hs). destruct (decide (d = c)) as [->|].
  - simplify_eq. eexists. rewrite lookup_insert_eq. done.
  - exists ch'. by rewrite lookup_insert_ne.
Qed.

Section chan_inv_lemmas.
Context (T : gmap Z nat) (C : gmap nat channel) (R : gmap nat reader).
Hypothesis Hinv : chan_inv T C R.

Lemma chan_inv_register sid c :
  C !! c = None -> chan_inv (<[sid := c]> T) (<[c := MkChannel None false sid]> C) R.
Proof using Hinv.
  intros Hc. destruct Hinv as [H1 H2 H3 H4]. split.
  - intros sid' c' [[<- <-]|[_ HT]]%lookup_insert_Some; [by rewrite lookup_insert_eq|].
    apply H1 in HT. rewrite lookup_insert_ne; [done|congruence].
  - intros g r c' f Hg Hh. destruct (H2 g r c' f Hg Hh) as [HC HT]. split; [rewrite lookup_insert_ne; [done|congruence]|].
    intros sid' [[<- <-]|[_ HT']]%lookup_insert_Some; [congruence|by eapply HT].
  - exact H3.
  - intros c' ch f [[<- <-]|[_ HC]]%lookup_insert_Some; [done|by eapply H4].
Qed.

Lemma chan_inv_delete sid : chan_inv (delete sid T) C R.
Proof using Hinv.
  destruct Hinv as [H1 H2 H3 H4]. split; [|..|done|done].
  - intros sid' c' [_ HT]%lookup_delete_Some. by apply H1.
  - intros g r c f Hg Hh. destruct (H2 g r c f Hg Hh) as [HC HT]. split; [done|].
    intros sid' [_ HT']%lookup_delete_Some. by eapply HT.
Qed.

Lemma chan_inv_receive c ch f :
  C !! c = Some ch -> ch_buf ch = Some f -> chan_inv T (<[c := MkChannel None (ch_closed ch) (ch_sid ch)]> C) R.
Proof using Hinv.
  intros Hc Hb. destruct Hinv as [H1 H2 H3 H4]. split; [|..|done|].
  - intros sid c' HT%H1. rewrite lookup_insert_ne; [done|]. intros ->. by simplify_eq.
  - intros g r c' f' Hg Hh. destruct (H2 g r c' f' Hg Hh) as [HC HT]. split; [|done].
    rewrite lookup_insert_ne; [done|]. intros ->. by simplify_eq.
  - intros c' ch' f' [[<- <-]|[_ HC]]%lookup_insert_Some; [done|by eapply H4].
Qed.

Lemma chan_inv_idle g r : r_hold r = None -> chan_inv T C (<[g := r]> R).
Proof using Hinv.
  intros Hh. destruct Hinv as [H1 H2 H3 H4]. split; [done|..|done].
  - intros g' r' c f [[<- <-]|[_ HR]]%lookup_insert_Some; [congruence|by eapply H2].
  - intros g1 g2 r1 r2 c f1 f2 [[<- <-]|[_ HR1]]%lookup_insert_Some [[<- <-]|[_ HR2]]%lookup_insert_Some;
      [done|congruence..|]. by eapply H3.
Qed.

Lemma chan_inv_gone g : chan_inv T C (delete g R).
Proof using Hinv.
  destruct Hinv as [H1 H2 H3 H4]. split; [done|..|done].
  - intros g' r' c f [_ HR]%lookup_delete_Some. by eapply H2.
  - intros g1 g2 r1 r2 c f1 f2 [_ HR1]%lookup_delete_Some [_ HR2]%lookup_delete_Some. by eapply H3.
Qed.

Lemma chan_inv_take g r c f :
  T !! SID (Header f) = Some c -> r_hold r = Some (c, f) ->
  chan_inv (delete (SID (Header f)) T) C (<[g := r]> R).
Proof using Hinv.
  intros HT Hh. pose proof (inv_table _ _ _ Hinv _ _ HT) as HC. destruct Hinv as [H1 H2 H3 H4].
  assert (forall g' r' f', R !! g' = Some r' -> r_hold r' = Some (c, f') -> False) as Hfree.
  { intros g' r' f' Hg' Hh'. destruct (H2 g' r' c f' Hg' Hh') as [_ Hn]. by eapply Hn. }
  split; [|..|done].
  - intros sid c' [_ HT']%lookup_delete_Some. by apply H1.
  - intros g' r' c' f' [[<- <-]|[_ HR]]%lookup_insert_Some Hh'.
    + rewrite Hh in Hh'. simplify_eq. split; [done|]. intros sid [Hne HT']%lookup_delete_Some.
      apply H1 in HT'. rewrite HC in HT'. congruence.
    + destruct (H2 g' r' c' f' HR Hh') as [HC' HT']. split; [done|]. intros sid [_ ?]%lookup_delete_Some. by eapply HT'.
  - intros g1 g2 r1 r2 c' f1 f2 [[<- <-]|[_ HR1]]%lookup_insert_Some [[<- <-]|[_ HR2]]%lookup_insert_Some Hh1 Hh2.
    + done.
    + rewrite Hh in Hh1. simplify_eq. by edestruct Hfree.
    + rewrite Hh in Hh2. simplify_eq. by edestruct Hfree.
    + by eapply (H3 g1 g2 r1 r2 c').
Qed.

Lemma chan_inv_send g r r' c f :
  R !! g = Some r -> r_hold r = Some (c, f) -> r_hold r' = None ->
  chan_inv T (<[c := MkChannel (Some f) false (SID (Header f))]> C) (<[g := r']> R).
Proof using Hinv.
  intros Hg Hh Hh'. destruct Hinv as [H1 H2 H3 H4]. destruct (H2 g r c f Hg Hh) as [HC HT]. split.
  - intros sid c' HT'. rewrite lookup_insert_ne; [by apply H1|]. intros ->. by eapply HT.
  - intros g' r2 c' f' [[<- <-]|[Hne HR]]%lookup_insert_Some Hh2; [congruence|].
    destruct (H2 g' r2 c' f' HR Hh2) as [HC' HT']. split; [|done]. rewrite lookup_insert_ne; [done|].
    intros ->. by apply Hne, (H3 g g' r r2 c' f f').
  - intros g1 g2 r1 r2 c' f1 f2 [[<- <-]|[_ HR1]]%lookup_insert_Some [[<- <-]|[_ HR2]]%lookup_insert_Some;
      [done|congruence..|]. by eapply H3.
  - intros c' ch f' [[<- <-]|[_ HC']]%lookup_insert_Some; [by intros [= <-]|by eapply H4].
Qed.
End chan_inv_lemmas.

(** ** Closing the channels of the table *)

Lemma close_list_spec l : forall s,
  (forall sid c, (sid, c) ∈ l -> chans s !! c = Some (MkChannel None false sid)) -> NoDup (snd <$> l) ->
  exists C, foldl (fun s kc => close_chan s (snd kc)) s l = set_chans C s /\
    (forall c, c ∉ snd <$> l -> C !! c = chans s !! c) /\
    (forall sid c, (sid, c) ∈ l -> C !! c = Some (MkChannel None true sid)).
Proof.
  induction l as [|[sid c] l IH]; intros s Hopen Hnd; cbn [foldl].
  { exists (chans s). split_and!; [by destruct s|done|]. intros ? ? H. by apply elem_of_nil in H. }
  rewrite fmap_cons in Hnd. apply NoDup_cons in Hnd as [Hni Hnd]. cbn [snd] in *.
  unfold close_chan at 2. rewrite (Hopen sid c) by (by left). cbn [ch_closed ch_buf ch_sid].
  set (s1 := set_chans _ s). destruct (IH s1) as (C & -> & H1 & H2).
  - intros sid' c' Hin. cbn. rewrite lookup_insert_ne; [apply Hopen; by right|].
    intros ->. apply Hni, list_elem_of_fmap. by exists (sid', c').
  - done.
  - exists C. split_and!; [done| |].
    + intros c' Hc'. rewrite fmap_cons, not_elem_of_cons in Hc'. destruct Hc' as [Hne Hc'].
      rewrite H1 by done. cbn in *. by rewrite lookup_insert_ne.
    + intros sid' c' [[= -> ->]|Hin]%elem_of_cons; [|by apply H2]. rewrite H1 by done. cbn.
      by rewrite lookup_insert_eq.
Qed.

Lemma table_nodup T C R : chan_inv T C R -> NoDup (snd <$> map_to_list T).
Proof.
  intros Hinv. apply NoDup_fmap_2_strong; [|apply NoDup_map_to_list].
  intros [s1 c1] [s2 c2] H1%elem_of_map_to_list H2%elem_of_map_to_list. cbn. intros <-.
  apply (inv_table _ _ _ Hinv) in H1, H2. congruence.
Qed.

(** The channels after [close_all]: those of the table closed, the others as before. *)
Lemma close_all_spec s :
  chan_inv (responseChans s) (chans s) (readers s) ->
  exists C, close_all s = set_table ∅ (set_chans C s) /\
    (forall c, (forall sid, responseChans s !! sid <> Some c) -> C !! c = chans s !! c) /\
    (forall sid c, responseChans s !! sid = Some c -> C !! c = Some (MkChannel None true sid)).
Proof.
  intros Hinv. destruct (close_list_spec (map_to_list (responseChans s)) s) as (C & HC & H1 & H2).
  - intros sid c Hin%elem_of_map_to_list. by apply (inv_table _ _ _ Hinv).
  - by eapply table_nodup.
  - exists C. split_and!.
    + unfold close_all. by rewrite HC.
    + intros c Hn. apply H1. intros ([sid c'] & -> & Hin%elem_of_map_to_list)%list_elem_of_fmap. by eapply Hn.
    + intros sid c HT. apply H2. by apply elem_of_map_to_list.
Qed.

Lemma close_all_inv s C :
  chan_inv (responseChans s) (chans s) (readers s) ->
  (forall c, (forall sid, responseChans s !! sid <> Some c) -> C !! c = chans s !! c) ->
  (forall sid c, responseChans s !! sid = Some c -> C !! c = Some (MkChannel None true sid)) ->
  chan_inv ∅ C (readers s) /\ extends (chans s) C.
Proof.
  intros Hinv H1 H2.
  assert (forall c, (exists sid, responseChans s !! sid = Some c) \/ forall sid, responseChans s !! sid <> Some c) as Hdec.
  { intros c. destruct (decide (c ∈ snd <$> map_to_list (responseChans s))) as [Hin|Hni].
    - left. apply list_elem_of_fmap in Hin as ([sid c'] & -> & Hin%elem_of_map_to_list). by exists sid.
    - right. intros sid HT. apply Hni, list_elem_of_fmap. exists (sid, c). split; [done|]. by apply elem_of_map_to_list. }
  split; [split|].
  - intros sid c HT. by rewrite lookup_empty in HT.
  - intros g r c f Hg Hh. destruct (inv_hold _ _ _ Hinv g r c f Hg Hh) as [HC HT]. split; [by rewrite H1|].
    intros sid E. by rewrite lookup_empty in E.
  - apply (inv_excl _ _ _ Hinv).
  - intros c ch f HC Hb. destruct (Hdec c) as [[sid HT]|Hn].
    + apply H2 in HT. rewrite HT in HC. by simplify_eq.
    + rewrite H1 in HC by done. by eapply (inv_buf _ _ _ Hinv).
  - intros sid c (ch & HC & Hs). destruct (Hdec c) as [[sid' HT]|Hn].
    + pose proof (inv_table _ _ _ Hinv _ _ HT). simplify_eq. eexists. split; [by apply H2|done].
    + exists ch. by rewrite H1.
Qed.

(** ** The invariant is kept *)

Lemma senders_set s i x C' :
  map_Forall (fun _ x => sender_inv (chans s) x) (senders s) -> extends (chans s) C' -> sender_inv C' x ->
  map_Forall (fun _ x => sender_inv C' x) (<[i := x]> (senders s)).
Proof.
  intros Hs He Hx. apply map_Forall_insert_2; [done|].
  eapply map_Forall_impl; [exact Hs|]. intros j y. by apply sender_inv_extends.
Qed.

Lemma extends_refl C : extends C C.
Proof. by intros sid c. Qed.

Lemma command_frame_ok src dst sid cmd : (2 <= length cmd)%nat -> exists b, command_frame src dst sid cmd = Ok b.
Proof. intros. unfold command_frame, sub_from. rewrite !sub_ok by lia. cbn. eauto. Qed.

Lemma nextSID_range c : 0 <= c <= 255 -> 1 <= nextSID c <= 255.
Proof. intros. rewrite nextSID_eq by done. destruct (Z.eqb_spec c 255); lia. Qed.

#[export] Hint Resolve extends_refl extends_new extends_update : fins.

Lemma inv_senders C C' (S : gmap nat sender) :
  map_Forall (fun _ x => sender_inv C x) S -> extends C C' -> map_Forall (fun _ x => sender_inv C' x) S.
Proof. intros HS He. eapply map_Forall_impl; [exact HS|]. intros j y. by apply sender_inv_extends. Qed.

Lemma inv_dispatch_send s g r c f :
  inv s -> readers s !! g = Some r -> r_hold r = Some (c, f) ->
  let s1 := set_readers (<[g := MkReader (r_acc r) (r_queue r) None false]> (readers s)) s in
  try_send s1 c f = set_chans (<[c := MkChannel (Some f) false (SID (Header f))]> (chans s)) s1 /\ inv (try_send s1 c f).
Proof.
  intros (Hch & Hsend & [Hs1 Hs2] & Hp) Hg Hh s1. destruct (inv_hold _ _ _ Hch g r c f Hg Hh) as [HC _].
  assert (try_send s1 c f = set_chans (<[c := MkChannel (Some f) false (SID (Header f))]> (chans s)) s1) as ->.
  { unfold try_send. cbn. by rewrite HC. }
  split; [done|]. unfold inv. split_and!; [by apply (chan_inv_send _ _ _ Hch g r)| |done..].
  eapply inv_senders; [exact Hsend|]. exact (extends_update _ _ _ (Some f) false HC).
Qed.

Lemma inv_close_all s : inv s -> inv (close_all s).
Proof.
  intros (Hch & Hsend & [Hs1 Hs2] & Hp). destruct (close_all_spec s Hch) as (C & -> & H1 & H2).
  destruct (close_all_inv s C Hch H1 H2) as [Hinv He]. split_and!; try done. by eapply inv_senders.
Qed.

Lemma step_inv src dst s s' : inv s -> step src dst s s' -> inv s'.
Proof.
  intros Hi Hstep. pose proof Hi as (Hch & Hsend & Hsid & Hp).
  assert (forall i x, senders s !! i = Some x -> sender_inv (chans s) x) as Hx by (intros i x; apply Hsend).
  destruct Hstep; try (by eapply inv_dispatch_send); try exact (inv_close_all _ Hi);
    repeat match goal with H : senders _ !! _ = Some _ |- _ => apply Hx in H; cbn in H end; ands;
    unfold inv; cbn [responseChans chans senders readers sidCounter panicked set_sender set_sid set_table set_chans
      set_readers set_mu set_conn add_sent set_panicked];
    (split_and!; auto using chan_inv_register, chan_inv_delete, chan_inv_idle, chan_inv_gone with fins; try lia;
      try (apply senders_set; auto with fins; cbn; try tauto; auto using nextSID_range)).
  - pose proof (nextSID_range (sidCounter s)). lia.
  - pose proof (nextSID_range (sidCounter s)). lia.
  - split_and!; try done. eexists. by rewrite lookup_insert_eq.
  - destruct (command_frame_ok src dst sid cmd) as [b Hb]; [done|congruence].
  - by eapply chan_inv_receive.
  - split; [done|]. erewrite (inv_buf _ _ _ Hch) by done.
    match goal with H : has_chan _ _ _ |- _ => destruct H as (ch' & ? & ?) end. congruence.
  - by eapply chan_inv_take.
  - case_match; [by apply chan_inv_idle|by apply chan_inv_gone].
Qed.

Lemma reachable_inv src dst s : reachable src dst s -> inv s.
Proof.
  induction 1 as [|s s' _ IH Hstep]; [|by eapply step_inv].
  split_and!; done.
Qed.

(** ** A waiting call can be answered

    Two calls in progress with the same identifier disturb each other: the second
    replaces the first one's channel, and the cleanup of either removes the entry of
    the other.  As long as that does not happen (fewer than 256 calls in progress),
    no waiting call is forgotten. *)

Definition active_sid (x : sender) : option Z :=
  match x with
  | SRegister _ sid | SWrite _ sid _ | SWait sid _ | SCleanup sid _ _ => Some sid
  | _ => None
  end.

Definition unique_sids (S : gmap nat sender) : Prop :=
  forall i j x y a, S !! i = Some x -> S !! j = Some y ->
    active_sid x = Some a -> active_sid y = Some a -> i = j.

(** The identifier and channel a call waits on, or will. *)
Definition waits (x : sender) : option (Z * nat) :=
  match x with SWrite _ sid c | SWait sid c => Some (sid, c) | _ => None end.

(** The channel is registered, or an outcome is on its way: it is closed, it holds
    an answer, or a reader is about to send one. *)
Definition answerable (T : gmap Z nat) (C : gmap nat channel) (R : gmap nat reader) (sid : Z) (c : nat) : Prop :=
  T !! sid = Some c \/
  (exists ch, C !! c = Some ch /\ (ch_closed ch = true \/ is_Some (ch_buf ch))) \/
  (exists g r f, R !! g = Some r /\ r_hold r = Some (c, f)).

Definition own_inv (S : gmap nat sender) : Prop :=
  forall i j x y p q c, S !! i = Some x -> S !! j = Some y ->
    waits x = Some (p, c) -> waits y = Some (q, c) -> i = j.

Definition wait_inv (S : gmap nat sender) T C R : Prop :=
  forall i x sid c, S !! i = Some x -> waits x = Some (sid, c) -> answerable T C R sid c.

Definition exit_inv (R : gmap nat reader) : Prop :=
  forall g r, R !! g = Some r -> r_exit r = true -> r_hold r = None /\ r_queue r = [].

Definition progress_inv (s : session) : Prop :=
  own_inv (senders s) /\ wait_inv (senders s) (responseChans s) (chans s) (readers s) /\ exit_inv (readers s).

(** A call changed to a state that waits on nothing new. *)
Definition no_new_wait (S : gmap nat sender) (i : nat) (x : sender) : Prop :=
  forall w, waits x = Some w -> exists y, S !! i = Some y /\ waits y = Some w.

Lemma own_inv_set S i x : no_new_wait S i x -> own_inv S -> own_inv (<[i := x]> S).
Proof.
  intros Hn Ho j k y z p q c [[<- <-]|[_ Hj]]%lookup_insert_Some [[<- <-]|[_ Hk]]%lookup_insert_Some Hy Hz; [done|..].
  - destruct (Hn _ Hy) as (y' & ? & ?). by eapply (Ho i k).
  - destruct (Hn _ Hz) as (z' & ? & ?). by eapply (Ho j i).
  - by eapply (Ho j k).
Qed.

Lemma wait_inv_set S T C R i x : no_new_wait S i x -> wait_inv S T C R -> wait_inv (<[i := x]> S) T C R.
Proof.
  intros Hn Hw j y sid c [[<- <-]|[_ Hj]]%lookup_insert_Some Hy; [|by eapply Hw].
  destruct (Hn _ Hy) as (y' & ? & ?). by eapply Hw.
Qed.

(** The shared state changed under the calls other than [i]. *)
Lemma wait_inv_shared S T C R T' C' R' i x :
  waits x = None ->
  (forall j y sid c, j <> i -> S !! j = Some y -> waits y = Some (sid, c) ->
     answerable T C R sid c -> answerable T' C' R' sid c) ->
  wait_inv S T C R -> wait_inv (<[i := x]> S) T' C' R'.
Proof.
  intros Hx Hsh Hw j y sid c [[<- <-]|[Hne Hj]]%lookup_insert_Some Hy; [congruence|].
  apply (Hsh j y); try done. by eapply Hw.
Qed.

Lemma wait_inv_map S T C R T' C' R' :
  (forall sid c, answerable T C R sid c -> answerable T' C' R' sid c) -> wait_inv S T C R -> wait_inv S T' C' R'.
Proof. intros Ha Hw i x sid c Hi Hx. by eapply Ha, Hw. Qed.

(** A reader that holds nothing was replaced or removed. *)
Lemma answerable_readers T C R R' g sid c :
  (forall r, R !! g = Some r -> r_hold r = None) -> (forall g' r, g' <> g -> R !! g' = Some r -> R' !! g' = Some r) ->
  answerable T C R sid c -> answerable T C R' sid c.
Proof.
  intros Hg Hr [?|[?|(g' & r & f & HR & Hh)]]; [by left|by right; left|].
  right. right. exists g', r, f. split; [|done]. apply Hr; [|done]. intros ->. by rewrite (Hg r HR) in Hh.
Qed.

Lemma wait_inv_reader_set S T C R g r' :
  (forall r, R !! g = Some r -> r_hold r = None) -> wait_inv S T C R -> wait_inv S T C (<[g := r']> R).
Proof.
  intros Hg. apply wait_inv_map. intros sid c. apply (answerable_readers _ _ _ _ g); [done|].
  intros g' r Hne HR. by rewrite lookup_insert_ne.
Qed.

Lemma wait_inv_reader_del S T C R g :
  (forall r, R !! g = Some r -> r_hold r = None) -> wait_inv S T C R -> wait_inv S T C (delete g R).
Proof.
  intros Hg. apply wait_inv_map. intros sid c. apply (answerable_readers _ _ _ _ g); [done|].
  intros g' r Hne HR. by rewrite lookup_delete_ne.
Qed.

Lemma exit_inv_insert R g r : exit_inv R -> (r_exit r = true -> r_hold r = None /\ r_queue r = []) -> exit_inv (<[g := r]> R).
Proof. intros He Hr g' r' [[<- <-]|[_ HR]]%lookup_insert_Some; [done|by eapply He]. Qed.

Lemma exit_inv_delete R g : exit_inv R -> exit_inv (delete g R).
Proof. intros He g' r' [_ HR]%lookup_delete_Some. by eapply He. Qed.

Lemma answerable_take T C R g r f c acc fs sid c' :
  T !! SID (Header f) = Some c -> R !! g = Some r -> r_hold r = None ->
  answerable T C R sid c' ->
  answerable (delete (SID (Header f)) T) C (<[g := MkReader acc fs (Some (c, f)) false]> R) sid c'.
Proof.
  intros HT Hg Hh [HT'|[HC|(g' & r' & f' & HR & Hh')]].
  - destruct (decide (sid = SID (Header f))) as [->|Hne].
    + rewrite HT in HT'. injection HT' as <-. right. right.
      exists g, (MkReader acc fs (Some (c, f)) false), f. by rewrite lookup_insert_eq.
    + left. by rewrite lookup_delete_ne.
  - by right; left.
  - right. right. exists g', r', f'. rewrite lookup_insert_ne; [done|]. intros <-. congruence.
Qed.

Lemma answerable_send T C R g r c f r' sid c' :
  R !! g = Some r -> r_hold r = Some (c, f) ->
  answerable T C R sid c' ->
  answerable T (<[c := MkChannel (Some f) false (SID (Header f))]> C) (<[g := r']> R) sid c'.
Proof.
  intros Hg Hh Ha. destruct (decide (c' = c)) as [->|Hne].
  { right. left. eexists. rewrite lookup_insert_eq. split; [done|]. right. by eexists. }
  destruct Ha as [HT|[(ch & HC & Hch)|(g' & r2 & f' & HR & Hh')]]; [by left|..].
  - right. left. exists ch. by rewrite lookup_insert_ne.
  - right. right. exists g', r2, f'. rewrite lookup_insert_ne; [done|]. intros <-. congruence.
Qed.

Lemma progress_register S T C R i cmd sid c :
  own_inv S -> wait_inv S T C R -> map_Forall (fun _ x => sender_inv C x) S ->
  C !! c = None -> unique_sids (<[i := SWrite cmd sid c]> S) ->
  own_inv (<[i := SWrite cmd sid c]> S) /\
  wait_inv (<[i := SWrite cmd sid c]> S) (<[sid := c]> T) (<[c := MkChannel None false sid]> C) R.
Proof.
  intros Ho Hw Hs Hc Hu.
  assert (forall j y p d, S !! j = Some y -> waits y = Some (p, d) -> d <> c) as Hfresh.
  { intros j y p d Hj Hy ->. specialize (Hs j y Hj). destruct y; try done; cbn in *; simplify_eq;
      destruct Hs; ands; unfold has_chan in *; naive_solver congruence. }
  split.
  - intros j k y z p q d [[<- <-]|[Hnj Hj]]%lookup_insert_Some [[<- <-]|[Hnk Hk]]%lookup_insert_Some Hy Hz; [done|..].
    + cbn in Hy. simplify_eq. by edestruct Hfresh.
    + cbn in Hz. simplify_eq. by edestruct Hfresh.
    + by eapply (Ho j k).
  - intros j y p d [[<- <-]|[Hne Hj]]%lookup_insert_Some Hy.
    + cbn in Hy. simplify_eq. left. by rewrite lookup_insert_eq.
    + assert (p <> sid) as Hps.
      { intros ->. apply Hne. eapply (Hu i j); [by rewrite lookup_insert_eq|by rewrite lookup_insert_ne|done|].
        by destruct y; cbn in *; simplify_eq. }
      destruct (Hw j y p d Hj Hy) as [HT|[(ch & HC & Hch)|Hr]]; [left; by rewrite lookup_insert_ne| |by right; right].
      right. left. exists ch. rewrite lookup_insert_ne; [done|]. intros <-. congruence.
Qed.

Lemma waits_active x sid c : waits x = Some (sid, c) -> active_sid x = Some sid.
Proof. destruct x; cbn; congruence. Qed.

Lemma progress_step src dst s s' :
  inv s -> unique_sids (senders s) -> unique_sids (senders s') ->
  progress_inv s -> step src dst s s' -> progress_inv s'.
Proof.
  intros Hi Hu Hu' (Ho & Hw & He) Hstep. pose proof Hi as (Hch & Hsend & _ & _).
  destruct Hstep;
    repeat match goal with H : senders _ !! _ = Some _ |- _ => pose proof (Hsend _ _ H); revert H end; intros;
    unfold progress_inv;
    try match goal with |- context [try_send _ ?c ?f] =>
      edestruct inv_dispatch_send as [E _]; [exact Hi|eassumption|eassumption|]; rewrite E; clear E end;
    cbn [responseChans chans senders readers set_sender set_sid set_table set_chans
      set_readers set_mu set_conn add_sent set_panicked] in *;
    try (split_and!; [apply own_inv_set|apply wait_inv_set|]; try done; intros w; cbn; naive_solver).
  all: try (by split_and!).
  all: try (split_and!; [done
    |first [apply wait_inv_reader_set|apply wait_inv_reader_del]; [|exact Hw];
     intros r0 ?; simplify_eq; first [done|by eapply He]
    |first [apply exit_inv_insert|apply exit_inv_delete]; done]).
  - edestruct progress_register; [exact Ho|exact Hw|exact Hsend|eassumption|exact Hu'|]. by split_and!.
  - split_and!; [apply own_inv_set; [by intros w|done]| |done].
    eapply wait_inv_shared; [done| |exact Hw]. intros j y p d Hne Hj Hy Ha.
    assert (d <> c) by (intros ->; apply Hne; by eapply (Ho j i)).
    destruct Ha as [?|[(ch' & HC & Hch')|?]]; [by left| |by right; right].
    right. left. exists ch'. by rewrite lookup_insert_ne.
  - split_and!; [apply own_inv_set; [by intros w|done]| |done].
    eapply wait_inv_shared; [done| |exact Hw]. intros j y p d Hne Hj Hy [HT|?]; [|by right].
    left. rewrite lookup_delete_ne; [done|]. intros ->. apply Hne.
    eapply (Hu j i); [done..|by eapply waits_active|done].
  - split_and!; [done| |by apply exit_inv_insert].
    eapply wait_inv_map; [|exact Hw]. intros sid' c'. by eapply answerable_take.
  - split_and!; [done| |by apply exit_inv_insert].
    eapply wait_inv_map; [|exact Hw]. intros sid' c'. by eapply answerable_send.
  - case_match; (split_and!; [done
      |first [apply wait_inv_reader_set|apply wait_inv_reader_del]; [|exact Hw]; intros r0 ?; by simplify_eq
      |by first [apply exit_inv_insert|apply exit_inv_delete]]).
  - destruct (close_all_spec s Hch) as (C & -> & H1 & H2). cbn. split_and!; [done| |done].
    eapply wait_inv_map; [|exact Hw]. intros sid c [HT|[(ch & HC & Hc)|Hr]].
    + right. left. eexists. split; [by apply H2 in HT|by left].
    + right. left. exists ch. split; [|done]. rewrite H1; [done|]. intros sid' HT'.
      apply (inv_table _ _ _ Hch) in HT'. rewrite HC in HT'. injection HT' as ->. by destruct Hc as [|[? ?]].
    + by right; right.
Qed.

(** ** Runs *)

(** Reachable by steps that never leave two calls in progress with one identifier. *)
Inductive reachable_unique (src dst : FINSAddress) : session -> Prop :=
| unique_initial : reachable_unique src dst initial
| unique_step s s' :
    reachable_unique src dst s -> step src dst s s' -> unique_sids (senders s') -> reachable_unique src dst s'.

Lemma reachable_unique_inv src dst s :
  reachable_unique src dst s -> inv s /\ unique_sids (senders s) /\ progress_inv s.
Proof.
  induction 1 as [|s s' _ (Hi & Hu & Hp) Hstep Hu'].
  - split; [apply (reachable_inv src dst), reachable_initial|]. split; [done|]. by split_and!.
  - split; [by eapply step_inv|]. split; [done|]. by eapply progress_step.
Qed.

(** A run: the client connects, call 0 reads D100, its answer arrives. *)
Definition sample_src : FINSAddress := MkFINSAddress 0 1 255.
Definition sample_dst : FINSAddress := MkFINSAddress 0 1 0.
Definition sample_cmd : bytes := EncodeReadCommand (MkMemoryAddress 0x82 100 0) 1.
Definition sample_answer : FINSFrame :=
  MkFINSFrame (DefaultResponseHeader (DefaultCommandHeader sample_src sample_dst 1)) MRC_MEMORY_AREA_READ 0 [0x12; 0x34].

Ltac run_step H rule :=
  let H' := fresh in
  pose proof (reachable_step _ _ _ _ H rule) as H'; clear H; rename H' into H.

(** Connected, and call 0 waiting with identifier 1 on channel 0. *)
Lemma sample_waiting :
  exists s, reachable sample_src sample_dst s /\ senders s = {[0%nat := SWait 1 0]} /\
    responseChans s = {[1 := 0%nat]} /\ chans s = {[0%nat := MkChannel None false 1]} /\ sidCounter s = 1 /\
    connected s = true /\ closed s = false /\ conn s = true /\ mu s = MFree /\
    readers s = {[0%nat := MkReader [] [] None false]}.
Proof.
  pose proof (reachable_initial sample_src sample_dst) as H.
  run_step H (step_connect sample_src sample_dst initial eq_refl eq_refl).
  match type of H with reachable _ _ ?s => run_step H (step_dialed sample_src sample_dst s 0%nat eq_refl eq_refl) end.
  match type of H with reachable _ _ ?s => run_step H (step_call sample_src sample_dst s 0%nat sample_cmd eq_refl ltac:(vm_compute; lia)) end.
  match type of H with reachable _ _ ?s => run_step H (step_connected sample_src sample_dst s 0%nat sample_cmd eq_refl eq_refl) end.
  match type of H with reachable _ _ ?s => run_step H (step_sid sample_src sample_dst s 0%nat sample_cmd eq_refl) end.
  match type of H with reachable _ _ ?s => run_step H (step_register sample_src sample_dst s 0%nat sample_cmd 1 0%nat eq_refl eq_refl) end.
  destruct (command_frame_ok sample_src sample_dst 1 sample_cmd) as [b Hb]; [vm_compute; lia|].
  match type of H with reachable _ _ ?s => run_step H (step_write sample_src sample_dst s 0%nat sample_cmd 1 0%nat b eq_refl eq_refl eq_refl Hb) end.
  eexists. split; [exact H|]. by split_and!.
Qed.

Lemma sample_answered :
  exists s, reachable sample_src sample_dst s /\ senders s !! 0%nat = Some (SDone 1 (Ok sample_answer)).
Proof.
  destruct sample_waiting as (s & H & Hs & HT & HC & _ & Hcon & Hcl & Hconn & Hmu & HR).
  assert (readers s !! 0%nat = Some (MkReader [] [] None false)) as H1 by (by rewrite HR).
  pose proof (step_read sample_src sample_dst s 0 _ (wire sample_answer) [sample_answer] [] H1 eq_refl eq_refl eq_refl
    ltac:(by_decide) ltac:(vm_compute; reflexivity)) as S1. run_step H S1. clear S1.
  match type of H with reachable _ _ ?s1 =>
    pose proof (step_dispatch_take sample_src sample_dst s1 0 (MkReader [] [sample_answer] None false) sample_answer [] 0
      ltac:(cbn; by rewrite lookup_insert_eq) eq_refl eq_refl ltac:(cbn; by rewrite HT)) as S1 end. run_step H S1. clear S1.
  match type of H with reachable _ _ ?s1 =>
    pose proof (step_dispatch_send sample_src sample_dst s1 0 (MkReader [] [] (Some (0%nat, sample_answer)) false) 0 sample_answer
      ltac:(cbn; by rewrite lookup_insert_eq) eq_refl) as S1 end.
  unfold try_send in S1. cbn [chans set_readers set_table] in S1. rewrite HC, lookup_singleton_eq in S1. cbn [ch_closed ch_buf ch_sid] in S1.
  run_step H S1. clear S1.
  match type of H with reachable _ _ ?s1 =>
    pose proof (step_receive sample_src sample_dst s1 0 1 0 (MkChannel (Some sample_answer) false 1) sample_answer
      ltac:(cbn; by rewrite Hs) ltac:(cbn; by rewrite lookup_insert_eq) eq_refl) as S1 end. run_step H S1. clear S1.
  match type of H with reachable _ _ ?s1 =>
    pose proof (step_cleanup sample_src sample_dst s1 0 1 0 (Ok sample_answer) ltac:(cbn; by rewrite lookup_insert_eq)) as S1 end.
  run_step H S1. clear S1.
  eexists. split; [exact H|]. cbn. by rewrite lookup_insert_eq.
Qed.

(** Calls that only take an identifier: [n] of them, numbered from [m] on. *)
Lemma take_sids src dst (cmd : bytes) n : forall s m,
  reachable src dst s -> connected s = true -> (2 <= length cmd)%nat ->
  (forall k, (m <= k)%nat -> senders s !! k = None) ->
  exists s', reachable src dst s' /\ sidCounter s' = sid_at (sidCounter s) n /\
    connected s' = true /\ conn s' = conn s /\ mu s' = mu s /\ responseChans s' = responseChans s /\
    chans s' = chans s /\ readers s' = readers s /\
    (forall k, (k < m)%nat -> senders s' !! k = senders s !! k) /\
    (forall k, (m + n <= k)%nat -> senders s' !! k = None).
Proof.
  induction n as [|n IH]; intros s m Hr Hc Hl Hfree.
  { exists s. split_and!; try done. intros k Hk. apply Hfree. lia. }
  destruct (IH s m Hr Hc Hl Hfree) as (s1 & H1 & Hsid & Hc1 & Hconn & Hmu & HT & HC & HR & Hlow & Hhigh).
  pose proof (reachable_step _ _ _ _ H1 (step_call src dst s1 (m + n) cmd (Hhigh _ (le_n _)) Hl)) as H2.
  match type of H2 with reachable ?a ?b ?x =>
    pose proof (reachable_step a b x _ H2 (step_connected a b x (m + n) cmd (lookup_insert_eq _ _ _) Hc1)) as H3 end.
  match type of H3 with reachable ?a ?b ?x =>
    pose proof (reachable_step a b x _ H3 (step_sid a b x (m + n) cmd (lookup_insert_eq _ _ _))) as H4 end.
  eexists. split; [exact H4|]. cbn. rewrite Hsid. split_and!; try done.
  - intros k Hk. rewrite !lookup_insert_ne by lia. by apply Hlow.
  - intros k Hk. rewrite !lookup_insert_ne by lia. apply Hhigh. lia.
Qed.

(** ** Properties of the session *)

(** C4: the channel protocol is safe: in no interleaving of callers, readers,
    connects and disconnects, and whatever bytes arrive, does the program send on a
    closed channel, close a channel twice or slice a command out of range; the answer
    a reader is about to send always finds its channel open and empty, so none is
    dropped; and a call that returns an answer returns one with its own identifier,
    which is not 0. *)
Theorem session_safe src dst s :
  reachable src dst s ->
  panicked s = false /\
  (forall g r c f, readers s !! g = Some r -> r_hold r = Some (c, f) ->
     exists ch, chans s !! c = Some ch /\ ch_closed ch = false /\ ch_buf ch = None) /\
  (forall i sid f, senders s !! i = Some (SDone sid (Ok f)) -> SID (Header f) = sid /\ 1 <= sid <= 255).
Proof.
  intros (Hch & Hsend & _ & Hp)%reachable_inv. split_and!; [done|..].
  - intros g r c f Hg Hh. destruct (inv_hold _ _ _ Hch g r c f Hg Hh) as [HC _]. by eexists.
  - intros i sid f Hi. specialize (Hsend i _ Hi). cbn in Hsend. destruct Hsend as [[_ ?]|[? ?]]; done.
Qed.

Lemma session_safe_witness :
  exists s, reachable sample_src sample_dst s /\ panicked s = false /\
    senders s !! 0%nat = Some (SDone 1 (Ok sample_answer)) /\ SID (Header sample_answer) = 1.
Proof.
  destruct sample_answered as (s & H & Hs). destruct (session_safe _ _ s H) as (Hp & _ & Hd).
  exists s. split_and!; [exact H|exact Hp|exact Hs|]. by destruct (Hd 0%nat 1 sample_answer Hs).
Defined.

(** C7: no waiting call is forgotten: as long as no two calls in progress share an
    identifier, the channel a call waits on is in the table under its identifier, or
    is closed, or holds an answer, or is about to be sent one; and when [Disconnect]
    has finished, no channel is left in the table, so every call still waiting has
    its outcome. *)
Theorem waiting_calls_answerable src dst s i sid c :
  reachable_unique src dst s -> senders s !! i = Some (SWait sid c) ->
  answerable (responseChans s) (chans s) (readers s) sid c /\
  (mu s = MDisconnected ->
   step src dst s (set_mu MFree (close_all s)) /\
   ((exists ch, chans (close_all s) !! c = Some ch /\ (ch_closed ch = true \/ is_Some (ch_buf ch))) \/
    (exists g r f, readers (close_all s) !! g = Some r /\ r_hold r = Some (c, f)))).
Proof.
  intros (Hi & _ & Hp)%reachable_unique_inv Hx. pose proof Hp as (_ & Hw & _).
  assert (answerable (responseChans s) (chans s) (readers s) sid c) as Ha by (by eapply Hw).
  split; [done|]. intros Hmu. split; [by apply step_disconnect_chans|].
  destruct Hi as (Hch & _). destruct (close_all_spec s Hch) as (C & -> & H1 & H2). cbn.
  destruct Ha as [HT|[(ch & HC & Hc)|Hr]]; [left|left|by right].
  - eexists. split; [by apply H2 in HT|by left].
  - exists ch. split; [|done]. rewrite H1; [done|]. intros sid' HT'.
    apply (inv_table _ _ _ Hch) in HT'. rewrite HC in HT'. injection HT' as ->. by destruct Hc as [|[? ?]].
Qed.

Lemma waiting_calls_answerable_witness :
  exists s, senders s !! 0%nat = Some (SWait 1 0) /\ answerable (responseChans s) (chans s) (readers s) 1 0.
Proof.
  assert (forall i x, unique_sids {[i := x]}) as Hu.
  { intros i x j k y z a [<- _]%lookup_singleton_Some [<- _]%lookup_singleton_Some. done. }
  assert (exists s, reachable_unique sample_src sample_dst s /\ senders s !! 0%nat = Some (SWait 1 0)) as (s & Hs & Hx).
  { pose proof (unique_initial sample_src sample_dst) as H.
    match type of H with reachable_unique ?a ?b ?x =>
      pose proof (unique_step a b x _ H (step_connect a b x eq_refl eq_refl) ltac:(done)) as H1 end.
    match type of H1 with reachable_unique ?a ?b ?x =>
      pose proof (unique_step a b x _ H1 (step_dialed a b x 0%nat eq_refl eq_refl) ltac:(done)) as H2 end.
    match type of H2 with reachable_unique ?a ?b ?x =>
      pose proof (unique_step a b x _ H2 (step_call a b x 0%nat sample_cmd eq_refl ltac:(vm_compute; lia)) (Hu 0%nat (SStart sample_cmd))) as H3 end.
    match type of H3 with reachable_unique ?a ?b ?x =>
      pose proof (unique_step a b x _ H3 (step_connected a b x 0%nat sample_cmd eq_refl eq_refl) (Hu 0%nat (SNext sample_cmd))) as H4 end.
    match type of H4 with reachable_unique ?a ?b ?x =>
      pose proof (unique_step a b x _ H4 (step_sid a b x 0%nat sample_cmd eq_refl) (Hu 0%nat (SRegister sample_cmd 1))) as H5 end.
    match type of H5 with reachable_unique ?a ?b ?x =>
      pose proof (unique_step a b x _ H5 (step_register a b x 0%nat sample_cmd 1 0%nat eq_refl eq_refl) (Hu 0%nat (SWrite sample_cmd 1 0))) as H6 end.
    destruct (command_frame_ok sample_src sample_dst 1 sample_cmd) as [w Hb]; [vm_compute; lia|].
    match type of H6 with reachable_unique ?a ?b ?x =>
      pose proof (unique_step a b x _ H6 (step_write a b x 0%nat sample_cmd 1 0%nat w eq_refl eq_refl eq_refl Hb) (Hu 0%nat (SWait 1 0))) as H7 end.
    eexists. split; [exact H7|]. reflexivity. }
  exists s. split; [exact Hx|]. by destruct (waiting_calls_answerable _ _ s 0 1 0 Hs Hx).
Defined.

(** C39: identifiers are reused while still in use: there is a run in which a call is
    given the identifier of an older call that is still waiting; when the older call
    gives up, its deferred [delete] removes the newer call's channel, which then is
    in no table, open and empty, with nobody about to send to it: its answer can no
    longer be delivered. *)
Theorem sid_reuse_orphans :
  exists s, reachable sample_src sample_dst s /\ senders s !! 255%nat = Some (SWait 1 1) /\
    ~ answerable (responseChans s) (chans s) (readers s) 1 1.
Proof.
  destruct sample_waiting as (s0 & H & Hs & HT & HC & Hsid & Hcon & Hcl & Hconn & Hmu & HR).
  destruct (take_sids sample_src sample_dst sample_cmd 254 s0 1 H Hcon) as
    (s1 & Hr1 & Hsid1 & Hcon1 & Hconn1 & Hmu1 & HT1 & HC1 & HR1 & Hlow1 & Hhigh1).
  { vm_compute. lia. }
  { intros k Hk. rewrite Hs. apply lookup_singleton_None. lia. }
  assert (nextSID (sidCounter s1) = 1) as Hn by (by rewrite Hsid1, Hsid).
  assert (senders s1 !! 0%nat = Some (SWait 1 0)) as H0 by (rewrite Hlow1, Hs by lia; apply lookup_singleton_eq).
  assert ((2 <= length sample_cmd)%nat) as Hl by (vm_compute; lia).
  pose proof (reachable_step _ _ _ _ Hr1 (step_call _ _ s1 255 sample_cmd (Hhigh1 255%nat (le_n _)) Hl)) as R1.
  match type of R1 with reachable ?a ?b ?x =>
    pose proof (reachable_step a b x _ R1 (step_connected a b x 255 sample_cmd (lookup_insert_eq _ _ _) Hcon1)) as R2 end.
  match type of R2 with reachable ?a ?b ?x =>
    pose proof (reachable_step a b x _ R2 (step_sid a b x 255 sample_cmd (lookup_insert_eq _ _ _))) as R3 end.
  cbn [sidCounter set_sender] in R3. rewrite Hn in R3.
  assert (chans s1 !! 1%nat = None) as Hc1 by (rewrite HC1, HC; by apply lookup_singleton_None).
  match type of R3 with reachable ?a ?b ?x =>
    pose proof (reachable_step a b x _ R3 (step_register a b x 255 sample_cmd 1 1%nat (lookup_insert_eq _ _ _) Hc1)) as R4 end.
  destruct (command_frame_ok sample_src sample_dst 1 sample_cmd Hl) as [w Hb].
  match type of R4 with reachable ?a ?b ?x =>
    pose proof (reachable_step a b x _ R4 (step_write a b x 255 sample_cmd 1 1%nat w (lookup_insert_eq _ _ _)
    (eq_trans Hmu1 Hmu) (eq_trans Hconn1 Hconn) Hb)) as R5 end.
  assert (forall x1 x2 x3 x4 x5, <[255%nat := x1]> (<[255%nat := x2]> (<[255%nat := x3]> (<[255%nat := x4]> (<[255%nat := x5]> (senders s1)))))
    !! 0%nat = Some (SWait 1 0)) as H0' by (intros; by rewrite !lookup_insert_ne).
  match type of R5 with reachable ?a ?b ?x =>
    pose proof (reachable_step a b x _ R5 (step_timeout a b x 0 1 0%nat (H0' _ _ _ _ _))) as R6 end.
  match type of R6 with reachable ?a ?b ?x =>
    pose proof (reachable_step a b x _ R6 (step_cleanup a b x 0 1 0%nat _ (lookup_insert_eq _ _ _))) as R7 end.
  eexists. split; [exact R7|]. cbn. split; [by rewrite !lookup_insert_ne, lookup_insert_eq by done|].
  intros [HT2|[(ch & HC2 & Hch)|(g & r & f & HR2 & Hh)]].
  - by rewrite lookup_delete_eq in HT2.
  - rewrite lookup_insert_eq in HC2. injection HC2 as <-. by destruct Hch as [|[? ?]].
  - rewrite HR1, HR in HR2. apply lookup_singleton_Some in HR2 as [_ <-]. done.
Qed.
