(* ===== verification/MockPLC.v ===== *)
(** * The in-process PLC ([src/mock_plc.go])

    The PLC keeps five memory areas as byte slices and answers memory-read,
    memory-write and status requests.  The handlers that touch memory hold the
    mutex [mu] for their whole body, so each is one atomic step on the state. *)
From S2P Require Import Prelude Types Protocol Framing.

(** ** State *)

(** The five backing slices.  [getArea] returns one of them, not a copy: a
    value of this type says which. *)
Inductive area_id := DM | CIO | WR | HR | AR.

#[export] Instance area_id_eq_dec : EqDecision area_id.
Proof. solve_decision. Defined.

Record MockPLC := MkMockPLC {
  dmArea : bytes; cioArea : bytes; wArea : bytes; hArea : bytes; aArea : bytes;
  plc_srcAddr : FINSAddress; plc_dstAddr : FINSAddress }.

Definition MockDMWordSize : Z := 32768.
Definition MockCIOWordSize : Z := 6144.
Definition MockWWordSize : Z := 512.
Definition MockHWordSize : Z := 512.
Definition MockAWordSize : Z := 512.

Definition NewMockPLC : MockPLC :=
  MkMockPLC (make_bytes (Z.to_nat (MockDMWordSize * 2)))
    (make_bytes (Z.to_nat (MockCIOWordSize * 2)))
    (make_bytes (Z.to_nat (MockWWordSize * 2)))
    (make_bytes (Z.to_nat (MockHWordSize * 2)))
    (make_bytes (Z.to_nat (MockAWordSize * 2)))
    (MkFINSAddress 0 1 0) (MkFINSAddress 0 2 0).

(** Contents of a slice, and the state after the slice was written through. *)
Definition contents (m : MockPLC) (a : area_id) : bytes :=
  match a with DM => dmArea m | CIO => cioArea m | WR => wArea m | HR => hArea m | AR => aArea m end.

Definition store (m : MockPLC) (a : area_id) (l : bytes) : MockPLC :=
  let '(MkMockPLC d c w h x s t) := m in
  match a with
  | DM => MkMockPLC l c w h x s t
  | CIO => MkMockPLC d l w h x s t
  | WR => MkMockPLC d c l h x s t
  | HR => MkMockPLC d c w l x s t
  | AR => MkMockPLC d c w h l s t
  end.

(** ** Operations *)

Definition getArea (areaCode : Z) : option area_id * Z :=
  if areaCode =? MemoryAreaDMWord then (Some DM, MockDMWordSize) else
  if areaCode =? MemoryAreaCIOWord then (Some CIO, MockCIOWordSize) else
  if areaCode =? MemoryAreaWRWord then (Some WR, MockWWordSize) else
  if areaCode =? MemoryAreaHRWord then (Some HR, MockHWordSize) else
  if areaCode =? MemoryAreaARWord then (Some AR, MockAWordSize) else
  (None, 0).

Definition getBitArea (areaCode : Z) : option area_id * Z :=
  if areaCode =? MemoryAreaDMBit then (Some DM, MockDMWordSize * 16) else
  if areaCode =? MemoryAreaCIOBit then (Some CIO, MockCIOWordSize * 16) else
  if areaCode =? MemoryAreaWRBit then (Some WR, MockWWordSize * 16) else
  if areaCode =? MemoryAreaHRBit then (Some HR, MockHWordSize * 16) else
  if areaCode =? MemoryAreaARBit then (Some AR, MockAWordSize * 16) else
  (None, 0).

(** The byte of the slice and the bit of that byte that hold a bit position. *)
Definition byteOffset (bitPos : Z) : Z :=
  let wordByteIdx := bitPos / 16 * 2 in
  let bitInWord := bitPos mod 16 in
  let bitFromLeft := 15 - bitInWord in
  wordByteIdx + bitFromLeft / 8.

Definition bitInByte (bitPos : Z) : Z :=
  let bitInWord := bitPos mod 16 in
  let bitFromLeft := 15 - bitInWord in
  7 - bitFromLeft mod 8.

(** The loop of the bit read, from bit position [bitPos] on. *)
Fixpoint read_bits (area : bytes) (bitPos : Z) (count : nat) : res error bytes :=
  match count with
  | O => Ok []
  | S count =>
    b ← zidx area (byteOffset bitPos);
    rest ← read_bits area (bitPos + 1) count;
    Ok ((if negb (Z.land b (Z.shiftl 1 (bitInByte bitPos)) =? 0) then 0x01 else 0x00) :: rest)
  end.

Definition readMemory (m : MockPLC) (addr : MemoryAddress) (count : Z) : res error (bytes * Z) :=
  if IsWordArea (Area addr) then
    match fst (getArea (Area addr)) with
    | None => Ok ([], END_CODE_NOT_SUPPORTED)
    | Some a =>
      let startByte := Address addr * 2 in
      let endByte := startByte + count * 2 in
      if len (contents m a) <? endByte then Ok ([], END_CODE_ADDR_RANGE_EXCEED) else
      s ← zsub (contents m a) startByte endByte;
      Ok (copy_at 0 s (make_bytes (Z.to_nat (count * 2))), END_CODE_NORMAL)
    end
  else if IsBitArea (Area addr) then
    match getBitArea (Area addr) with
    | (None, _) => Ok ([], END_CODE_NOT_SUPPORTED)
    | (Some a, maxBits) =>
      let startBit := Address addr * 16 + BitOffset addr in
      if maxBits <? startBit + count then Ok ([], END_CODE_ADDR_RANGE_EXCEED) else
      data ← read_bits (contents m a) startBit (Z.to_nat count);
      Ok (data, END_CODE_NORMAL)
    end
  else Ok ([], END_CODE_NOT_SUPPORTED).

(** One iteration of the bit write: [area[byteOffset] |= ...] or [&^= ...]. *)
Definition write_bit (area : bytes) (bitPos d : Z) : res error bytes :=
  b ← zidx area (byteOffset bitPos);
  let mask := Z.shiftl 1 (bitInByte bitPos) in
  zset area (byteOffset bitPos) (if negb (d =? 0) then Z.lor b mask else Z.ldiff b mask).

(** The loop [for i := 0; i < int(count) && i < len(data); i++]. *)
Fixpoint write_bits (area : bytes) (bitPos : Z) (count : nat) (data : bytes) : res error bytes :=
  match count, data with
  | S count, d :: data =>
    area ← write_bit area bitPos d;
    write_bits area (bitPos + 1) count data
  | _, _ => Ok area
  end.

Definition writeMemory (m : MockPLC) (addr : MemoryAddress) (count : Z) (data : bytes)
    : res error (MockPLC * Z) :=
  if IsWordArea (Area addr) then
    match fst (getArea (Area addr)) with
    | None => Ok (m, END_CODE_NOT_SUPPORTED)
    | Some a =>
      let startByte := Address addr * 2 in
      let endByte := startByte + count * 2 in
      if len (contents m a) <? endByte then Ok (m, END_CODE_ADDR_RANGE_EXCEED) else
      l ← copy_slice startByte endByte data (contents m a);
      Ok (store m a l, END_CODE_NORMAL)
    end
  else if IsBitArea (Area addr) then
    match getBitArea (Area addr) with
    | (None, _) => Ok (m, END_CODE_NOT_SUPPORTED)
    | (Some a, maxBits) =>
      let startBit := Address addr * 16 + BitOffset addr in
      if maxBits <? startBit + count then Ok (m, END_CODE_ADDR_RANGE_EXCEED) else
      l ← write_bits (contents m a) startBit (Z.to_nat count) data;
      Ok (store m a l, END_CODE_NORMAL)
    end
  else Ok (m, END_CODE_NOT_SUPPORTED).

Definition handleRequest (m : MockPLC) (req : FINSFrame) : res error (MockPLC * FINSFrame) :=
  let resp endCode data :=
    MkFINSFrame (DefaultResponseHeader (Header req)) (CommandCode req) endCode data in
  if CommandCode req =? MRC_MEMORY_AREA_READ then
    if len (Data req) <? 6 then Ok (m, resp END_CODE_CMD_TOO_SHORT []) else
    a ← sub (Data req) 0 4;
    memAddr ← DecodeMemoryAddress a;
    c ← sub (Data req) 4 6;
    r ← readMemory m memAddr (be_val c);
    Ok (m, resp (snd r) (fst r))
  else if CommandCode req =? MRC_MEMORY_AREA_WRITE then
    if len (Data req) <? 6 then Ok (m, resp END_CODE_CMD_TOO_SHORT []) else
    a ← sub (Data req) 0 4;
    memAddr ← DecodeMemoryAddress a;
    c ← sub (Data req) 4 6;
    writeData ← sub_from (Data req) 6;
    r ← writeMemory m memAddr (be_val c) writeData;
    Ok (fst r, resp (snd r) [])
  else if CommandCode req =? MRC_CPU_UNIT_STATUS_READ then
    Ok (m, resp END_CODE_NORMAL [0x00; 0x00])
  else Ok (m, resp END_CODE_UNDEFINED_CMD []).

(** The test helpers.  The guard is computed in [int], the slice bounds in the
    [uint16] of [address]. *)
Definition SetWord (m : MockPLC) (areaCode address value : Z) : res error MockPLC :=
  match fst (getArea areaCode) with
  | Some a =>
    if address * 2 + 2 <=? len (contents m a) then
      _ ← zsub (contents m a) (u16 (address * 2)) (u16 (u16 (address * 2) + 2));
      l ← copy_slice (u16 (address * 2)) (u16 (u16 (address * 2) + 2)) (be_bytes 2 value) (contents m a);
      Ok (store m a l)
    else Ok m
  | None => Ok m
  end.

Definition GetWord (m : MockPLC) (areaCode address : Z) : res error Z :=
  match fst (getArea areaCode) with
  | Some a =>
    if address * 2 + 2 <=? len (contents m a) then
      s ← zsub (contents m a) (u16 (address * 2)) (u16 (u16 (address * 2) + 2));
      Ok (be_val s)
    else Ok 0
  | None => Ok 0
  end.

(** ** The connection handler *)

(** The inner loop of [handleConnection]: the memory, the accumulator and the
    bytes written to the connection.  A loop that has not left within [fuel] rounds is
    given the result [Panic], which no regular exit has; one round more than there
    are bytes is enough ([serve_loop_drain]). *)
Fixpoint serve_loop (fuel : nat) (m : MockPLC) (accumulator : bytes)
    : res error (MockPLC * bytes * bytes) :=
  match fuel with
  | O => Panic
  | S fuel =>
    if len accumulator <? 12 then Ok (m, accumulator, [])
    else match DecodeFINSTCPFrame accumulator with
    | Ok tcpFrame =>
      let frameLen := 12 + Length tcpFrame - 4 in
      if len accumulator <? frameLen then Ok (m, accumulator, [])
      else
        r ← match DecodeFINSFrame (tcp_Data tcpFrame) with
            | Ok finsFrame =>
              r ← handleRequest m finsFrame;
              let '(m, resp) := r in
              let respData := EncodeFINSFrame (Header resp) (CommandCode resp) (EndCode resp) (Data resp) in
              Ok (m, EncodeFINSTCPFrame TCPCommandFINSFrame 0 respData)
            | _ => Ok (m, [])
            end;
        let '(m, out) := r in
        if len accumulator <=? frameLen then Ok (m, [], out)
        else
          r ← serve_loop fuel m (drop (Z.to_nat frameLen) accumulator);
          let '(m, acc, out') := r in Ok (m, acc, out ++ out')
    | _ => serve_loop fuel m (drop 1 accumulator)
    end
  end.

(** [handleConnection] over the reads of a connection. *)
Fixpoint handleConnection (m : MockPLC) (accumulator : bytes) (reads : list bytes)
    : res error (MockPLC * bytes * bytes) :=
  match reads with
  | [] => Ok (m, accumulator, [])
  | buf :: reads =>
    let accumulator := accumulator ++ buf in
    r ← serve_loop (S (length accumulator)) m accumulator;
    let '(m, accumulator, out) := r in
    r ← handleConnection m accumulator reads;
    let '(m, accumulator, out') := r in Ok (m, accumulator, out ++ out')
  end.

(** ** Well-formed states *)

(** Words of an area. *)
Definition words (a : area_id) : Z :=
  match a with
  | DM => MockDMWordSize | CIO => MockCIOWordSize | WR => MockWWordSize
  | HR => MockHWordSize | AR => MockAWordSize
  end.

Definition plc_ok (m : MockPLC) : Prop :=
  forall a, len (contents m a) = words a * 2 /\ bytes_ok (contents m a).

Lemma words_pos a : 0 < words a.
Proof. by destruct a. Qed.

Lemma NewMockPLC_ok : plc_ok NewMockPLC.
Proof.
  intros a. unfold len.
  destruct a; (split; [|apply bytes_ok_make]); cbn [contents NewMockPLC dmArea cioArea wArea hArea aArea words];
    unfold make_bytes; rewrite length_replicate, Z2Nat.id; done.
Qed.

Lemma contents_store m a l b :
  contents (store m a l) b = if decide (b = a) then l else contents m b.
Proof. by destruct m, a, b. Qed.

Lemma plc_ok_store m a l :
  plc_ok m -> len l = words a * 2 -> bytes_ok l -> plc_ok (store m a l).
Proof. intros Hm ?? b. rewrite contents_store. case_decide; [by subst|apply Hm]. Qed.

Lemma getArea_words c a n : getArea c = (Some a, n) -> n = words a.
Proof. unfold getArea. repeat case_match; by intros [= <- <-]. Qed.

Lemma getBitArea_words c a n : getBitArea c = (Some a, n) -> n = words a * 16.
Proof. unfold getBitArea. repeat case_match; by intros [= <- <-]. Qed.

(** ** Bits of a slice

    Bit [p mod 16] of the big-endian word [p / 16]. *)
Definition lbit (l : bytes) (p : Z) : bool :=
  Z.testbit (be_val (take 2 (drop (Z.to_nat (2 * (p / 16))) l))) (p mod 16).

Lemma testbit_word hi lo k :
  in_u 8 lo -> 0 <= k < 16 ->
  Z.testbit (lo + 256 * hi) k = if k <? 8 then Z.testbit lo k else Z.testbit hi (k - 8).
Proof.
  unfold in_u. intros Hlo Hk. destruct (k <? 8) eqn:E; zbool.
  - rewrite <- (Z.mod_pow2_bits_low (lo + 256 * hi) 8 k), <- (Z.mod_pow2_bits_low lo 8 k) by lia.
    f_equal. zdm.
  - replace hi with ((lo + 256 * hi) / 2 ^ 8) at 2 by zdm.
    rewrite Z.div_pow2_bits by lia. f_equal. lia.
Qed.

Lemma bitInByte_eq p : bitInByte p = p mod 8.
Proof. unfold bitInByte. zdm. Qed.

Lemma byteOffset_eq p : byteOffset p = 2 * (p / 16) + (if p mod 16 <? 8 then 1 else 0).
Proof. unfold byteOffset. case_match; zbool; zdm. Qed.

Lemma byteOffset_bounds w p : 0 <= p < 16 * w -> 0 <= byteOffset p < 2 * w.
Proof. rewrite byteOffset_eq. case_match; zbool; zdm. Qed.

Lemma lbit_byte l w p :
  bytes_ok l -> len l = w * 2 -> 0 <= p < 16 * w ->
  exists b, l !! Z.to_nat (byteOffset p) = Some b /\ lbit l p = Z.testbit b (p mod 8).
Proof.
  intros Hl Hw Hp. set (n := Z.to_nat (2 * (p / 16))).
  assert (n + 1 < length l)%nat as Hn by (unfold len, n in *; zdm).
  destruct (lookup_lt_is_Some_2 l n) as [x Hx]; [lia|].
  destruct (lookup_lt_is_Some_2 l (n + 1)) as [y Hy]; [lia|].
  assert (take 2 (drop n l) = [x; y]) as Ht.
  { apply list_eq. intros [|[|i]]; cbn.
    - rewrite lookup_take_lt, lookup_drop, Nat.add_0_r by lia. done.
    - rewrite lookup_take_lt, lookup_drop by lia. done.
    - rewrite lookup_take_ge by lia. done. }
  pose proof (bytes_ok_lookup _ _ _ Hl Hy).
  unfold lbit. fold n. rewrite Ht. unfold be_val. cbn [rev app le_val].
  rewrite Z.mul_0_r, Z.add_0_r, testbit_word by (done || zdm). rewrite byteOffset_eq.
  case_match; zbool; eexists; (split; [|f_equal; zdm]).
  - rewrite <- Hy. f_equal. subst n. zdm.
  - rewrite <- Hx. f_equal. subst n. zdm.
Qed.

Lemma lbit_lookup l w p b :
  bytes_ok l -> len l = w * 2 -> 0 <= p < 16 * w ->
  l !! Z.to_nat (byteOffset p) = Some b -> lbit l p = Z.testbit b (p mod 8).
Proof. intros. destruct (lbit_byte l w p) as (b' & ? & ->); [done..|]. congruence. Qed.

Lemma land_bit b k : 0 <= k -> (Z.land b (Z.shiftl 1 k) =? 0) = negb (Z.testbit b k).
Proof.
  intros Hk. destruct (Z.testbit b k) eqn:E; cbn.
  - apply Z.eqb_neq. intros H. apply (f_equal (fun z => Z.testbit z k)) in H.
    rewrite Z.land_spec, Z.shiftl_spec, Z.sub_diag, Z.bits_0, E in H by lia. done.
  - apply Z.eqb_eq, Z.bits_inj'. intros n Hn. rewrite Z.land_spec, Z.bits_0.
    destruct (decide (n = k)) as [->|]; [by rewrite E|].
    rewrite Z.shiftl_1_l, Z.pow2_bits_false, andb_false_r by done. done.
Qed.

(** ** The bit loops *)

Lemma read_bits_eq l w p n :
  bytes_ok l -> len l = w * 2 -> 0 <= p -> p + Z.of_nat n <= 16 * w ->
  read_bits l p n = Ok (map (fun i => if lbit l i then 1 else 0) (seqZ p (Z.of_nat n))).
Proof.
  intros Hl Hw. revert p. induction n as [|n IH]; intros p Hp Hn; [done|].
  rewrite seqZ_cons by lia. cbn [read_bits map].
  destruct (lbit_byte l w p) as (b & Hb & ->); [done..|lia|].
  erewrite zidx_ok by (eauto; pose proof (byteOffset_bounds w p); lia). cbn.
  replace (Z.pred (Z.of_nat (S n))) with (Z.of_nat n) by lia. rewrite IH by lia.
  cbn. rewrite land_bit, bitInByte_eq by (rewrite bitInByte_eq; zdm). by rewrite negb_involutive.
Qed.

(** The bit [k] of a byte after [|=] or [&^=]. *)
Definition set_bit (b k : Z) (v : bool) : Z :=
  if v then Z.lor b (Z.shiftl 1 k) else Z.ldiff b (Z.shiftl 1 k).

Lemma set_bit_testbit b k v i :
  0 <= k -> 0 <= i -> Z.testbit (set_bit b k v) i = if i =? k then v else Z.testbit b i.
Proof.
  intros Hk Hi. unfold set_bit.
  destruct (Z.eqb_spec i k) as [->|Hik], v;
    rewrite ?Z.lor_spec, ?Z.ldiff_spec, Z.shiftl_1_l, ?Z.pow2_bits_true, ?Z.pow2_bits_false by lia;
    by destruct (Z.testbit b _).
Qed.

Lemma set_bit_ok b k v : in_u 8 b -> 0 <= k < 8 -> in_u 8 (set_bit b k v).
Proof.
  intros Hb Hk. assert (b = b mod 2 ^ 8) as Hbm by (symmetry; by apply Z.mod_small).
  enough (set_bit b k v = set_bit b k v mod 2 ^ 8) as -> by (apply Z.mod_pos_bound; lia).
  apply Z.bits_inj'. intros i Hi. rewrite Z.testbit_mod_pow2, !set_bit_testbit by lia.
  destruct (Z.eqb_spec i k); [by rewrite (proj2 (Z.ltb_lt i 8)) by lia|].
  rewrite Hbm, Z.testbit_mod_pow2 by lia. by destruct (i <? 8).
Qed.

Lemma same_bit_byte p q :
  0 <= p -> 0 <= q -> Z.to_nat (byteOffset p) = Z.to_nat (byteOffset q) -> p mod 8 = q mod 8 -> p = q.
Proof.
  intros Hp Hq. rewrite !byteOffset_eq. do 2 case_match; zbool; zdm.
Qed.

Lemma write_bit_spec l w p d :
  bytes_ok l -> len l = w * 2 -> 0 <= p < 16 * w ->
  exists l', write_bit l p d = Ok l' /\ len l' = w * 2 /\ bytes_ok l' /\
    forall q, 0 <= q < 16 * w -> lbit l' q = if q =? p then negb (d =? 0) else lbit l q.
Proof.
  intros Hl Hw Hp. pose proof (byteOffset_bounds w p Hp) as Hbo.
  destruct (lbit_byte l w p) as (b & Hb & _); [done..|].
  pose proof (bytes_ok_lookup _ _ _ Hl Hb) as Hb8.
  set (b' := set_bit b (p mod 8) (negb (d =? 0))).
  exists (<[Z.to_nat (byteOffset p) := b']> l).
  assert (bytes_ok (<[Z.to_nat (byteOffset p) := b']> l)) as Hok.
  { apply Forall_insert; [done|]. apply set_bit_ok; [done|zdm]. }
  assert (len (<[Z.to_nat (byteOffset p) := b']> l) = w * 2) as Hlen.
  { unfold len. by rewrite length_insert. }
  split_and!; [|done..|].
  - unfold write_bit. rewrite (zidx_ok _ _ b) by (done || lia). cbn. unfold zset.
    rewrite (proj2 (Z.leb_le 0 _)), (proj2 (Z.ltb_lt _ (len l))) by lia. cbn.
    rewrite bitInByte_eq. unfold b', set_bit. done.
  - intros q Hq. destruct (lbit_byte l w q) as (c & Hc & Hcq); [done..|].
    destruct (decide (Z.to_nat (byteOffset p) = Z.to_nat (byteOffset q))) as [E|E].
    + rewrite <- E in Hc. assert (c = b) as -> by congruence.
      rewrite (lbit_lookup _ w q b'), Hcq; [|done..|].
      2:{ rewrite <- E, list_lookup_insert_eq; [done|]. unfold len in *; lia. }
      unfold b'. rewrite set_bit_testbit by zdm.
      destruct (Z.eqb_spec q p) as [->|Hqp]; [by rewrite Z.eqb_refl|].
      rewrite (proj2 (Z.eqb_neq _ _)); [done|]. intros ?. apply Hqp, same_bit_byte; lia.
    + destruct (Z.eqb_spec q p) as [->|_]; [done|]. rewrite Hcq. apply (lbit_lookup _ w); [done..|].
      by rewrite list_lookup_insert_ne.
Qed.

Lemma write_bits_spec w n l p data :
  bytes_ok l -> len l = w * 2 -> 0 <= p -> p + Z.of_nat n <= 16 * w ->
  exists l', write_bits l p n data = Ok l' /\ len l' = w * 2 /\ bytes_ok l' /\
    forall q, 0 <= q < 16 * w ->
      lbit l' q = if (p <=? q) && (q <? p + Z.min (Z.of_nat n) (len data))
                  then negb (default 0 (data !! Z.to_nat (q - p)) =? 0) else lbit l q.
Proof.
  revert l p data. induction n as [|n IH]; intros l p data Hl Hw Hp Hn.
  { exists l. split_and!; [done..|]. intros q Hq. pose proof (len_nonneg data).
    destruct (_ && _) eqn:E; [zbool; lia|done]. }
  destruct data as [|d data].
  { exists l. split_and!; [done..|]. intros q Hq. change (len (@nil Z)) with 0.
    destruct (_ && _) eqn:E; [zbool; lia|done]. }
  cbn [write_bits]. destruct (write_bit_spec l w p d) as (l1 & -> & Hw1 & Hl1 & Hb1); [done..|lia|].
  cbn. destruct (IH l1 (p + 1) data) as (l2 & -> & Hw2 & Hl2 & Hb2); [done..|lia|lia|].
  exists l2. split_and!; [done..|]. intros q Hq. rewrite Hb2, Hb1 by done. rewrite len_cons.
  pose proof (len_nonneg data).
  destruct (Z.eqb_spec q p) as [->|Hqp].
  - rewrite (proj2 (Z.leb_gt (p + 1) p)) by lia. cbn [andb].
    rewrite Z.leb_refl, (proj2 (Z.ltb_lt p _)), Z.sub_diag by lia. done.
  - destruct (p + 1 <=? q) eqn:E; zbool.
    + rewrite (proj2 (Z.leb_le p q)) by lia. cbn.
      replace (Z.to_nat (q - p)) with (S (Z.to_nat (q - (p + 1)))) by lia. cbn.
      replace (p + 1 + Z.min (Z.of_nat n) (len data)) with (p + Z.min (Z.of_nat (S n)) (1 + len data)) by lia.
      done.
    + rewrite (proj2 (Z.leb_gt p q)) by lia. done.
Qed.

(** ** Word writes *)

(** Bit [q] of the memory in request data that starts at word [a]: the word
    [q / 16 - a] of the data, high byte first. *)
Definition data_bit (data : bytes) (a q : Z) : option bool :=
  let w := q / 16 - a in
  if w <? 0 then None
  else (fun b => Z.testbit b (q mod 8)) <$> data !! Z.to_nat (2 * w + (if q mod 16 <? 8 then 1 else 0)).

Lemma word_write_bits l w a n data q :
  bytes_ok l -> bytes_ok data -> len l = w * 2 -> 0 <= a -> 0 <= n -> a + n <= w -> 0 <= q < 16 * w ->
  lbit (copy_at (Z.to_nat (a * 2)) (take (Z.to_nat (n * 2)) data) l) q =
    default (lbit l q) (data_bit (take (Z.to_nat (n * 2)) data) a q).
Proof.
  intros Hl Hd Hw Ha Hn Han Hq. set (src := take _ data).
  assert (Z.of_nat (length src) <= n * 2) as Hsrc by (subst src; rewrite length_take; lia).
  pose proof (byteOffset_bounds w q Hq) as Hbo.
  destruct (lbit_byte l w q) as (b & Hb & Hbq); [done..|].
  assert (bytes_ok (copy_at (Z.to_nat (a * 2)) src l)) as Hok by (apply bytes_ok_copy_at; [by apply bytes_ok_take|done]).
  assert (len (copy_at (Z.to_nat (a * 2)) src l) = w * 2) as Hlen by (unfold len in *; by rewrite length_copy_at).
  pose proof (lookup_copy_at (Z.to_nat (a * 2)) src l (Z.to_nat (byteOffset q))) as Hlk.
  rewrite byteOffset_eq in *. set (h := if q mod 16 <? 8 then 1 else 0) in *.
  assert (0 <= h <= 1) as Hh by (subst h; case_match; lia).
  unfold data_bit. cbv zeta. fold h. destruct (_ <? 0) eqn:E; zbool.
  - cbn. rewrite Hbq. eapply lbit_lookup; [done..|]. rewrite byteOffset_eq; fold h. rewrite Hlk by (unfold len in *; lia).
    rewrite decide_False by lia. done.
  - replace (Z.to_nat (2 * (q / 16 - a) + h)) with (Z.to_nat (2 * (q / 16) + h) - Z.to_nat (a * 2))%nat by lia.
    destruct (src !! _) as [c|] eqn:Hc; cbn.
    + eapply lbit_lookup; [done..|]. rewrite byteOffset_eq; fold h. rewrite Hlk by (unfold len in *; lia).
      rewrite decide_True; [done|]. apply lookup_lt_Some in Hc. lia.
    + rewrite Hbq. eapply lbit_lookup; [done..|]. rewrite byteOffset_eq; fold h. rewrite Hlk by (unfold len in *; lia).
      rewrite decide_False; [done|]. apply lookup_ge_None in Hc. lia.
Qed.

(** ** Abstract memory

    What a client may assume of the PLC: five areas of bits, sixteen to a word.
    [mem] is compared on the bits that exist. *)
Definition mem : Type := area_id -> Z -> bool.

#[export] Instance mem_equiv : Equiv mem := fun s t =>
  forall a p, 0 <= p < 16 * words a -> s a p = t a p.

#[export] Instance mem_equivalence : Equivalence (≡@{mem}).
Proof.
  split.
  - intros s a p _. done.
  - intros s t H a p Hp. symmetry. by apply H.
  - intros s t u H1 H2 a p Hp. rewrite H1 by done. by apply H2.
Qed.

Definition abs (m : MockPLC) : mem := fun a p => lbit (contents m a) p.

(** Word codes and bit codes of the areas the PLC has. *)
Inductive access := Words (a : area_id) | Bits (a : area_id).

Definition spec_area (code : Z) : option access :=
  if code =? 0x82 then Some (Words DM) else if code =? 0xb0 then Some (Words CIO) else
  if code =? 0xb1 then Some (Words WR) else if code =? 0xb2 then Some (Words HR) else
  if code =? 0xb3 then Some (Words AR) else
  if code =? 0x02 then Some (Bits DM) else if code =? 0x30 then Some (Bits CIO) else
  if code =? 0x32 then Some (Bits WR) else if code =? 0x33 then Some (Bits HR) else
  if code =? 0x31 then Some (Bits AR) else None.

Definition b2z (b : bool) : Z := if b then 1 else 0.

(** Byte [j] of an area: bits 8-15 of word [j / 2] for an even [j], bits 0-7
    for an odd one. *)
Definition byte_of (f : Z -> bool) (j : Z) : Z :=
  let base := 16 * (j / 2) + (if Z.even j then 8 else 0) in
  foldr (fun k acc => b2z (f (base + k)) + 2 * acc) 0 (seqZ 0 8).

Definition spec_read (s : mem) (addr : MemoryAddress) (count : Z) : bytes * Z :=
  match spec_area (Area addr) with
  | Some (Words a) =>
    if words a <? Address addr + count then ([], END_CODE_ADDR_RANGE_EXCEED)
    else (map (byte_of (s a)) (seqZ (2 * Address addr) (2 * count)), END_CODE_NORMAL)
  | Some (Bits a) =>
    let start := Address addr * 16 + BitOffset addr in
    if 16 * words a <? start + count then ([], END_CODE_ADDR_RANGE_EXCEED)
    else (map (fun p => b2z (s a p)) (seqZ start count), END_CODE_NORMAL)
  | None => ([], END_CODE_NOT_SUPPORTED)
  end.

Definition spec_write (s : mem) (addr : MemoryAddress) (count : Z) (data : bytes) : mem * Z :=
  match spec_area (Area addr) with
  | Some (Words a) =>
    if words a <? Address addr + count then (s, END_CODE_ADDR_RANGE_EXCEED)
    else (fun b p => if decide (b = a)
                     then default (s b p) (data_bit (take (Z.to_nat (count * 2)) data) (Address addr) p)
                     else s b p, END_CODE_NORMAL)
  | Some (Bits a) =>
    let start := Address addr * 16 + BitOffset addr in
    if 16 * words a <? start + count then (s, END_CODE_ADDR_RANGE_EXCEED)
    else (fun b p => if decide (b = a)
                     then if (start <=? p) && (p <? start + Z.min count (len data))
                          then negb (default 0 (data !! Z.to_nat (p - start)) =? 0) else s b p
                     else s b p, END_CODE_NORMAL)
  | None => (s, END_CODE_NOT_SUPPORTED)
  end.

(** One request. *)
Definition spec_handle (s : mem) (req : FINSFrame) : mem * FINSFrame :=
  let resp endCode data :=
    MkFINSFrame (DefaultResponseHeader (Header req)) (CommandCode req) endCode data in
  let command := CommandCode req in
  if (command =? MRC_MEMORY_AREA_READ) || (command =? MRC_MEMORY_AREA_WRITE) then
    match Data req with
    | a :: w1 :: w0 :: b :: c1 :: c0 :: payload =>
      let addr := MkMemoryAddress a (256 * w1 + w0) b in
      let count := 256 * c1 + c0 in
      if command =? MRC_MEMORY_AREA_READ
      then let '(data, code) := spec_read s addr count in (s, resp code data)
      else let '(s', code) := spec_write s addr count payload in (s', resp code [])
    | _ => (s, resp END_CODE_CMD_TOO_SHORT [])
    end
  else if command =? MRC_CPU_UNIT_STATUS_READ then (s, resp END_CODE_NORMAL [0; 0])
  else (s, resp END_CODE_UNDEFINED_CMD []).

Fixpoint spec_run (s : mem) (reqs : list FINSFrame) : mem * list FINSFrame :=
  match reqs with
  | [] => (s, [])
  | req :: reqs =>
    let '(s, resp) := spec_handle s req in
    let '(s, resps) := spec_run s reqs in (s, resp :: resps)
  end.

(** ** The memory operations refine the abstract ones *)

Lemma pack_testbit (g : Z -> bool) n i t :
  0 <= t -> Z.testbit (foldr (fun k acc => b2z (g k) + 2 * acc) 0 (seqZ i (Z.of_nat n))) t =
            (t <? Z.of_nat n) && g (i + t).
Proof.
  revert i t. induction n as [|n IH]; intros i t Ht.
  { change (seqZ i (Z.of_nat 0)) with (@nil Z). cbn [foldr]. rewrite Z.bits_0.
    by rewrite (proj2 (Z.ltb_ge t (Z.of_nat 0))) by lia. }
  rewrite seqZ_cons by lia. cbn [foldr].
  replace (Z.pred (Z.of_nat (S n))) with (Z.of_nat n) by lia.
  rewrite Z.add_comm. change (b2z (g i)) with (Z.b2z (g i)).
  destruct (decide (t = 0)) as [->|Ht0].
  - rewrite Z.testbit_0_r, Z.add_0_r. by rewrite (proj2 (Z.ltb_lt _ _)) by lia.
  - replace t with (Z.succ (t - 1)) at 1 by lia.
    rewrite Z.testbit_succ_r, IH by lia. f_equal; [|f_equal; lia].
    destruct (t <? Z.of_nat (S n)) eqn:E, (t - 1 <? Z.of_nat n) eqn:F; zbool; auto; lia.
Qed.

Lemma byte_of_lbit l w j b :
  bytes_ok l -> len l = w * 2 -> 0 <= j -> l !! Z.to_nat j = Some b -> byte_of (lbit l) j = b.
Proof.
  intros Hl Hw Hj Hb. pose proof (bytes_ok_lookup _ _ _ Hl Hb) as Hb8.
  assert (j < w * 2) as Hjw by (apply lookup_lt_Some in Hb; unfold len in Hw; lia).
  unfold byte_of. set (base := 16 * (j / 2) + _).
  assert (forall t, 0 <= t < 8 -> 0 <= base + t < 16 * w /\ byteOffset (base + t) = j /\ (base + t) mod 8 = t) as Hpos.
  { intros t Ht. subst base. rewrite byteOffset_eq.
    destruct (Z.even j) eqn:Ev; [apply Z.even_spec in Ev as [h ->]|].
    - split_and!; [zdm..|case_match; zbool; zdm|zdm].
    - rewrite <- Z.negb_odd in Ev. apply negb_false_iff, Z.odd_spec in Ev as [h ->].
      split_and!; [zdm..|case_match; zbool; zdm|zdm]. }
  apply Z.bits_inj'. intros t Ht.
  etrans; [apply (pack_testbit (fun k => lbit l (base + k)) 8 0 t); done|]. rewrite Z.add_0_l.
  destruct (t <? Z.of_nat 8) eqn:E; zbool.
  - destruct (Hpos t) as (Hp & Hbo & Hm); [lia|]. cbn.
    rewrite (lbit_lookup l w (base + t) b), Hm by (done || by rewrite Hbo). done.
  - cbn. rewrite <- (Z.mod_small b (2 ^ 8)) by done.
    rewrite Z.mod_pow2_bits_high; [done|lia].
Qed.

Lemma bytes_of_area l w i n :
  bytes_ok l -> len l = w * 2 -> 0 <= i -> 0 <= n -> i + n <= w * 2 ->
  map (byte_of (lbit l)) (seqZ i n) = take (Z.to_nat n) (drop (Z.to_nat i) l).
Proof.
  intros Hl Hw Hi Hn Hin. apply list_eq. intros k.
  destruct (decide (Z.of_nat k < n)) as [Hk|Hk].
  - rewrite list_lookup_fmap, lookup_seqZ_lt by lia. cbn.
    rewrite lookup_take_lt, lookup_drop by lia.
    destruct (lookup_lt_is_Some_2 l (Z.to_nat i + k)) as [b Hb]; [unfold len in Hw; lia|].
    rewrite Hb. f_equal. eapply byte_of_lbit; [done..|lia|]. rewrite <- Hb. f_equal. lia.
  - rewrite list_lookup_fmap, lookup_seqZ_ge, lookup_take_ge by lia. done.
Qed.

(** The three ways an area code is dispatched. *)
Lemma area_dispatch c :
  (exists a, IsWordArea c = true /\ fst (getArea c) = Some a /\ spec_area c = Some (Words a)) \/
  (exists a, IsWordArea c = false /\ IsBitArea c = true /\
     getBitArea c = (Some a, words a * 16) /\ spec_area c = Some (Bits a)) \/
  (fst (getArea c) = None /\ fst (getBitArea c) = None /\ spec_area c = None).
Proof.
  unfold getArea, getBitArea, spec_area.
  unfold MemoryAreaDMWord, MemoryAreaCIOWord, MemoryAreaWRWord, MemoryAreaHRWord, MemoryAreaARWord.
  unfold MemoryAreaDMBit, MemoryAreaCIOBit, MemoryAreaWRBit, MemoryAreaHRBit, MemoryAreaARBit.
  repeat match goal with |- context [c =? ?k] => destruct (Z.eqb_spec c k) as [->|_];
    [first [left; eexists; by split_and!
           |right; left; first [exists DM; by split_and!|exists CIO; by split_and!|exists WR; by split_and!
                               |exists HR; by split_and!|exists AR; by split_and!]]|] end.
  right. right. by split_and!.
Qed.

Lemma readMemory_words m addr count a :
  plc_ok m -> IsWordArea (Area addr) = true -> fst (getArea (Area addr)) = Some a ->
  0 <= Address addr -> 0 <= count -> Address addr + count <= words a ->
  readMemory m addr count =
    Ok (take (Z.to_nat (2 * count)) (drop (Z.to_nat (2 * Address addr)) (contents m a)), END_CODE_NORMAL).
Proof.
  intros Hm Hw Ha Had Hc Hr. destruct (Hm a) as [Hlen _].
  unfold readMemory. rewrite Hw, Ha, (proj2 (Z.ltb_ge _ _)), zsub_ok by lia. cbn.
  do 2 f_equal. replace (Address addr * 2 + count * 2 - Address addr * 2) with (count * 2) by lia.
  rewrite (Z.mul_comm count), (Z.mul_comm (Address addr)).
  set (s := take _ _). replace (Z.to_nat (2 * count)) with (length s); [by apply (copy_at_tail [] s 0)|].
  subst s. rewrite length_take, length_drop. unfold len in Hlen. lia.
Qed.

Lemma readMemory_refines m addr count :
  plc_ok m -> MemoryAddress_ok addr -> in_u 16 count ->
  readMemory m addr count = Ok (spec_read (abs m) addr count).
Proof.
  intros Hm (_ & [Ha _] & [Hb _]) [Hc _]. unfold spec_read.
  destruct (area_dispatch (Area addr)) as [(a & Hw & Hg & ->)|[(a & Hw & Hbit & Hg & ->)|(Hg & Hg' & ->)]].
  - destruct (Hm a) as [Hlen Hok]. destruct (words a <? _) eqn:E; zbool.
    + unfold readMemory. rewrite Hw, Hg, (proj2 (Z.ltb_lt _ _)) by lia. done.
    + rewrite (readMemory_words m addr count a) by done. do 2 f_equal. symmetry.
      apply (bytes_of_area _ (words a)); try done; lia.
  - destruct (Hm a) as [Hlen Hok]. unfold readMemory. rewrite Hw, Hbit, Hg.
    rewrite (Z.mul_comm (words a)). case_match; zbool; [done|].
    rewrite (read_bits_eq _ (words a)) by (done || lia). cbn. by rewrite Z2Nat.id.
  - unfold readMemory. rewrite Hg. destruct (getBitArea _) as [[?|] ?]; [done|]. by repeat case_match.
Qed.

Lemma writeMemory_refines m addr count data :
  plc_ok m -> MemoryAddress_ok addr -> in_u 16 count -> bytes_ok data ->
  exists m' code, writeMemory m addr count data = Ok (m', code) /\ plc_ok m' /\
    snd (spec_write (abs m) addr count data) = code /\ fst (spec_write (abs m) addr count data) ≡ abs m'.
Proof.
  intros Hm (_ & [Ha _] & [Hb _]) [Hc _] Hd. unfold spec_write.
  destruct (area_dispatch (Area addr)) as [(a & Hw & Hg & ->)|[(a & Hw & Hbit & Hg & ->)|(Hg & Hg' & ->)]].
  - destruct (Hm a) as [Hlen Hok]. unfold writeMemory. rewrite Hw, Hg.
    destruct (words a <? _) eqn:E; zbool.
    + rewrite (proj2 (Z.ltb_lt _ _)) by lia. by eauto 6.
    + rewrite (proj2 (Z.ltb_ge _ _)), copy_slice_ok by lia. cbn.
      replace (Address addr * 2 + count * 2 - Address addr * 2) with (count * 2) by lia.
      do 2 eexists. split_and!; [done| |done|].
      * apply plc_ok_store; [done|unfold len in *; by rewrite length_copy_at|auto with fins].
      * intros b p Hp. unfold abs. rewrite contents_store. case_decide; [subst b|done].
        symmetry. apply (word_write_bits _ (words a)); done || lia.
  - destruct (Hm a) as [Hlen Hok]. unfold writeMemory. rewrite Hw, Hbit, Hg.
    rewrite (Z.mul_comm (words a)). case_match; zbool; [by eauto 6|].
    destruct (write_bits_spec (words a) (Z.to_nat count) (contents m a) (Address addr * 16 + BitOffset addr) data)
      as (l & -> & Hl & Hlok & Hbits); [done|done|lia|lia|].
    cbn. do 2 eexists. split_and!; [done|by apply plc_ok_store|done|].
    intros b p Hp. unfold abs. rewrite contents_store. case_decide; [subst b|done].
    rewrite Hbits, Z2Nat.id by done. done.
  - exists m, END_CODE_NOT_SUPPORTED. split_and!; [|done..]. unfold writeMemory. rewrite Hg.
    destruct (getBitArea _) as [[?|] ?]; [done|]. by repeat case_match.
Qed.

(** ** Requests *)

Lemma byte_of_ext f g j :
  (forall p, 16 * (j / 2) <= p < 16 * (j / 2) + 16 -> f p = g p) -> byte_of f j = byte_of g j.
Proof.
  intros Hfg. unfold byte_of. set (base := 16 * (j / 2) + _).
  assert (forall k, k ∈ seqZ 0 8 -> f (base + k) = g (base + k)) as Hk.
  { intros k Hk%elem_of_seqZ. apply Hfg. subst base. destruct (Z.even j); lia. }
  revert Hk. generalize (seqZ 0 8). intros l Hk. induction l as [|k ks IH]; [done|]. cbn [foldr].
  rewrite Hk, IH; [done|intros; apply Hk; by right|by left].
Qed.

Lemma byte_of_in_u f j : in_u 8 (byte_of f j).
Proof.
  assert (forall b, 0 <= b2z b <= 1) as Hb by (by intros []).
  unfold byte_of, in_u. set (g := fun k => b2z (f (16 * (j / 2) + (if Z.even j then 8 else 0) + k))).
  change (foldr _ 0 (seqZ 0 8)) with
    (g 0 + 2 * (g 1 + 2 * (g 2 + 2 * (g 3 + 2 * (g 4 + 2 * (g 5 + 2 * (g 6 + 2 * (g 7 + 2 * 0)))))))).
  assert (forall k, 0 <= g k <= 1) as Hg by (intros k; apply Hb).
  pose proof (Hg 0); pose proof (Hg 1); pose proof (Hg 2); pose proof (Hg 3).
  pose proof (Hg 4); pose proof (Hg 5); pose proof (Hg 6); pose proof (Hg 7). lia.
Qed.

Lemma spec_read_ok s addr count :
  in_u 16 count ->
  bytes_ok (fst (spec_read s addr count)) /\ len (fst (spec_read s addr count)) <= 2 * count /\
  in_u 16 (snd (spec_read s addr count)).
Proof.
  intros [Hc _]. unfold spec_read, bytes_ok, len. assert (bytes_ok []) by constructor.
  repeat case_match; cbn [fst snd]; rewrite ?length_map, ?length_seqZ; split_and!;
    try (done || cbn; lia); try (apply Forall_fmap, Forall_true; intros; cbn).
  - apply byte_of_in_u.
  - by destruct (s _ _).
Qed.

(** The bits an access touches: area, first bit, one past the last bit. *)
Definition footprint (addr : MemoryAddress) (count : Z) : option (area_id * Z * Z) :=
  match spec_area (Area addr) with
  | Some (Words a) => Some (a, 16 * Address addr, 16 * (Address addr + count))
  | Some (Bits a) =>
    let start := Address addr * 16 + BitOffset addr in Some (a, start, start + count)
  | None => None
  end.

(** A read depends on the bits of its footprint only. *)
Lemma spec_read_ext s t addr count :
  MemoryAddress_ok addr -> in_u 16 count ->
  (forall a lo hi, footprint addr count = Some (a, lo, hi) -> hi <= 16 * words a ->
     forall p, lo <= p < hi -> s a p = t a p) ->
  spec_read s addr count = spec_read t addr count.
Proof.
  intros (_ & [Ha _] & [Hb _]) [Hc _] Hst. unfold spec_read. unfold footprint in Hst.
  destruct (spec_area _) as [[a|a]|]; [..|done]; specialize (Hst _ _ _ eq_refl);
    case_match; zbool; try done; f_equal; apply map_ext_in; intros j Hj%list_elem_of_In%elem_of_seqZ.
  - apply byte_of_ext. intros p Hp. apply Hst; zdm.
  - f_equal. apply Hst; lia.
Qed.

Lemma spec_read_proper s t addr count :
  MemoryAddress_ok addr -> in_u 16 count -> s ≡ t -> spec_read s addr count = spec_read t addr count.
Proof.
  intros Haddr Hc Hst. apply spec_read_ext; [done..|]. intros a lo hi Hf Hhi p Hp. apply Hst.
  enough (0 <= lo) by lia. destruct Haddr as (_ & [Ha _] & [Hb _]).
  unfold footprint in Hf. repeat case_match; simplify_eq; lia.
Qed.

(** A write changes the bits of its footprint only. *)
Lemma spec_write_outside s addr count data a p :
  (forall lo hi, footprint addr count = Some (a, lo, hi) -> p < lo \/ hi <= p) ->
  fst (spec_write s addr count data) a p = s a p.
Proof.
  unfold spec_write, footprint. intros Hf. destruct (spec_area _) as [[b|b]|]; [..|done];
    (case_match; [done|]); cbn [fst]; (case_decide; [subst b|done]); specialize (Hf _ _ eq_refl).
  - unfold data_bit. case_match; zbool; [done|]. rewrite lookup_ge_None_2; [done|].
    rewrite length_take. case_match; zbool; zdm.
  - case_match; zbool; [lia|done].
Qed.

Lemma spec_write_proper s t addr count data :
  s ≡ t -> fst (spec_write s addr count data) ≡ fst (spec_write t addr count data) /\
           snd (spec_write s addr count data) = snd (spec_write t addr count data).
Proof.
  intros Hst. unfold spec_write. destruct (spec_area _) as [[a|a]|]; [..|done]; (case_match; [done|]);
    (split; [|done]); intros b p Hp; cbn [fst]; case_decide; auto.
  - by rewrite Hst.
  - case_match; auto.
Qed.

(** The request data: six bytes of address and count, then the payload. *)
Lemma request_data (d : bytes) :
  bytes_ok d -> 6 <= len d ->
  exists a w1 w0 b c1 c0 payload, d = a :: w1 :: w0 :: b :: c1 :: c0 :: payload /\
    MemoryAddress_ok (MkMemoryAddress a (256 * w1 + w0) b) /\ in_u 16 (256 * c1 + c0) /\ bytes_ok payload.
Proof.
  unfold len. intros Hd H. do 6 (destruct d as [|? d]; [cbn in H; lia|]).
  repeat (inversion Hd as [|? ? ? Hd']; subst; clear Hd; rename Hd' into Hd).
  do 7 eexists. split; [done|]. unfold MemoryAddress_ok, in_u in *. cbn [Area Address BitOffset].
  split_and!; try done; lia.
Qed.

Lemma short_request {R} (d : bytes) (f : Z -> Z -> Z -> Z -> Z -> Z -> bytes -> R) z :
  len d < 6 ->
  match d with a :: w1 :: w0 :: b :: c1 :: c0 :: payload => f a w1 w0 b c1 c0 payload | _ => z end = z.
Proof. unfold len. intros H. do 6 (destruct d as [|? d]; [done|]). cbn in H. lia. Qed.

Lemma sub_from_6 {E} a b c d e f (payload : bytes) :
  sub_from (E := E) (a :: b :: c :: d :: e :: f :: payload) 6 = Ok payload.
Proof. unfold sub_from. rewrite sub_ok by (cbn; lia). f_equal. cbn [drop]. apply take_ge. cbn. lia. Qed.

Lemma spec_write_code s addr count data : in_u 16 (snd (spec_write s addr count data)).
Proof. unfold spec_write. by repeat case_match. Qed.

Lemma be_val_2 x y : be_val [x; y] = 256 * x + y.
Proof. unfold be_val. cbn [rev app le_val]. lia. Qed.

Lemma DecodeMemoryAddress_4 a w1 w0 b :
  DecodeMemoryAddress [a; w1; w0; b] = Ok (MkMemoryAddress a (256 * w1 + w0) b).
Proof. unfold DecodeMemoryAddress. cbn -[be_val]. by rewrite be_val_2. Qed.

Lemma response_header_ok h : FINSHeader_ok h -> FINSHeader_ok (DefaultResponseHeader h).
Proof. intros (?&?&?&?&?&?). unfold FINSHeader_ok, DefaultResponseHeader. by split_and!. Qed.

Lemma handleRequest_refines m req :
  plc_ok m -> FINSFrame_ok req ->
  exists m' resp, handleRequest m req = Ok (m', resp) /\ plc_ok m' /\ sendable resp /\
    snd (spec_handle (abs m) req) = resp /\ fst (spec_handle (abs m) req) ≡ abs m'.
Proof.
  intros Hm (Hh & Hcc & _ & Hd).
  assert (forall code data, in_u 16 code -> bytes_ok data -> len data <= 2 * 65535 ->
    sendable (MkFINSFrame (DefaultResponseHeader (Header req)) (CommandCode req) code data)) as Hresp.
  { intros code data ???. split; [|cbn; lia]. split_and!; try done. by apply response_header_ok. }
  assert (bytes_ok []) as Hnil by constructor.
  unfold handleRequest, spec_handle.
  destruct (CommandCode req =? MRC_MEMORY_AREA_READ) eqn:Hread; [|destruct (CommandCode req =? MRC_MEMORY_AREA_WRITE) eqn:Hwrite];
    cbn [orb].
  - destruct (len (Data req) <? 6) eqn:E; zbool.
    + rewrite short_request by done. do 2 eexists. split_and!; try done. by apply Hresp.
    + destruct (request_data (Data req)) as (a & w1 & w0 & b & c1 & c0 & pl & Hde & Ha & Hc & Hpl); [done..|].
      rewrite Hde, !sub_ok by (cbn; lia). cbn [mbind res_bind take drop Nat.sub skipn firstn].
      rewrite DecodeMemoryAddress_4, be_val_2. cbn [mbind res_bind].
      rewrite readMemory_refines by done. cbn [mbind res_bind].
      destruct (spec_read_ok (abs m) (MkMemoryAddress a (256 * w1 + w0) b) _ Hc) as (H1 & H2 & H3).
      destruct (spec_read _ _ _) as [data code]. cbn [fst snd] in *. do 2 eexists. split_and!; try done.
      apply Hresp; [done..|]. unfold in_u in Hc. lia.
  - destruct (len (Data req) <? 6) eqn:E; zbool.
    + rewrite short_request by done. do 2 eexists. split_and!; try done. by apply Hresp.
    + destruct (request_data (Data req)) as (a & w1 & w0 & b & c1 & c0 & pl & Hde & Ha & Hc & Hpl); [done..|].
      rewrite Hde, !sub_ok by (cbn; lia). cbn [mbind res_bind take drop Nat.sub skipn firstn].
      rewrite DecodeMemoryAddress_4, be_val_2. cbn [mbind res_bind].
      rewrite sub_from_6. cbn [mbind res_bind].
      destruct (writeMemory_refines m (MkMemoryAddress a (256 * w1 + w0) b) (256 * c1 + c0) pl)
        as (m' & code & -> & Hm' & Hcode & Hs); [done..|].
      pose proof (spec_write_code (abs m) (MkMemoryAddress a (256 * w1 + w0) b) (256 * c1 + c0) pl).
      destruct (spec_write _ _ _ _) as [s' code']. cbn [fst snd mbind res_bind] in *. subst code'.
      do 2 eexists. split_and!; try done. by apply Hresp.
  - case_match; do 2 eexists; split_and!; try done; apply Hresp; try done; try by_decide.
Qed.

Lemma spec_handle_proper s t req :
  FINSFrame_ok req -> s ≡ t ->
  fst (spec_handle s req) ≡ fst (spec_handle t req) /\ snd (spec_handle s req) = snd (spec_handle t req).
Proof.
  intros (_ & _ & _ & Hd) Hst. unfold spec_handle.
  destruct (_ || _); [|by case_match].
  destruct (decide (len (Data req) < 6)); [by rewrite !short_request|].
  destruct (request_data (Data req)) as (a & w1 & w0 & b & c1 & c0 & pl & -> & Ha & Hc & Hpl); [done|lia|].
  case_match.
  - rewrite (spec_read_proper s t) by done. by destruct (spec_read _ _ _).
  - destruct (spec_write_proper s t (MkMemoryAddress a (256 * w1 + w0) b) (256 * c1 + c0) pl Hst) as [H1 H2].
    destruct (spec_write s _ _ _), (spec_write t _ _ _). cbn [fst snd] in *. by subst.
Qed.

(** A sequence of requests, one at a time. *)
Fixpoint serve (m : MockPLC) (reqs : list FINSFrame) : res error (MockPLC * list FINSFrame) :=
  match reqs with
  | [] => Ok (m, [])
  | req :: reqs =>
    r ← handleRequest m req;
    let '(m, resp) := r in
    r ← serve m reqs;
    let '(m, resps) := r in Ok (m, resp :: resps)
  end.

Lemma serve_refines reqs : forall m s,
  plc_ok m -> s ≡ abs m -> Forall FINSFrame_ok reqs ->
  exists m' resps, serve m reqs = Ok (m', resps) /\ plc_ok m' /\ Forall sendable resps /\
    snd (spec_run s reqs) = resps /\ fst (spec_run s reqs) ≡ abs m'.
Proof.
  induction reqs as [|req reqs IH]; intros m s Hm Hs Hreqs; cbn [serve spec_run].
  - by exists m, [].
  - inversion Hreqs as [|? ? Hreq Hrest]; subst.
    destruct (handleRequest_refines m req) as (m1 & resp & -> & Hm1 & Hresp & Hsn & Hfs); [done..|].
    destruct (spec_handle_proper s (abs m) req) as [P1 P2]; [done..|].
    cbn [mbind res_bind].
    destruct (IH m1 (fst (spec_handle s req))) as (m2 & resps & -> & Hm2 & Hresps & Hsn2 & Hfs2); [done| |done|].
    { by rewrite P1. }
    cbn [mbind res_bind]. destruct (spec_handle s req) as [s1 r1]. cbn [fst snd] in *.
    destruct (spec_run s1 reqs) as [s2 rs]. cbn [fst snd] in *. subst r1 resp rs.
    do 2 eexists. split_and!; try done. by constructor.
Qed.

Lemma serve_app m fs gs :
  serve m (fs ++ gs) =
    (r ← serve m fs; let '(m', rs) := r in
     r' ← serve m' gs; let '(m'', rs') := r' in Ok (m'', rs ++ rs')).
Proof.
  revert m. induction fs as [|f fs IH]; intros m; cbn [serve app].
  - cbn. destruct (serve m gs) as [[??]| |]; done.
  - destruct (handleRequest m f) as [[m1 resp]| |]; [|done..]. cbn. rewrite IH.
    destruct (serve m1 fs) as [[m2 rs]| |]; [|done..]. cbn. by destruct (serve m2 gs) as [[??]| |].
Qed.

(** One round of the server's loop is one round of the client's
    ([Framing.round]) with the handler run on the frame delivered. *)
Lemma plc_loop_round fuel m acc :
  bytes_ok acc ->
  serve_loop (S fuel) m acc =
    match round acc with
    | None => Ok (m, acc, [])
    | Some (out, rest) =>
      r ← serve m out; let '(m, rs) := r in
      r ← match rest with [] => Ok (m, [], []) | _ => serve_loop fuel m rest end;
      let '(m, acc', o) := r in Ok (m, acc', concat (wire <$> rs) ++ o)
    end.
Proof.
  intros Hb. cbn [serve_loop]. unfold round. destruct (len acc <? 12) eqn:E; [done|]. zbool.
  assert (forall (b : bool) rest (m : MockPLC) out, b = bool_decide (rest = []) ->
    (if b then Ok (m, [], out) else r ← serve_loop fuel m rest; let '(m, acc', o) := r in Ok (m, acc', out ++ o)) =
    (r ← match rest with [] => Ok (m, [], []) | _ => serve_loop fuel m rest end;
     let '(m, acc', o) := r in Ok (m, acc', out ++ o))) as Hrest.
  { intros b rest m0 out ->. destruct rest; case_bool_decide; try done. cbn. by rewrite app_nil_r. }
  destruct (DecodeFINSTCPFrame acc) as [t| |] eqn:Hd.
  - destruct (len acc <? _) eqn:El; [done|]. zbool.
    set (rest := drop _ acc).
    assert ((len acc <=? 12 + Length t - 4) = bool_decide (rest = [])) as Hle.
    { subst rest. destruct (len acc <=? _) eqn:E2; zbool; symmetry.
      - apply bool_decide_eq_true_2, drop_ge. unfold len in *. lia.
      - apply bool_decide_eq_false_2. intros H%(f_equal length). rewrite length_drop in H. cbn in H. unfold len in *. lia. }
    destruct (DecodeFINSFrame (tcp_Data t)) as [f|?|]; cbn [serve mbind res_bind].
    + destruct (handleRequest m f) as [[m1 resp]| |]; [|done..]. cbn [mbind res_bind fmap list_fmap concat].
      rewrite (Hrest _ rest) by done. by rewrite app_nil_r.
    + by rewrite (Hrest _ rest) by done.
    + by rewrite (Hrest _ rest) by done.
  - destruct acc as [|b [|c acc]]; [unfold len in *; cbn in *; lia..|]. cbn [drop serve mbind res_bind].
    by destruct (serve_loop fuel m (c :: acc)) as [[[? ?] ?]| |].
  - destruct acc as [|b [|c acc]]; [unfold len in *; cbn in *; lia..|]. cbn [drop serve mbind res_bind].
    by destruct (serve_loop fuel m (c :: acc)) as [[[? ?] ?]| |].
Qed.

(** With a round more than there are bytes the loop leaves, having handled the frames
    that [Framing.drain] delivers. *)
Lemma serve_loop_drain fuel : forall m acc,
  bytes_ok acc -> (length acc < fuel)%nat ->
  serve_loop fuel m acc =
    (let '(fs, acc') := drain_all acc in
     r ← serve m fs; let '(m', rs) := r in Ok (m', acc', concat (wire <$> rs))).
Proof.
  induction fuel as [|fuel IH]; intros m acc Hb Hf; [lia|].
  rewrite plc_loop_round, drain_all_eq by done. destruct (round acc) as [[out rest]|] eqn:Hr; [|done].
  apply round_shorter in Hr as [Hl Hbr]; [|done].
  assert (forall m, match rest with [] => Ok (m, [], []) | _ => serve_loop fuel m rest end =
    (let '(fs, acc') := drain_all rest in
     r ← serve m fs; let '(m', rs) := r in Ok (m', acc', concat (wire <$> rs)))) as Hgo.
  { intros m0. destruct rest as [|b rest]; [done|]. apply IH; [done|lia]. }
  destruct (drain_all rest) as [fs acc'] eqn:Hdr. rewrite serve_app.
  destruct (serve m out) as [[m1 rs]| |]; [|done..]. cbn [mbind res_bind]. rewrite Hgo.
  destruct (serve m1 fs) as [[m2 rs']| |]; [|done..]. cbn [mbind res_bind]. by rewrite fmap_app, concat_app.
Qed.

Lemma handleConnection_reads reads : forall m acc,
  bytes_ok acc -> Forall bytes_ok reads ->
  handleConnection m acc reads =
    (let '(fs, acc') := on_reads acc reads in
     r ← serve m fs; let '(m', rs) := r in Ok (m', acc', concat (wire <$> rs))).
Proof.
  induction reads as [|buf reads IH]; intros m acc Hb Hr; [done|]. apply Forall_cons in Hr as [Hbuf Hr].
  assert (bytes_ok (acc ++ buf)) as Hab by (by apply bytes_ok_app).
  cbn [handleConnection on_reads]. unfold on_read. rewrite serve_loop_drain by (done || lia).
  destruct (drain_all_rest _ Hab) as [Hrest _].
  destruct (drain_all (acc ++ buf)) as [fs acc1]. cbn [snd] in Hrest. destruct (on_reads acc1 reads) as [gs acc2] eqn:Hor.
  rewrite serve_app. destruct (serve m fs) as [[m1 rs]| |]; [|done..]. cbn [mbind res_bind].
  rewrite IH, Hor by done. destruct (serve m1 gs) as [[m2 rs']| |]; [|done..]. cbn [mbind res_bind].
  by rewrite fmap_app, concat_app.
Qed.

(** The reads of a stream of frames that are sent whole. *)
Lemma wire_chunks_ok fs chunks :
  Forall sendable fs -> concat chunks = concat (wire <$> fs) -> Forall bytes_ok chunks.
Proof. intros Hfs Hcat. apply Forall_concat. rewrite Hcat. by apply bytes_ok_wires. Qed.

Lemma handleConnection_wires m fs chunks :
  Forall sendable fs -> concat chunks = concat (wire <$> fs) ->
  handleConnection m [] chunks =
    (r ← serve m fs; let '(m', rs) := r in Ok (m', [], concat (wire <$> rs))).
Proof.
  intros Hfs Hcat. rewrite handleConnection_reads, (on_reads_wire fs);
    [done..|by constructor|by eapply wire_chunks_ok].
Qed.

(** ** Properties of the PLC *)

(** C3: on the wire the PLC is the abstract bit memory: whatever requests a client
    sends and however TCP cuts the byte stream, the connection handler never
    panics, consumes every byte, keeps the memory well formed and writes exactly the
    wire form of the responses the abstract memory gives, in order; its final memory
    is the abstract one. *)
Theorem plc_serves_abstract_memory m reqs chunks :
  plc_ok m -> Forall sendable reqs -> concat chunks = concat (wire <$> reqs) ->
  exists m' resps,
    handleConnection m [] chunks = Ok (m', [], concat (wire <$> resps)) /\
    plc_ok m' /\ Forall sendable resps /\
    snd (spec_run (abs m) reqs) = resps /\ fst (spec_run (abs m) reqs) ≡ abs m'.
Proof.
  intros Hm Hreqs Hcat.
  destruct (serve_refines reqs m (abs m)) as (m' & resps & Hs & Hm' & Hr & Hsn & Hfs); [done..| |].
  { eapply Forall_impl; [exact Hreqs|]. by intros f [? _]. }
  exists m', resps. split_and!; try done.
  by rewrite (handleConnection_wires m reqs), Hs.
Qed.

(** A request that writes 0x1234 to W3 and one that reads bit 4 of W3. *)
Definition sample_write : FINSFrame :=
  MkFINSFrame (DefaultCommandHeader (MkFINSAddress 0 1 255) (MkFINSAddress 0 1 0) 8)
    MRC_MEMORY_AREA_WRITE 0 [0xb1; 0; 3; 0; 0; 1; 0x12; 0x34].
Definition sample_bit_read : FINSFrame :=
  MkFINSFrame (DefaultCommandHeader (MkFINSAddress 0 1 255) (MkFINSAddress 0 1 0) 9)
    MRC_MEMORY_AREA_READ 0 [0x32; 0; 3; 4; 0; 1].

Lemma plc_serves_abstract_memory_witness :
  exists m' r1 r2,
    handleConnection NewMockPLC [] [wire sample_write ++ take 5 (wire sample_bit_read); drop 5 (wire sample_bit_read)]
      = Ok (m', [], wire r1 ++ wire r2) /\
    EndCode r1 = END_CODE_NORMAL /\ Data r2 = [1] /\ SID (Header r2) = 9.
Proof.
  destruct (plc_serves_abstract_memory NewMockPLC [sample_write; sample_bit_read]
    [wire sample_write ++ take 5 (wire sample_bit_read); drop 5 (wire sample_bit_read)])
    as (m' & resps & H & _ & _ & Hsn & _); [apply NewMockPLC_ok|by_decide|vm_compute; reflexivity|].
  vm_compute in Hsn. subst resps. do 3 eexists. split; [rewrite H; cbn [fmap list_fmap concat]; rewrite app_nil_r; reflexivity|].
  split_and!; vm_compute; reflexivity.
Defined.

(** C26: no input can crash the PLC or corrupt its state: for any bytes received,
    in any chunks, the connection handler returns (no index or slice bound is out of
    range) and every area keeps its size and holds bytes. *)
Theorem plc_survives_any_input m chunks :
  plc_ok m -> Forall bytes_ok chunks ->
  exists m' acc out, handleConnection m [] chunks = Ok (m', acc, out) /\ plc_ok m'.
Proof.
  intros Hm Hc. rewrite handleConnection_reads, on_reads_eq by (done || constructor).
  pose proof (drain_all_frames_ok (concat chunks)) as Hf. cbn [app].
  destruct (drain_all (concat chunks)) as [fs acc]. cbn [fst] in Hf.
  destruct (serve_refines fs m (abs m)) as (m' & resps & -> & Hm' & _); [done|done|by apply Hf, Forall_concat|].
  cbn. by eauto.
Qed.

Lemma plc_survives_any_input_witness :
  exists m' acc out, handleConnection NewMockPLC [] [[70; 73; 78; 83; 0; 0; 0; 2]; [0; 0; 0; 0; 255; 70]] = Ok (m', acc, out)
    /\ plc_ok m'.
Proof. apply plc_survives_any_input; [apply NewMockPLC_ok|by_decide]. Defined.

(** A write is read back, and nothing else changes: a word write that fits its
    area succeeds, a read of the same words returns the data written, and a read
    (of words or of bits) whose footprint does not meet the written one returns what
    it returned before. *)
Theorem plc_write_read m addr count data a :
  plc_ok m -> MemoryAddress_ok addr -> in_u 16 count -> bytes_ok data ->
  spec_area (Area addr) = Some (Words a) -> Address addr + count <= words a -> len data = 2 * count ->
  exists m', writeMemory m addr count data = Ok (m', END_CODE_NORMAL) /\ plc_ok m' /\
    readMemory m' addr count = Ok (data, END_CODE_NORMAL) /\
    forall addr' count', MemoryAddress_ok addr' -> in_u 16 count' ->
      (forall lo hi, footprint addr' count' = Some (a, lo, hi) ->
         hi <= 16 * Address addr \/ 16 * (Address addr + count) <= lo) ->
      readMemory m' addr' count' = readMemory m addr' count'.
Proof.
  intros Hm Haddr Hc Hd Hsa Hr Hlen.
  destruct (writeMemory_refines m addr count data) as (m' & code & Hw & Hm' & Hcode & Habs); [done..|].
  assert (code = END_CODE_NORMAL) as ->.
  { rewrite <- Hcode. unfold spec_write. rewrite Hsa. by rewrite (proj2 (Z.ltb_ge _ _)) by lia. }
  exists m'. split_and!; [done|done| |].
  - destruct (area_dispatch (Area addr)) as [(b & Hwa & Hg & E)|[(b & _ & _ & _ & E)|(_ & _ & E)]];
      rewrite Hsa in E; simplify_eq.
    destruct Haddr as (? & [? ?] & ?), Hc as [? ?]. destruct (Hm b) as [Hlb _]. pose proof Hw as Hw'.
    unfold writeMemory in Hw'. rewrite Hwa, Hg in Hw'. rewrite (proj2 (Z.ltb_ge _ _)), copy_slice_ok in Hw' by lia.
    cbn in Hw'. simplify_eq.
    rewrite (readMemory_words _ _ _ b) by done. rewrite contents_store, decide_True by done.
    do 2 f_equal. replace (_ - _) with (2 * count) by lia. unfold len in *.
    rewrite (take_ge data) by lia. rewrite copy_at_eq by lia.
    rewrite drop_app_length' by (rewrite length_take; lia). rewrite take_app_length' by lia. done.
  - intros addr' count' Haddr' Hc' Hdis. rewrite !readMemory_refines by done. f_equal.
    rewrite <- (spec_read_proper _ _ addr' count' Haddr' Hc' Habs).
    apply spec_read_ext; [done..|]. intros b lo hi Hf Hhi p Hp. apply spec_write_outside.
    intros lo' hi'. unfold footprint at 1. rewrite Hsa. intros [= -> <- <-]. specialize (Hdis _ _ Hf). lia.
Qed.

Lemma plc_write_read_witness :
  exists m', writeMemory NewMockPLC (MkMemoryAddress 0x82 100 0) 2 [1; 2; 3; 4] = Ok (m', END_CODE_NORMAL) /\
    readMemory m' (MkMemoryAddress 0x82 100 0) 2 = Ok ([1; 2; 3; 4], END_CODE_NORMAL) /\
    readMemory m' (MkMemoryAddress 0x82 102 0) 1 = readMemory NewMockPLC (MkMemoryAddress 0x82 102 0) 1.
Proof.
  destruct (plc_write_read NewMockPLC (MkMemoryAddress 0x82 100 0) 2 [1; 2; 3; 4] DM) as (m' & Hw & _ & Hr & Hf);
    [apply NewMockPLC_ok|by_decide..|reflexivity|vm_compute; congruence|reflexivity|].
  exists m'. split_and!; [exact Hw|exact Hr|]. apply Hf; [by_decide..|].
  intros lo hi E. vm_compute in E. injection E as <- <-. right. vm_compute. congruence.
Defined.

(** The bit view and the word view of an area agree: reading bit [k] of word
    [w] through the area's bit code gives bit [k] of the word read through its word
    code. *)
Theorem plc_bit_word_views m cw cb a w k :
  plc_ok m -> spec_area cw = Some (Words a) -> spec_area cb = Some (Bits a) ->
  in_u 8 cw -> in_u 8 cb -> in_u 16 w -> w < words a -> 0 <= k < 16 ->
  exists v, readMemory m (MkMemoryAddress cw w 0) 1 = Ok (be_bytes 2 v, END_CODE_NORMAL) /\ in_u 16 v /\
    readMemory m (MkMemoryAddress cb w k) 1 = Ok ([b2z (Z.testbit v k)], END_CODE_NORMAL).
Proof.
  intros Hm Hcw Hcb Hcw8 Hcb8 Hw Hwa Hk. destruct (Hm a) as [Hlen Hok].
  set (l := take 2 (drop (Z.to_nat (2 * w)) (contents m a))).
  assert (length l = 2%nat) as Hl by (subst l; rewrite length_take, length_drop; unfold in_u, len in *; lia).
  assert (bytes_ok l) as Hlok by (by apply bytes_ok_take, bytes_ok_drop).
  exists (be_val l). rewrite be_bytes_val by done. split_and!.
  - destruct (area_dispatch cw) as [(b & ? & ? & E)|[(b & _ & _ & _ & E)|(_ & _ & E)]];
      rewrite Hcw in E; simplify_eq. unfold in_u in Hw.
    apply (readMemory_words m (MkMemoryAddress cw w 0) 1 b); cbn [Area Address]; done || lia.
  - by apply (be_val_in_u l 2).
  - rewrite readMemory_refines; [|done|unfold MemoryAddress_ok, in_u in *; cbn; lia|by_decide].
    unfold spec_read. cbn [Area Address BitOffset]. rewrite Hcb, (proj2 (Z.ltb_ge _ _)) by lia.
    rewrite seqZ_cons by lia. cbn [map]. change (seqZ _ (Z.pred 1)) with (@nil Z). cbn [map].
    unfold abs, lbit. replace ((w * 16 + k) / 16) with w by zdm. by replace ((w * 16 + k) mod 16) with k by zdm.
Qed.

Lemma plc_bit_word_views_witness :
  exists v, readMemory NewMockPLC (MkMemoryAddress 0xb1 511 0) 1 = Ok (be_bytes 2 v, END_CODE_NORMAL) /\ in_u 16 v /\
    readMemory NewMockPLC (MkMemoryAddress 0x32 511 15) 1 = Ok ([b2z (Z.testbit v 15)], END_CODE_NORMAL).
Proof. apply (plc_bit_word_views _ _ _ WR); [apply NewMockPLC_ok|reflexivity..|by_decide| by_decide|by_decide|reflexivity|lia]. Defined.

(** [SetWord] and [GetWord]: an address past the area is ignored (0 is read); a
    word that was set is read back; the last word of the DM area, which passes the
    [int] guard, makes both panic, because its slice bound wraps to 0 in [uint16]. *)
Theorem plc_word_helpers m c a w v :
  plc_ok m -> fst (getArea c) = Some a -> in_u 16 w -> in_u 16 v ->
  (words a <= w -> SetWord m c w v = Ok m /\ GetWord m c w = Ok 0) /\
  (w < words a -> w <> 32767 -> exists m', SetWord m c w v = Ok m' /\ plc_ok m' /\ GetWord m' c w = Ok v) /\
  (w < words a -> w = 32767 -> SetWord m c w v = Panic /\ GetWord m c w = Panic).
Proof.
  intros Hm Ha [Hw0 Hw] Hv. destruct (Hm a) as [Hlen Hok]. unfold SetWord, GetWord. rewrite Ha, Hlen.
  split_and!.
  - intros Hr. by rewrite (proj2 (Z.leb_gt _ _)) by lia.
  - intros Hr Hne. rewrite (proj2 (Z.leb_le _ _)) by lia.
    assert (words a <= 32768) as Hmax by (by destruct a).
    rewrite (uwrap_id 16 (w * 2)), (uwrap_id 16 (w * 2 + 2)) by (unfold in_u; lia).
    rewrite zsub_ok, copy_slice_ok by lia. cbn [mbind res_bind].
    replace (w * 2 + 2 - w * 2) with 2 by lia.
    set (l := copy_at _ _ _).
    assert (len l = words a * 2) as Hl by (subst l; unfold len in *; by rewrite length_copy_at).
    eexists. split_and!; [done| |].
    + apply plc_ok_store; [done|done|]. subst l. auto with fins.
    + rewrite contents_store, decide_True, Hl, (proj2 (Z.leb_le _ _)), zsub_ok by (done || lia).
      cbn [mbind res_bind]. replace (w * 2 + 2 - w * 2) with 2 by lia. subst l.
      rewrite (take_ge (be_bytes 2 v)) by (rewrite length_be_bytes; lia). unfold len in Hlen.
      rewrite copy_at_eq by (rewrite length_be_bytes; lia).
      rewrite drop_app_length' by (rewrite length_take; lia).
      rewrite take_app_length' by (rewrite length_be_bytes; lia). by rewrite be_val_bytes.
  - intros Hr ->. rewrite (proj2 (Z.leb_le _ _)) by lia. by rewrite zsub_panic by (right; left; done).
Qed.

Lemma plc_word_helpers_witness :
  (exists m', SetWord NewMockPLC 0xb0 6143 513 = Ok m' /\ plc_ok m' /\ GetWord m' 0xb0 6143 = Ok 513) /\
  GetWord NewMockPLC 0x82 32767 = Panic /\ GetWord NewMockPLC 0xb3 512 = Ok 0.
Proof.
  split_and!.
  - apply (plc_word_helpers NewMockPLC 0xb0 CIO 6143 513); [apply NewMockPLC_ok|reflexivity|by_decide..|reflexivity|lia].
  - apply (plc_word_helpers NewMockPLC 0x82 DM 32767 0); [apply NewMockPLC_ok|reflexivity|by_decide..|reflexivity|reflexivity].
  - apply (plc_word_helpers NewMockPLC 0xb3 AR 512 0); [apply NewMockPLC_ok|reflexivity|by_decide..|vm_compute; congruence].
Defined.
