(* ===== verification/PlcServer.v ===== *)
(** * The PLC as a server ([src/mock_plc.go] 46-131)

    [Start], [Close], the accept loop and one goroutine per connection, all on the same
    memory, as a transition system: its steps are those between which the Go
    scheduler can switch.  [readMemory] and [writeMemory] hold the mutex, so the handling
    of one request is one step.  [MockPLC.v] has the handler, [Framing.v] the
    reassembly of frames. *)
From S2P Require Import Prelude Types Protocol Framing MockPLC.

(** ** State *)

(** Where the goroutine of a connection is. *)
Inductive phase :=
| PRead (accumulator : bytes)               (* in conn.Read *)
| PLoop (accumulator : bytes)               (* at the top of the inner loop *)
| PHandle (req : FINSFrame) (rest : bytes)  (* before m.handleRequest *)
| PWrite (resp : FINSFrame) (rest : bytes)  (* before conn.Write *)
| PDone.

(** A connection: its goroutine, and whether a write to it has failed. *)
Record kconn := MkKConn { k_phase : phase; k_broken : bool }.

Record server := MkPlcServer {
  v_addr : string; v_listening : bool; v_closed : bool; v_accepting : bool; v_mem : MockPLC; v_conns : gmap nat kconn }.

Definition new_server (m : MockPLC) : server := MkPlcServer "" false false false m ∅.

(** [listen] is what [net.Listen] returns: the address of the listener, or an error. *)
Definition Start (listen : option string) (s : server) : server * option string :=
  match listen with
  | None => (s, None)
  | Some addr => (MkPlcServer addr true (v_closed s) true (v_mem s) (v_conns s), Some addr)
  end.

Definition Addr (s : server) : string := v_addr s.

(** ** Steps of a connection *)

(** [if frameLen >= len(accumulator) { accumulator = accumulator[:0]; break }]. *)
Definition next (rest : bytes) : phase := match rest with [] => PRead [] | _ => PLoop rest end.

(** One round of the inner loop, up to the call of the handler. *)
Definition parse (accumulator : bytes) : phase :=
  if len accumulator <? 12 then PRead accumulator
  else match DecodeFINSTCPFrame accumulator with
  | Ok tcpFrame =>
    let frameLen := 12 + Length tcpFrame - 4 in
    if len accumulator <? frameLen then PRead accumulator
    else
      let rest := drop (Z.to_nat frameLen) accumulator in
      match DecodeFINSFrame (tcp_Data tcpFrame) with
      | Ok finsFrame => PHandle finsFrame rest
      | _ => next rest
      end
  | _ => PLoop (drop 1 accumulator)
  end.

Inductive kevent :=
| EAccept
| ERead (chunk : bytes)
| EEnd
| EHandle (req resp : FINSFrame)
| EWrite (out : bytes).

Inductive kstep : MockPLC -> kconn -> list kevent -> MockPLC -> kconn -> Prop :=
| k_recv m acc b chunk :
    chunk <> [] -> len chunk <= 4096 -> bytes_ok chunk ->
    kstep m (MkKConn (PRead acc) b) [ERead chunk] m (MkKConn (PLoop (acc ++ chunk)) b)
| k_eof m acc b : kstep m (MkKConn (PRead acc) b) [EEnd] m (MkKConn PDone b)
| k_parse m acc b : kstep m (MkKConn (PLoop acc) b) [] m (MkKConn (parse acc) b)
| k_handle m req rest b m' resp :
    handleRequest m req = Ok (m', resp) ->
    kstep m (MkKConn (PHandle req rest) b) [EHandle req resp] m' (MkKConn (PWrite resp rest) b)
| k_write m resp rest :
    kstep m (MkKConn (PWrite resp rest) false) [EWrite (wire resp)] m (MkKConn (next rest) false)
(* the error of conn.Write is ignored; a broken connection takes nothing more *)
| k_write_fails m resp rest b n :
    (n < length (wire resp))%nat -> (b = true -> n = 0%nat) ->
    kstep m (MkKConn (PWrite resp rest) b) [EWrite (take n (wire resp))] m (MkKConn (next rest) true).

(** ** Steps of the server *)

Definition with_conn (s : server) (m : MockPLC) (i : nat) (k : kconn) : server :=
  MkPlcServer (v_addr s) (v_listening s) (v_closed s) (v_accepting s) m (<[i := k]> (v_conns s)).

(** A label: the events of a step, with their connection. *)
Definition label : Type := list (nat * kevent).

Inductive pstep : server -> label -> server -> Prop :=
| p_accept s i :
    v_accepting s = true -> v_listening s = true -> v_conns s !! i = None ->
    pstep s [(i, EAccept)] (with_conn s (v_mem s) i (MkKConn (PRead []) false))
| p_accept_error s :
    v_accepting s = true ->
    pstep s [] (MkPlcServer (v_addr s) (v_listening s) (v_closed s) (negb (v_closed s)) (v_mem s) (v_conns s))
| p_conn s i k es m' k' :
    v_conns s !! i = Some k -> kstep (v_mem s) k es m' k' ->
    pstep s ((i,.) <$> es) (with_conn s m' i k')
(* Close: the flag, then the listener *)
| p_close_flag s : pstep s [] (MkPlcServer (v_addr s) (v_listening s) true (v_accepting s) (v_mem s) (v_conns s))
| p_close_listener s :
    v_closed s = true -> pstep s [] (MkPlcServer (v_addr s) false true (v_accepting s) (v_mem s) (v_conns s)).

(** A run with its trace. *)
Inductive psteps : server -> label -> server -> Prop :=
| ps_nil s : psteps s [] s
| ps_snoc s tr s1 l s2 : psteps s tr s1 -> pstep s1 l s2 -> psteps s (tr ++ l) s2.

(** ** What a trace says of a connection *)

Definition events (i : nat) (tr : label) : list kevent := omap (fun e => if decide (fst e = i) then Some (snd e) else None) tr.

Definition received (es : list kevent) : bytes := concat (omap (fun e => match e with ERead c => Some c | _ => None end) es).
Definition sent (es : list kevent) : bytes := concat (omap (fun e => match e with EWrite b => Some b | _ => None end) es).
Definition handled (es : list kevent) : list (FINSFrame * FINSFrame) :=
  omap (fun e => match e with EHandle req resp => Some (req, resp) | _ => None end) es.
Definition requests (es : list kevent) : list FINSFrame := fst <$> handled es.
Definition responses (es : list kevent) : list FINSFrame := snd <$> handled es.

(** The goroutine has handled and answered all it has read. *)
Definition idle (s : server) (i : nat) : Prop := exists acc, v_conns s !! i = Some (MkKConn (PRead acc) false).

Lemma events_app i tr l : events i (tr ++ l) = events i tr ++ events i l.
Proof. apply omap_app. Qed.
Lemma received_app a b : received (a ++ b) = received a ++ received b.
Proof. unfold received. by rewrite omap_app, concat_app. Qed.
Lemma sent_app a b : sent (a ++ b) = sent a ++ sent b.
Proof. unfold sent. by rewrite omap_app, concat_app. Qed.
Lemma handled_app a b : handled (a ++ b) = handled a ++ handled b.
Proof. apply omap_app. Qed.
Lemma requests_app a b : requests (a ++ b) = requests a ++ requests b.
Proof. unfold requests. by rewrite handled_app, fmap_app. Qed.
Lemma responses_app a b : responses (a ++ b) = responses a ++ responses b.
Proof. unfold responses. by rewrite handled_app, fmap_app. Qed.

Lemma events_own i (es : list kevent) : events i ((i,.) <$> es) = es.
Proof. induction es as [|e es IH]; [done|]. cbn. rewrite decide_True by done. unfold events in IH. by rewrite IH. Qed.
Lemma events_other i j (es : list kevent) : i <> j -> events j ((i,.) <$> es) = [].
Proof. intros Hne. induction es as [|e es IH]; [done|]. cbn. by rewrite decide_False. Qed.
Lemma events_label (i : nat) (es : list kevent) : snd <$> ((i,.) <$> es : label) = es.
Proof. rewrite <- list_fmap_compose. apply list_fmap_id. Qed.

(** ** The invariant *)

(** What a goroutine still has to handle is what the frames it has received so far
    leave over. *)
Definition phase_inv (es : list kevent) (p : phase) : Prop :=
  match p with
  | PRead acc => drain_all (received es) = (requests es, acc)
  | PLoop acc => bytes_ok acc /\ drain_all (received es) = (requests es ++ fst (drain_all acc), snd (drain_all acc))
  | PHandle req rest => FINSFrame_ok req /\ bytes_ok rest /\
      drain_all (received es) = (requests es ++ req :: fst (drain_all rest), snd (drain_all rest))
  | PWrite _ rest => bytes_ok rest /\ drain_all (received es) = (requests es ++ fst (drain_all rest), snd (drain_all rest))
  | PDone => fst (drain_all (received es)) = requests es
  end.

(** The response not yet written. *)
Definition unsent (p : phase) : list FINSFrame := match p with PWrite resp _ => [resp] | _ => [] end.

Definition out_inv (es : list kevent) (k : kconn) : Prop :=
  if k_broken k then sent es `prefix_of` concat (wire <$> responses es)
  else sent es ++ concat (wire <$> unsent (k_phase k)) = concat (wire <$> responses es).

Definition conn_inv (es : list kevent) (k : kconn) : Prop :=
  bytes_ok (received es) /\ phase_inv es (k_phase k) /\ out_inv es k.

Lemma next_inv es rest :
  bytes_ok rest -> drain_all (received es) = (requests es ++ fst (drain_all rest), snd (drain_all rest)) -> phase_inv es (next rest).
Proof. intros Hb E. destruct rest; [|done]. cbn in *. by rewrite app_nil_r in E. Qed.

Lemma unsent_next rest : unsent (next rest) = [].
Proof. by destruct rest. Qed.

Lemma parse_round acc :
  (round acc = None /\ parse acc = PRead acc) \/
  (exists rest, round acc = Some ([], rest) /\ (parse acc = PLoop rest \/ parse acc = next rest)) \/
  (exists req rest, round acc = Some ([req], rest) /\ parse acc = PHandle req rest).
Proof.
  unfold round, parse. destruct (len acc <? 12); [by left|]. destruct (DecodeFINSTCPFrame acc) as [t| |]; [|by right; left; eauto..].
  destruct (len acc <? _); [by left|]. right. destruct (DecodeFINSFrame (tcp_Data t)) as [f| |]; [right|left|left]; by eauto.
Qed.

(** A round keeps the invariant. *)
Lemma parse_inv es acc : phase_inv es (PLoop acc) -> phase_inv es (parse acc).
Proof.
  intros [Hb E]. destruct (parse_round acc) as [[Hr ->]|[(rest & Hr & Hp)|(req & rest & Hr & ->)]];
    rewrite (drain_all_eq acc Hb), Hr in E; cbn [fst snd] in E.
  - by rewrite app_nil_r in E.
  - destruct (round_shorter _ _ _ Hb Hr) as [_ Hbr]. destruct (drain_all rest) as [fs r] eqn:Hd. cbn [fst snd app] in E.
    assert (phase_inv es (PLoop rest)) as Hi by (split; [done|by rewrite Hd]).
    destruct Hp as [->| ->]; [done|]. by apply (next_inv es rest); [|rewrite Hd].
  - destruct (round_shorter _ _ _ Hb Hr) as [_ Hbr]. pose proof (round_frames_ok _ _ _ Hb Hr) as Hf.
    destruct (drain_all rest) as [fs r] eqn:Hd. cbn [fst snd app] in E. cbn [phase_inv]. rewrite Hd. split_and!; [by inversion Hf|done|done].
Qed.

Lemma unsent_parse acc : unsent (parse acc) = [].
Proof. unfold parse. repeat case_match; try done; apply unsent_next. Qed.

(** A step of a connection keeps its invariant. *)
Lemma kstep_inv m k l m' k' es : kstep m k l m' k' -> conn_inv es k -> conn_inv (es ++ l) k'.
Proof.
  intros Hst (Hb & Hp & Ho). unfold conn_inv, out_inv in *. rewrite received_app, sent_app, responses_app.
  destruct Hst as [m acc b c Hc _ Hbc|m acc b|m acc b|m req rest b m' resp Hh|m resp rest|m resp rest b n Hn Hz];
    cbn [k_phase k_broken unsent phase_inv] in *.
  - change (received [ERead c]) with (c ++ []). change (sent [ERead c]) with (@nil Z). change (responses [ERead c]) with (@nil FINSFrame).
    rewrite requests_app. change (requests [ERead c]) with (@nil FINSFrame). rewrite !app_nil_r in *.
    pose proof (drain_all_rest (received es) Hb) as [Hba _]. rewrite Hp in Hba. cbn [snd] in Hba.
    split_and!; try done; [by apply bytes_ok_app|by apply bytes_ok_app|]. rewrite received_app. change (received [ERead c]) with (c ++ []).
    rewrite app_nil_r, drain_all_app by done. rewrite Hp. by destruct (drain_all (acc ++ c)).
  - change (received [EEnd]) with (@nil Z). change (sent [EEnd]) with (@nil Z). change (responses [EEnd]) with (@nil FINSFrame).
    rewrite received_app, requests_app. change (received [EEnd]) with (@nil Z). change (requests [EEnd]) with (@nil FINSFrame).
    rewrite !app_nil_r in *. split_and!; try done. by rewrite Hp.
  - rewrite !app_nil_r in *. split_and!; try done; [by apply parse_inv|]. by rewrite unsent_parse, app_nil_r.
  - destruct Hp as (Hreq & Hbr & Hp). change (received [EHandle req resp]) with (@nil Z). change (sent [EHandle req resp]) with (@nil Z).
    change (responses [EHandle req resp]) with [resp]. rewrite received_app, requests_app.
    change (received [EHandle req resp]) with (@nil Z). change (requests [EHandle req resp]) with [req].
    rewrite !app_nil_r in *. split_and!; try done; [by rewrite Hp, <- app_assoc|]. rewrite fmap_app, concat_app.
    destruct b; [by apply prefix_app_r|by rewrite Ho].
  - destruct Hp as (Hbr & Hp). change (received [EWrite (wire resp)]) with (@nil Z). change (sent [EWrite (wire resp)]) with (wire resp ++ []).
    change (responses [EWrite (wire resp)]) with (@nil FINSFrame). rewrite unsent_next, !app_nil_r in *.
    split_and!; try done; [|by rewrite <- Ho; cbn; rewrite !app_nil_r]. apply next_inv; [done|].
    rewrite received_app, requests_app. cbn. by rewrite !app_nil_r.
  - destruct Hp as (Hbr & Hp). change (received [EWrite _]) with (@nil Z). change (sent [EWrite _]) with (take n (wire resp) ++ []).
    change (responses [EWrite _]) with (@nil FINSFrame). rewrite !app_nil_r in *.
    split_and!; try done.
    + apply next_inv; [done|]. rewrite received_app, requests_app. cbn. by rewrite !app_nil_r.
    + destruct b.
      * rewrite Hz, take_0, app_nil_r by done. done.
      * rewrite <- Ho. apply prefix_app. cbn. rewrite app_nil_r. by exists (drop n (wire resp)); rewrite take_drop.
Qed.

(** The memory is that of the requests handled so far, one after the other. *)
Definition server_inv (m0 : MockPLC) (tr : label) (s : server) : Prop :=
  plc_ok (v_mem s) /\ serve m0 (requests (snd <$> tr)) = Ok (v_mem s, responses (snd <$> tr)) /\
  Forall FINSFrame_ok (requests (snd <$> tr)) /\
  (forall i k, v_conns s !! i = Some k -> conn_inv (events i tr) k) /\
  (forall i, v_conns s !! i = None -> events i tr = []).

(** The handler's part of a step. *)
Lemma kstep_serve m k l m' k' es :
  kstep m k l m' k' -> conn_inv es k -> plc_ok m ->
  plc_ok m' /\ serve m (requests l) = Ok (m', responses l) /\ Forall FINSFrame_ok (requests l).
Proof.
  intros Hst (_ & Hp & _) Hm. destruct Hst as [| | |m req rest b m' resp Hh| |]; try by (split_and!; try done; constructor).
  destruct Hp as (Hreq & _). destruct (handleRequest_refines m req Hm Hreq) as (m1 & r1 & E & Hm1 & _). rewrite Hh in E. injection E as <- <-.
  split; [done|]. split; [cbn; by rewrite Hh|]. by constructor.
Qed.

Lemma new_conn_inv : conn_inv [EAccept] (MkKConn (PRead []) false).
Proof. split; [constructor|]. by split. Qed.

Lemma pstep_inv m0 tr s l s' : pstep s l s' -> server_inv m0 tr s -> server_inv m0 (tr ++ l) s'.
Proof.
  intros Hst (Hm & Hs & Hf & Hc & Hn). unfold server_inv. rewrite fmap_app, requests_app, responses_app.
  destruct Hst as [s i _ _ Hi|s _|s i k es m' k' Hk Hst|s|s _]; cbn [v_mem v_conns with_conn] in *.
  - split; [done|]. change (requests (snd <$> [(i, EAccept)])) with (@nil FINSFrame).
    change (responses (snd <$> [(i, EAccept)])) with (@nil FINSFrame). rewrite !app_nil_r. split; [done|]. split; [done|].
    pose proof (Hn i Hi) as He. split; intros j.
    + intros k [[<- <-]|[Hne Hj]]%lookup_insert_Some.
      * rewrite events_app, He, (events_own i [EAccept] : events i [(i, EAccept)] = _). apply new_conn_inv.
      * rewrite events_app, (events_other i j [EAccept] Hne : events j [(i, EAccept)] = _), app_nil_r. by apply Hc.
    + intros [Hj Hne]%lookup_insert_None. rewrite events_app, (events_other i j [EAccept] Hne : events j [(i, EAccept)] = _), app_nil_r. by apply Hn.
  - by rewrite !app_nil_r.
  - rewrite events_label. destruct (kstep_serve _ _ _ _ _ _ Hst (Hc i k Hk) Hm) as (Hm' & Hs' & Hf'). split; [done|].
    split; [by rewrite serve_app, Hs; cbn [mbind res_bind]; rewrite Hs'|]. split; [by apply Forall_app|]. split; intros j.
    + intros k1 [[<- <-]|[Hne Hj]]%lookup_insert_Some.
      * rewrite events_app, events_own. eapply kstep_inv; [done|]. by apply Hc.
      * rewrite events_app, (events_other i j es Hne), app_nil_r. by apply Hc.
    + intros [Hj Hne]%lookup_insert_None. rewrite events_app, (events_other i j es Hne), app_nil_r. by apply Hn.
  - by rewrite !app_nil_r.
  - by rewrite !app_nil_r.
Qed.

Lemma psteps_inv m0 s tr s' : psteps s tr s' -> server_inv m0 [] s -> server_inv m0 tr s'.
Proof. induction 1 as [|s tr s1 l s2 _ IH Hst]; [done|]. intros H0. eapply pstep_inv; [done|auto]. Qed.

(** What has been handled comes from what was received. *)
Lemma phase_prefix es p : phase_inv es p -> requests es `prefix_of` fst (drain_all (received es)).
Proof.
  destruct p; cbn [phase_inv]; [intros ->|intros (_ & ->)|intros (_ & _ & ->)|intros (_ & ->)|intros ->]; cbn [fst]; done || by eexists.
Qed.

(** The server right after [Start]. *)
Definition started (m : MockPLC) (addr : string) : server := fst (Start (Some addr) (new_server m)).

Lemma started_inv m addr : plc_ok m -> server_inv m [] (started m addr).
Proof. intros Hm. by unfold server_inv; split_and!; try done; constructor. Qed.

(** ** Properties *)

(** C18: concurrent connections are served as if by one: in every interleaving of the accept
    loop and the goroutines of all connections, there is one order of the requests,
    that in which they were handled, such that the memory and all responses are those
    of the abstract memory serving them one after the other.  For each
    connection the requests are, in order, frames of the bytes it sent, and
    what is written to it is a prefix of the wire form of its responses; all of them
    and all of it when its goroutine waits for input. *)
Theorem plc_linearizable m addr tr s :
  plc_ok m -> psteps (started m addr) tr s ->
  plc_ok (v_mem s) /\
  snd (spec_run (abs m) (requests (snd <$> tr))) = responses (snd <$> tr) /\
  fst (spec_run (abs m) (requests (snd <$> tr))) ≡ abs (v_mem s) /\
  forall i,
    requests (events i tr) `prefix_of` fst (drain_all (received (events i tr))) /\
    sent (events i tr) `prefix_of` concat (wire <$> responses (events i tr)) /\
    (idle s i -> requests (events i tr) = fst (drain_all (received (events i tr))) /\
                 sent (events i tr) = concat (wire <$> responses (events i tr))).
Proof.
  intros Hm0 Hr. destruct (psteps_inv m _ _ _ Hr (started_inv m addr Hm0)) as (Hm & Hs & Hf & Hc & Hn). split; [done|].
  destruct (serve_refines (requests (snd <$> tr)) m (abs m)) as (m' & rs & Hs' & _ & _ & Hsn & Hfs); [done..|].
  rewrite Hs in Hs'. injection Hs' as <- <-. split; [done|]. split; [done|]. intros i.
  destruct (v_conns s !! i) as [k|] eqn:Hk.
  - destruct (Hc i k Hk) as (Hb & Hp & Ho). unfold out_inv in Ho. split; [|split].
    + by apply phase_prefix in Hp.
    + destruct (k_broken k); [done|]. rewrite <- Ho. by apply prefix_app_r.
    + intros [acc Hi]. unfold idle in Hi. rewrite Hk in Hi. injection Hi as ->. cbn [k_phase k_broken phase_inv unsent fmap list_fmap concat] in Hp, Ho. rewrite app_nil_r in Ho. by rewrite Hp.
  - rewrite (Hn i Hk). split; [apply prefix_nil|]. split; [apply prefix_nil|done].
Qed.

(** ** Every connection is served to the end *)

Lemma psteps_one s l s' : pstep s l s' -> psteps s l s'.
Proof. intros H. exact (ps_snoc s [] s l s' (ps_nil s) H). Qed.

Lemma psteps_app s tr1 s1 tr2 s2 : psteps s tr1 s1 -> psteps s1 tr2 s2 -> psteps s (tr1 ++ tr2) s2.
Proof.
  intros H1 H2. revert H1. induction H2 as [|s1 tr s2 l s3 _ IH Hst]; intros H1; [by rewrite app_nil_r|].
  rewrite app_assoc. eapply ps_snoc; [by apply IH|done].
Qed.

(** A run of one connection alone: what it reads and handles, and where it ends; the rest of the server stays as it is. *)
Definition alone (i : nat) (s : server) (input : bytes) (reqs : list FINSFrame) (acc : bytes) : Prop :=
  exists es s' rs, psteps s ((i,.) <$> es) s' /\ received es = input /\ requests es = reqs /\ sent es = concat (wire <$> rs) /\
    serve (v_mem s) reqs = Ok (v_mem s', rs) /\ plc_ok (v_mem s') /\
    s' = with_conn s (v_mem s') i (MkKConn (PRead acc) false).

Lemma with_conn_twice s m1 i k1 m2 k2 : with_conn (with_conn s m1 i k1) m2 i k2 = with_conn s m2 i k2.
Proof. unfold with_conn. cbn. by rewrite insert_insert_eq. Qed.

Lemma alone_done i s acc :
  plc_ok (v_mem s) -> v_conns s !! i = Some (MkKConn (PRead acc) false) -> alone i s [] [] acc.
Proof.
  intros Hm Hk. exists [], s, []. split_and!; try done; [apply ps_nil|]. destruct s. unfold with_conn. cbn in *. by rewrite insert_id.
Qed.

(** A step that neither handles nor writes, then a run. *)
Lemma alone_silent i s k l k' input reqs acc :
  v_conns s !! i = Some k -> kstep (v_mem s) k l (v_mem s) k' -> requests l = [] -> sent l = [] ->
  alone i (with_conn s (v_mem s) i k') input reqs acc -> alone i s (received l ++ input) reqs acc.
Proof.
  intros Hk Hst Hrq Hsent (es & s' & rs & Hr & Hin & Hreq & Hout & Hserve & Hm & E). exists (l ++ es), s', rs.
  rewrite fmap_app, received_app, requests_app, sent_app, Hsent, Hrq, Hin. split_and!; try done.
  - eapply psteps_app; [apply psteps_one; by eapply p_conn|done].
  - by rewrite E, with_conn_twice.
Qed.

(** Handling a request and writing its response, then a run. *)
Lemma alone_request i s req rest m resp input reqs acc :
  v_conns s !! i = Some (MkKConn (PHandle req rest) false) -> handleRequest (v_mem s) req = Ok (m, resp) ->
  alone i (with_conn s m i (MkKConn (next rest) false)) input reqs acc -> alone i s input (req :: reqs) acc.
Proof.
  intros Hk Hh (es & s' & rs & Hr & Hin & Hreq & Hout & Hserve & Hm & E). exists ([EHandle req resp; EWrite (wire resp)] ++ es), s', (resp :: rs).
  rewrite fmap_app, received_app, requests_app, sent_app, Hin, Hreq, Hout. cbn [v_mem with_conn] in Hserve. split_and!; try done.
  - eapply psteps_app; [|done].
    assert (pstep (with_conn s m i (MkKConn (PWrite resp rest) false)) [(i, EWrite (wire resp))] (with_conn s m i (MkKConn (next rest) false))) as Hw.
    { rewrite <- (with_conn_twice s m i (MkKConn (PWrite resp rest) false) m (MkKConn (next rest) false)).
      apply (p_conn _ i (MkKConn (PWrite resp rest) false) [EWrite (wire resp)]); [apply lookup_insert_eq|apply k_write]. }
    refine (ps_snoc _ [(i, EHandle req resp)] _ _ _ _ Hw). apply psteps_one, (p_conn s i _ [EHandle req resp] _ _ Hk). by apply k_handle.
  - cbn [sent omap list_omap concat]. unfold sent. cbn. by rewrite app_nil_r.
  - cbn [serve]. rewrite Hh. cbn [mbind res_bind]. by rewrite Hserve.
  - by rewrite E, with_conn_twice.
Qed.

Lemma conn_there i s m k : v_conns (with_conn s m i k) !! i = Some k.
Proof. apply lookup_insert_eq. Qed.

(** The inner loop runs to its end. *)
Lemma alone_loop n : forall i s acc,
  (length acc < n)%nat -> bytes_ok acc -> plc_ok (v_mem s) -> v_conns s !! i = Some (MkKConn (PLoop acc) false) ->
  alone i s [] (fst (drain_all acc)) (snd (drain_all acc)).
Proof.
  induction n as [|n IH]; intros i s acc Hn Hb Hm Hk; [lia|].
  assert (forall s' rest, (length rest < n)%nat -> bytes_ok rest -> plc_ok (v_mem s') -> v_conns s' !! i = Some (MkKConn (next rest) false) ->
    alone i s' [] (fst (drain_all rest)) (snd (drain_all rest))) as Hnext.
  { intros s' [|x rest] Hl Hbr Hm' Hk'; [by apply alone_done|by apply IH]. }
  apply (alone_silent i s _ [] (MkKConn (parse acc) false) [] _ _ Hk); [apply k_parse|done..|]. rewrite (drain_all_eq acc Hb).
  destruct (parse_round acc) as [[Hr ->]|[(rest & Hr & Hp)|(req & rest & Hr & ->)]]; rewrite Hr.
  - apply alone_done; [done|apply conn_there].
  - destruct (round_shorter _ _ _ Hb Hr) as [Hl Hbr].
    assert (alone i (with_conn s (v_mem s) i (MkKConn (parse acc) false)) [] (fst (drain_all rest)) (snd (drain_all rest))) as Ha.
    { destruct Hp as [->| ->]; [apply IH|apply Hnext]; done || lia || apply conn_there. }
    by destruct (drain_all rest).
  - destruct (round_shorter _ _ _ Hb Hr) as [Hl Hbr]. pose proof (round_frames_ok _ _ _ Hb Hr) as Hf. inversion Hf as [|? ? Hreq _]; subst.
    destruct (handleRequest_refines (v_mem s) req Hm Hreq) as (m & resp & Hh & Hm1 & _).
    assert (alone i (with_conn s m i (MkKConn (next rest) false)) [] (fst (drain_all rest)) (snd (drain_all rest))) as Ha.
    { apply Hnext; done || lia || apply conn_there. }
    destruct (drain_all rest) as [fs r]. apply (alone_request i _ req rest m resp); [apply conn_there|done|].
    by rewrite with_conn_twice.
Qed.

(** One run after another. *)
Lemma alone_trans i s in1 reqs1 acc1 in2 reqs2 acc2 :
  alone i s in1 reqs1 acc1 ->
  (forall s', plc_ok (v_mem s') -> v_conns s' !! i = Some (MkKConn (PRead acc1) false) -> alone i s' in2 reqs2 acc2) ->
  alone i s (in1 ++ in2) (reqs1 ++ reqs2) acc2.
Proof.
  intros (es1 & s1 & rs1 & Hr1 & Hin1 & Hreq1 & Hout1 & Hs1 & Hm1 & E1) Hk.
  destruct (Hk s1 Hm1) as (es2 & s2 & rs2 & Hr2 & Hin2 & Hreq2 & Hout2 & Hs2 & Hm2 & E2); [rewrite E1; apply conn_there|].
  exists (es1 ++ es2), s2, (rs1 ++ rs2).
  rewrite !fmap_app, received_app, requests_app, sent_app, concat_app, Hin1, Hin2, Hreq1, Hreq2, Hout1, Hout2. split_and!; try done.
  - by eapply psteps_app.
  - rewrite serve_app, Hs1. cbn [mbind res_bind]. by rewrite Hs2.
  - rewrite E2 at 1. rewrite E1 at 1. apply with_conn_twice.
Qed.

(** What one [Read] can return. *)
Definition chunk_ok (c : bytes) : Prop := c <> [] /\ len c <= 4096 /\ bytes_ok c.

Lemma alone_reads i chunks : Forall chunk_ok chunks -> forall s acc,
  bytes_ok acc -> plc_ok (v_mem s) -> v_conns s !! i = Some (MkKConn (PRead acc) false) ->
  alone i s (concat chunks) (fst (on_reads acc chunks)) (snd (on_reads acc chunks)).
Proof.
  induction 1 as [|c cs (Hc & Hl & Hbc) _ IH]; intros s acc Hb Hm Hk; cbn [on_reads concat].
  - by apply alone_done.
  - unfold on_read. assert (bytes_ok (acc ++ c)) as Hac by (by apply bytes_ok_app). pose proof (drain_all_rest _ Hac) as [Hbr _].
    assert (alone i s c (fst (drain_all (acc ++ c))) (snd (drain_all (acc ++ c)))) as Ha.
    { rewrite <- (app_nil_r c) at 1.
      refine (eq_ind _ (fun x => alone i s x _ _) (alone_silent i s _ [ERead c] (MkKConn (PLoop (acc ++ c)) false) [] _ _ Hk _ eq_refl eq_refl _) _ _);
        [by apply k_recv|apply (alone_loop (S (length (acc ++ c)))); try done; [lia|apply conn_there]|].
      cbn. by rewrite !app_nil_r. }
    destruct (drain_all (acc ++ c)) as [fs r]. cbn [fst snd] in *.
    assert (forall s', plc_ok (v_mem s') -> v_conns s' !! i = Some (MkKConn (PRead r) false) ->
      alone i s' (concat cs) (fst (on_reads r cs)) (snd (on_reads r cs))) as Hrest by (intros; by apply IH).
    destruct (on_reads r cs) as [gs r']. cbn [fst snd] in *. by eapply alone_trans.
Qed.

(** C19: a connection is served to the end, whatever the others do and whether or not the
    PLC has been closed: in any state reached, once an unbroken connection that waits for input
    with an empty accumulator has received requests, cut into chunks in any way, its goroutine can run on
    its own until it waits again, and has then written exactly the responses of the
    abstract memory; nothing else changes but the memory. *)
Theorem plc_keeps_serving m addr tr s i reqs chunks :
  plc_ok m -> psteps (started m addr) tr s -> v_conns s !! i = Some (MkKConn (PRead []) false) ->
  Forall sendable reqs -> Forall chunk_ok chunks -> concat chunks = concat (wire <$> reqs) ->
  exists es s', psteps s ((i,.) <$> es) s' /\ received es = concat chunks /\
    sent es = concat (wire <$> snd (spec_run (abs (v_mem s)) reqs)) /\ fst (spec_run (abs (v_mem s)) reqs) ≡ abs (v_mem s') /\
    s' = with_conn s (v_mem s') i (MkKConn (PRead []) false).
Proof.
  intros Hm0 Hr Hk Hreqs Hch Hcat. destruct (psteps_inv m _ _ _ Hr (started_inv m addr Hm0)) as (Hm & _).
  destruct (alone_reads i chunks Hch s [] ltac:(constructor) Hm Hk) as (es & s' & rs & Hrun & Hin & _ & Hout & Hs & Hm' & E).
  rewrite (on_reads_wire reqs) in Hs, E by done. cbn [fst snd] in Hs, E.
  destruct (serve_refines reqs (v_mem s) (abs (v_mem s))) as (m' & rs' & Hs' & _ & _ & Hsn & Hfs); [done|done| |].
  { eapply Forall_impl; [exact Hreqs|]. by intros f [? _]. }
  rewrite Hs in Hs'. injection Hs' as <- <-. exists es, s'. rewrite Hsn. done.
Qed.

(** ** Closing *)

(** [Close] stops the accepting and nothing else: once the listener is closed, no run
    accepts a connection or takes one away, the accept loop does not start again, and
    its next step, an error of [Accept], ends it. *)
Theorem plc_close s tr s' :
  v_listening s = false -> v_closed s = true -> psteps s tr s' ->
  v_listening s' = false /\ v_closed s' = true /\ dom (v_conns s') = dom (v_conns s) /\ Forall (fun e => snd e <> EAccept) tr /\
  (v_accepting s = false -> v_accepting s' = false) /\
  (v_accepting s' = true -> pstep s' [] (MkPlcServer (v_addr s') false true false (v_mem s') (v_conns s'))).
Proof.
  intros Hl Hc Hr. assert (v_listening s' = false /\ v_closed s' = true /\ dom (v_conns s') = dom (v_conns s) /\
    Forall (fun e => snd e <> EAccept) tr /\ (v_accepting s = false -> v_accepting s' = false)) as (H1 & H2 & H3 & H4 & H5).
  { induction Hr as [s|s tr s1 l s2 _ IH Hst]; [done|]. destruct (IH Hl Hc) as (H1 & H2 & H3 & H4 & H5).
    destruct Hst as [s1 i _ Hl1 _|s1 Ha|s1 i k es m' k' Hk Hst|s1|s1 _]; cbn; rewrite ?app_nil_r; try (by split_and!); [congruence| |].
    - split_and!; try done. by rewrite H2.
    - split_and!; try done; [rewrite dom_insert_L, <- H3; apply elem_of_dom_2 in Hk; set_solver|].
      apply Forall_app. split; [done|]. apply Forall_fmap, Forall_forall. intros e He. cbn. by destruct Hst; set_solver. }
  split_and!; try done. intros Ha. pose proof (p_accept_error s' Ha) as Hp. by rewrite H1, H2 in Hp.
Qed.

(** ** Witnesses *)

Definition sample_server : server := started NewMockPLC "127.0.0.1:9600".
Definition sample_accepted : server := with_conn sample_server NewMockPLC 0 (MkKConn (PRead []) false).
(** The same, closed with its connection open. *)
Definition sample_closed : server := MkPlcServer "127.0.0.1:9600" false true true NewMockPLC (v_conns sample_accepted).

Lemma sample_accept : psteps sample_server [(0%nat, EAccept)] sample_accepted.
Proof. apply psteps_one, (p_accept sample_server 0); done. Qed.

Lemma sample_close : psteps sample_server [(0%nat, EAccept)] sample_closed.
Proof.
  refine (ps_snoc _ [_] _ [] _ (ps_snoc _ [_] _ [] _ sample_accept (p_close_flag _)) _).
  apply (p_close_listener (MkPlcServer "127.0.0.1:9600" true true true NewMockPLC (v_conns sample_accepted))). done.
Qed.

Lemma sample_chunk : chunk_ok (wire sample_write).
Proof. by_decide. Qed.

Lemma plc_linearizable_witness :
  exists tr s, psteps sample_server tr s /\ requests (snd <$> tr) = [sample_write] /\ plc_ok (v_mem s) /\
    snd (spec_run (abs NewMockPLC) [sample_write]) = responses (snd <$> tr).
Proof.
  destruct (alone_reads 0 [wire sample_write] (Forall_cons_2 _ _ _ sample_chunk (Forall_nil_2 _)) sample_accepted [] ltac:(constructor)
    NewMockPLC_ok eq_refl) as (es & s & rs & Hrun & _ & Hreq & _).
  change (fst (on_reads [] [wire sample_write])) with [sample_write] in Hreq.
  pose proof (psteps_app _ _ _ _ _ sample_accept Hrun) as Hr. cbn [app] in Hr.
  assert (requests (snd <$> (0%nat, EAccept) :: ((0%nat,.) <$> es)) = [sample_write]) as Hq.
  { cbn [fmap list_fmap snd]. change (EAccept :: ?l) with ([EAccept] ++ l). rewrite requests_app. cbn [app requests].
    rewrite <- Hreq. change (requests [EAccept]) with (@nil FINSFrame). cbn [app]. f_equal. apply events_label. }
  destruct (plc_linearizable NewMockPLC "127.0.0.1:9600" _ s NewMockPLC_ok Hr) as (Hm & Hsn & _). rewrite Hq in Hsn.
  eexists _, s. split; [exact Hr|]. split; [exact Hq|]. split; [exact Hm|exact Hsn].
Defined.

Lemma plc_keeps_serving_witness :
  exists es s', psteps sample_closed ((0%nat,.) <$> es) s' /\ sent es = concat (wire <$> snd (spec_run (abs NewMockPLC) [sample_write])).
Proof.
  destruct (plc_keeps_serving NewMockPLC "127.0.0.1:9600" _ sample_closed 0 [sample_write] [wire sample_write] NewMockPLC_ok sample_close eq_refl)
    as (es & s' & H1 & _ & H2 & _); [by_decide|apply Forall_cons_2; [exact sample_chunk|apply Forall_nil_2]|reflexivity|].
  exists es, s'. split; [exact H1|exact H2].
Defined.

Lemma plc_close_witness : exists tr s', psteps sample_closed tr s' /\ v_accepting sample_closed = true /\ v_accepting s' = false.
Proof.
  destruct (plc_close sample_closed [] sample_closed eq_refl eq_refl (ps_nil _)) as (_ & _ & _ & _ & _ & H).
  eexists _, _. split; [apply psteps_one; apply (H eq_refl)|]. split; reflexivity.
Defined.
