(* ===== verification/Loopback.v ===== *)
(** * The client against the PLC

    The whole stack on one connection: [SendCommand] builds and writes the frame, the
    PLC's connection handler reads it and writes its answer, the client's receive
    loop reassembles the answer and hands it to the call with its identifier.  This
    is [SendCommand] when nothing else is in progress and the network loses nothing;
    [Session.v] has the general case.  It implements the scheduler's interface, so
    that the scheduler's theorems hold of it. *)
From S2P Require Import Prelude Types Protocol Framing Floats Decoder Interfaces Scheduler Transport MockPLC.

Record loop := MkLoop { lp_plc : MockPLC; lp_sid : Z; lp_now : Z; lp_up : bool }.

Section loopback.
Context (src dst : FINSAddress).

Definition loop_send (t : loop) (commandData : bytes) : loop * res error FINSFrame :=
  if negb (lp_up t) then (t, Err ErrNotConnected) else
  let sid := nextSID (lp_sid t) in
  match command_frame src dst sid commandData with
  | Ok b =>
    match handleConnection (lp_plc t) [] [b] with
    | Ok (plc, _, out) =>
      let '(frames, _) := on_reads [] [out] in
      (MkLoop plc sid (lp_now t) (lp_up t),
       match List.find (fun f => SID (Header f) =? sid) frames with
       | Some f => Ok f
       | None => Err ErrResponseTimeout
       end)
    | _ => (MkLoop (lp_plc t) sid (lp_now t) (lp_up t), Err ErrResponseTimeout)
    end
  | _ => (MkLoop (lp_plc t) sid (lp_now t) (lp_up t), Panic)
  end.

#[export] Instance loop_transport : MemoryTransport loop := {|
  mt_ReadMemory := ReadMemory loop_send;
  mt_WriteMemory := WriteMemory loop_send;
  mt_ReadBits := ReadBits loop_send;
  mt_WriteBits := WriteBits loop_send;
  mt_IsConnected := lp_up;
  Now := fun t => (MkLoop (lp_plc t) (lp_sid t) (lp_now t + 1) (lp_up t), lp_now t);
  Sleep := fun t d => MkLoop (lp_plc t) (lp_sid t) (lp_now t + Z.max 0 d) (lp_up t) |}.

(** ** Memory requests at the PLC *)

Definition access_data (addr : MemoryAddress) (n : Z) (payload : bytes) : bytes :=
  EncodeMemoryAddress addr ++ be_bytes 2 n ++ payload.

Lemma length_EncodeMemoryAddress addr : length (EncodeMemoryAddress addr) = 4%nat.
Proof. done. Qed.

Lemma access_data_ok addr n payload : MemoryAddress_ok addr -> bytes_ok payload -> bytes_ok (access_data addr n payload).
Proof.
  intros (Ha & Hw & Hb) Hp. unfold access_data. rewrite EncodeMemoryAddress_eq, !bytes_ok_app.
  split_and!; auto with fins.
Qed.

Lemma access_data_parts addr n payload :
  MemoryAddress_ok addr -> in_u 16 n ->
  6 <= len (access_data addr n payload) /\
  sub (E := error) (access_data addr n payload) 0 4 = Ok (EncodeMemoryAddress addr) /\
  sub (E := error) (access_data addr n payload) 4 6 = Ok (be_bytes 2 n) /\
  sub_from (E := error) (access_data addr n payload) 6 = Ok payload.
Proof.
  intros Ha Hn. unfold access_data, sub_from.
  assert (length (EncodeMemoryAddress addr ++ be_bytes 2 n ++ payload) = (6 + length payload)%nat) as Hl.
  { rewrite !length_app, length_be_bytes. cbn. lia. }
  unfold len. rewrite !sub_ok by lia. rewrite Hl. split_and!; [lia|done..|]. f_equal.
  rewrite app_assoc, drop_app_length' by (rewrite length_app, length_be_bytes; done). apply take_ge. lia.
Qed.

Lemma handle_read m h addr n :
  plc_ok m -> MemoryAddress_ok addr -> in_u 16 n ->
  handleRequest m (MkFINSFrame h MRC_MEMORY_AREA_READ 0 (access_data addr n [])) =
    Ok (m, MkFINSFrame (DefaultResponseHeader h) MRC_MEMORY_AREA_READ
             (snd (spec_read (abs m) addr n)) (fst (spec_read (abs m) addr n))).
Proof.
  intros Hm Ha Hn. destruct (access_data_parts addr n [] Ha Hn) as (H1 & H2 & H3 & H4).
  unfold handleRequest. cbn [CommandCode Header Data]. rewrite Z.eqb_refl, (proj2 (Z.ltb_ge _ _)), H2 by done.
  cbn [mbind res_bind]. rewrite <- (app_nil_r (EncodeMemoryAddress addr)), DecodeMemoryAddress_encode, H3 by done.
  cbn [mbind res_bind]. rewrite be_val_bytes, readMemory_refines by done. done.
Qed.

Lemma handle_write m h addr n data :
  MemoryAddress_ok addr -> in_u 16 n ->
  handleRequest m (MkFINSFrame h MRC_MEMORY_AREA_WRITE 0 (access_data addr n data)) =
    (r ← writeMemory m addr n data;
     Ok (fst r, MkFINSFrame (DefaultResponseHeader h) MRC_MEMORY_AREA_WRITE (snd r) [])).
Proof.
  intros Ha Hn. destruct (access_data_parts addr n data Ha Hn) as (H1 & H2 & H3 & H4).
  unfold handleRequest. cbn [CommandCode Header Data].
  change (MRC_MEMORY_AREA_WRITE =? MRC_MEMORY_AREA_READ) with false.
  rewrite Z.eqb_refl, (proj2 (Z.ltb_ge _ _)), H2 by done.
  cbn [mbind res_bind]. rewrite <- (app_nil_r (EncodeMemoryAddress addr)), DecodeMemoryAddress_encode, H3 by done.
  cbn [mbind res_bind]. rewrite be_val_bytes, H4 by done. done.
Qed.

(** ** One command *)

Hypothesis src_ok : FINSAddress_ok src.
Hypothesis dst_ok : FINSAddress_ok dst.

Definition loop_ok (t : loop) : Prop := plc_ok (lp_plc t) /\ 0 <= lp_sid t <= 255 /\ lp_up t = true.

(** The request frame of a command. *)
Definition request (t : loop) (code : Z) (data : bytes) : FINSFrame :=
  MkFINSFrame (DefaultCommandHeader src dst (nextSID (lp_sid t))) code 0 data.

Lemma request_ok t code data :
  0 <= lp_sid t <= 255 -> in_u 16 code -> bytes_ok data -> FINSFrame_ok (request t code data).
Proof using src_ok dst_ok.
  intros Hs Hc Hd. assert (1 <= nextSID (lp_sid t) <= 255) as Hn.
  { rewrite nextSID_eq by done. destruct (Z.eqb_spec (lp_sid t) 255); lia. }
  unfold request, FINSFrame_ok, FINSHeader_ok. cbn [Header CommandCode EndCode Data ICF RSV GCT Dest Src SID DefaultCommandHeader].
  split_and!; try done; unfold in_u; lia.
Qed.

Lemma command_frame_wire t code data :
  in_u 16 code -> command_frame src dst (nextSID (lp_sid t)) (be_bytes 2 code ++ data) = Ok (wire (request t code data)).
Proof.
  intros Hc. unfold command_frame, sub_from.
  rewrite !sub_ok by (rewrite length_app, length_be_bytes; lia). cbn [mbind res_bind].
  rewrite drop_0, take_app_length' by (by rewrite length_be_bytes).
  rewrite drop_app_length' by (by rewrite length_be_bytes). rewrite be_val_bytes by done.
  rewrite take_ge by (rewrite length_app, length_be_bytes; lia). done.
Qed.

(** [SendCommand] returns the PLC's answer to the request. *)
Lemma loop_send_eq t code data :
  loop_ok t -> in_u 16 code -> bytes_ok data -> len data + 18 < 2 ^ 32 ->
  exists m' resp, handleRequest (lp_plc t) (request t code data) = Ok (m', resp) /\ plc_ok m' /\
    loop_send t (be_bytes 2 code ++ data) = (MkLoop m' (nextSID (lp_sid t)) (lp_now t) true, Ok resp).
Proof using src_ok dst_ok.
  intros (Hm & Hs & Hup) Hc Hd Hl. pose proof (request_ok t code data Hs Hc Hd) as Hreq.
  destruct (handleRequest_refines (lp_plc t) (request t code data) Hm Hreq) as (m' & resp & Hh & Hm' & Hsend & Hresp & _).
  exists m', resp. split; [done|]. split; [done|].
  unfold loop_send. rewrite Hup. cbn [negb]. rewrite command_frame_wire by done.
  rewrite (handleConnection_wires _ [request t code data]);
    [|apply Forall_singleton; by split|by cbn; rewrite app_nil_r].
  cbn [serve mbind res_bind]. rewrite Hh. cbn [mbind res_bind].
  rewrite (on_reads_wire [resp]); [|by apply Forall_singleton|by cbn; rewrite !app_nil_r].
  cbn [List.find].
  assert (SID (Header resp) = nextSID (lp_sid t)) as ->.
  { rewrite <- Hresp. unfold spec_handle. cbn [CommandCode Header Data request]. repeat case_match; by simplify_eq. }
  by rewrite Z.eqb_refl.
Qed.

(** ** The memory operations *)

Lemma EncodeReadCommand_access addr n :
  EncodeReadCommand addr n = be_bytes 2 MRC_MEMORY_AREA_READ ++ access_data addr n [].
Proof. rewrite EncodeReadCommand_eq. unfold access_data. by rewrite app_nil_r. Qed.

(** The end of a memory read. *)
Lemma loop_read t addr n :
  loop_ok t -> MemoryAddress_ok addr -> in_u 16 n ->
  exists resp, loop_send t (EncodeReadCommand addr n) = (MkLoop (lp_plc t) (nextSID (lp_sid t)) (lp_now t) true, Ok resp) /\
    Data resp = fst (spec_read (abs (lp_plc t)) addr n) /\ EndCode resp = snd (spec_read (abs (lp_plc t)) addr n).
Proof using src_ok dst_ok.
  intros Ht Ha Hn. pose proof Ht as (Hm & _).
  assert (bytes_ok (access_data addr n [])) as Hb by (apply access_data_ok; [done|constructor]).
  rewrite EncodeReadCommand_access.
  destruct (loop_send_eq t MRC_MEMORY_AREA_READ (access_data addr n [])) as (m' & resp & Hh & _ & ->);
    [done|by_decide|done|vm_compute; done|].
  unfold request in Hh. rewrite handle_read in Hh by done. injection Hh as <- <-. by eexists.
Qed.

Lemma loop_write t addr n data :
  loop_ok t -> MemoryAddress_ok addr -> in_u 16 n -> bytes_ok data -> len data + 24 < 2 ^ 32 ->
  exists m' code resp, writeMemory (lp_plc t) addr n data = Ok (m', code) /\ plc_ok m' /\
    loop_send t (EncodeWriteCommand addr n data) = (MkLoop m' (nextSID (lp_sid t)) (lp_now t) true, Ok resp) /\
    EndCode resp = code.
Proof using src_ok dst_ok.
  intros Ht Ha Hn Hd Hl. pose proof Ht as (Hm & _).
  rewrite EncodeWriteCommand_eq. fold (access_data addr n data).
  destruct (loop_send_eq t MRC_MEMORY_AREA_WRITE (access_data addr n data)) as (m' & resp & Hh & Hm' & ->);
    [done|by_decide|by apply access_data_ok| |].
  { unfold access_data. rewrite !len_app, len_be_bytes. change (len (EncodeMemoryAddress addr)) with 4. lia. }
  unfold request in Hh. rewrite handle_write in Hh by done.
  destruct (writeMemory_refines (lp_plc t) addr n data) as (m2 & code & Hw & Hm2 & _); [done..|].
  rewrite Hw in Hh. cbn in Hh. injection Hh as <- <-. exists m2, code. by eexists.
Qed.

(** ** The PLC as a memory *)

Definition plc_memory (m : MockPLC) : memory := {|
  m_words := fun c => match spec_area c with Some (Words a) => words a | _ => -1 end;
  m_byte := fun c i => match spec_area c with
    | Some (Words a) => default 0 (contents m a !! Z.to_nat i)
    | _ => 0
    end;
  m_bits := fun c w b => match spec_area c with
    | Some (Bits a) => if 16 * words a <? w * 16 + b + 1 then None else Some (lbit (contents m a) (w * 16 + b))
    | Some (Words a) => if words a <? w + 1 then None
                        else Some (Z.testbit (default 0 (contents m a !! Z.to_nat (2 * w))) 0)
    | None => None
    end |}.

Lemma plc_memory_bytes m c a w n :
  plc_ok m -> spec_area c = Some (Words a) -> 0 <= w -> 0 <= n -> w + n <= words a ->
  map (byte_of (abs m a)) (seqZ (2 * w) (2 * n)) = m_bytes (plc_memory m) c (2 * w) (2 * n).
Proof.
  intros Hm Hc Hw Hn Hr. destruct (Hm a) as [Hlen Hok]. unfold m_bytes. apply map_ext_in.
  intros j Hj%list_elem_of_In%elem_of_seqZ. cbn. rewrite Hc.
  destruct (lookup_lt_is_Some_2 (contents m a) (Z.to_nat j)) as [b Hb]; [unfold len in Hlen; lia|].
  rewrite Hb. apply (byte_of_lbit _ (words a)); [done..|lia|done].
Qed.

Lemma bit_word_disjoint c a : spec_area c = Some (Bits a) -> IsBitArea c = true.
Proof.
  intros Hc. destruct (area_dispatch c) as [(? & _ & _ & E)|[(? & _ & E & _)|(_ & _ & E)]]; congruence.
Qed.

Lemma read_bit_word m c a w b :
  plc_ok m -> spec_area c = Some (Words a) -> 0 <= w ->
  match spec_read (abs m) (MkMemoryAddress c w b) 1 with
  | (d, code) => if words a <? w + 1 then code <> 0
                 else code = 0 /\ bits_of 1 d = [Z.testbit (default 0 (contents m a !! Z.to_nat (2 * w))) 0]
  end.
Proof.
  intros Hm Hc Hw. unfold spec_read. cbn [Area Address BitOffset]. rewrite Hc. destruct (words a <? w + 1) eqn:E; zbool; [done|].
  split; [done|]. rewrite (plc_memory_bytes m c) by (done || lia). unfold m_bytes.
  change (2 * 1) with 2. rewrite seqZ_cons by lia. rewrite fmap_cons. cbn [bits_of m_byte plc_memory]. rewrite Hc.
  f_equal. by rewrite (land_bit _ 0), negb_involutive.
Qed.

(** ** The laws of the interface *)

Definition loop_serves (t : loop) (M : memory) : Prop :=
  plc_ok (lp_plc t) /\ 0 <= lp_sid t <= 255 /\ M = plc_memory (lp_plc t).

Lemma loop_down t cmd : lp_up t = false -> loop_send t cmd = (t, Err ErrNotConnected).
Proof. intros Hu. unfold loop_send. by rewrite Hu. Qed.

Lemma nextSID_byte t : 0 <= lp_sid t <= 255 -> 0 <= nextSID (lp_sid t) <= 255.
Proof. intros. rewrite nextSID_eq by done. destruct (Z.eqb_spec (lp_sid t) 255); lia. Qed.

Lemma loop_read_memory_law t M area a n t' r :
  loop_serves t M -> in_u 8 area -> IsBitArea area = false -> in_u 16 a -> in_u 16 n ->
  mt_ReadMemory t area a n = (t', r) ->
  loop_serves t' M /\ (lp_up t = true -> lp_up t' = true) /\
  match r with
  | Ok d => d = m_bytes M area (2 * a) (2 * n)
  | Err _ => lp_up t = true -> m_words M area < a + n
  | Panic => False
  end.
Proof using src_ok dst_ok.
  intros (Hm & Hs & ->) Harea Hbit Ha Hn. cbn [mt_ReadMemory loop_transport]. unfold ReadMemory.
  destruct (lp_up t) eqn:Hup; [|rewrite loop_down by done; intros [= <- <-]; rewrite Hup; split; [exact (conj Hm (conj Hs eq_refl))|done]].
  assert (MemoryAddress_ok (NewMemoryAddress area a)) as Haddr by (by split_and!).
  destruct (loop_read t (NewMemoryAddress area a) n) as (resp & -> & Hd & He); [exact (conj Hm (conj Hs Hup))|done|done|].
  intros [= <- <-]. split; [exact (conj Hm (conj (nextSID_byte t Hs) eq_refl))|]. split; [done|].
  unfold check_end. rewrite He, Hd. unfold spec_read. cbn [Area Address NewMemoryAddress]. cbn [m_words plc_memory].
  destruct (spec_area area) as [[ar|ar]|] eqn:Hsa.
  - unfold in_u in *. destruct (words ar <? a + n) eqn:E; zbool; [cbn; intros _; lia|]. change (negb _) with false. apply plc_memory_bytes; done || lia.
  - apply bit_word_disjoint in Hsa. congruence.
  - cbn. intros _. unfold in_u in *. lia.
Qed.

Lemma loop_read_bit_law t M area a b t' r :
  loop_serves t M -> in_u 8 area -> in_u 16 a -> in_u 8 b ->
  mt_ReadBits t area a b 1 = (t', r) ->
  loop_serves t' M /\ (lp_up t = true -> lp_up t' = true) /\
  match r with
  | Ok d => exists x, d = [x] /\ m_bits M area a b = Some x
  | Err _ => lp_up t = true -> m_bits M area a b = None
  | Panic => False
  end.
Proof using src_ok dst_ok.
  intros (Hm & Hs & ->) Harea Ha Hb. cbn [mt_ReadBits loop_transport]. unfold ReadBits.
  destruct (lp_up t) eqn:Hup; [|rewrite loop_down by done; intros [= <- <-]; rewrite Hup; split; [exact (conj Hm (conj Hs eq_refl))|done]].
  destruct (loop_read t (NewMemoryAddressWithBit area a b) 1) as (resp & -> & Hd & He); [exact (conj Hm (conj Hs Hup))|done|by_decide|].
  intros [= <- <-]. split; [exact (conj Hm (conj (nextSID_byte t Hs) eq_refl))|]. split; [done|].
  unfold check_end. rewrite He, Hd. cbn [m_bits plc_memory]. change (Z.to_nat 1) with 1%nat.
  destruct (spec_area area) as [[ar|ar]|] eqn:Hsa.
  - pose proof (read_bit_word (lp_plc t) area ar a b Hm Hsa) as Hw. unfold NewMemoryAddressWithBit.
    destruct (spec_read _ _ _) as [d code]. cbn [fst snd]. specialize (Hw (proj1 Ha)). destruct (words ar <? a + 1).
    + by rewrite (proj2 (Z.eqb_neq code END_CODE_NORMAL)).
    + destruct Hw as [-> Hd']. cbn. eauto.
  - unfold spec_read. cbn [Area Address BitOffset NewMemoryAddressWithBit]. rewrite Hsa.
    destruct (16 * words ar <? _); [done|]. rewrite seqZ_cons by lia. cbn. eexists. split; [|done].
    unfold abs. by destruct (lbit _ _).
  - unfold spec_read. cbn [Area Address BitOffset NewMemoryAddressWithBit]. rewrite Hsa. done.
Qed.

#[export] Instance loop_stable : StableMemory loop.
Proof using src_ok dst_ok.
  refine {| serves := loop_serves; reliable := fun t => lp_up t = true |}.
  - exact loop_read_memory_law.
  - exact loop_read_bit_law.
  - done.
  - done.
Defined.

(** ** Writing and reading back *)

Lemma waitMinInterval_loop s t s1 t1 :
  waitMinInterval s t = (s1, t1) ->
  lp_plc t1 = lp_plc t /\ lp_sid t1 = lp_sid t /\ lp_up t1 = lp_up t.
Proof.
  unfold waitMinInterval. destruct (minInterval s <=? 0); [by intros [= <- <-]|].
  cbn [Now loop_transport]. destruct (_ <? minInterval s); intros [= <- <-]; done.
Qed.

(** A word write that fits changes just the bytes written. *)
Lemma writeMemory_bytes m addr n data a i :
  plc_ok m -> MemoryAddress_ok addr -> in_u 16 n -> spec_area (Area addr) = Some (Words a) ->
  Address addr + n <= words a -> len data <= 2 * n -> 0 <= i < len data ->
  exists m', writeMemory m addr n data = Ok (m', END_CODE_NORMAL) /\
    contents m' a !! Z.to_nat (2 * Address addr + i) = data !! Z.to_nat i.
Proof.
  intros Hm (_ & [Ha _] & _) [Hn _] Hsa Hr Hl Hi. destruct (Hm a) as [Hlen _].
  destruct (area_dispatch (Area addr)) as [(b & Hwa & Hg & E)|[(b & _ & _ & _ & E)|(_ & _ & E)]];
    rewrite Hsa in E; simplify_eq.
  unfold writeMemory. rewrite Hwa, Hg, (proj2 (Z.ltb_ge _ _)), copy_slice_ok by lia. cbn.
  eexists. split; [done|]. rewrite contents_store, decide_True by done. unfold len in *.
  rewrite (take_ge data) by lia. rewrite lookup_copy_at by lia. rewrite decide_True by lia. f_equal. lia.
Qed.

Lemma written_bytes m addr n data a :
  plc_ok m -> MemoryAddress_ok addr -> in_u 16 n -> spec_area (Area addr) = Some (Words a) ->
  Address addr + n <= words a -> len data <= 2 * n ->
  exists m', writeMemory m addr n data = Ok (m', END_CODE_NORMAL) /\
    m_bytes (plc_memory m') (Area addr) (2 * Address addr) (len data) = data.
Proof.
  intros Hm Haddr Hn Hsa Hr Hl.
  assert (exists m', writeMemory m addr n data = Ok (m', END_CODE_NORMAL)) as [m' Hw].
  { destruct (area_dispatch (Area addr)) as [(b & Hwa & Hg & E)|[(b & _ & _ & _ & E)|(_ & _ & E)]];
      rewrite Hsa in E; simplify_eq. destruct (Hm b) as [Hlen _]. destruct Haddr as (_ & [? _] & _), Hn as [? _].
    unfold writeMemory. rewrite Hwa, Hg, (proj2 (Z.ltb_ge _ _)), copy_slice_ok by lia. cbn. by eexists. }
  exists m'. split; [done|]. apply list_eq. intros j. unfold m_bytes.
  destruct (decide (Z.of_nat j < len data)) as [Hj|Hj].
  - destruct (writeMemory_bytes m addr n data a (Z.of_nat j)) as (m2 & Hw2 & Hb); [done..|lia|].
    rewrite Hw in Hw2. injection Hw2 as <-. rewrite list_lookup_fmap, lookup_seqZ_lt by lia. cbn.
    rewrite Hsa, Hb, Nat2Z.id. destruct (lookup_lt_is_Some_2 data j) as [b ->]; [unfold len in Hj; lia|done].
  - rewrite list_lookup_fmap, lookup_seqZ_ge by lia. rewrite lookup_ge_None_2; [done|]. unfold len in Hj. lia.
Qed.

#[export] Instance loop_clock : SteadyClock loop.
Proof. split; intros; cbn; lia. Defined.

Lemma has_type_sizes dt v :
  has_type dt v ->
  dt <> DataTypeBIT /\ dt <> DataTypeSTRING /\
  exists n, DataTypeSize dt = Ok n /\ (n = 1 \/ n = 2 \/ n = 4 \/ n = 8).
Proof. destruct v; cbn; try done; intros ->; (split; [done|]; split; [done|]); eexists; (split; [reflexivity|tauto]). Qed.

(** Points read from a PLC that has them: the memory stays, and each gets its value. *)
Lemma read_loop `{GoRuntime} s t ps :
  loop_ok t -> Forall low_point ps -> Forall (in_range (plc_memory (lp_plc t))) ps ->
  exists s' t' rs, ReadPoints s t ps = Ok (s', t', rs) /\ loop_ok t' /\ plc_memory (lp_plc t') = plc_memory (lp_plc t) /\
    dom rs = list_to_set (ID <$> ps) /\ good_results (plc_memory (lp_plc t)) ps True rs.
Proof using src_ok dst_ok.
  intros (Hm & Hs & Hup) Hok Hr.
  destruct (ReadPoints_ok (plc_memory (lp_plc t)) ps True (s64 (maxFrameLength s * 2)) s t)
    as (s' & t' & rs & Hrd & (Hm' & Hs' & HM) & Hup' & Hd & Hg); try done.
  { eapply Forall_impl; [exact Hok|]. intros p. apply low_point_ok. }
  exists s', t', rs. split; [done|]. split; [exact (conj Hm' (conj Hs' (Hup' I)))|]. by split.
Qed.

(** One point read back from a PLC that holds its value. *)
Lemma read_one `{GoRuntime} s t p v :
  loop_ok t -> low_point p -> in_range (plc_memory (lp_plc t)) p ->
  point_value (plc_memory (lp_plc t)) p = Some v ->
  exists s' t' ts, ReadPoints s t [p] = Ok (s', t', {[ID p := MkValue v QualityGood ts]}) /\ loop_ok t'.
Proof using src_ok dst_ok.
  intros Ht Hok Hr Hv.
  destruct (read_loop s t [p]) as (s' & t' & rs & Hrd & Ht' & _ & Hd & Hg); [done|by apply Forall_singleton..|].
  exists s', t'. assert (is_Some (rs !! ID p)) as [[x q ts] Hx].
  { apply elem_of_dom. rewrite Hd. set_solver. }
  exists ts. split; [|done]. rewrite Hrd. do 2 f_equal. apply map_eq. intros id.
  destruct (decide (id = ID p)) as [->|Hne].
  - rewrite lookup_singleton_eq, Hx. destruct (Hg (ID p) _ Hx) as (p' & Hp' & _ & Ha).
    apply list_elem_of_singleton in Hp' as ->. destruct Ha as [[Hq Hpv]|(_ & _ & Hn)].
    + cbn in *. congruence.
    + rewrite Hn in Hv by done. done.
  - rewrite lookup_singleton_ne by done. apply not_elem_of_dom. rewrite Hd. set_solver.
Qed.

(** Points that have a value are all read with good quality. *)
Lemma read_good `{GoRuntime} s t ps :
  loop_ok t -> Forall low_point ps -> Forall (in_range (plc_memory (lp_plc t))) ps ->
  Forall (fun p => is_Some (point_value (plc_memory (lp_plc t)) p)) ps ->
  exists s' t' rs, ReadPoints s t ps = Ok (s', t', rs) /\ loop_ok t' /\
    Forall (fun p => exists v, rs !! ID p = Some v /\ val_Quality v = QualityGood) ps.
Proof using src_ok dst_ok.
  intros Ht Hok Hr Hv. destruct (read_loop s t ps Ht Hok Hr) as (s' & t' & rs & Hrd & Ht' & _ & Hd & Hg).
  exists s', t', rs. split; [done|]. split; [done|]. apply Forall_forall. intros p Hp.
  assert (is_Some (rs !! ID p)) as [v Hx] by (apply elem_of_dom; rewrite Hd; set_solver).
  exists v. split; [done|]. destruct (Hg _ _ Hx) as (p' & Hp' & _ & Ha). rewrite Forall_forall in Hv.
  destruct Ha as [[Hq _]|(_ & _ & Hn)]; [done|]. specialize (Hv p' Hp'). rewrite Hn in Hv by done. by destruct Hv.
Qed.

(** The number at a word address. *)
Lemma number_point_value M p a :
  ParseAddress (point_Address p) = Ok a -> point_isBit p a = false -> IsBit a = false -> IsString a = false ->
  In (point_DataType p) encodable -> decode_min (point_DataType p) (Some a) <= type_size (point_DataType p) ->
  0 < type_size (point_DataType p) -> is_Some (point_value M p).
Proof.
  intros Hp Hpb Hb Hs Hdt Hmin Hsz. unfold point_value. rewrite Hp. unfold group_key. rewrite Hpb. unfold word_value. rewrite Hs.
  cbn zeta. rewrite (proj2 (Z.eqb_neq _ 0)) by lia.
  match goal with |- context [DecodeValue ?d ?t ?x] => pose proof (DecodeValue_cases d t x) as Hd; destruct (DecodeValue d t x) as [v|e|] end; [done| |done].
  rewrite len_m_bytes in Hd by lia. assert (~ ~ In (point_DataType p) (DataTypeBIT :: encodable)) as Hin by (intros Hn; apply Hn; by right).
  exfalso. destruct e; lia || tauto.
Qed.

(** The value of a bit. *)
Lemma bit_point_value m p a code ar :
  ParseAddress (point_Address p) = Ok a -> group_key p a = (code, true) -> spec_area code = Some (Bits ar) ->
  pa_Address a * 16 + Bit a + 1 <= 16 * words ar -> is_Some (point_value (plc_memory m) p).
Proof.
  intros Hp Hk Hsa Hr. unfold point_value. rewrite Hp, Hk. cbn [m_bits plc_memory]. rewrite Hsa, (proj2 (Z.ltb_ge _ _)) by lia. by eexists.
Qed.

(** The sizes of a number at a point. *)
Lemma number_size `{GoFloat} v p a :
  goval_ok v -> has_type (point_DataType p) v -> IsBit a = false ->
  exists bs, EncodeValue v (point_DataType p) (Some a) = Ok bs /\ bytes_ok bs /\
    (len bs = 1 \/ len bs = 2 \/ len bs = 4 \/ len bs = 8) /\ type_size (point_DataType p) = len bs /\
    point_size (MkGroupedPoint p a 0) = len bs /\ wordCount (MkGroupedPoint p a 0) = (len bs + 1) / 2 /\
    DecodeValue bs (point_DataType p) (Some a) = Ok v.
Proof.
  intros Hv Hty Hbit. destruct (has_type_sizes _ _ Hty) as (_ & _ & n & Hn & Hlen).
  destruct (value_codec v (point_DataType p) (Some a) []) as (bs & Henc & Hbs & Hsize & Hdec); [done..|].
  rewrite app_nil_r in Hdec. rewrite Hsize in Hn. injection Hn as <-.
  assert (type_size (point_DataType p) = len bs) as Hts by (unfold type_size; by rewrite Hsize).
  assert (point_size (MkGroupedPoint p a 0) = len bs) as Hps.
  { unfold point_size. cbn. rewrite Hts. destruct (Z.eqb_spec (len bs) 0); [lia|done]. }
  exists bs. split_and!; try done. rewrite wordCount_eq, Hps; lia || done.
Qed.

(** The words a write of encoded bytes sends. *)
Definition word_payload (p : Point) (a : ParsedAddress) (bs : bytes) : Z * bytes :=
  if bool_decide (point_DataType p = DataTypeSTRING) && (0 <? StringLen a) then
    let n := u16 (Z.quot (s64 (StringLen a + 1)) 2) in
    if len bs <? n * 2 then (n, copy_at 0 bs (make_bytes (Z.to_nat (n * 2)))) else (n, bs)
  else (u16 (Z.quot (s64 (len bs + 1)) 2), bs).

(** Writing to words that exist. *)
Lemma write_payload `{GoFloat} s t p v a ar bs n sent :
  loop_ok t -> ParseAddress (point_Address p) = Ok a -> point_isBit p a = false ->
  EncodeValue v (point_DataType p) (Some a) = Ok bs -> word_payload p a bs = (n, sent) -> bytes_ok sent ->
  0 <= pa_Address a -> 0 < n -> len sent <= 2 * n -> spec_area (AreaCode a) = Some (Words ar) -> pa_Address a + n <= words ar ->
  exists s1 t1, WritePoint s t p v = (s1, t1, Ok tt) /\ loop_ok t1 /\
    m_bytes (plc_memory (lp_plc t1)) (AreaCode a) (2 * pa_Address a) (len sent) = sent.
Proof using src_ok dst_ok.
  intros Ht Hp Hpb Henc Hpay Hbs Ha0 Hn0 Hlen Hsa Hr. pose proof (parsed_code _ _ Hp) as Hcode.
  assert (words ar <= 32768) as Hwords by (by destruct ar).
  unfold WritePoint. rewrite Hp, Henc, Hpb. unfold word_payload in Hpay.
  destruct (waitMinInterval (add_total s) t) as [s0 t0] eqn:Hwait.
  destruct (waitMinInterval_loop _ _ _ _ Hwait) as (E1 & E2 & E3).
  assert (loop_ok t0) as Ht0 by (unfold loop_ok; by rewrite E1, E2, E3).
  cbn zeta. rewrite Hpay, (uwrap_id 16 (pa_Address a)) by (unfold in_u; lia).
  cbn [mt_WriteMemory loop_transport]. unfold WriteMemory.
  set (maddr := NewMemoryAddress (AreaCode a) (pa_Address a)).
  assert (MemoryAddress_ok maddr) as Hma by (unfold MemoryAddress_ok, maddr, in_u in *; cbn; lia).
  assert (in_u 16 n) as Hn by (unfold in_u; lia).
  destruct (loop_write t0 maddr n sent) as (m' & code & resp & Hwm & Hm' & -> & Hend); [done..|lia|].
  destruct (written_bytes (lp_plc t0) maddr n sent ar) as (m2 & Hwm2 & Hmb); [apply Ht0|done|done|done|cbn; lia|lia|].
  rewrite Hwm in Hwm2. injection Hwm2 as <- ->. unfold check_end. rewrite Hend.
  change (negb (END_CODE_NORMAL =? END_CODE_NORMAL)) with false. cbn iota.
  do 2 eexists. split; [done|]. split; [|done]. split_and!; try done; apply nextSID_byte; apply Ht0.
Qed.

(** Writing a number, then reading it. *)
Lemma number_written_read `{GoFloat} `{GoRuntime} s t p v a :
  loop_ok t -> ParseAddress (point_Address p) = Ok a -> IsBit a = false -> IsString a = false ->
  goval_ok v -> has_type (point_DataType p) v ->
  pa_Address a + wordCount (MkGroupedPoint p a 0) <= m_words (plc_memory (lp_plc t)) (AreaCode a) ->
  exists s1 t1 s2 t2 ts, WritePoint s t p v = (s1, t1, Ok tt) /\ loop_ok t1 /\
    ReadPoints s1 t1 [p] = Ok (s2, t2, {[ID p := MkValue v QualityGood ts]}) /\ loop_ok t2.
Proof using src_ok dst_ok.
  intros Ht Hp Hbit Hstr Hv Hty Hr. destruct (has_type_sizes _ _ Hty) as (Hnb & Hns & _).
  assert (point_isBit p a = false) as Hpb by (unfold point_isBit; by rewrite Hbit, bool_decide_false).
  destruct (number_size v p a Hv Hty Hbit) as (bs & Henc & Hbs & Hlen & Hts & Hps & Hwc & Hdec).
  rewrite Hwc in Hr. pose proof Hp as (i & _ & _ & [Ha0 _] & _)%ParseAddress_sound.
  destruct (spec_area (AreaCode a)) as [[ar|ar]|] eqn:Hsa; cbn [m_words plc_memory] in Hr; rewrite Hsa in Hr; [|zdm..].
  assert (words ar <= 32768) as Hwords by (by destruct ar).
  destruct (write_payload s t p v a ar bs ((len bs + 1) / 2) bs) as (s1 & t1 & Hw & Ht1 & Hmb); try done; [|zdm..|].
  { unfold word_payload. rewrite (bool_decide_false _ Hns). cbn [andb]. by rewrite s64_id, Z.quot_div_nonneg, uwrap_id by (unfold in_u; zdm). }
  destruct (read_one s1 t1 p v Ht1) as (s2 & t2 & ts & Hread & Ht2).
  - unfold low_point, point_ok. rewrite Hp, Hpb. split; [|congruence]. unfold fits. rewrite Hwc, Hps. cbn. split_and!; zdm.
  - unfold in_range. rewrite Hp. intros _. rewrite Hwc. cbn [m_words plc_memory]. by rewrite Hsa.
  - unfold point_value. rewrite Hp. unfold group_key. rewrite Hpb. unfold word_value. rewrite Hstr, Hts.
    rewrite (proj2 (Z.eqb_neq (len bs) 0)) by lia. by rewrite Hmb, Hdec.
  - exists s1, t1, s2, t2, ts. by split_and!.
Qed.

(** The words a string of a field takes: its bytes, and a zero when their number is odd. *)
Lemma string_payload p a bs :
  point_DataType p = DataTypeSTRING -> 0 < StringLen a <= 2 ^ 16 -> len bs = StringLen a -> bytes_ok bs ->
  exists sent, word_payload p a bs = ((StringLen a + 1) / 2, sent) /\ bytes_ok sent /\
    len sent = 2 * ((StringLen a + 1) / 2) /\ take (Z.to_nat (StringLen a)) sent = bs.
Proof.
  intros Hdt Hn Hl Hbs. unfold word_payload. rewrite Hdt, bool_decide_true, (proj2 (Z.ltb_lt _ _)) by (done || lia). cbn [andb].
  rewrite s64_id, Z.quot_div_nonneg, uwrap_id by (unfold in_u; zdm). set (k := (StringLen a + 1) / 2).
  destruct (len bs <? k * 2) eqn:E; zbool; eexists; (split; [done|]).
  - rewrite copy_into_zeros, take_ge by (unfold len in *; zdm). unfold len in *.
    rewrite length_app, length_replicate, take_app_length' by lia. split_and!; [|zdm|done].
    apply Forall_app. split; [done|]. by apply Forall_replicate.
  - unfold len in *. rewrite take_ge by lia. split_and!; try done. subst k. zdm.
Qed.

(** Writing a string, then reading it: it comes back cut to the length of its field. *)
Lemma string_written_read `{GoFloat} `{GoRuntime} s t p str a :
  loop_ok t -> ParseAddress (point_Address p) = Ok a -> IsString a = true -> point_DataType p = DataTypeSTRING ->
  Forall (fun b => b <> 0) (bytes_of_string str) ->
  pa_Address a + (StringLen a + 1) / 2 <= m_words (plc_memory (lp_plc t)) (AreaCode a) ->
  exists s1 t1 s2 t2 ts, WritePoint s t p (VString str) = (s1, t1, Ok tt) /\ loop_ok t1 /\
    ReadPoints s1 t1 [p] = Ok (s2, t2, {[ID p := MkValue (VString (string_of_bytes
      (take (Z.to_nat (StringLen a)) (bytes_of_string str)))) QualityGood ts]}) /\ loop_ok t2.
Proof using src_ok dst_ok.
  intros Ht Hp Hstr Hdt Hnz Hr.
  assert (0 <= pa_Address a /\ IsBit a = false /\ 0 < StringLen a) as (Ha0 & Hbit & Hn0).
  { apply ParseAddress_sound in Hp as (i & _ & _ & [? _] & Hc). destruct Hc as [(_ & ? & _)|[(_ & ? & _)|(? & _ & _ & ? & _)]]; [congruence..|]. split_and!; lia || done. }
  destruct (spec_area (AreaCode a)) as [[ar|ar]|] eqn:Hsa; cbn [m_words plc_memory] in Hr; rewrite Hsa in Hr; [|zdm..].
  assert (words ar <= 32768) as Hwords by (by destruct ar).
  assert (string_len (Some a) str = StringLen a) as Hsl by (unfold string_len; by rewrite (proj2 (Z.ltb_lt _ _))).
  destruct (string_codec str (Some a) []) as [Henc Hdec]; [done|rewrite Hsl; unfold maxAlloc; zdm|by right|].
  pose proof (len_stored_string (Some a) str) as Hlen. pose proof (stored_string_ok (Some a) str) as Hbs.
  rewrite app_nil_r in Hdec. cbn [read_back] in Hdec. rewrite Hsl in Hlen, Hdec.
  rewrite until_nul_id in Hdec by (by apply Forall_take). set (stored := stored_string _ _) in *.
  destruct (string_payload p a stored) as (sent & Hpay & Hsent & Hls & Htake); [done|zdm|done..|].
  assert (point_isBit p a = false) as Hpb by (unfold point_isBit; by rewrite Hbit, Hdt).
  rewrite <- Hdt in Henc.
  destruct (write_payload s t p (VString str) a ar stored ((StringLen a + 1) / 2) sent) as (s1 & t1 & Hw & Ht1 & Hmb); try done; [zdm..|].
  assert (type_size (point_DataType p) = 0) as Hts by (by rewrite Hdt).
  assert (point_size (MkGroupedPoint p a 0) = StringLen a) as Hps by (unfold point_size; cbn; by rewrite Hts, Hstr).
  assert (wordCount (MkGroupedPoint p a 0) = (StringLen a + 1) / 2) as Hwc by (rewrite wordCount_eq, Hps; zdm || done).
  destruct (read_one s1 t1 p (VString (string_of_bytes (take (Z.to_nat (StringLen a)) (bytes_of_string str)))) Ht1)
    as (s2 & t2 & ts & Hread & Ht2).
  - unfold low_point, point_ok. rewrite Hp, Hpb. split; [|done]. unfold fits. rewrite Hwc, Hps. cbn. split_and!; zdm.
  - unfold in_range. rewrite Hp. intros _. rewrite Hwc. cbn [m_words plc_memory]. by rewrite Hsa.
  - unfold point_value. rewrite Hp. unfold group_key. rewrite Hpb. unfold word_value. rewrite Hstr.
    rewrite <- (Z.add_0_r (2 * pa_Address a)), <- (m_bytes_slice _ _ _ (len sent)) by zdm.
    by rewrite Hmb, drop_0, Htake, Hdec.
  - exists s1, t1, s2, t2, ts. by split_and!.
Qed.

Lemma bit_code_not_words w c a : GetBitAreaCode w = Ok c -> spec_area c <> Some (Words a).
Proof.
  unfold GetBitAreaCode.
  repeat match goal with |- context [w =? ?k] => destruct (Z.eqb_spec w k) as [->|_]; [by intros [= <-]|] end.
  destruct (_ && _) eqn:E; [|done]. zbool. intros [= <-].
  unfold MemoryAreaEM0Word, MemoryAreaEM15Word in *. enum w 0xa0 16; by vm_compute.
Qed.

(** Writing a bit that exists. *)
Lemma write_bool `{GoFloat} s t p b a code ar :
  loop_ok t -> ParseAddress (point_Address p) = Ok a -> IsBit a = true ->
  GetBitAreaCode (AreaCode a) = Ok code -> spec_area code = Some (Bits ar) ->
  0 <= pa_Address a < 65536 -> 0 <= Bit a <= 15 -> pa_Address a * 16 + Bit a + 1 <= 16 * words ar ->
  exists s1 t1, WritePoint s t p (VBool b) = (s1, t1, Ok tt) /\ loop_ok t1 /\
    lbit (contents (lp_plc t1) ar) (pa_Address a * 16 + Bit a) = b.
Proof using src_ok dst_ok.
  intros Ht Hp Hbit Hcode Hsa Haddr Hb15 Hrange. pose proof (GetBitAreaCode_byte _ _ Hcode) as Hcb.
  assert (EncodeValue (VBool b) (point_DataType p) (Some a) = Ok [b2z b]) as Henc.
  { unfold EncodeValue, addr_IsBit. rewrite Hbit. by destruct b. }
  assert (bytes_ok [b2z b]) as Hbb by (by destruct b; by_decide).
  unfold WritePoint. rewrite Hp, Henc, Hcode. unfold point_isBit. rewrite Hbit. cbn [orb].
  destruct (waitMinInterval (add_total s) t) as [s0 t0] eqn:Hwait.
  destruct (waitMinInterval_loop _ _ _ _ Hwait) as (E1 & E2 & E3).
  assert (loop_ok t0) as Ht0 by (unfold loop_ok; by rewrite E1, E2, E3).
  rewrite (uwrap_id 16 (pa_Address a)), (uwrap_id 8 (Bit a)) by (unfold in_u; lia).
  cbn [mt_WriteBits loop_transport]. unfold WriteBits. change (u16 (len [negb (b2z b =? 0)])) with 1.
  replace (_ <$> [negb (b2z b =? 0)]) with [b2z b] by (by destruct b).
  set (maddr := NewMemoryAddressWithBit code (pa_Address a) (Bit a)).
  assert (MemoryAddress_ok maddr) as Hma by (unfold MemoryAddress_ok, maddr, in_u in *; cbn; lia).
  destruct (loop_write t0 maddr 1 [b2z b]) as (m' & ec & resp & Hwm & Hm' & -> & Hend); [done|done|by_decide|done|by vm_compute|].
  destruct (writeMemory_refines (lp_plc t0) maddr 1 [b2z b]) as (m2 & ec2 & Hwm2 & _ & Hec & Habs); [apply Ht0|done|by_decide|done|].
  rewrite Hwm in Hwm2. injection Hwm2 as <- <-.
  unfold spec_write in Hec, Habs. cbn [Area Address BitOffset maddr NewMemoryAddressWithBit] in Hec, Habs.
  rewrite Hsa, (proj2 (Z.ltb_ge _ _)) in Hec, Habs by lia. cbn [fst snd] in Hec, Habs.
  unfold check_end. rewrite Hend, <- Hec. change (negb (END_CODE_NORMAL =? END_CODE_NORMAL)) with false. cbn iota.
  do 2 eexists. split; [done|]. split; [split_and!; try done; apply nextSID_byte; apply Ht0|].
  specialize (Habs ar (pa_Address a * 16 + Bit a)). unfold abs in Habs. cbn [lp_plc]. rewrite <- Habs by lia.
  rewrite decide_True, Z.leb_refl, (proj2 (Z.ltb_lt _ _)), Z.sub_diag by (done || (change (len [b2z b]) with 1; lia)).
  by destruct b.
Qed.

(** Writing a bit, then reading it. *)
Lemma bit_written_read `{GoFloat} `{GoRuntime} s t p b a code :
  loop_ok t -> ParseAddress (point_Address p) = Ok a -> IsBit a = true ->
  GetBitAreaCode (AreaCode a) = Ok code -> pa_Address a < 65536 ->
  m_bits (plc_memory (lp_plc t)) code (pa_Address a) (Bit a) <> None ->
  exists s1 t1 s2 t2 ts, WritePoint s t p (VBool b) = (s1, t1, Ok tt) /\ loop_ok t1 /\
    ReadPoints s1 t1 [p] = Ok (s2, t2, {[ID p := MkValue (VBool b) QualityGood ts]}) /\ loop_ok t2.
Proof using src_ok dst_ok.
  intros Ht Hp Hbit Hcode Haddr Hex.
  assert (point_isBit p a = true) as Hpb by (unfold point_isBit; by rewrite Hbit).
  assert (0 <= pa_Address a /\ 0 <= Bit a <= 15) as [Ha0 Hb15].
  { apply ParseAddress_sound in Hp as (i & _ & _ & [? _] & [[? _]|[(_ & _ & ? & _)|[? _]]]); [congruence|done|congruence]. }
  destruct (spec_area code) as [[ar|ar]|] eqn:Hsa; cbn [m_bits plc_memory] in Hex; rewrite Hsa in Hex; [|..|done].
  { by apply (bit_code_not_words _ _ ar) in Hcode. }
  destruct (16 * words ar <? _) eqn:Hrange; [done|]. zbool.
  destruct (write_bool s t p b a code ar) as (s1 & t1 & Hw & Ht1 & Hlb); try done.
  destruct (read_one s1 t1 p (VBool b) Ht1) as (s2 & t2 & ts & Hread & Ht2).
  - unfold low_point, point_ok. rewrite Hp, Hpb. lia.
  - unfold in_range. rewrite Hp. by rewrite Hpb.
  - unfold point_value. rewrite Hp. unfold group_key. rewrite Hpb, Hcode. cbn [m_bits plc_memory].
    rewrite Hsa, (proj2 (Z.ltb_ge _ _)) by lia. cbn. by rewrite Hlb.
  - exists s1, t1, s2, t2, ts. by split_and!.
Qed.

(** C10: the same for bits: writing a boolean to a bit that exists, in an area that is not
    documented as read-only, succeeds, and reading the point afterwards returns it with good
    quality. *)
Theorem write_then_read_bit `{GoFloat} `{GoRuntime} s t p b a code :
  loop_ok t -> ParseAddress (point_Address p) = Ok a -> IsBit a = true ->
  GetBitAreaCode (AreaCode a) = Ok code -> pa_Address a < 65536 ->
  m_bits (plc_memory (lp_plc t)) code (pa_Address a) (Bit a) <> None -> writable a = true ->
  exists s1 t1 s2 t2 ts, WritePoint s t p (VBool b) = (s1, t1, Ok tt) /\
    ReadPoints s1 t1 [p] = Ok (s2, t2, {[ID p := MkValue (VBool b) QualityGood ts]}).
Proof using src_ok dst_ok.
  intros Ht Hp Hbit Hcode Haddr Hex _.
  destruct (bit_written_read s t p b a code) as (s1 & t1 & s2 & t2 & ts & Hw & _ & Hr & _); [done..|].
  by exists s1, t1, s2, t2, ts.
Qed.
End loopback.

(** ** Witnesses *)

Definition sample_loop : loop := MkLoop NewMockPLC 254 0 true.
Definition sample_addr : FINSAddress := MkFINSAddress 0 1 255.

Lemma sample_loop_ok : loop_ok sample_loop.
Proof. split_and!; [apply NewMockPLC_ok|done..]. Qed.

Lemma write_then_read_bit_witness :
  exists s1 t1 s2 t2 ts,
    @WritePoint loop (loop_transport sample_addr sample_addr) simple_float sample_scheduler sample_loop
      (MkPoint "x" "W511.15" DataTypeBIT "rw") (VBool true) = (s1, t1, Ok tt) /\
    @ReadPoints loop (loop_transport sample_addr sample_addr) merge_runtime s1 t1 [MkPoint "x" "W511.15" DataTypeBIT "rw"]
      = Ok (s2, t2, {["x" := MkValue (VBool true) QualityGood ts]}).
Proof.
  refine (@write_then_read_bit sample_addr sample_addr _ _ simple_float merge_runtime sample_scheduler sample_loop
    (MkPoint "x" "W511.15" DataTypeBIT "rw") true
    (MkParsedAddress "W" 0xb1 0 511 15 0 ByteOrderHigh true false) 0x32 sample_loop_ok _ _ _ _ _ _);
    first [by_decide|vm_compute; reflexivity|vm_compute; congruence].
Defined.
