(* ===== verification/Driver.v ===== *)
(** * The driver ([src/fins.go])

    The object applications use: it builds decoder, transport and scheduler from the
    configuration, reconnects before a request when the connection is down, and
    passes requests to the scheduler.  Pointers to the parts are [nil] before [Init];
    dereferencing one of them is a panic. *)
From S2P Require Import Prelude Types Protocol Framing Floats Decoder Interfaces Scheduler Simulation Transport Lifecycle MockPLC Loopback.

(** ** State *)

Record DriverConfig := MkDriverConfig { dc_Protocol : string; dc_Config : option config }.

Record FinsTCPDriver := MkFinsTCPDriver {
  d_config : DriverConfig; d_transport : option transport; d_decoder : bool; d_scheduler : option Scheduler;
  d_slaveID : Z; d_deviceCfg : config; d_initialized : bool }.

Definition NewFinsTCPDriver : FinsTCPDriver :=
  MkFinsTCPDriver (MkDriverConfig "" None) None false None 0 ∅ false.

(** The loop [for k, v := range m { deviceCfg[k] = v }]. *)
Definition put_all (m deviceCfg : config) : config := m ∪ deviceCfg.

Definition Init `{GoFloat} (d : FinsTCPDriver) (cfg : DriverConfig) : FinsTCPDriver * res error unit :=
  if d_initialized d then (d, Err ErrAlreadyInitialized) else
  let deviceCfg := match dc_Config cfg with Some m => put_all m (d_deviceCfg d) | None => d_deviceCfg d end in
  match NewTransport deviceCfg with
  | Ok t => (MkFinsTCPDriver cfg (Some t) true (Some (NewScheduler deviceCfg)) (d_slaveID d) deviceCfg true, Ok tt)
  | Err e => (MkFinsTCPDriver cfg (d_transport d) true (d_scheduler d) (d_slaveID d) deviceCfg false, Err e)
  | Panic => (d, Panic)
  end.

Definition SetSlaveID (d : FinsTCPDriver) (slaveID : Z) : FinsTCPDriver :=
  MkFinsTCPDriver (d_config d) (d_transport d) (d_decoder d) (d_scheduler d) slaveID (d_deviceCfg d) (d_initialized d).

Definition SetDeviceConfig (d : FinsTCPDriver) (m : config) : FinsTCPDriver :=
  MkFinsTCPDriver (d_config d) (d_transport d) (d_decoder d) (d_scheduler d) (d_slaveID d)
    (put_all m (d_deviceCfg d)) (d_initialized d).

Definition set_parts (d : FinsTCPDriver) (t : transport) (s : option Scheduler) : FinsTCPDriver :=
  MkFinsTCPDriver (d_config d) (Some t) (d_decoder d) s (d_slaveID d) (d_deviceCfg d) (d_initialized d).

Definition GetConnectionMetrics (d : FinsTCPDriver) : ConnectionMetrics :=
  match d_transport d with
  | None => MkConnectionMetrics false 0 0 0 "" ""
  | Some t => GetMetrics t
  end.

Definition GetSchedulerStats (d : FinsTCPDriver) : SchedulerStats :=
  match d_scheduler d with None => MkSchedulerStats 0 0 0 | Some s => GetStats s end.

Definition GetDecoder (d : FinsTCPDriver) : bool := d_decoder d.
Definition GetTransport (d : FinsTCPDriver) : option transport := d_transport d.
Definition GetScheduler (d : FinsTCPDriver) : option Scheduler := d_scheduler d.
Definition IsInitialized (d : FinsTCPDriver) : bool := d_initialized d.

(** [d.IsConnected]. *)
Definition driver_IsConnected (d : FinsTCPDriver) : bool :=
  match d_transport d with None => false | Some t => IsConnected t end.

(** ** Requests *)

Section requests.
Context {W : Type} {NW : Network W}.
Implicit Types dw : FinsTCPDriver * W.

(** A call of the transport with the driver's pointer. *)
Definition on_transport {A} dw (k : transport * W -> (transport * W) * res error A) : (FinsTCPDriver * W) * res error A :=
  let '(d, w) := dw in
  match d_transport d with
  | None => ((d, w), Panic)
  | Some t => let '((t, w), r) := k (t, w) in ((set_parts d t (d_scheduler d), w), r)
  end.

Definition driver_Connect dw : (FinsTCPDriver * W) * res error unit :=
  if negb (d_initialized (fst dw)) then (dw, Err ErrNotInitialized) else on_transport dw Connect.

Definition driver_Disconnect dw : (FinsTCPDriver * W) * res error unit :=
  match d_transport (fst dw) with None => (dw, Ok tt) | Some _ => on_transport dw Disconnect end.

Definition driver_Reconnect dw : (FinsTCPDriver * W) * res error unit :=
  match d_transport (fst dw) with None => (dw, Err ErrTransportNotInitialized) | Some _ => on_transport dw Reconnect end.

(** [if !d.transport.IsConnected() { d.transport.Reconnect(ctx) }]. *)
Definition ensure_connected (tw : transport * W) : (transport * W) * res error unit :=
  if negb (IsConnected (fst tw)) then Reconnect tw else (tw, Ok tt).

(** The result when the connection cannot be made: one time stamp for all points. *)
Definition all_bad (now : Z) (ps : list Point) : gmap string Value :=
  foldl (fun rs p => <[ID p := bad now]> rs) ∅ ps.

Definition driver_ReadPoints `{GoRuntime} dw (ps : list Point) : (FinsTCPDriver * W) * res error (gmap string Value) :=
  let '(d, w) := dw in
  if negb (d_initialized d) then (dw, Err ErrNotInitialized) else
  match d_scheduler d with
  | None => (dw, Err ErrSchedulerNotInitialized)
  | Some s =>
    match d_transport d with
    | None => (dw, Panic)
    | Some t =>
      match ensure_connected (t, w) with
      | ((t, w), Ok _) =>
        match ReadPoints s (t, w) ps with
        | Ok (s, (t, w), rs) => ((set_parts d t (Some s), w), Ok rs)
        | Err e => ((set_parts d t (Some s), w), Err e)
        | Panic => ((set_parts d t (Some s), w), Panic)
        end
      | ((t, w), Err _) =>
        let '(w, now) := net_now w in ((set_parts d t (Some s), w), Ok (all_bad now ps))
      | ((t, w), Panic) => ((set_parts d t (Some s), w), Panic)
      end
    end
  end.

Definition driver_WritePoint `{GoFloat} dw (p : Point) (value : goval) : (FinsTCPDriver * W) * res error unit :=
  let '(d, w) := dw in
  if negb (d_initialized d) then (dw, Err ErrNotInitialized) else
  match d_scheduler d with
  | None => (dw, Err ErrSchedulerNotInitialized)
  | Some s =>
    match d_transport d with
    | None => (dw, Panic)
    | Some t =>
      match ensure_connected (t, w) with
      | ((t, w), Ok _) =>
        let '(s, (t, w), r) := WritePoint s (t, w) p value in ((set_parts d t (Some s), w), r)
      | ((t, w), Err e) => ((set_parts d t (Some s), w), Err e)
      | ((t, w), Panic) => ((set_parts d t (Some s), w), Panic)
      end
    end
  end.

Definition driver_Health dw : res error HealthStatus :=
  let '(d, w) := dw in
  if negb (d_initialized d) || bool_decide (d_transport d = None) then Ok HealthStatusUnknown else
  match d_scheduler d, d_transport d with
  | Some _, Some t => Ok (Health (t, w))
  | _, _ => Panic
  end.
End requests.

(** ** Histories

    The states of a driver after any sequence of calls; in between, the world may
    change and the receive loop may notice the end of a connection. *)

Section histories.
Context {W : Type} {NW : Network W} `{GoFloat} `{GoRuntime}.

Inductive driver_reachable : FinsTCPDriver * W -> Prop :=
| reach_new w : driver_reachable (NewFinsTCPDriver, w)
| reach_world d w w' : driver_reachable (d, w) -> driver_reachable (d, w')
| reach_lost d t w t' w' :
    driver_reachable (d, w) -> d_transport d = Some t -> lost (t, w) = (t', w') ->
    driver_reachable (set_parts d t' (d_scheduler d), w')
| reach_init d w cfg : driver_reachable (d, w) -> driver_reachable (fst (Init d cfg), w)
| reach_slave d w n : driver_reachable (d, w) -> driver_reachable (SetSlaveID d n, w)
| reach_config d w m : driver_reachable (d, w) -> driver_reachable (SetDeviceConfig d m, w)
| reach_connect dw : driver_reachable dw -> driver_reachable (fst (driver_Connect dw))
| reach_disconnect dw : driver_reachable dw -> driver_reachable (fst (driver_Disconnect dw))
| reach_reconnect dw : driver_reachable dw -> driver_reachable (fst (driver_Reconnect dw))
| reach_read dw ps : driver_reachable dw -> driver_reachable (fst (driver_ReadPoints dw ps))
| reach_write dw p v : driver_reachable dw -> driver_reachable (fst (driver_WritePoint dw p v)).

(** The pointers are set exactly when the driver is initialized. *)
Definition driver_wf (d : FinsTCPDriver) : Prop :=
  if d_initialized d then is_Some (d_transport d) /\ is_Some (d_scheduler d)
  else d_transport d = None /\ d_scheduler d = None.

Lemma set_parts_wf d t s : driver_wf d -> is_Some (d_transport d) -> is_Some s -> driver_wf (set_parts d t s).
Proof.
  unfold driver_wf. cbn. destruct (d_initialized d); [by eauto|]. intros [-> _] [? [=]].
Qed.

Lemma wf_scheduler d t : driver_wf d -> d_transport d = Some t -> d_initialized d = true /\ is_Some (d_scheduler d).
Proof. unfold driver_wf. intros Hd Ht. destruct (d_initialized d); [by destruct Hd|]. destruct Hd. congruence. Qed.

Lemma on_transport_wf {A} dw (k : transport * W -> (transport * W) * res error A) :
  driver_wf (fst dw) -> driver_wf (fst (fst (on_transport dw k))).
Proof.
  destruct dw as [d w]. unfold on_transport. cbn. intros Hd. destruct (d_transport d) as [t|] eqn:Ht; [|done].
  destruct (k (t, w)) as [[t1 w1] r]. cbn. apply set_parts_wf; [done|by rewrite Ht|]. by eapply wf_scheduler.
Qed.

Lemma driver_reachable_wf dw : driver_reachable dw -> driver_wf (fst dw).
Proof.
  induction 1 as [w|d w w' _ IH|d t w t' w' _ IH Ht Hl|d w cfg _ IH|d w n _ IH|d w m _ IH
    |dw _ IH|dw _ IH|dw _ IH|[d w] ps _ IH|[d w] p v _ IH]; cbn [fst] in *; try done.
  - apply set_parts_wf; [done|by rewrite Ht|]. by eapply wf_scheduler.
  - unfold Init. destruct (d_initialized d) eqn:Hi; [done|].
    unfold driver_wf in IH. rewrite Hi in IH. destruct (NewTransport _); cbn; unfold driver_wf; cbn; [by eauto|done|by rewrite Hi].
  - unfold driver_Connect. destruct (negb _); [done|]. by apply on_transport_wf.
  - unfold driver_Disconnect. destruct (d_transport _); [by apply on_transport_wf|done].
  - unfold driver_Reconnect. destruct (d_transport _); [by apply on_transport_wf|done].
  - unfold driver_ReadPoints. destruct (negb _), (d_scheduler d) as [s|], (d_transport d) as [t|] eqn:Ht; try done.
    assert (forall t s, driver_wf (set_parts d t (Some s))) as Hw by (intros; apply set_parts_wf; [done|rewrite Ht|]; by eexists).
    destruct (ensure_connected (t, w)) as [[t1 w1] [[]| |]]; [|by destruct (net_now w1); cbn; auto|by cbn; auto].
    destruct (ReadPoints s (t1, w1) ps) as [[[s2 [t2 w2]] rs]| |]; cbn; auto.
  - unfold driver_WritePoint. destruct (negb _), (d_scheduler d) as [s|], (d_transport d) as [t|] eqn:Ht; try done.
    assert (forall t s, driver_wf (set_parts d t (Some s))) as Hw by (intros; apply set_parts_wf; [done|rewrite Ht|]; by eexists).
    destruct (ensure_connected (t, w)) as [[t1 w1] [[]| |]]; [|by cbn; auto..].
    destruct (WritePoint s (t1, w1) p v) as [[s2 [t2 w2]] r]; cbn; auto.
Qed.
End histories.

(** ** What the driver promises *)

Section contract.
Context {W : Type} {NW : Network W} `{GoFloat} `{GoRuntime}.
Implicit Types (d : FinsTCPDriver) (w : W).

Lemma Connect_no_panic (tw : transport * W) : snd (Connect tw) <> Panic.
Proof. destruct tw as [t w]. unfold Connect. by repeat case_match. Qed.

Lemma Disconnect_ok (tw : transport * W) : snd (Disconnect tw) = Ok tt.
Proof. destruct tw as [t w]. unfold Disconnect. by repeat case_match. Qed.

Lemma reconnect_attempts_no_panic n : forall i (tw : transport * W), snd (reconnect_attempts n i tw) <> Panic.
Proof.
  induction n as [|n IH]; intros i tw; cbn [reconnect_attempts]; [done|].
  pose proof (Connect_no_panic tw) as Hc. destruct (Connect tw) as [[t1 w1] [[]| |]]; [done| |done].
  destruct n; [by apply IH|]. destruct (net_wait w1 i) as [w2 []]; [done|]. apply IH.
Qed.

Lemma Reconnect_no_panic (tw : transport * W) : snd (Reconnect tw) <> Panic.
Proof. unfold Reconnect. destruct (Disconnect tw). apply reconnect_attempts_no_panic. Qed.

Lemma ensure_connected_no_panic (tw : transport * W) : snd (ensure_connected tw) <> Panic.
Proof. unfold ensure_connected. destruct (negb _); [apply Reconnect_no_panic|done]. Qed.

Lemma SendCommand_no_panic (tw : transport * W) cmd : (2 <= length cmd)%nat -> snd (SendCommand tw cmd) <> Panic.
Proof.
  intros Hl. destruct tw as [t w]. unfold SendCommand. destruct (negb _); [done|].
  unfold command_frame, sub_from. rewrite !sub_ok by lia. cbn [mbind res_bind]. by repeat case_match.
Qed.

(** A command sent and its end code checked. *)
Lemma link_no_panic {A} (k : FINSFrame -> A) (tw : transport * W) cmd :
  (2 <= length cmd)%nat -> snd (let '(t, r) := SendCommand tw cmd in (t, check_end k r)) <> Panic.
Proof.
  intros Hl. pose proof (SendCommand_no_panic tw cmd Hl) as Hs. destruct (SendCommand tw cmd) as [tw' [f| |]]; cbn in *; [|done..].
  by destruct (negb _).
Qed.

Lemma length_write_command addr n data : (2 <= length (EncodeWriteCommand addr n data))%nat.
Proof. rewrite EncodeWriteCommand_eq, length_app, length_be_bytes. lia. Qed.

Lemma length_read_command addr n : (2 <= length (EncodeReadCommand addr n))%nat.
Proof. rewrite EncodeReadCommand_eq, length_app, length_be_bytes. lia. Qed.

Lemma link_WriteMemory_no_panic (tw : transport * W) area a n data : snd (mt_WriteMemory tw area a n data) <> Panic.
Proof. apply link_no_panic, length_write_command. Qed.

Lemma link_WriteBits_no_panic (tw : transport * W) area a b l : snd (mt_WriteBits tw area a b l) <> Panic.
Proof. apply link_no_panic, length_write_command. Qed.

Lemma link_ReadMemory_no_panic (tw : transport * W) area a n : snd (mt_ReadMemory tw area a n) <> Panic.
Proof. apply link_no_panic, length_read_command. Qed.

Lemma link_ReadBits_no_panic (tw : transport * W) area a b n : snd (mt_ReadBits tw area a b n) <> Panic.
Proof. apply link_no_panic, length_read_command. Qed.

(** A point whose address is that of a string. *)
Definition string_point (p : Point) : Prop :=
  exists a, ParseAddress (point_Address p) = Ok a /\ IsString a = true.

Lemma link_ReadPoints_panic s (tw : transport * W) ps :
  ReadPoints s tw ps = Panic -> exists p, p ∈ ps /\ string_point p.
Proof.
  intros (p & a & Hp & Ha)%ReadPoints_panic; [by exists p; split; [|exists a]|apply link_ReadMemory_no_panic|apply link_ReadBits_no_panic].
Qed.

(** A write of a string to a field that is longer than a slice can be. *)
Definition huge_write (p : Point) (v : goval) : Prop :=
  exists a, ParseAddress (point_Address p) = Ok a /\ huge_string v (point_DataType p) (Some a).

Lemma link_WritePoint_panic s (tw : transport * W) p v : goval_ok v -> snd (WritePoint s tw p v) = Panic -> huge_write p v.
Proof.
  intros Hv. unfold WritePoint. pose proof (ParseAddress_not_panic (point_Address p)) as Hp.
  destruct (ParseAddress (point_Address p)) as [a| |] eqn:Ea; [|done..].
  pose proof (EncodeValue_cases v (point_DataType p) (Some a) Hv) as He.
  destruct (EncodeValue v (point_DataType p) (Some a)) as [bs| |]; [|done|intros _; by exists a].
  destruct (waitMinInterval (add_total s) tw) as [s1 tw1]. destruct (point_isBit p a).
  - match goal with |- context [mt_WriteBits ?t ?x ?y ?z ?l] => pose proof (link_WriteBits_no_panic t x y z l) as Hw end.
    by destruct (mt_WriteBits _ _ _ _ _) as [t2 [[]| |]].
  - match goal with |- context [if ?b then _ else (u16 _, bs)] => destruct (if b then _ else (u16 _, bs)) as [n x] end.
    match goal with |- context [mt_WriteMemory ?t ?x ?y ?z ?l] => pose proof (link_WriteMemory_no_panic t x y z l) as Hw end.
    by destruct (mt_WriteMemory _ _ _ _ _) as [t2 [[]| |]].
Qed.

Lemma driver_ReadPoints_panic d w ps :
  driver_wf d -> snd (driver_ReadPoints (d, w) ps) = Panic -> exists p, p ∈ ps /\ string_point p.
Proof.
  unfold driver_wf, driver_ReadPoints. destruct (d_initialized d); [|done]. intros [[t Ht] [s Hs]]. rewrite Ht, Hs. cbn [negb].
  pose proof (ensure_connected_no_panic (t, w)) as He. destruct (ensure_connected (t, w)) as [[t1 w1] [[]| |]]; [| |done].
  - destruct (ReadPoints s (t1, w1) ps) as [[[? [? ?]] ?]| |] eqn:E; [done..|]. intros _. by eapply link_ReadPoints_panic.
  - by destruct (net_now w1).
Qed.

(** C27: the life of a driver: whatever has been called before, on a driver that is not
    initialized [Connect], [Reconnect], [ReadPoints] and [WritePoint] return an error,
    [Disconnect] does nothing, the health is unknown, and all of these leave the driver as it
    is; [Init] initializes it exactly when it returns no error.  An initialized driver refuses
    to be initialized again; [Connect], [Disconnect] and [Reconnect] do not panic,
    [ReadPoints] panics only when a string point is among the points and [WritePoint] only
    on a string field above 2^48 bytes (so none of them dereferences a [nil] pointer), and
    the health is that of the connection. *)
Theorem driver_lifecycle d w :
  driver_reachable (d, w) ->
  if d_initialized d
  then (forall cfg, Init d cfg = (d, Err ErrAlreadyInitialized)) /\
       snd (driver_Connect (d, w)) <> Panic /\ snd (driver_Disconnect (d, w)) = Ok tt /\
       snd (driver_Reconnect (d, w)) <> Panic /\
       (forall ps, snd (driver_ReadPoints (d, w) ps) = Panic -> exists p, p ∈ ps /\ string_point p) /\
       (forall p v, goval_ok v -> snd (driver_WritePoint (d, w) p v) = Panic -> huge_write p v) /\
       driver_Health (d, w) = Ok (if driver_IsConnected d then HealthStatusUp else HealthStatusDown)
  else driver_Connect (d, w) = ((d, w), Err ErrNotInitialized) /\ driver_Disconnect (d, w) = ((d, w), Ok tt) /\
       driver_Reconnect (d, w) = ((d, w), Err ErrTransportNotInitialized) /\
       (forall ps, driver_ReadPoints (d, w) ps = ((d, w), Err ErrNotInitialized)) /\
       (forall p v, driver_WritePoint (d, w) p v = ((d, w), Err ErrNotInitialized)) /\
       driver_Health (d, w) = Ok HealthStatusUnknown /\
       (forall cfg, d_initialized (fst (Init d cfg)) = is_ok (snd (Init d cfg))).
Proof.
  intros Hr%driver_reachable_wf. pose proof (driver_ReadPoints_panic d w) as Hread.
  unfold driver_wf in *. cbn [fst] in Hr. destruct (d_initialized d) eqn:Hi.
  - specialize (fun ps => Hread ps Hr). destruct Hr as [[t Ht] [s Hs]].
    unfold Init, driver_Connect, driver_Disconnect, driver_Reconnect, driver_WritePoint, driver_Health, driver_IsConnected, on_transport, Health.
    cbn [fst]. rewrite Hi, Ht, Hs. cbn [negb orb]. split_and!; [done|..|done].
    + pose proof (Connect_no_panic (t, w)). by destruct (Connect (t, w)) as [[? ?] ?].
    + pose proof (Disconnect_ok (t, w)). by destruct (Disconnect (t, w)) as [[? ?] ?].
    + pose proof (Reconnect_no_panic (t, w)). by destruct (Reconnect (t, w)) as [[? ?] ?].
    + exact Hread.
    + intros p v Hv. pose proof (ensure_connected_no_panic (t, w)) as He.
      destruct (ensure_connected (t, w)) as [[t1 w1] [[]| |]]; [|done..].
      pose proof (link_WritePoint_panic s (t1, w1) p v Hv). by destruct (WritePoint s (t1, w1) p v) as [[? [? ?]] ?].
  - destruct Hr as [Ht Hs].
    unfold driver_Connect, driver_Disconnect, driver_Reconnect, driver_ReadPoints, driver_WritePoint, driver_Health, Init.
    cbn [fst]. rewrite Hi, Ht. split_and!; try done. intros cfg. by destruct (NewTransport _) eqn:?.
Qed.

Lemma all_bad_dom now ps : dom (all_bad now ps) = list_to_set (ID <$> ps).
Proof.
  unfold all_bad. assert (forall rs : gmap string Value,
    dom (foldl (fun rs p => <[ID p := bad now]> rs) rs ps) = dom rs ∪ list_to_set (ID <$> ps)) as Hd; [|rewrite Hd; set_solver].
  induction ps as [|p ps IH]; intros rs; cbn; [set_solver|]. rewrite IH, dom_insert_L. set_solver.
Qed.

Lemma all_bad_lookup now ps id v : all_bad now ps !! id = Some v -> v = bad now.
Proof.
  unfold all_bad. assert (forall rs : gmap string Value, (forall id v, rs !! id = Some v -> v = bad now) ->
    forall id v, foldl (fun rs p => <[ID p := bad now]> rs) rs ps !! id = Some v -> v = bad now) as Hd.
  { induction ps as [|p ps IH]; intros rs Hrs; cbn; [done|]. apply IH. intros i x Hx.
    apply lookup_insert_Some in Hx as [[_ <-]|[_ ?]]; eauto. }
  apply Hd. intros i x Hx. by rewrite lookup_empty in Hx.
Qed.

(** C28: an initialized driver answers for every point asked for and for no other: a read
    returns no error, and it panics only when a string point is among those asked for (of
    which a reply that is too short is not cut safely); when the connection is down
    and cannot be made again all the points are bad, string points too, and a write returns the
    error of the last attempt and changes no statistics. *)
Theorem driver_answers_all d w ps p v :
  driver_reachable (d, w) -> d_initialized d = true ->
  match snd (driver_ReadPoints (d, w) ps) with
  | Ok rs => dom rs = list_to_set (ID <$> ps)
  | Err _ => False
  | Panic => exists q, q ∈ ps /\ string_point q
  end /\
  (driver_IsConnected d = false -> forall e, snd (driver_Reconnect (d, w)) = Err e ->
     (exists rs ts, snd (driver_ReadPoints (d, w) ps) = Ok rs /\ forall id x, rs !! id = Some x -> x = bad ts) /\
     snd (driver_WritePoint (d, w) p v) = Err e /\
     GetSchedulerStats (fst (fst (driver_WritePoint (d, w) p v))) = GetSchedulerStats d).
Proof.
  intros Hr%driver_reachable_wf Hi. pose proof (driver_ReadPoints_panic d w ps Hr) as Hpan.
  unfold driver_wf in Hr. cbn [fst] in Hr. rewrite Hi in Hr. destruct Hr as [[t Ht] [s Hs]]. revert Hpan.
  unfold driver_ReadPoints, driver_Reconnect, driver_WritePoint, driver_IsConnected, on_transport, GetSchedulerStats.
  cbn [fst]. rewrite Hi, Ht, Hs. cbn [negb]. intros Hpan. split.
  - pose proof (ensure_connected_no_panic (t, w)) as He. destruct (ensure_connected (t, w)) as [[t1 w1] [[]| |]]; [| |done].
    + pose proof (ReadPoints_dom s (t1, w1) ps) as Hd. destruct (ReadPoints s (t1, w1) ps) as [[[? [? ?]] ?]| |]; [done..|by apply Hpan].
    + destruct (net_now w1). apply all_bad_dom.
  - intros Hc e. unfold ensure_connected. cbn [fst]. rewrite Hc. cbn [negb].
    destruct (Reconnect (t, w)) as [[t1 w1] r]. cbn [snd]. intros ->. destruct (net_now w1) as [w2 now]. cbn.
    split; [|done]. exists (all_bad now ps), now. split; [done|]. intros id x. apply all_bad_lookup.
Qed.
End contract.

(** ** The driver against the PLC

    A network with one PLC that accepts every connection and answers every command. *)
Record plc_net := MkPlcNet { pn_plc : MockPLC; pn_now : Z }.

#[export] Instance plc_network : Network plc_net := {|
  net_dial := fun w _ _ _ => (w, Some sc_conn);
  net_close := fun w _ => w;
  net_exchange := fun w b =>
    match handleConnection (pn_plc w) [] [b] with
    | Ok (plc, _, out) => let '(frames, _) := on_reads [] [out] in (MkPlcNet plc (pn_now w), Exchanged frames false)
    | _ => (w, Exchanged [] false)
    end;
  net_now := fun w => (MkPlcNet (pn_plc w) (pn_now w + 1), pn_now w);
  net_sleep := fun w d => MkPlcNet (pn_plc w) (pn_now w + Z.max 0 d);
  net_wait := fun w d => (MkPlcNet (pn_plc w) (pn_now w + Z.max 0 d), false) |}.

Section against_plc.
Context (t0 : transport) (c0 : Conn).

(** The client of [Loopback.v] inside a transport. *)
Definition of_loop (l : loop) : transport * plc_net :=
  (MkTransport (t_cfg t0) (Some c0) (lp_up l) (t_closed t0) (t_connectTime t0) (t_lastDisconnectTime t0)
     (t_reconnectCount t0) (t_heartbeatRunning t0) (t_stopHeartbeat t0) (lp_sid l),
   MkPlcNet (lp_plc l) (lp_now l)).

#[local] Existing Instance loop_transport.

Lemma of_loop_send l cmd :
  SendCommand (of_loop l) cmd = prod_map of_loop id (loop_send (srcAddr (t_cfg t0)) (dstAddr (t_cfg t0)) l cmd).
Proof.
  unfold SendCommand, loop_send, of_loop. cbn [t_connected]. destruct (lp_up l) eqn:Hu; cbn [negb].
  2:{ cbn. by rewrite Hu. }
  cbn [t_sidCounter t_cfg set_sidCounter t_conn].
  destruct (command_frame _ _ _ _) as [b| |]; cbn [net_exchange plc_network pn_plc pn_now]; [|by cbn; rewrite ?Hu..].
  destruct (handleConnection _ _ _) as [[[plc acc] out]| |]; [|by cbn; rewrite ?Hu..].
  destruct (on_reads [] [out]) as [frames rest]. cbn. by rewrite ?Hu.
Qed.

#[local] Instance of_loop_morphism :
  @TransportMorphism loop (transport * plc_net) (loop_transport (srcAddr (t_cfg t0)) (dstAddr (t_cfg t0))) link_transport of_loop.
Proof.
  split; intros; cbn [mt_ReadMemory mt_WriteMemory mt_ReadBits mt_WriteBits Now Sleep link_transport loop_transport]; try done;
    unfold ReadMemory, WriteMemory, ReadBits, WriteBits; rewrite of_loop_send; by destruct (loop_send _ _ _ _).
Qed.
End against_plc.

(** A transport whose fields are in range and whose connection is there when it says so. *)
Definition transport_ok (t : transport) : Prop :=
  FINSAddress_ok (srcAddr (t_cfg t)) /\ FINSAddress_ok (dstAddr (t_cfg t)) /\ 0 <= t_sidCounter t <= 255 /\
  (t_connected t = true -> t_conn t <> None).

(** A reachable PLC: after the check for a connection the driver is the client of
    [Loopback.v]. *)
Lemma ensure_connected_plc t w :
  transport_ok t -> plc_ok (pn_plc w) -> 0 < maxRetries (t_cfg t) ->
  exists t0 c0 l, ensure_connected (t, w) = (of_loop t0 c0 l, Ok tt) /\ loop_ok l /\ lp_plc l = pn_plc w /\ t_cfg t0 = t_cfg t.
Proof.
  intros (Hs & Hd & Hsid & Hc) Hp Hm. unfold ensure_connected, IsConnected. cbn [fst].
  destruct (t_connected t) eqn:Hup; cbn [negb].
  - destruct (t_conn t) as [c|] eqn:Ec; [|by destruct Hc].
    exists t, c, (MkLoop (pn_plc w) (t_sidCounter t) (pn_now w) true). unfold of_loop. cbn. split_and!; try done.
    destruct t, w; cbn in *. by subst.
  - unfold Reconnect, Disconnect. rewrite Hup. cbn [negb fst].
    destruct (Z.to_nat (maxRetries (t_cfg t))) as [|n] eqn:En; [lia|]. cbn [reconnect_attempts]. unfold Connect. rewrite Hup.
    cbn [net_dial net_now plc_network]. set (t1 := if 0 <? _ then _ else _).
    exists (add_reconnect t1), sc_conn, (MkLoop (pn_plc w) (t_sidCounter t) (pn_now w + 1) true).
    unfold t1, startHeartbeat. cbn. split_and!; try done; repeat case_match; done.
Qed.

(** ** Requests of a driver that reaches the PLC *)

Section reaching.
Context `{GoFloat} `{GoRuntime} (t0 : transport) (c0 : Conn).

(** After its check for a connection the driver is the client [l]. *)
Definition reaches (dw : FinsTCPDriver * plc_net) (s : Scheduler) (l : loop) : Prop :=
  d_initialized (fst dw) = true /\ d_scheduler (fst dw) = Some s /\
  exists t, d_transport (fst dw) = Some t /\ ensure_connected (t, snd dw) = (of_loop t0 c0 l, Ok tt).

Lemma reaches_connected d t w s l :
  d_initialized d = true -> (t, w) = of_loop t0 c0 l -> lp_up l = true -> reaches (set_parts d t (Some s), w) s l.
Proof.
  intros Hi E Hup. split; [done|]. split; [done|]. exists t. split; [done|]. cbn [snd]. rewrite E.
  unfold ensure_connected, IsConnected. cbn. by rewrite Hup.
Qed.

Lemma driver_WritePoint_reaches dw s l p v s1 l1 r :
  reaches dw s l ->
  @WritePoint loop (loop_transport (srcAddr (t_cfg t0)) (dstAddr (t_cfg t0))) _ s l p v = (s1, l1, r) -> lp_up l1 = true ->
  exists dw1, driver_WritePoint dw p v = (dw1, r) /\ reaches dw1 s1 l1 /\ driver_IsConnected (fst dw1) = true.
Proof.
  destruct dw as [d w]. intros (Hi & Hs & t & Ht & He) Hw Hup. cbn [fst snd] in *.
  pose proof (WritePoint_mor (TM := of_loop_morphism t0 c0) s l p v) as Hm. rewrite Hw in Hm.
  unfold driver_WritePoint. rewrite Hi, Hs, Ht, He. cbn [negb].
  destruct (of_loop t0 c0 l) as [t1 w1]. rewrite Hm. destruct (of_loop t0 c0 l1) as [t2 w2] eqn:E.
  eexists. split; [done|]. split; [by apply reaches_connected|]. by injection E as <- _.
Qed.

Lemma driver_ReadPoints_reaches dw s l ps s1 l1 rs :
  reaches dw s l ->
  @ReadPoints loop (loop_transport (srcAddr (t_cfg t0)) (dstAddr (t_cfg t0))) _ s l ps = Ok (s1, l1, rs) -> lp_up l1 = true ->
  exists dw1, driver_ReadPoints dw ps = (dw1, Ok rs) /\ reaches dw1 s1 l1 /\ driver_IsConnected (fst dw1) = true.
Proof.
  destruct dw as [d w]. intros (Hi & Hs & t & Ht & He) Hr Hup. cbn [fst snd] in *.
  pose proof (ReadPoints_mor (TM := of_loop_morphism t0 c0) s l ps) as Hm. rewrite Hr in Hm. cbn [read_map] in Hm.
  unfold driver_ReadPoints. rewrite Hi, Hs, Ht, He. cbn [negb].
  destruct (of_loop t0 c0 l) as [t1 w1]. rewrite Hm. destruct (of_loop t0 c0 l1) as [t2 w2] eqn:E.
  eexists. split; [done|]. split; [by apply reaches_connected|]. by injection E as <- _.
Qed.
End reaching.

(** Writing a number to a word, then reading it, through the driver. *)
Lemma driver_number_written `{GoFloat} `{GoRuntime} d w t s p v a :
  d_initialized d = true -> d_transport d = Some t -> d_scheduler d = Some s ->
  transport_ok t -> plc_ok (pn_plc w) -> 0 < maxRetries (t_cfg t) ->
  ParseAddress (point_Address p) = Ok a -> IsBit a = false -> IsString a = false ->
  goval_ok v -> has_type (point_DataType p) v ->
  pa_Address a + wordCount (MkGroupedPoint p a 0) <= m_words (plc_memory (pn_plc w)) (AreaCode a) ->
  exists dw1 dw2 ts, driver_WritePoint (d, w) p v = (dw1, Ok tt) /\
    driver_ReadPoints dw1 [p] = (dw2, Ok {[ID p := MkValue v QualityGood ts]}).
Proof.
  intros Hi Ht Hs Hok Hp Hm Ha Hb Hstr Hv Hty Hr. pose proof Hok as (Hsrc & Hdst & _).
  destruct (ensure_connected_plc t w Hok Hp Hm) as (t0 & c0 & l & He & Hl & Hpl & Hcfg).
  rewrite <- Hpl in Hr. rewrite <- Hcfg in Hsrc, Hdst.
  destruct (number_written_read _ _ Hsrc Hdst s l p v a Hl Ha Hb Hstr Hv Hty Hr) as (s1 & l1 & s2 & l2 & ts & Hw & Hl1 & Hrd & Hl2).
  destruct (driver_WritePoint_reaches t0 c0 (d, w) s l p v s1 l1 (Ok tt)) as (dw1 & Hdw & Hr1 & _); [split; [done|]; split; [done|]; by exists t|done|apply Hl1|].
  destruct (driver_ReadPoints_reaches t0 c0 dw1 s1 l1 [p] s2 l2 _ Hr1 Hrd) as (dw2 & Hdr & _); [apply Hl2|].
  by exists dw1, dw2, ts.
Qed.

(** C1: what an application writes it reads back: on a driver that is initialized, and
    connected or able to connect, writing a number to a word of the PLC in an area that is not
    documented as read-only succeeds, and reading the point returns the number with good
    quality. *)
Theorem driver_write_then_read `{GoFloat} `{GoRuntime} d w t s p v a :
  d_initialized d = true -> d_transport d = Some t -> d_scheduler d = Some s ->
  transport_ok t -> plc_ok (pn_plc w) -> 0 < maxRetries (t_cfg t) ->
  ParseAddress (point_Address p) = Ok a -> writable a = true -> IsBit a = false -> IsString a = false ->
  goval_ok v -> has_type (point_DataType p) v ->
  pa_Address a + wordCount (MkGroupedPoint p a 0) <= m_words (plc_memory (pn_plc w)) (AreaCode a) ->
  exists dw1 dw2 ts, driver_WritePoint (d, w) p v = (dw1, Ok tt) /\
    driver_ReadPoints dw1 [p] = (dw2, Ok {[ID p := MkValue v QualityGood ts]}).
Proof. intros ? ? ? ? ? ? ? _ ? ? ? ? ?. by eapply driver_number_written. Qed.

(** The protection the documentation promises for area A is missing: a number written to a
    word of A is stored as well. *)
Theorem read_only_not_enforced `{GoFloat} `{GoRuntime} d w t s p v a :
  d_initialized d = true -> d_transport d = Some t -> d_scheduler d = Some s ->
  transport_ok t -> plc_ok (pn_plc w) -> 0 < maxRetries (t_cfg t) ->
  ParseAddress (point_Address p) = Ok a -> pa_Area a = "A" -> IsBit a = false -> IsString a = false ->
  goval_ok v -> has_type (point_DataType p) v ->
  pa_Address a + wordCount (MkGroupedPoint p a 0) <= m_words (plc_memory (pn_plc w)) (AreaCode a) ->
  writable a = false /\
  exists dw1 dw2 ts, driver_WritePoint (d, w) p v = (dw1, Ok tt) /\
    driver_ReadPoints dw1 [p] = (dw2, Ok {[ID p := MkValue v QualityGood ts]}).
Proof.
  intros ? ? ? ? ? ? ? HA ? ? ? ? ?. split; [unfold writable; rewrite HA; vm_compute; reflexivity|]. by eapply driver_number_written.
Qed.

(** ** Witnesses *)

Definition sample_driver : FinsTCPDriver :=
  fst (Init (H := simple_float) NewFinsTCPDriver (MkDriverConfig "fins" (Some {["plcIP" := VString "10.0.0.2"]}))).

Lemma sample_driver_reachable {W} {NW : Network W} `{GoRuntime} (w : W) :
  driver_reachable (H := simple_float) (sample_driver, w).
Proof. apply (reach_init (H := simple_float)), reach_new. Qed.

Lemma driver_lifecycle_witness :
  d_initialized NewFinsTCPDriver = false /\ d_initialized sample_driver = true /\
  snd (driver_Connect (NewFinsTCPDriver, MkPlcNet NewMockPLC 0)) = Err ErrNotInitialized /\
  snd (Init (H := simple_float) sample_driver (MkDriverConfig "fins" None)) = Err ErrAlreadyInitialized.
Proof.
  split; [reflexivity|]. split; [vm_compute; reflexivity|].
  pose proof (driver_lifecycle (H := simple_float) (H0 := merge_runtime) NewFinsTCPDriver (MkPlcNet NewMockPLC 0)
    (reach_new (H := simple_float) (H0 := merge_runtime) _)) as H1.
  pose proof (driver_lifecycle (H := simple_float) (H0 := merge_runtime) sample_driver (MkPlcNet NewMockPLC 0)
    (sample_driver_reachable (H := merge_runtime) _)) as H2.
  change (d_initialized NewFinsTCPDriver) with false in H1. cbn iota in H1. destruct H1 as [H1 _].
  replace (d_initialized sample_driver) with true in H2 by (vm_compute; reflexivity). destruct H2 as [H2 _].
  split; [rewrite H1; reflexivity|rewrite H2; reflexivity].
Defined.

(** A network that is down. *)
Lemma driver_answers_all_witness :
  exists rs ts, snd (driver_ReadPoints (H := merge_runtime) (sample_driver, sample_script (fun _ => false)) sample_points) = Ok rs /\
    forall id x, rs !! id = Some x -> x = bad ts.
Proof.
  destruct (driver_answers_all (H := simple_float) (H0 := merge_runtime) sample_driver (sample_script (fun _ => false))
    sample_points (MkPoint "a" "D0" DataTypeINT16 "rw") VNil) as [_ H].
  - apply sample_driver_reachable.
  - vm_compute. reflexivity.
  - destruct (H ltac:(vm_compute; reflexivity) (ErrReconnectFailed 3)) as [Hr _]; [vm_compute; reflexivity|]. exact Hr.
Defined.

Lemma driver_write_then_read_witness :
  exists dw1 dw2 ts,
    driver_WritePoint (H := simple_float) (sample_driver, MkPlcNet NewMockPLC 0) (MkPoint "x" "W100" DataTypeUINT64 "rw") (VUint64 (2 ^ 64 - 2))
      = (dw1, Ok tt) /\
    driver_ReadPoints (H := merge_runtime) dw1 [MkPoint "x" "W100" DataTypeUINT64 "rw"]
      = (dw2, Ok {["x" := MkValue (VUint64 (2 ^ 64 - 2)) QualityGood ts]}).
Proof.
  assert (exists t s, d_transport sample_driver = Some t /\ d_scheduler sample_driver = Some s /\ t = sample_new) as (t & s & Ht & Hs & ->)
    by (do 2 eexists; vm_compute; split_and!; reflexivity).
  refine (driver_write_then_read (H := simple_float) (H0 := merge_runtime) sample_driver (MkPlcNet NewMockPLC 0) sample_new s
    (MkPoint "x" "W100" DataTypeUINT64 "rw") (VUint64 (2 ^ 64 - 2))
    (MkParsedAddress "W" 0xb1 0 100 (-1) 0 ByteOrderHigh false false) _ Ht Hs _ NewMockPLC_ok _ _ _ _ _ _ _ _);
    clear Ht Hs s; first [vm_compute; reflexivity|vm_compute; congruence|split_and!; by_decide|idtac].
Defined.

Lemma read_only_not_enforced_witness :
  exists dw1 dw2 ts,
    driver_WritePoint (H := simple_float) (sample_driver, MkPlcNet NewMockPLC 0) (MkPoint "x" "A100" DataTypeUINT16 "rw") (VUint16 7)
      = (dw1, Ok tt) /\
    driver_ReadPoints (H := merge_runtime) dw1 [MkPoint "x" "A100" DataTypeUINT16 "rw"]
      = (dw2, Ok {["x" := MkValue (VUint16 7) QualityGood ts]}).
Proof.
  assert (exists t s, d_transport sample_driver = Some t /\ d_scheduler sample_driver = Some s /\ t = sample_new) as (t & s & Ht & Hs & ->)
    by (do 2 eexists; vm_compute; split_and!; reflexivity).
  refine (proj2 (read_only_not_enforced (H := simple_float) (H0 := merge_runtime) sample_driver (MkPlcNet NewMockPLC 0) sample_new s
    (MkPoint "x" "A100" DataTypeUINT16 "rw") (VUint16 7)
    (MkParsedAddress "A" 0xb3 0 100 (-1) 0 ByteOrderHigh false false) _ Ht Hs _ NewMockPLC_ok _ _ _ _ _ _ _ _));
    clear Ht Hs s; first [vm_compute; reflexivity|vm_compute; congruence|split_and!; by_decide|idtac].
Defined.
