(* ===== verification/UdpConstants.v ===== *)
(** * Constants of the UDP package ([src/udp/command_code.go], [end_code.go], [memory_area.go])

    Command codes, end codes and memory areas under the names of the source; the
    TCP package has its own tables ([Protocol.v]). *)
From S2P Require Import Prelude.

(** ** Command codes *)

Definition CommandCodeMemoryAreaRead : Z := 0x0101.
Definition CommandCodeMemoryAreaWrite : Z := 0x0102.
Definition CommandCodeMemoryAreaFill : Z := 0x0103.
Definition CommandCodeMultipleMemoryAreaRead : Z := 0x0104.
Definition CommandCodeMemoryAreaTransfer : Z := 0x0105.
Definition CommandCodeParameterAreaRead : Z := 0x0201.
Definition CommandCodeParameterAreaWrite : Z := 0x0202.
Definition CommandCodeParameterAreaClear : Z := 0x0203.
Definition CommandCodeProgramAreaRead : Z := 0x0301.
Definition CommandCodeProgramAreaWrite : Z := 0x0302.
Definition CommandCodeProgramAreaClear : Z := 0x0303.
Definition CommandCodeRun : Z := 0x0401.
Definition CommandCodeStop : Z := 0x0402.
Definition CommandCodeCPUUnitDataRead : Z := 0x0501.
Definition CommandCodeConnectionDataRead : Z := 0x0502.
Definition CommandCodeCPUUnitStatusRead : Z := 0x0601.
Definition CommandCodeCycleTimeRead : Z := 0x0620.
Definition CommandCodeClockRead : Z := 0x701.
Definition CommandCodeClockWrite : Z := 0x702.
Definition CommandCodeMessageReadClear : Z := 0x0920.
Definition CommandCodeAccessRightAcquire : Z := 0x0c01.
Definition CommandCodeAccessRightForcedAcquire : Z := 0x0c02.
Definition CommandCodeAccessRightRelease : Z := 0x0c03.
Definition CommandCodeErrorClear : Z := 0x2101.
Definition CommandCodeErrorLogRead : Z := 0x2102.
Definition CommandCodeErrorLogClear : Z := 0x2103.
Definition CommandCodeFINSWriteAccessLogRead : Z := 0x2140.
Definition CommandCodeFINSWriteAccessLogWrite : Z := 0x2141.
Definition CommandCodeFileNameRead : Z := 0x2101.
Definition CommandCodeSingleFileRead : Z := 0x2102.
Definition CommandCodeSingleFileWrite : Z := 0x2103.
Definition CommandCodeFileMemoryFormat : Z := 0x2104.
Definition CommandCodeFileDelete : Z := 0x2105.
Definition CommandCodeFileCopy : Z := 0x2107.
Definition CommandCodeFileNameChange : Z := 0x2108.
Definition CommandCodeMemoryAreaFileTransfer : Z := 0x210a.
Definition CommandCodeParameterAreaFileTransfer : Z := 0x210b.
Definition CommandCodeProgramAreaFileTransfer : Z := 0x210b.
Definition CommandCodeDirectoryCreateDelete : Z := 0x2115.
Definition CommandCodeMemoryCassetteTransfer : Z := 0x2120.
Definition CommandCodeForcedSetReset : Z := 0x2301.
Definition CommandCodeForcedSetResetCancel : Z := 0x2302.
Definition CommandCodeConvertToCompoWayFCommand : Z := 0x2803.
Definition CommandCodeConvertToModbusRTUCommand : Z := 0x2804.
Definition CommandCodeConvertToModbusASCIICommand : Z := 0x2805.

(** ** End codes *)

Definition EndCodeNormalCompletion : Z := 0x0000.
Definition EndCodeServiceInterrupted : Z := 0x0001.
Definition EndCodeLocalNodeNotInNetwork : Z := 0x0101.
Definition EndCodeTokenTimeout : Z := 0x0102.
Definition EndCodeRetriesFailed : Z := 0x0103.
Definition EndCodeTooManySendFrames : Z := 0x0104.
Definition EndCodeNodeAddressRangeError : Z := 0x0105.
Definition EndCodeNodeAddressRangeDuplication : Z := 0x0106.
Definition EndCodeDestinationNodeNotInNetwork : Z := 0x0201.
Definition EndCodeUnitMissing : Z := 0x0202.
Definition EndCodeThirdNodeMissing : Z := 0x0203.
Definition EndCodeDestinationNodeBusy : Z := 0x0204.
Definition EndCodeResponseTimeout : Z := 0x0205.
Definition EndCodeCommunicationsControllerError : Z := 0x0301.
Definition EndCodeCPUUnitError : Z := 0x0302.
Definition EndCodeControllerError : Z := 0x0303.
Definition EndCodeUnitNumberError : Z := 0x0304.
Definition EndCodeUndefinedCommand : Z := 0x0401.
Definition EndCodeNotSupportedByModelVersion : Z := 0x0402.
Definition EndCodeDestinationAddressSettingError : Z := 0x0501.
Definition EndCodeNoRoutingTables : Z := 0x0502.
Definition EndCodeRoutingTableError : Z := 0x0503.
Definition EndCodeTooManyRelays : Z := 0x0504.
Definition EndCodeCommandTooLong : Z := 0x1001.
Definition EndCodeCommandTooShort : Z := 0x1002.
Definition EndCodeElementsDataDontMatch : Z := 0x1003.
Definition EndCodeCommandFormatError : Z := 0x1004.
Definition EndCodeHeaderError : Z := 0x1005.
Definition EndCodeAreaClassificationMissing : Z := 0x1101.
Definition EndCodeAccessSizeError : Z := 0x1102.
Definition EndCodeAddressRangeError : Z := 0x1103.
Definition EndCodeAddressRangeExceeded : Z := 0x1104.
Definition EndCodeProgramMissing : Z := 0x1106.
Definition EndCodeRelationalError : Z := 0x1109.
Definition EndCodeDuplicateDataAccess : Z := 0x110a.
Definition EndCodeResponseTooBig : Z := 0x110b.
Definition EndCodeParameterError : Z := 0x110c.
Definition EndCodeReadNotPossibleProtected : Z := 0x2002.
Definition EndCodeReadNotPossibleTableMissing : Z := 0x2003.
Definition EndCodeReadNotPossibleDataMissing : Z := 0x2004.
Definition EndCodeReadNotPossibleProgramMissing : Z := 0x2005.
Definition EndCodeReadNotPossibleFileMissing : Z := 0x2006.
Definition EndCodeReadNotPossibleDataMismatch : Z := 0x2007.
Definition EndCodeWriteNotPossibleReadOnly : Z := 0x2101.
Definition EndCodeWriteNotPossibleProtected : Z := 0x2102.
Definition EndCodeWriteNotPossibleCannotRegister : Z := 0x2103.
Definition EndCodeWriteNotPossibleProgramMissing : Z := 0x2105.
Definition EndCodeWriteNotPossibleFileMissing : Z := 0x2106.
Definition EndCodeWriteNotPossibleFileNameAlreadyExists : Z := 0x2107.
Definition EndCodeWriteNotPossibleCannotChange : Z := 0x2108.
Definition EndCodeNotExecutableInCurrentModeNotPossibleDuringExecution : Z := 0x2201.
Definition EndCodeNotExecutableInCurrentModeNotPossibleWhileRunning : Z := 0x2202.
Definition EndCodeNotExecutableInCurrentModeWrongPLCModeInProgram : Z := 0x2203.
Definition EndCodeNotExecutableInCurrentModeWrongPLCModeInDebug : Z := 0x2204.
Definition EndCodeNotExecutableInCurrentModeWrongPLCModeInMonitor : Z := 0x2205.
Definition EndCodeNotExecutableInCurrentModeWrongPLCModeInRun : Z := 0x2206.
Definition EndCodeNotExecutableInCurrentModeSpecifiedNodeNotPollingNode : Z := 0x2207.
Definition EndCodeNotExecutableInCurrentModeStepCannotBeExecuted : Z := 0x2208.
Definition EndCodeNoSuchDeviceFileDeviceMissing : Z := 0x2301.
Definition EndCodeNoSuchDeviceMemoryMissing : Z := 0x2302.
Definition EndCodeNoSuchDeviceClockMissing : Z := 0x2303.
Definition EndCodeCannotStartStopTableMissing : Z := 0x2401.
Definition EndCodeUnitErrorMemoryError : Z := 0x2502.
Definition EndCodeUnitErrorIOError : Z := 0x2503.
Definition EndCodeUnitErrorTooManyIOPoints : Z := 0x2504.
Definition EndCodeUnitErrorCPUBusError : Z := 0x2505.
Definition EndCodeUnitErrorIODuplication : Z := 0x2506.
Definition EndCodeUnitErrorIOBusError : Z := 0x2507.
Definition EndCodeUnitErrorSYSMACBUS2Error : Z := 0x2509.
Definition EndCodeUnitErrorCPUBusUnitError : Z := 0x250a.
Definition EndCodeUnitErrorSYSMACBusNumberDuplication : Z := 0x250d.
Definition EndCodeUnitErrorMemoryStatusError : Z := 0x250f.
Definition EndCodeUnitErrorSYSMACBusTerminatorMissing : Z := 0x2510.
Definition EndCodeCommandErrorNoProtection : Z := 0x2601.
Definition EndCodeCommandErrorIncorrectPassword : Z := 0x2602.
Definition EndCodeCommandErrorProtected : Z := 0x2604.
Definition EndCodeCommandErrorServiceAlreadyExecuting : Z := 0x2605.
Definition EndCodeCommandErrorServiceStopped : Z := 0x2606.
Definition EndCodeCommandErrorNoExecutionRight : Z := 0x2607.
Definition EndCodeCommandErrorSettingsNotComplete : Z := 0x2608.
Definition EndCodeCommandErrorNecessaryItemsNotSet : Z := 0x2609.
Definition EndCodeCommandErrorNumberAlreadyDefined : Z := 0x260a.
Definition EndCodeCommandErrorErrorWillNotClear : Z := 0x260b.
Definition EndCodeAccessWriteErrorNoAccessRight : Z := 0x3001.
Definition EndCodeAbortServiceAborted : Z := 0x4001.

(** All of them, in the order of the source. *)
Definition udp_end_codes : list Z :=
  [EndCodeNormalCompletion; EndCodeServiceInterrupted; EndCodeLocalNodeNotInNetwork;
   EndCodeTokenTimeout; EndCodeRetriesFailed; EndCodeTooManySendFrames; EndCodeNodeAddressRangeError;
   EndCodeNodeAddressRangeDuplication; EndCodeDestinationNodeNotInNetwork; EndCodeUnitMissing;
   EndCodeThirdNodeMissing; EndCodeDestinationNodeBusy; EndCodeResponseTimeout;
   EndCodeCommunicationsControllerError; EndCodeCPUUnitError; EndCodeControllerError;
   EndCodeUnitNumberError; EndCodeUndefinedCommand; EndCodeNotSupportedByModelVersion;
   EndCodeDestinationAddressSettingError; EndCodeNoRoutingTables; EndCodeRoutingTableError;
   EndCodeTooManyRelays; EndCodeCommandTooLong; EndCodeCommandTooShort; EndCodeElementsDataDontMatch;
   EndCodeCommandFormatError; EndCodeHeaderError; EndCodeAreaClassificationMissing;
   EndCodeAccessSizeError; EndCodeAddressRangeError; EndCodeAddressRangeExceeded; EndCodeProgramMissing;
   EndCodeRelationalError; EndCodeDuplicateDataAccess; EndCodeResponseTooBig; EndCodeParameterError;
   EndCodeReadNotPossibleProtected; EndCodeReadNotPossibleTableMissing;
   EndCodeReadNotPossibleDataMissing; EndCodeReadNotPossibleProgramMissing;
   EndCodeReadNotPossibleFileMissing; EndCodeReadNotPossibleDataMismatch;
   EndCodeWriteNotPossibleReadOnly; EndCodeWriteNotPossibleProtected;
   EndCodeWriteNotPossibleCannotRegister; EndCodeWriteNotPossibleProgramMissing;
   EndCodeWriteNotPossibleFileMissing; EndCodeWriteNotPossibleFileNameAlreadyExists;
   EndCodeWriteNotPossibleCannotChange; EndCodeNotExecutableInCurrentModeNotPossibleDuringExecution;
   EndCodeNotExecutableInCurrentModeNotPossibleWhileRunning;
   EndCodeNotExecutableInCurrentModeWrongPLCModeInProgram;
   EndCodeNotExecutableInCurrentModeWrongPLCModeInDebug;
   EndCodeNotExecutableInCurrentModeWrongPLCModeInMonitor;
   EndCodeNotExecutableInCurrentModeWrongPLCModeInRun;
   EndCodeNotExecutableInCurrentModeSpecifiedNodeNotPollingNode;
   EndCodeNotExecutableInCurrentModeStepCannotBeExecuted; EndCodeNoSuchDeviceFileDeviceMissing;
   EndCodeNoSuchDeviceMemoryMissing; EndCodeNoSuchDeviceClockMissing;
   EndCodeCannotStartStopTableMissing; EndCodeUnitErrorMemoryError; EndCodeUnitErrorIOError;
   EndCodeUnitErrorTooManyIOPoints; EndCodeUnitErrorCPUBusError; EndCodeUnitErrorIODuplication;
   EndCodeUnitErrorIOBusError; EndCodeUnitErrorSYSMACBUS2Error; EndCodeUnitErrorCPUBusUnitError;
   EndCodeUnitErrorSYSMACBusNumberDuplication; EndCodeUnitErrorMemoryStatusError;
   EndCodeUnitErrorSYSMACBusTerminatorMissing; EndCodeCommandErrorNoProtection;
   EndCodeCommandErrorIncorrectPassword; EndCodeCommandErrorProtected;
   EndCodeCommandErrorServiceAlreadyExecuting; EndCodeCommandErrorServiceStopped;
   EndCodeCommandErrorNoExecutionRight; EndCodeCommandErrorSettingsNotComplete;
   EndCodeCommandErrorNecessaryItemsNotSet; EndCodeCommandErrorNumberAlreadyDefined;
   EndCodeCommandErrorErrorWillNotClear; EndCodeAccessWriteErrorNoAccessRight;
   EndCodeAbortServiceAborted].

(** ** Memory areas *)

Definition MemoryAreaCIOBit : Z := 0x30.
Definition MemoryAreaWRBit : Z := 0x31.
Definition MemoryAreaHRBit : Z := 0x32.
Definition MemoryAreaARBit : Z := 0x33.
Definition MemoryAreaCIOWord : Z := 0xb0.
Definition MemoryAreaWRWord : Z := 0xb1.
Definition MemoryAreaHRWord : Z := 0xb2.
Definition MemoryAreaARWord : Z := 0xb3.
Definition MemoryAreaTimerCounterCompletionFlag : Z := 0x09.
Definition MemoryAreaTimerCounterPV : Z := 0x89.
Definition MemoryAreaDMBit : Z := 0x02.
Definition MemoryAreaDMWord : Z := 0x82.
Definition MemoryAreaTaskBit : Z := 0x06.
Definition MemoryAreaTaskStatus : Z := 0x46.
Definition MemoryAreaIndexRegisterPV : Z := 0xdc.
Definition MemoryAreaDataRegisterPV : Z := 0xbc.
Definition MemoryAreaClockPulsesConditionFlagsBit : Z := 0x07.
