(* ===== verification/Udp.v ===== *)
(** * The UDP codec ([src/udp/driver.go], [header.go], [address.go], [error.go])

    Headers, requests, responses, memory addresses, commands and the BCD numbers of the
    clock.  A slice is kept with the part of its array behind it, since a slice
    expression may reach beyond the length up to the capacity. *)
From Stdlib Require Import ZifyNat.
From S2P Require Import Prelude UdpConstants.

(** ** Errors and slices *)

Inductive udp_error :=
| ResponseTimeoutError
| IncompatibleMemoryAreaError (area : Z)
| BCDBadDigitError (v : string) (val : Z)
| BCDOverflowError
| EndCodeError (endCode : Z)
| SocketError.

(** The elements from the start of the slice to its capacity, and its length. *)
Record slice := MkSlice { s_arr : bytes; s_len : nat }.

Definition elems (s : slice) : bytes := take (s_len s) (s_arr s).

(** [s[i:j]]: bounded by the capacity. *)
Definition s_sub (s : slice) (i j : Z) : res udp_error bytes := zsub (s_arr s) i j.

(** [s[i:]]: bounded by the length, and keeping the capacity. *)
Definition s_from (s : slice) (i : nat) : res udp_error slice :=
  if (i <=? s_len s)%nat then Ok (MkSlice (drop i (s_arr s)) (s_len s - i)) else Panic.

(** [s[i]]: bounded by the length. *)
Definition s_idx (s : slice) (i : Z) : res udp_error Z := zidx (elems s) i.

(** A slice that is its whole array. *)
Definition of_bytes (l : bytes) : slice := MkSlice l (length l).

Lemma elems_of_bytes l : elems (of_bytes l) = l.
Proof. unfold elems, of_bytes. cbn. by rewrite firstn_all. Qed.

(** ** Headers *)

Record finsAddress := MkAddr { network : Z; node : Z; unit_ : Z }.

Definition MessageTypeCommand : Z := 0.
Definition MessageTypeResponse : Z := 1.

Record Header := MkHeader {
  messageType : Z; responseRequired : bool; h_src : finsAddress; h_dst : finsAddress;
  serviceID : Z; gatewayCount : Z }.

Definition defaultHeader (messageType : Z) (responseRequired : bool) (src dst : finsAddress) (serviceID : Z) : Header :=
  MkHeader messageType responseRequired src dst serviceID 2.

Definition defaultCommandHeader (src dst : finsAddress) (serviceID : Z) : Header :=
  defaultHeader MessageTypeCommand true src dst serviceID.

Definition defaultResponseHeader (commandHeader : Header) : Header :=
  defaultHeader MessageTypeResponse false (h_dst commandHeader) (h_src commandHeader) (serviceID commandHeader).

Definition icfBridgesBit : Z := 7.
Definition icfMessageTypeBit : Z := 6.
Definition icfResponseRequiredBit : Z := 0.

(** [&] and [<<] have the same precedence and associate to the left, so the test is
    [(icf & 1) << bit == 0] on bytes. *)
Definition decodeHeader (b : bytes) : res udp_error Header :=
  icf ← idx b 0;
  let responseRequired := u8 (Z.shiftl (Z.land icf 1) icfResponseRequiredBit) =? 0 in
  let messageType := if u8 (Z.shiftl (Z.land icf 1) icfMessageTypeBit) =? 0 then MessageTypeCommand else MessageTypeResponse in
  gatewayCount ← idx b 2;
  d0 ← idx b 3; d1 ← idx b 4; d2 ← idx b 5;
  s0 ← idx b 6; s1 ← idx b 7; s2 ← idx b 8;
  serviceID ← idx b 9;
  Ok (MkHeader messageType responseRequired (MkAddr s0 s1 s2) (MkAddr d0 d1 d2) serviceID gatewayCount).

Definition encodeHeader (h : Header) : bytes :=
  let icf := Z.shiftl 1 icfBridgesBit in
  let icf := if negb (responseRequired h) then Z.lor icf (Z.shiftl 1 icfResponseRequiredBit) else icf in
  let icf := if messageType h =? MessageTypeResponse then Z.lor icf (Z.shiftl 1 icfMessageTypeBit) else icf in
  [icf; 0x00; gatewayCount h; network (h_dst h); node (h_dst h); unit_ (h_dst h);
   network (h_src h); node (h_src h); unit_ (h_src h); serviceID h].

(** ** Memory addresses and commands *)

Record memoryAddress := MkMemoryAddress { memoryArea : Z; address : Z; bitOffset : Z }.

Definition memAddrWithBitOffset (memoryArea address bitOffset : Z) : memoryAddress :=
  MkMemoryAddress memoryArea address bitOffset.
Definition memAddr (memoryArea address : Z) : memoryAddress := memAddrWithBitOffset memoryArea address 0.

Definition encodeMemoryAddress (m : memoryAddress) : bytes :=
  let b := make_bytes 4 in
  let b := copy_at 0 [memoryArea m] b in
  let b := copy_at 1 (be_bytes 2 (address m)) b in
  copy_at 3 [bitOffset m] b.

Definition decodeMemoryAddress (data : bytes) : res udp_error memoryAddress :=
  a ← idx data 0;
  w ← sub data 1 3;
  o ← idx data 3;
  Ok (MkMemoryAddress a (be_val w) o).

(** Address and item count behind a command code, then the data. *)
Definition readCommand (m : memoryAddress) (itemCount : Z) : bytes :=
  let commandData := copy_at 0 (be_bytes 2 CommandCodeMemoryAreaRead) (make_bytes 2) in
  let commandData := commandData ++ encodeMemoryAddress m in
  let commandData := commandData ++ [0; 0] in
  copy_at 6 (be_bytes 2 itemCount) commandData.

Definition writeCommand (m : memoryAddress) (itemCount : Z) (b : bytes) : bytes :=
  let commandData := copy_at 0 (be_bytes 2 CommandCodeMemoryAreaWrite) (make_bytes 2) in
  let commandData := commandData ++ encodeMemoryAddress m in
  let commandData := commandData ++ [0; 0] in
  let commandData := copy_at 6 (be_bytes 2 itemCount) commandData in
  commandData ++ b.

Definition clockReadCommand : bytes := copy_at 0 (be_bytes 2 CommandCodeClockRead) (make_bytes 2).

(** ** Requests and responses *)

Record request := MkRequest { rq_header : Header; rq_commandCode : Z; rq_data : slice }.
Record response := MkResponse { rs_header : Header; rs_commandCode : Z; rs_endCode : Z; rs_data : slice }.

Definition decodeRequest (b : slice) : res udp_error request :=
  hb ← s_sub b 0 10; h ← decodeHeader hb;
  c ← s_sub b 10 12;
  d ← s_from b 12;
  Ok (MkRequest h (be_val c) d).

Definition decodeResponse (b : slice) : res udp_error response :=
  hb ← s_sub b 0 10; h ← decodeHeader hb;
  c ← s_sub b 10 12;
  e ← s_sub b 12 14;
  d ← s_from b 14;
  Ok (MkResponse h (be_val c) (be_val e) d).

Definition encodeResponse (r : response) : bytes :=
  let b := make_bytes 4 in
  let b := copy_at 0 (be_bytes 2 (rs_commandCode r)) b in
  let b := copy_at 2 (be_bytes 2 (rs_endCode r)) b in
  let b := b ++ elems (rs_data r) in
  encodeHeader (rs_header r) ++ b.

(** ** Binary coded decimals *)

(** The loop [for xx := x; xx > 0; n++ { xx = xx / 10 }]: a [uint64] has at most 20
    digits. *)
Fixpoint count_digits (fuel : nat) (xx : Z) : nat :=
  match fuel with
  | O => O
  | S fuel => if 0 <? xx then S (count_digits fuel (xx / 10)) else O
  end.

Definition nibbles (hi lo : Z) : Z := Z.lor (u8 (Z.shiftl hi 4)) lo.

(** The loop from index [k - 1] down to 0. *)
Fixpoint fill_pairs (k : nat) (x : Z) (bcd : bytes) : bytes :=
  match k with
  | O => bcd
  | S k => fill_pairs k (x / 100) (<[k := nibbles (u8 ((x / 10) mod 10)) (u8 (x mod 10))]> bcd)
  end.

Definition encodeBCD (x : Z) : bytes :=
  if x =? 0 then [0x0f] else
  let n := count_digits 20 x in
  let bcd := make_bytes ((n + 1) / 2) in
  if (n mod 2 =? 1)%nat then
    let bcd := <[((n - 1) / 2)%nat := nibbles (u8 (x mod 10)) 0x0f]> bcd in
    fill_pairs ((n - 1) / 2) (x / 10) bcd
  else fill_pairs (n / 2) x bcd.

Definition timesTenPlusCatchingOverflow (x digit : Z) : res udp_error Z :=
  let x5 := u64 (u64 (Z.shiftl x 2) + x) in
  if (s64 x5 <? 0) || (2 ^ 64 - 1 - digit <? u64 (Z.shiftl x5 1)) then Err BCDOverflowError
  else Ok (u64 (u64 (Z.shiftl x5 1) + digit)).

(** The loop over the bytes from one of them on. *)
Fixpoint decode_digits (x : Z) (bcd : bytes) : res udp_error Z :=
  match bcd with
  | [] => Ok x
  | b :: rest =>
    let hi := Z.shiftr b 4 in
    let lo := Z.land b 0x0f in
    if 9 <? hi then Err (BCDBadDigitError "hi" hi) else
    x ← timesTenPlusCatchingOverflow x hi;
    if (lo =? 0x0f) && bool_decide (rest = []) then Ok x else
    if 9 <? lo then Err (BCDBadDigitError "lo" lo) else
    x ← timesTenPlusCatchingOverflow x lo;
    decode_digits x rest
  end.

Definition decodeBCD (bcd : bytes) : res udp_error Z := decode_digits 0 bcd.

(** ** BCD: what the digits say *)

Lemma count_digits_spec fuel : forall x,
  0 <= x < 10 ^ Z.of_nat fuel -> 0 <= x < 10 ^ Z.of_nat (count_digits fuel x).
Proof.
  induction fuel as [|fuel IH]; intros x Hx; [done|]. cbn [count_digits]. destruct (0 <? x) eqn:E; zbool.
  - rewrite Nat2Z.inj_succ, Z.pow_succ_r in * by lia.
    destruct (IH (x / 10)); [zdm|]. generalize dependent (10 ^ Z.of_nat (count_digits fuel (x / 10))). intros. zdm.
  - cbn. lia.
Qed.

Lemma u64_digits x : in_u 64 x -> 0 <= x < 10 ^ Z.of_nat (count_digits 20 x).
Proof. unfold in_u. intros. apply count_digits_spec. change (10 ^ Z.of_nat 20) with (10 ^ 20). lia. Qed.

(** [k] pairs of digits, the last one first in significance. *)
Fixpoint pairs (k : nat) (x : Z) : bytes :=
  match k with O => [] | S k => pairs k (x / 100) ++ [16 * ((x / 10) mod 10) + x mod 10] end.

Lemma nibbles_eq hi lo : 0 <= hi < 16 -> 0 <= lo < 16 -> nibbles hi lo = 16 * hi + lo.
Proof.
  intros Hh Hl. enum hi 0 16; enum lo 0 16; reflexivity.
Qed.

Lemma length_pairs k : forall x, length (pairs k x) = k.
Proof. induction k; intros; cbn; [done|]. rewrite length_app, IHk. cbn. lia. Qed.

Lemma fill_pairs_eq k : forall x bcd,
  0 <= x -> (k <= length bcd)%nat -> fill_pairs k x bcd = pairs k x ++ drop k bcd.
Proof.
  induction k as [|k IH]; intros x bcd Hx Hl; cbn [fill_pairs pairs]; [done|].
  rewrite IH by (try rewrite length_insert; zdm).
  rewrite <- app_assoc. f_equal. rewrite !(uwrap_id 8) by (unfold in_u; zdm). rewrite nibbles_eq by zdm.
  apply list_eq. intros [|i].
  - rewrite lookup_drop, Nat.add_0_r. cbn. by rewrite list_lookup_insert_eq by lia.
  - rewrite lookup_app_r, !lookup_drop, list_lookup_insert_ne by (cbn; lia). f_equal. cbn [length]. lia.
Qed.

(** Where the value fits, one digit is appended exactly. *)
Lemma timesTen_fits x d : 0 <= x -> 0 <= d -> 10 * x + d < 2 ^ 64 -> timesTenPlusCatchingOverflow x d = Ok (10 * x + d).
Proof.
  intros Hx Hd Hlt. unfold timesTenPlusCatchingOverflow. rewrite !Z.shiftl_mul_pow2 by lia.
  rewrite (uwrap_id 64 (x * 2 ^ 2)), (uwrap_id 64 (x * 2 ^ 2 + x)), (uwrap_id 64 ((x * 2 ^ 2 + x) * 2 ^ 1)) by (unfold in_u; lia).
  rewrite swrap_id by (unfold in_s; lia). rewrite (proj2 (Z.ltb_ge _ 0)), (proj2 (Z.ltb_ge _ _)) by lia. cbn [orb].
  rewrite uwrap_id by (unfold in_u; lia). f_equal. lia.
Qed.

(** One byte of two digits. *)
Lemma decode_pair x hi lo rest :
  0 <= x -> 0 <= hi <= 9 -> 0 <= lo <= 9 -> 100 * x + 10 * hi + lo < 2 ^ 64 ->
  decode_digits x ((16 * hi + lo) :: rest) = decode_digits (100 * x + 10 * hi + lo) rest.
Proof.
  intros Hx Hh Hl Hlt. cbn [decode_digits].
  replace (Z.shiftr (16 * hi + lo) 4) with hi by (rewrite Z.shiftr_div_pow2 by lia; zdm).
  replace (Z.land (16 * hi + lo) 0x0f) with lo by (rewrite (Z.land_ones _ 4) by lia; zdm).
  rewrite (proj2 (Z.ltb_ge 9 hi)), timesTen_fits by lia. cbn [mbind res_bind].
  rewrite (proj2 (Z.eqb_neq lo 0x0f)), (proj2 (Z.ltb_ge 9 lo)) by lia. cbn [andb].
  rewrite timesTen_fits by lia. cbn [mbind res_bind]. f_equal. lia.
Qed.

Lemma pow100_S k : 100 ^ Z.of_nat (S k) = 100 * 100 ^ Z.of_nat k.
Proof. rewrite Nat2Z.inj_succ, Z.pow_succ_r; lia. Qed.

Lemma decode_pairs k : forall a x rest,
  0 <= a -> 0 <= x < 100 ^ Z.of_nat k -> a * 100 ^ Z.of_nat k + x < 2 ^ 64 ->
  decode_digits a (pairs k x ++ rest) = decode_digits (a * 100 ^ Z.of_nat k + x) rest.
Proof.
  induction k as [|k IH]; intros a x rest Ha Hx Hlt; cbn [pairs].
  { cbn [app]. f_equal. change (100 ^ Z.of_nat 0) with 1 in *. lia. }
  rewrite pow100_S in *. generalize dependent (100 ^ Z.of_nat k). intros P IH Hx Hlt.
  rewrite <- app_assoc. rewrite IH by zdm. cbn [app]. rewrite decode_pair by zdm. f_equal. zdm.
Qed.

Lemma decode_last x hi : 0 <= x -> 0 <= hi <= 9 -> 10 * x + hi < 2 ^ 64 ->
  decode_digits x [nibbles hi 0x0f] = Ok (10 * x + hi).
Proof.
  intros Hx Hh Hlt. rewrite nibbles_eq by lia. cbn [decode_digits].
  replace (Z.shiftr (16 * hi + 0x0f) 4) with hi by (rewrite Z.shiftr_div_pow2 by lia; zdm).
  replace (Z.land (16 * hi + 0x0f) 0x0f) with 0x0f by (rewrite (Z.land_ones _ 4) by lia; zdm).
  rewrite (proj2 (Z.ltb_ge 9 hi)), timesTen_fits by lia. done.
Qed.

(** BCD numbers round-trip: every 64-bit number is decoded from its encoding. *)
Theorem bcd_roundtrip x : in_u 64 x -> decodeBCD (encodeBCD x) = Ok x.
Proof.
  intros Hx. pose proof (u64_digits x Hx) as Hn. unfold in_u in Hx. unfold encodeBCD, decodeBCD.
  destruct (Z.eqb_spec x 0) as [->|Hx0]; [by vm_compute|].
  set (n := count_digits 20 x) in *. destruct (Nat.eqb_spec (n mod 2) 1) as [Hodd|Heven].
  - set (k := ((n - 1) / 2)%nat). assert (n = 2 * k + 1)%nat as Hk by (unfold k; zdm).
    replace ((n + 1) / 2)%nat with (S k) by (unfold k; zdm).
    assert (0 <= x / 10 < 100 ^ Z.of_nat k) as Hq.
    { rewrite Hk, Nat2Z.inj_add, Nat2Z.inj_mul, Z.pow_add_r, Z.pow_mul_r in Hn by lia.
      change (10 ^ Z.of_nat 2) with 100 in Hn. change (10 ^ Z.of_nat 1) with 10 in Hn. zdm. }
    rewrite fill_pairs_eq by (rewrite ?length_insert; unfold make_bytes; rewrite ?length_replicate; zdm).
    replace (drop k _) with [nibbles (u8 (x mod 10)) 0x0f].
    + rewrite decode_pairs by (lia || zdm). rewrite (uwrap_id 8) by (unfold in_u; zdm). rewrite decode_last by zdm. f_equal. zdm.
    + unfold make_bytes. rewrite drop_insert_ge by lia. replace (S k) with (k + 1)%nat by lia.
      rewrite replicate_add, drop_app_length' by (by rewrite length_replicate). by rewrite Nat.sub_diag.
  - set (k := (n / 2)%nat). assert (n = 2 * k)%nat as Hk by (unfold k; zdm).
    replace ((n + 1) / 2)%nat with k by (unfold k; zdm).
    rewrite Hk, Nat2Z.inj_mul, Z.pow_mul_r in Hn by lia. change (10 ^ Z.of_nat 2) with 100 in Hn.
    rewrite fill_pairs_eq by (unfold make_bytes; rewrite ?length_replicate; lia).
    rewrite decode_pairs by lia. unfold make_bytes. rewrite drop_ge by (rewrite length_replicate; lia). done.
Qed.

Lemma bcd_roundtrip_witness : decodeBCD (encodeBCD 18446744073709551615) = Ok 18446744073709551615.
Proof. apply (bcd_roundtrip 18446744073709551615). by_decide. Defined.

(** ** BCD: overflow *)

(** The number a list of bytes of two digits spells. *)
Fixpoint spelled (a : Z) (bcd : bytes) : Z :=
  match bcd with [] => a | b :: rest => spelled (100 * a + 10 * Z.shiftr b 4 + Z.land b 0x0f) rest end.

(** The overflow check of the BCD decoder: as long as five times the number read so
    far fits 64 bits, a further digit is appended exactly or refused; beyond that
    the check can pass on a wrapped product, and 46116860184273879040, which does
    not fit 64 bits, decodes to 9223372036854775808. *)
Theorem bcd_overflow_missed :
  (forall x d, 0 <= x -> 0 <= d <= 9 -> 5 * x < 2 ^ 64 ->
     timesTenPlusCatchingOverflow x d = if 10 * x + d <? 2 ^ 64 then Ok (10 * x + d) else Err BCDOverflowError) /\
  exists bcd, spelled 0 bcd = 46116860184273879040 /\ 2 ^ 64 < 46116860184273879040 /\
    decodeBCD bcd = Ok 9223372036854775808.
Proof.
  split.
  - intros x d Hx Hd H5. destruct (10 * x + d <? 2 ^ 64) eqn:E; zbool; [apply timesTen_fits; lia|].
    unfold timesTenPlusCatchingOverflow. rewrite !Z.shiftl_mul_pow2 by lia.
    rewrite (uwrap_id 64 (x * 2 ^ 2)), (uwrap_id 64 (x * 2 ^ 2 + x)) by (unfold in_u; lia).
    destruct (Z.leb_spec (2 ^ 63) (5 * x)) as [H|H].
    + rewrite (proj2 (Z.ltb_lt (s64 _) 0)); [done|]. unfold swrap. zdm.
    + rewrite (uwrap_id 64 (_ * 2 ^ 1)) by (unfold in_u; lia). rewrite (proj2 (Z.ltb_lt (_ - d) _)) by lia. by rewrite orb_true_r.
  - exists [0x46; 0x11; 0x68; 0x60; 0x18; 0x42; 0x73; 0x87; 0x90; 0x40]. split_and!; by vm_compute.
Qed.

(** ** The wire *)

Definition finsAddress_ok (a : finsAddress) : Prop := in_u 8 (network a) /\ in_u 8 (node a) /\ in_u 8 (unit_ a).

Definition Header_ok (h : Header) : Prop :=
  (messageType h = MessageTypeCommand \/ messageType h = MessageTypeResponse) /\
  finsAddress_ok (h_src h) /\ finsAddress_ok (h_dst h) /\ in_u 8 (serviceID h) /\ in_u 8 (gatewayCount h).

(** The one bit the decoder looks at. *)
Definition decoded_type (h : Header) : Z := if responseRequired h then MessageTypeCommand else MessageTypeResponse.

Lemma decode_encode_header h :
  decodeHeader (encodeHeader h) =
  Ok (MkHeader (decoded_type h) (responseRequired h) (h_src h) (h_dst h) (serviceID h) (gatewayCount h)).
Proof.
  unfold encodeHeader, decodeHeader, decoded_type. destruct h as [m r [? ? ?] [? ? ?] s g]. cbn.
  by destruct r, (m =? MessageTypeResponse).
Qed.

(** The message type is read from the wrong bit: the decoder tests the bit that says
    whether a response is required, so a header survives the wire exactly when it is a
    response without, or a command with, a response required.  The headers the package
    builds are such, but a response with the ICF byte 0xC0 that PLCs send is
    taken for a command. *)
Theorem header_type_bit h :
  Header_ok h ->
  (decodeHeader (encodeHeader h) = Ok h <-> (messageType h = MessageTypeResponse <-> responseRequired h = false)) /\
  (forall src dst sid, decodeHeader (encodeHeader (defaultCommandHeader src dst sid)) = Ok (defaultCommandHeader src dst sid)) /\
  decodeHeader (encodeHeader (defaultResponseHeader h)) = Ok (defaultResponseHeader h) /\
  exists d, decodeHeader [0xC0; 0; 2; 0; 1; 0; 0; 2; 0; 7] = Ok d /\ messageType d = MessageTypeCommand.
Proof.
  intros (Hm & _). split_and!; [|intros; by rewrite decode_encode_header..|rewrite decode_encode_header; by destruct h|].
  - rewrite decode_encode_header. destruct h as [m r s d i g]. unfold decoded_type. cbn in *. split.
    + intros [= E]. rewrite <- E. by destruct r.
    + intros E. do 2 f_equal. destruct r; [|symmetry; tauto]. destruct Hm as [->|Hm]; [done|]. apply E in Hm. done.
  - eexists. split; [by vm_compute|done].
Qed.

Lemma header_type_bit_witness :
  decodeHeader (encodeHeader (MkHeader MessageTypeCommand false (MkAddr 0 1 0) (MkAddr 0 2 0) 7 2))
    <> Ok (MkHeader MessageTypeCommand false (MkAddr 0 1 0) (MkAddr 0 2 0) 7 2).
Proof.
  destruct (header_type_bit (MkHeader MessageTypeCommand false (MkAddr 0 1 0) (MkAddr 0 2 0) 7 2)) as [H _].
  - split_and!; first [by_decide|by left].
  - intros E. apply H in E. destruct E as [_ E]. discriminate (E eq_refl).
Defined.

Definition memoryAddress_ok (m : memoryAddress) : Prop := in_u 8 (memoryArea m) /\ in_u 16 (address m) /\ in_u 8 (bitOffset m).

Lemma encodeMemoryAddress_eq m : encodeMemoryAddress m = memoryArea m :: be_bytes 2 (address m) ++ [bitOffset m].
Proof. done. Qed.

Lemma readCommand_eq m n : readCommand m n = be_bytes 2 CommandCodeMemoryAreaRead ++ encodeMemoryAddress m ++ be_bytes 2 n.
Proof. done. Qed.

Lemma writeCommand_eq m n b :
  writeCommand m n b = be_bytes 2 CommandCodeMemoryAreaWrite ++ encodeMemoryAddress m ++ be_bytes 2 n ++ b.
Proof. done. Qed.

Lemma decode_encode_address m : memoryAddress_ok m -> decodeMemoryAddress (encodeMemoryAddress m) = Ok m.
Proof.
  intros (_ & Ha & _). destruct m as [a w o]. cbn [address] in Ha. unfold decodeMemoryAddress.
  rewrite encodeMemoryAddress_eq. cbn [idx mbind res_bind lookup list_lookup memoryArea address bitOffset].
  change (sub _ 1 3) with (Ok (E := udp_error) (be_bytes 2 w)). cbn [mbind res_bind]. by rewrite be_val_bytes.
Qed.

(** What a datagram decodes to, whatever lies behind it in the buffer. *)
Lemma decodeRequest_eq h c payload rest :
  in_u 16 c ->
  decodeRequest (MkSlice ((encodeHeader h ++ be_bytes 2 c ++ payload) ++ rest) (12 + length payload)) =
  Ok (MkRequest (MkHeader (decoded_type h) (responseRequired h) (h_src h) (h_dst h) (serviceID h) (gatewayCount h)) c
        (MkSlice (payload ++ rest) (length payload))).
Proof.
  intros Hc. unfold decodeRequest, s_sub, s_from. cbn [s_arr s_len].
  assert (length (encodeHeader h) = 10%nat) as Hh by done.
  assert (len ((encodeHeader h ++ be_bytes 2 c ++ payload) ++ rest) >= 12) as Hl.
  { rewrite !len_app, len_be_bytes. unfold len. rewrite Hh. lia. }
  rewrite !zsub_ok by lia. cbn [mbind res_bind].
  rewrite drop_0, <- !app_assoc, take_app_length' by done. rewrite decode_encode_header. cbn [mbind res_bind].
  rewrite drop_app_length' by done. rewrite take_app_length' by (by rewrite length_be_bytes). cbn [mbind res_bind].
  rewrite be_val_bytes by done. cbn [Nat.leb]. cbn [plus Nat.sub]. rewrite !Nat.sub_0_r.
  rewrite (app_assoc (encodeHeader h)), drop_app_length' by (by rewrite length_app, length_be_bytes). done.
Qed.

(** The data of a request lie behind its first twelve bytes. *)
Lemma decodeRequest_data b req : decodeRequest b = Ok req -> s_arr (rq_data req) = drop 12 (s_arr b).
Proof.
  unfold decodeRequest. intros (hb & _ & H)%res_bind_Ok. apply res_bind_Ok in H as (h & _ & H).
  apply res_bind_Ok in H as (c & _ & H). apply res_bind_Ok in H as (d & Hd & [= <-]). cbn [rq_data].
  unfold s_from in Hd. destruct (_ <=? _)%nat; [|done]. by injection Hd as <-.
Qed.

Lemma encodeResponse_eq h c e data :
  encodeResponse (MkResponse h c e (of_bytes data)) = encodeHeader h ++ be_bytes 2 c ++ be_bytes 2 e ++ data.
Proof. unfold encodeResponse. cbn [rs_data rs_header]. by rewrite elems_of_bytes. Qed.

Lemma decodeResponse_eq h c e payload rest :
  in_u 16 c -> in_u 16 e ->
  decodeResponse (MkSlice ((encodeHeader h ++ be_bytes 2 c ++ be_bytes 2 e ++ payload) ++ rest) (14 + length payload)) =
  Ok (MkResponse (MkHeader (decoded_type h) (responseRequired h) (h_src h) (h_dst h) (serviceID h) (gatewayCount h)) c e
        (MkSlice (payload ++ rest) (length payload))).
Proof.
  intros Hc He. unfold decodeResponse, s_sub, s_from. cbn [s_arr s_len].
  assert (length (encodeHeader h) = 10%nat) as Hh by done.
  assert (len ((encodeHeader h ++ be_bytes 2 c ++ be_bytes 2 e ++ payload) ++ rest) >= 14) as Hl.
  { rewrite !len_app, !len_be_bytes. unfold len. rewrite Hh. lia. }
  rewrite !zsub_ok by lia. cbn [mbind res_bind].
  rewrite drop_0, <- !app_assoc, take_app_length' by done. rewrite decode_encode_header. cbn [mbind res_bind].
  rewrite drop_app_length' by done. rewrite take_app_length' by (by rewrite length_be_bytes). cbn [mbind res_bind].
  rewrite (app_assoc (encodeHeader h)), drop_app_length' by (by rewrite length_app, length_be_bytes).
  rewrite take_app_length' by (by rewrite length_be_bytes). cbn [mbind res_bind].
  rewrite !be_val_bytes by done. cbn [Nat.leb]. cbn [plus Nat.sub]. rewrite !Nat.sub_0_r.
  rewrite (app_assoc (_ ++ _) (be_bytes 2 e)), drop_app_length' by (by rewrite !length_app, !length_be_bytes). done.
Qed.

Lemma encodeHeader_ok h : Header_ok h -> bytes_ok (encodeHeader h).
Proof.
  intros (_ & (? & ? & ?) & (? & ? & ?) & ? & ?). unfold encodeHeader.
  repeat apply Forall_cons_2; try done; destruct (responseRequired h), (messageType h =? MessageTypeResponse); by_decide.
Qed.

Lemma encodeMemoryAddress_bytes m : memoryAddress_ok m -> bytes_ok (encodeMemoryAddress m).
Proof.
  intros (? & ? & ?). rewrite encodeMemoryAddress_eq. apply Forall_cons_2; [done|]. apply bytes_ok_app. auto with fins.
Qed.

Lemma readCommand_ok m n : memoryAddress_ok m -> bytes_ok (readCommand m n).
Proof. intros. rewrite readCommand_eq, !bytes_ok_app. split_and!; auto using encodeMemoryAddress_bytes with fins. Qed.

Lemma writeCommand_ok m n b : memoryAddress_ok m -> bytes_ok b -> bytes_ok (writeCommand m n b).
Proof. intros. rewrite writeCommand_eq, !bytes_ok_app. split_and!; auto using encodeMemoryAddress_bytes with fins. Qed.
