(* ===== verification/UdpServer.v ===== *)
(** * The UDP simulator ([src/udp/server.go])

    A PLC with one data area for words and one for bits, served one datagram at a time
    from a receive buffer that is never cleared. *)
From S2P Require Import Prelude UdpConstants Udp.

Definition DM_AREA_SIZE : Z := 32768.

Record Server := MkServer { dmarea : bytes; bitdmarea : bytes }.

(** The areas of [NewPLCSimulator]. *)
Definition NewServer : Server := MkServer (make_bytes (Z.to_nat DM_AREA_SIZE)) (make_bytes (Z.to_nat DM_AREA_SIZE)).

(** The fields of [time.Now()] the clock answers with. *)
Record clock_time := MkClock { Year : Z; Month : Z; Day : Z; Hour : Z; Minute : Z; Second : Z }.

(** [handler]; arithmetic on addresses and counts is on [uint16]. *)
Definition handler (s : Server) (now : clock_time) (r : request) : res udp_error (Server * response) :=
  let answer s endCode data :=
    Ok (s, MkResponse (defaultResponseHeader (rq_header r)) (rq_commandCode r) endCode (of_bytes data)) in
  if (rq_commandCode r =? CommandCodeMemoryAreaRead) || (rq_commandCode r =? CommandCodeMemoryAreaWrite) then
    ma ← s_sub (rq_data r) 0 4; memAddr ← decodeMemoryAddress ma;
    icb ← s_sub (rq_data r) 4 6;
    let ic := be_val icb in
    if memoryArea memAddr =? MemoryAreaDMWord then
      let end_ := u16 (address memAddr + u16 (ic * 2)) in
      if DM_AREA_SIZE <? end_ then answer s EndCodeAddressRangeExceeded [] else
      if rq_commandCode r =? CommandCodeMemoryAreaRead then
        data ← zsub (dmarea s) (address memAddr) end_;
        answer s EndCodeNormalCompletion data
      else
        src ← s_sub (rq_data r) 6 (u16 (6 + u16 (ic * 2)));
        dm ← copy_slice (address memAddr) end_ src (dmarea s);
        answer (MkServer dm (bitdmarea s)) EndCodeNormalCompletion []
    else if memoryArea memAddr =? MemoryAreaDMBit then
      if DM_AREA_SIZE <? u16 (address memAddr + ic) then answer s EndCodeAddressRangeExceeded [] else
      let start := u16 (address memAddr + bitOffset memAddr) in
      if rq_commandCode r =? CommandCodeMemoryAreaRead then
        data ← zsub (bitdmarea s) start (u16 (start + ic));
        answer s EndCodeNormalCompletion data
      else
        src ← s_sub (rq_data r) 6 (u16 (6 + ic));
        bits ← copy_slice start (u16 (start + ic)) src (bitdmarea s);
        answer (MkServer (dmarea s) bits) EndCodeNormalCompletion []
    else answer s EndCodeNotSupportedByModelVersion []
  else if rq_commandCode r =? CommandCodeClockRead then
    let data := encodeBCD (u64 (Z.rem (Year now) 100)) in
    let data := data ++ encodeBCD (u64 (Month now)) in
    let data := data ++ encodeBCD (u64 (Day now)) in
    let data := data ++ encodeBCD (u64 (Hour now)) in
    let data := data ++ encodeBCD (u64 (Minute now)) in
    let data := data ++ encodeBCD (u64 (Second now)) in
    answer s EndCodeNormalCompletion data
  else answer s EndCodeNotSupportedByModelVersion [].

(** One round of the server loop: a datagram arrives in [buf], is decoded, handled and
    answered.  What does not fit the buffer is cut off. *)
Definition serve_datagram (s : Server) (buf : bytes) (now : clock_time) (datagram : bytes)
    : res udp_error (Server * bytes * option bytes) :=
  let buf := copy_at 0 (take 1024 datagram) buf in
  let rlen := Nat.min 1024 (length datagram) in
  if (0 <? rlen)%nat then
    req ← decodeRequest (MkSlice buf rlen);
    r ← handler s now req;
    let '(s, resp) := r in
    Ok (s, buf, Some (encodeResponse resp))
  else Ok (s, buf, None).

(** ** Well-formed states *)

Definition server_ok (s : Server) : Prop :=
  len (dmarea s) = DM_AREA_SIZE /\ bytes_ok (dmarea s) /\ len (bitdmarea s) = DM_AREA_SIZE /\ bytes_ok (bitdmarea s).

Definition buf_ok (buf : bytes) : Prop := length buf = 1024%nat /\ bytes_ok buf.

Lemma NewServer_ok : server_ok NewServer.
Proof. split_and!; [done|apply bytes_ok_make|done|apply bytes_ok_make]. Qed.

Lemma copy_slice_ok_inv {A} i j (src dst l : list A) :
  copy_slice (E := udp_error) i j src dst = Ok l -> l = copy_at (Z.to_nat i) (take (Z.to_nat (j - i)) src) dst /\ 0 <= i <= j /\ j <= len dst.
Proof. unfold copy_slice. destruct (_ && _) eqn:E; [|done]. zbool. intros [= <-]. split; [done|lia]. Qed.

Lemma zsub_ok_inv {A} (l m : list A) i j :
  zsub (E := udp_error) l i j = Ok m -> 0 <= i <= j /\ j <= len l /\ m = take (Z.to_nat (j - i)) (drop (Z.to_nat i) l).
Proof.
  intros H. destruct (decide (0 <= i <= j /\ j <= len l)) as [[? ?]|Hn].
  - rewrite zsub_ok in H by done. injection H as <-. done.
  - rewrite zsub_panic in H by lia. done.
Qed.

(** Every answer leaves the areas well formed. *)
Lemma handler_ok s now r s' resp :
  server_ok s -> bytes_ok (s_arr (rq_data r)) -> handler s now r = Ok (s', resp) -> server_ok s'.
Proof.
  intros Hs Hd. unfold handler. destruct (_ || _); [|by case_match; intros [= <- _]].
  intros (ma & _ & H)%res_bind_Ok. apply res_bind_Ok in H as (m & _ & H). apply res_bind_Ok in H as (icb & _ & H). cbn zeta in H.
  destruct (memoryArea m =? _); [|destruct (memoryArea m =? _); [|by injection H as <- _]].
  all: destruct (DM_AREA_SIZE <? _); [by injection H as <- _|].
  all: destruct (rq_commandCode r =? _); [by apply res_bind_Ok in H as (? & _ & [= <- _])|].
  all: apply res_bind_Ok in H as (src & Hsrc & H); apply res_bind_Ok in H as (dm & Hdm & [= <- _]).
  all: apply copy_slice_ok_inv in Hdm as (-> & _); apply zsub_ok_inv in Hsrc as (_ & _ & ->).
  all: destruct Hs as (? & ? & ? & ?); unfold server_ok, len in *; cbn; rewrite ?length_copy_at; split_and!; auto with fins.
Qed.

(** ** From datagrams to accesses *)

Lemma copy_at_datagram (d buf : bytes) : (length d <= length buf)%nat -> copy_at 0 d buf = d ++ drop (length d) buf.
Proof. intros. by rewrite copy_at_eq by (cbn; lia). Qed.

(** A datagram with a header and a command reaches the handler. *)
Lemma serve_command s (buf : bytes) now h c (payload : bytes) :
  buf_ok buf -> in_u 16 c -> (12 + length payload <= 1024)%nat ->
  serve_datagram s buf now (encodeHeader h ++ be_bytes 2 c ++ payload) =
  (r ← handler s now (MkRequest (MkHeader (decoded_type h) (responseRequired h) (h_src h) (h_dst h) (serviceID h) (gatewayCount h)) c
                        (MkSlice (payload ++ drop (12 + length payload) buf) (length payload)));
   let '(s', resp) := r in
   Ok (s', (encodeHeader h ++ be_bytes 2 c ++ payload) ++ drop (12 + length payload) buf, Some (encodeResponse resp))).
Proof.
  intros [Hb _] Hc Hl. unfold serve_datagram.
  assert (length (encodeHeader h ++ be_bytes 2 c ++ payload) = 12 + length payload)%nat as Hd.
  { rewrite !length_app, length_be_bytes. change (length (encodeHeader h)) with 10%nat. lia. }
  rewrite take_ge, copy_at_datagram, Hd, Nat.min_r, (proj2 (Nat.ltb_lt 0 _)) by lia.
  rewrite decodeRequest_eq by done. done.
Qed.

Lemma access_parts m n (b rest : bytes) :
  memoryAddress_ok m -> in_u 16 n ->
  s_sub (MkSlice ((encodeMemoryAddress m ++ be_bytes 2 n ++ b) ++ rest) (6 + length b)) 0 4 = Ok (encodeMemoryAddress m) /\
  s_sub (MkSlice ((encodeMemoryAddress m ++ be_bytes 2 n ++ b) ++ rest) (6 + length b)) 4 6 = Ok (be_bytes 2 n) /\
  forall j, 0 <= j -> 6 + j <= 6 + len b + len rest ->
    s_sub (MkSlice ((encodeMemoryAddress m ++ be_bytes 2 n ++ b) ++ rest) (6 + length b)) 6 (6 + j) = Ok (take (Z.to_nat j) (b ++ rest)).
Proof.
  intros Hm Hn. unfold s_sub. cbn [s_arr].
  assert (length (encodeMemoryAddress m) = 4%nat) as H4 by done.
  assert (len ((encodeMemoryAddress m ++ be_bytes 2 n ++ b) ++ rest) = 6 + len b + len rest) as Hl.
  { rewrite !len_app, len_be_bytes. unfold len at 1. rewrite H4. lia. }
  pose proof (len_nonneg b). pose proof (len_nonneg rest). split_and!; [| |intros j Hj Hj2]; rewrite zsub_ok by lia; f_equal.
  rewrite <- !app_assoc, (app_assoc (encodeMemoryAddress m)), drop_app_length' by (by rewrite length_app, length_be_bytes).
    f_equal. lia.
Qed.

(** The word accesses, in terms of the bytes of the data area. *)
Definition word_end (a n : Z) : Z := u16 (a + u16 (n * 2)).

Definition answer_of (h : Header) (c e : Z) (data : bytes) : response :=
  MkResponse (defaultResponseHeader h) c e (of_bytes data).

Lemma handler_word_read s now h a o n (rest : bytes) :
  server_ok s -> memoryAddress_ok (MkMemoryAddress MemoryAreaDMWord a o) -> in_u 16 n ->
  handler s now (MkRequest h CommandCodeMemoryAreaRead
    (MkSlice ((encodeMemoryAddress (MkMemoryAddress MemoryAreaDMWord a o) ++ be_bytes 2 n ++ []) ++ rest) 6)) =
  if DM_AREA_SIZE <? word_end a n then Ok (s, answer_of h CommandCodeMemoryAreaRead EndCodeAddressRangeExceeded [])
  else if word_end a n <? a then Panic
  else Ok (s, answer_of h CommandCodeMemoryAreaRead EndCodeNormalCompletion
             (take (Z.to_nat (word_end a n - a)) (drop (Z.to_nat a) (dmarea s)))).
Proof.
  intros (Hlen & _) Hm Hn. destruct (access_parts _ n [] rest Hm Hn) as (H1 & H2 & _). pose proof Hm as (_ & [Ha _] & _).
  unfold handler. cbn [rq_commandCode rq_data rq_header]. rewrite Z.eqb_refl. cbn [orb].
  change (6 + length [])%nat with 6%nat in *. rewrite H1. cbn [mbind res_bind]. rewrite decode_encode_address by done. cbn [mbind res_bind].
  rewrite H2. cbn [mbind res_bind memoryArea address]. rewrite be_val_bytes by done. rewrite Z.eqb_refl. fold (word_end a n).
  destruct (DM_AREA_SIZE <? word_end a n) eqn:E1; [done|]. zbool. destruct (word_end a n <? a) eqn:E2; zbool.
  - by rewrite zsub_panic by lia.
  - cbn in Ha. by rewrite zsub_ok by lia.
Qed.

Lemma handler_word_write s now h a o n (b rest : bytes) :
  server_ok s -> memoryAddress_ok (MkMemoryAddress MemoryAreaDMWord a o) -> in_u 16 n ->
  a + 2 * n <= DM_AREA_SIZE -> 2 * n <= len b + len rest ->
  handler s now (MkRequest h CommandCodeMemoryAreaWrite
    (MkSlice ((encodeMemoryAddress (MkMemoryAddress MemoryAreaDMWord a o) ++ be_bytes 2 n ++ b) ++ rest) (6 + length b))) =
  Ok (MkServer (copy_at (Z.to_nat a) (take (Z.to_nat (2 * n)) (b ++ rest)) (dmarea s)) (bitdmarea s),
      answer_of h CommandCodeMemoryAreaWrite EndCodeNormalCompletion []).
Proof.
  intros (Hlen & _) Hm Hn Hr Hb. destruct (access_parts _ n b rest Hm Hn) as (H1 & H2 & H3).
  pose proof Hm as (_ & [Ha _] & _). cbn in Ha. unfold in_u in Hn. unfold DM_AREA_SIZE in *.
  unfold handler. cbn [rq_commandCode rq_data rq_header]. change (_ || _) with true. cbn iota.
  rewrite H1. cbn [mbind res_bind]. rewrite decode_encode_address by done. cbn [mbind res_bind].
  rewrite H2. cbn [mbind res_bind memoryArea address]. rewrite be_val_bytes by done. rewrite Z.eqb_refl.
  rewrite (uwrap_id 16 (n * 2)), (uwrap_id 16 (a + n * 2)), (uwrap_id 16 (6 + n * 2)) by (unfold in_u; lia).
  unfold DM_AREA_SIZE. rewrite (proj2 (Z.ltb_ge 32768 _)) by lia. change (CommandCodeMemoryAreaWrite =? CommandCodeMemoryAreaRead) with false. cbn iota.
  rewrite H3 by lia. cbn [mbind res_bind]. unfold copy_slice.
  rewrite (proj2 (Z.leb_le 0 a)), (proj2 (Z.leb_le a _)), (proj2 (Z.leb_le _ (len _))) by lia. cbn [andb mbind res_bind].
  do 4 f_equal. rewrite (take_ge (take _ _)); [f_equal; lia|]. rewrite length_take. lia.
Qed.

(** ** Properties *)

(** A datagram the simulator survives leaves its state well formed. *)
Lemma serve_datagram_state s buf now d s' buf' out :
  server_ok s -> buf_ok buf -> bytes_ok d -> serve_datagram s buf now d = Ok (s', buf', out) ->
  server_ok s' /\ buf_ok buf' /\ (out = None <-> d = []).
Proof.
  intros Hs [Hbl Hb] Hd. unfold serve_datagram.
  assert (buf_ok (copy_at 0 (take 1024 d) buf)) as Hb' by (split; [by rewrite length_copy_at|auto with fins]).
  destruct (0 <? _)%nat eqn:E.
  - intros (req & Hreq & H)%res_bind_Ok. apply res_bind_Ok in H as ([s1 resp] & Hh & [= <- <- <-]).
    split_and!; try done; [|split; [done|intros ->; done]]. eapply handler_ok; [done| |done].
    rewrite (decodeRequest_data _ _ Hreq). apply bytes_ok_drop, Hb'.
  - intros [= <- <- <-]. split_and!; try done. apply Nat.ltb_ge in E. destruct d; [done|cbn in E; lia].
Qed.

(** A word read, as a datagram. *)
Lemma serve_word_read s buf now h a o n :
  server_ok s -> buf_ok buf -> memoryAddress_ok (MkMemoryAddress MemoryAreaDMWord a o) -> in_u 16 n ->
  let d := encodeHeader h ++ readCommand (MkMemoryAddress MemoryAreaDMWord a o) n in
  serve_datagram s buf now d =
  if DM_AREA_SIZE <? word_end a n
  then Ok (s, d ++ drop 18 buf, Some (encodeResponse (answer_of h CommandCodeMemoryAreaRead EndCodeAddressRangeExceeded [])))
  else if word_end a n <? a then Panic
  else Ok (s, d ++ drop 18 buf, Some (encodeResponse (answer_of h CommandCodeMemoryAreaRead EndCodeNormalCompletion
             (take (Z.to_nat (word_end a n - a)) (drop (Z.to_nat a) (dmarea s)))))).
Proof.
  intros Hs Hb Hm Hn. cbn zeta. rewrite readCommand_eq.
  rewrite <- (app_nil_r (be_bytes 2 n)) at 1. rewrite serve_command; [|done|by_decide|cbn; lia].
  rewrite handler_word_read by done. destruct (_ <? _); [done|]. by destruct (_ <? _).
Qed.

(** A word write; what its datagram is short of comes from the rest of the buffer. *)
Lemma serve_word_write_any s buf now h a o n b :
  server_ok s -> buf_ok buf -> memoryAddress_ok (MkMemoryAddress MemoryAreaDMWord a o) -> in_u 16 n ->
  a + 2 * n <= DM_AREA_SIZE -> 2 * n <= 1006 -> (18 + length b <= 1024)%nat ->
  let d := encodeHeader h ++ writeCommand (MkMemoryAddress MemoryAreaDMWord a o) n b in
  serve_datagram s buf now d =
  Ok (MkServer (copy_at (Z.to_nat a) (take (Z.to_nat (2 * n)) (b ++ drop (18 + length b) buf)) (dmarea s)) (bitdmarea s),
      d ++ drop (18 + length b) buf,
      Some (encodeResponse (answer_of h CommandCodeMemoryAreaWrite EndCodeNormalCompletion []))).
Proof.
  intros Hs Hb Hm Hn Hr Hl Hf. cbn zeta. rewrite writeCommand_eq.
  assert (length (encodeMemoryAddress (MkMemoryAddress MemoryAreaDMWord a o) ++ be_bytes 2 n ++ b) = 6 + length b)%nat as Hlen by done.
  rewrite serve_command; [|done|by_decide|rewrite Hlen; lia]. rewrite Hlen. change (12 + (6 + length b))%nat with (18 + length b)%nat.
  assert (len (drop (18 + length b) buf) = 1006 - len b) as Hd by (destruct Hb as [Hb _]; unfold len; rewrite length_drop; lia).
  by rewrite handler_word_write by (done || lia).
Qed.

Lemma serve_word_write s buf now h a o n b :
  server_ok s -> buf_ok buf -> memoryAddress_ok (MkMemoryAddress MemoryAreaDMWord a o) -> in_u 16 n ->
  a + 2 * n <= DM_AREA_SIZE -> 2 * n <= len b -> (18 + length b <= 1024)%nat ->
  let d := encodeHeader h ++ writeCommand (MkMemoryAddress MemoryAreaDMWord a o) n b in
  serve_datagram s buf now d =
  Ok (MkServer (copy_at (Z.to_nat a) (take (Z.to_nat (2 * n)) b) (dmarea s)) (bitdmarea s), d ++ drop (18 + length b) buf,
      Some (encodeResponse (answer_of h CommandCodeMemoryAreaWrite EndCodeNormalCompletion []))).
Proof.
  intros Hs Hb Hm Hn Hr Hl Hf. unfold len in Hl. cbn zeta. rewrite serve_word_write_any by (done || lia). by rewrite take_app_le by lia.
Qed.

(** ** Bit accesses

    The bit area has one byte per bit, and bit [o] of address [a] is its byte [a + o]. *)

Lemma handler_bit_read s now h a o n (rest : bytes) :
  server_ok s -> memoryAddress_ok (MkMemoryAddress MemoryAreaDMBit a o) -> in_u 16 n -> a + o + n <= DM_AREA_SIZE ->
  handler s now (MkRequest h CommandCodeMemoryAreaRead
    (MkSlice ((encodeMemoryAddress (MkMemoryAddress MemoryAreaDMBit a o) ++ be_bytes 2 n ++ []) ++ rest) 6)) =
  Ok (s, answer_of h CommandCodeMemoryAreaRead EndCodeNormalCompletion (take (Z.to_nat n) (drop (Z.to_nat (a + o)) (bitdmarea s)))).
Proof.
  intros (_ & _ & Hlen & _) Hm Hn Hr. destruct (access_parts _ n [] rest Hm Hn) as (H1 & H2 & _).
  pose proof Hm as (_ & [Ha _] & [Ho _]). cbn in Ha, Ho. unfold in_u in Hn. unfold DM_AREA_SIZE in *.
  unfold handler. cbn [rq_commandCode rq_data rq_header]. rewrite Z.eqb_refl. cbn [orb].
  change (6 + length [])%nat with 6%nat in *. rewrite H1. cbn [mbind res_bind]. rewrite decode_encode_address by done. cbn [mbind res_bind].
  rewrite H2. cbn [mbind res_bind memoryArea address bitOffset]. rewrite be_val_bytes by done.
  change (MemoryAreaDMBit =? MemoryAreaDMWord) with false. rewrite Z.eqb_refl. cbn iota zeta.
  rewrite (uwrap_id 16 (a + n)), (uwrap_id 16 (a + o)), (uwrap_id 16 (a + o + n)) by (unfold in_u; lia).
  unfold DM_AREA_SIZE. rewrite (proj2 (Z.ltb_ge 32768 _)), zsub_ok by lia. cbn [mbind res_bind]. by replace (a + o + n - (a + o)) with n by lia.
Qed.

Lemma handler_bit_write s now h a o n (b rest : bytes) :
  server_ok s -> memoryAddress_ok (MkMemoryAddress MemoryAreaDMBit a o) -> in_u 16 n ->
  a + o + n <= DM_AREA_SIZE -> n <= len b ->
  handler s now (MkRequest h CommandCodeMemoryAreaWrite
    (MkSlice ((encodeMemoryAddress (MkMemoryAddress MemoryAreaDMBit a o) ++ be_bytes 2 n ++ b) ++ rest) (6 + length b))) =
  Ok (MkServer (dmarea s) (copy_at (Z.to_nat (a + o)) (take (Z.to_nat n) b) (bitdmarea s)),
      answer_of h CommandCodeMemoryAreaWrite EndCodeNormalCompletion []).
Proof.
  intros (_ & _ & Hlen & _) Hm Hn Hr Hb. destruct (access_parts _ n b rest Hm Hn) as (H1 & H2 & H3).
  pose proof Hm as (_ & [Ha _] & [Ho _]). cbn in Ha, Ho. unfold in_u in Hn. unfold DM_AREA_SIZE in *. pose proof (len_nonneg rest).
  unfold handler. cbn [rq_commandCode rq_data rq_header]. change (_ || _) with true. cbn iota.
  rewrite H1. cbn [mbind res_bind]. rewrite decode_encode_address by done. cbn [mbind res_bind].
  rewrite H2. cbn [mbind res_bind memoryArea address bitOffset]. rewrite be_val_bytes by done.
  change (MemoryAreaDMBit =? MemoryAreaDMWord) with false. rewrite Z.eqb_refl. cbn iota zeta.
  rewrite (uwrap_id 16 (a + n)), (uwrap_id 16 (a + o)), (uwrap_id 16 (a + o + n)), (uwrap_id 16 (6 + n)) by (unfold in_u; lia).
  unfold DM_AREA_SIZE. rewrite (proj2 (Z.ltb_ge 32768 _)) by lia.
  change (CommandCodeMemoryAreaWrite =? CommandCodeMemoryAreaRead) with false. cbn iota.
  rewrite H3 by lia. cbn [mbind res_bind]. rewrite copy_slice_ok by lia. cbn [mbind res_bind].
  rewrite take_app_le by (unfold len in Hb; lia). do 4 f_equal. rewrite take_ge; [done|]. rewrite length_take. lia.
Qed.

Lemma serve_bit_read s buf now h a o n :
  server_ok s -> buf_ok buf -> memoryAddress_ok (MkMemoryAddress MemoryAreaDMBit a o) -> in_u 16 n -> a + o + n <= DM_AREA_SIZE ->
  let d := encodeHeader h ++ readCommand (MkMemoryAddress MemoryAreaDMBit a o) n in
  serve_datagram s buf now d =
  Ok (s, d ++ drop 18 buf, Some (encodeResponse (answer_of h CommandCodeMemoryAreaRead EndCodeNormalCompletion
             (take (Z.to_nat n) (drop (Z.to_nat (a + o)) (bitdmarea s)))))).
Proof.
  intros Hs Hb Hm Hn Hr. cbn zeta. rewrite readCommand_eq.
  rewrite <- (app_nil_r (be_bytes 2 n)) at 1. rewrite serve_command; [|done|by_decide|cbn; lia].
  by rewrite handler_bit_read.
Qed.

Lemma serve_bit_write s buf now h a o n b :
  server_ok s -> buf_ok buf -> memoryAddress_ok (MkMemoryAddress MemoryAreaDMBit a o) -> in_u 16 n ->
  a + o + n <= DM_AREA_SIZE -> n <= len b -> (18 + length b <= 1024)%nat ->
  let d := encodeHeader h ++ writeCommand (MkMemoryAddress MemoryAreaDMBit a o) n b in
  serve_datagram s buf now d =
  Ok (MkServer (dmarea s) (copy_at (Z.to_nat (a + o)) (take (Z.to_nat n) b) (bitdmarea s)), d ++ drop (18 + length b) buf,
      Some (encodeResponse (answer_of h CommandCodeMemoryAreaWrite EndCodeNormalCompletion []))).
Proof.
  intros Hs Hb Hm Hn Hr Hl Hf. cbn zeta. rewrite writeCommand_eq.
  assert (length (encodeMemoryAddress (MkMemoryAddress MemoryAreaDMBit a o) ++ be_bytes 2 n ++ b) = 6 + length b)%nat as Hlen by done.
  rewrite serve_command; [|done|by_decide|rewrite Hlen; lia]. rewrite Hlen. by rewrite handler_bit_write.
Qed.

(** The simulator keeps its areas and its buffer well formed, whatever datagram it
    survives. *)
Theorem udp_server_state s buf now d s' buf' out :
  server_ok s -> buf_ok buf -> bytes_ok d -> serve_datagram s buf now d = Ok (s', buf', out) ->
  server_ok s' /\ buf_ok buf' /\ (out = None <-> d = []).
Proof. apply serve_datagram_state. Qed.

(** C37: what crashes the simulator: a datagram that is not empty (an empty one is skipped)
    and shorter than a header and a command, and a word read whose end address wraps around 16 bits to a value inside the area; other
    word reads are answered. *)
Theorem udp_server_crash s buf now h a o n :
  server_ok s -> buf_ok buf -> memoryAddress_ok (MkMemoryAddress MemoryAreaDMWord a o) -> in_u 16 n ->
  (forall d, (0 < length d < 12)%nat -> serve_datagram s buf now d = Panic) /\
  (serve_datagram s buf now (encodeHeader h ++ readCommand (MkMemoryAddress MemoryAreaDMWord a o) n) = Panic <->
   (a + 2 * n mod 65536) mod 65536 <= DM_AREA_SIZE /\ (a + 2 * n mod 65536) mod 65536 < a).
Proof.
  intros Hs Hb Hm Hn. split.
  - intros d Hd. unfold serve_datagram. rewrite take_ge, Nat.min_r, (proj2 (Nat.ltb_lt 0 _)) by lia. destruct Hb as [Hb _].
    assert (length (copy_at 0 d buf) = 1024)%nat as Hc by (by rewrite length_copy_at).
    unfold decodeRequest, s_sub, s_from. cbn [s_arr s_len]. rewrite !zsub_ok by (unfold len; lia). cbn [mbind res_bind].
    set (l := take _ (drop (Z.to_nat 0) _)). assert (length l = 10)%nat as Hl by (unfold l; rewrite length_take, length_drop; lia).
    do 10 (destruct l as [|? l]; [done|]). cbn. destruct (length d) as [|k]; [lia|]. do 11 (destruct k; [done|]). lia.
  - rewrite serve_word_read by done. replace ((a + 2 * n mod 65536) mod 65536) with (word_end a n).
    + destruct (DM_AREA_SIZE <? _) eqn:E1; zbool; [split; [done|lia]|]. destruct (_ <? a) eqn:E2; zbool; split; done || lia.
    + unfold word_end, uwrap. change (2 ^ 16) with 65536. by rewrite (Z.mul_comm n 2).
Qed.

(** Word addresses are byte offsets here: a word written at address [a] is found again
    shifted by one byte when the next word is read, so neighbouring words overlap. *)
Theorem udp_words_overlap s buf now h w a :
  server_ok s -> buf_ok buf -> Header_ok h -> 0 <= a <= DM_AREA_SIZE - 3 -> in_u 16 w ->
  exists s1 buf1 out1 buf2 x,
    serve_datagram s buf now (encodeHeader h ++ writeCommand (memAddr MemoryAreaDMWord a) 1 (be_bytes 2 w)) = Ok (s1, buf1, out1) /\
    serve_datagram s1 buf1 now (encodeHeader h ++ readCommand (memAddr MemoryAreaDMWord (a + 1)) 1) =
    Ok (s1, buf2, Some (encodeResponse (answer_of h CommandCodeMemoryAreaRead EndCodeNormalCompletion [w mod 256; x]))).
Proof.
  intros Hs Hb Hh Ha Hw. unfold DM_AREA_SIZE in Ha.
  assert (forall k, 0 <= k <= 1 -> memoryAddress_ok (memAddr MemoryAreaDMWord (a + k))) as Hm
    by (intros; unfold memoryAddress_ok, in_u, MemoryAreaDMWord; cbn; lia).
  pose proof (Hm 0 ltac:(lia)) as Hm0. rewrite Z.add_0_r in Hm0.
  set (d := encodeHeader h ++ writeCommand (memAddr MemoryAreaDMWord a) 1 (be_bytes 2 w)).
  assert (bytes_ok d) as Hd by (apply bytes_ok_app; split; [by apply encodeHeader_ok|apply writeCommand_ok; auto with fins]).
  pose proof (serve_word_write s buf now h a 0 1 (be_bytes 2 w)) as Hwr. cbn zeta in Hwr. fold (memAddr MemoryAreaDMWord a) d in Hwr.
  specialize (Hwr Hs Hb Hm0 ltac:(by_decide) ltac:(unfold DM_AREA_SIZE; lia) ltac:(by rewrite len_be_bytes) ltac:(cbn; lia)).
  destruct (serve_datagram_state _ _ _ _ _ _ _ Hs Hb Hd Hwr) as (Hs1 & Hb1 & _).
  do 4 eexists. pose proof (serve_word_read _ _ now h (a + 1) 0 1 Hs1 Hb1 (Hm 1 ltac:(lia)) ltac:(by_decide)) as Hrd.
  assert (word_end (a + 1) 1 = a + 3) as Hwe by (unfold word_end; rewrite !uwrap_id; unfold in_u; try lia; rewrite ?uwrap_id; unfold in_u; lia).
  cbn zeta in Hrd. rewrite Hwe in Hrd. unfold DM_AREA_SIZE in Hrd.
  rewrite (proj2 (Z.ltb_ge 32768 _)), (proj2 (Z.ltb_ge _ (a + 1))) in Hrd by lia.
  destruct Hs as (Hlen & _). unfold DM_AREA_SIZE, len in Hlen.
  destruct (lookup_lt_is_Some_2 (dmarea s) (Z.to_nat (a + 2))) as [x Hx]; [lia|]. exists x.
  split; [exact Hwr|]. etrans; [exact Hrd|]. do 5 f_equal. cbn [dmarea].
  apply list_eq. intros j. rewrite (take_ge (be_bytes 2 w)) by (rewrite length_be_bytes; lia).
  destruct (decide (j < 2)%nat) as [Hj|Hj].
  - rewrite lookup_take_lt, lookup_drop, lookup_copy_at by (rewrite ?length_be_bytes; lia).
    destruct j as [|[|j]]; [| |lia].
    + rewrite decide_True by (rewrite length_be_bytes; lia). replace (_ - _)%nat with 1%nat by lia. done.
    + rewrite decide_False by (rewrite length_be_bytes; lia). replace (_ + 1)%nat with (Z.to_nat (a + 2)) by lia. done.
  - rewrite lookup_take_ge by lia. by destruct j as [|[|j]]; [lia|lia|].
Qed.

(** ** Witnesses *)

Definition sample_header : Header := defaultCommandHeader (MkAddr 0 1 0) (MkAddr 0 2 0) 9.
Definition sample_buf : bytes := make_bytes 1024.
Definition sample_clock : clock_time := MkClock 2024 2 29 23 5 0.

Lemma sample_header_ok : Header_ok sample_header.
Proof. split_and!; by_decide. Qed.
Lemma sample_buf_ok : buf_ok sample_buf.
Proof. split; [done|apply bytes_ok_make]. Qed.

Lemma sample_served :
  exists buf' out, serve_datagram NewServer sample_buf sample_clock (encodeHeader sample_header ++ clockReadCommand)
    = Ok (NewServer, buf', Some out).
Proof.
  change clockReadCommand with (be_bytes 2 CommandCodeClockRead ++ []).
  rewrite serve_command by (apply sample_buf_ok || by_decide || (cbn; lia)). do 2 eexists. reflexivity.
Qed.

Lemma udp_server_state_witness : exists s' buf' (out : option bytes), server_ok s' /\ buf_ok buf' /\ out <> None.
Proof.
  destruct sample_served as (buf' & out & E).
  assert (bytes_ok (encodeHeader sample_header ++ clockReadCommand)) as Hd by by_decide.
  destruct (udp_server_state _ _ _ _ _ _ _ NewServer_ok sample_buf_ok Hd E) as (H1 & H2 & H3).
  exists NewServer, buf', (Some out). split; [exact H1|]. split; [exact H2|]. intros H. apply H3 in H. discriminate H.
Defined.

Lemma udp_server_crash_witness :
  serve_datagram NewServer sample_buf sample_clock
    (encodeHeader sample_header ++ readCommand (MkMemoryAddress MemoryAreaDMWord 40000 0) 20000) = Panic.
Proof.
  destruct (udp_server_crash NewServer sample_buf sample_clock sample_header 40000 0 20000) as [_ H];
    [apply NewServer_ok|apply sample_buf_ok|split_and!; by_decide|by_decide|].
  apply H. split; by_decide.
Defined.

Lemma udp_words_overlap_witness :
  exists s1 buf1 out1 buf2 x,
    serve_datagram NewServer sample_buf sample_clock
      (encodeHeader sample_header ++ writeCommand (memAddr MemoryAreaDMWord 100) 1 (be_bytes 2 0x1234)) = Ok (s1, buf1, out1) /\
    serve_datagram s1 buf1 sample_clock (encodeHeader sample_header ++ readCommand (memAddr MemoryAreaDMWord (100 + 1)) 1) =
    Ok (s1, buf2, Some (encodeResponse (answer_of sample_header CommandCodeMemoryAreaRead EndCodeNormalCompletion [0x1234 mod 256; x]))).
Proof.
  refine (udp_words_overlap NewServer sample_buf sample_clock sample_header 0x1234 100 NewServer_ok sample_buf_ok sample_header_ok _ _);
    [by_decide|by_decide].
Defined.
