(* ===== verification/UdpClient.v ===== *)
(** * The UDP client ([src/udp/client.go])

    The operations over a [sendCommand], the [sendCommand] of a client with one call at
    a time over a network that answers a datagram or not, and that client against the
    simulator of [UdpServer.v].  Concurrent calls are in [UdpSession.v].  A call
    with response timeout zero and no answer never returns and is not a result here. *)
From S2P Require Import Prelude UdpConstants Udp UdpServer.

Definition DEFAULT_RESPONSE_TIMEOUT : Z := 20.

Record Client := MkClient {
  c_dst : finsAddress; c_src : finsAddress; c_sid : Z; c_closed : bool; responseTimeoutMs : Z; byteOrder : byte_order }.

Definition NewClient (src dst : finsAddress) : Client := MkClient dst src 0 false DEFAULT_RESPONSE_TIMEOUT BigEndian.

Definition SetByteOrder (c : Client) (o : byte_order) : Client :=
  MkClient (c_dst c) (c_src c) (c_sid c) (c_closed c) (responseTimeoutMs c) o.
Definition SetTimeoutMs (c : Client) (t : Z) : Client :=
  MkClient (c_dst c) (c_src c) (c_sid c) (c_closed c) (s64 t) (byteOrder c).
Definition Close (c : Client) : Client :=
  MkClient (c_dst c) (c_src c) (c_sid c) true (responseTimeoutMs c) (byteOrder c).

Definition checkIsWordMemoryArea (a : Z) : bool :=
  (a =? MemoryAreaDMWord) || (a =? MemoryAreaARWord) || (a =? MemoryAreaHRWord) || (a =? MemoryAreaWRWord).

Definition checkIsBitMemoryArea (a : Z) : bool :=
  (a =? MemoryAreaDMBit) || (a =? MemoryAreaARBit) || (a =? MemoryAreaHRBit) || (a =? MemoryAreaWRBit).

Definition checkResponse (r : res udp_error response) : res udp_error response :=
  match r with
  | Ok resp => if negb (rs_endCode resp =? EndCodeNormalCompletion) then Err (EndCodeError (rs_endCode resp)) else Ok resp
  | Err e => Err e
  | Panic => Panic
  end.

Lemma checkResponse_normal r : rs_endCode r = EndCodeNormalCompletion -> checkResponse (Ok r) = Ok r.
Proof. intros E. unfold checkResponse. by rewrite E. Qed.

(** ** Operations *)

Section operations.
Context {T : Type} (sendCommand : T -> bytes -> T * res udp_error response) (order : byte_order).

(** Send a command, check the answer and go on with it. *)
Definition command {A} (t : T) (cmd : bytes) (k : response -> res udp_error A) : T * res udp_error A :=
  let '(t, r) := sendCommand t cmd in (t, resp ← checkResponse r; k resp).

(** [data[i] = c.byteOrder.Uint16(r.data[i*2 : i*2+2])] for each [i]. *)
Definition words_of (d : slice) (readCount : Z) : res udp_error (list Z) :=
  mapM (fun i => b ← s_sub d (i * 2) (i * 2 + 2); Ok (bo_val order b)) (seqZ 0 readCount).

Definition ReadWords (t : T) (area a readCount : Z) : T * res udp_error (list Z) :=
  if negb (checkIsWordMemoryArea area) then (t, Err (IncompatibleMemoryAreaError area)) else
  command t (readCommand (memAddr area a) readCount) (fun r => words_of (rs_data r) readCount).

Definition ReadBytes (t : T) (area a readCount : Z) : T * res udp_error bytes :=
  if negb (checkIsWordMemoryArea area) then (t, Err (IncompatibleMemoryAreaError area)) else
  command t (readCommand (memAddr area a) readCount) (fun r => Ok (elems (rs_data r))).

(** The bytes before the first NUL. *)
Fixpoint before_nul (data : bytes) : bytes :=
  match data with [] => [] | b :: data => if b =? 0 then [] else b :: before_nul data end.

Definition ReadString (t : T) (area a readCount : Z) : T * res udp_error string :=
  let '(t, r) := ReadBytes t area a readCount in (t, data ← r; Ok (string_of_bytes (before_nul data))).

Definition bits_of (d : slice) (readCount : Z) : res udp_error (list bool) :=
  mapM (fun i => b ← s_idx d i; Ok (0 <? Z.land b 0x01)) (seqZ 0 readCount).

Definition ReadBits (t : T) (area a off readCount : Z) : T * res udp_error (list bool) :=
  if negb (checkIsBitMemoryArea area) then (t, Err (IncompatibleMemoryAreaError area)) else
  command t (readCommand (memAddrWithBitOffset area a off) readCount) (fun r => bits_of (rs_data r) readCount).

(** [x, _ := decodeBCD(r.data[i:i+1])]: an error leaves zero. *)
Definition clock_field (d : slice) (i : Z) : res udp_error Z :=
  b ← s_sub d i (i + 1);
  match decodeBCD b with Ok x => Ok x | Err _ => Ok 0 | Panic => Panic end.

(** The arguments of [time.Date]. *)
Definition ReadClock (t : T) : T * res udp_error clock_time :=
  command t clockReadCommand (fun r =>
    year ← clock_field (rs_data r) 0;
    let year := if year <? 50 then year + 2000 else year + 1900 in
    month ← clock_field (rs_data r) 1;
    day ← clock_field (rs_data r) 2;
    hour ← clock_field (rs_data r) 3;
    minute ← clock_field (rs_data r) 4;
    second ← clock_field (rs_data r) 5;
    Ok (MkClock year month day hour minute second)).

Definition done_ (r : response) : res udp_error unit := Ok tt.

(** [c.byteOrder.PutUint16(bts[i*2:i*2+2], data[i])] from [i] on. *)
Fixpoint put_words (i : Z) (data : list Z) (bts : bytes) : res udp_error bytes :=
  match data with
  | [] => Ok bts
  | w :: data => bts ← copy_slice (i * 2) (i * 2 + 2) (bo_bytes order 2 w) bts; put_words (i + 1) data bts
  end.

Definition WriteWords (t : T) (area a : Z) (data : list Z) : T * res udp_error unit :=
  if negb (checkIsWordMemoryArea area) then (t, Err (IncompatibleMemoryAreaError area)) else
  let l := u16 (len data) in
  match put_words 0 (take (Z.to_nat l) data) (make_bytes (Z.to_nat (u16 (2 * l)))) with
  | Ok bts => command t (writeCommand (memAddr area a) l bts) done_
  | Err e => (t, Err e)
  | Panic => (t, Panic)
  end.

Definition WriteString (t : T) (area a : Z) (s : string) : T * res udp_error unit :=
  if negb (checkIsWordMemoryArea area) then (t, Err (IncompatibleMemoryAreaError area)) else
  let b := bytes_of_string s in
  let bts := copy_at 0 b (make_bytes (2 * length b)) in
  command t (writeCommand (memAddr area a) (u16 (Z.quot (len b + 1) 2)) bts) done_.

Definition WriteBytes (t : T) (area a : Z) (b : bytes) : T * res udp_error unit :=
  if negb (checkIsWordMemoryArea area) then (t, Err (IncompatibleMemoryAreaError area)) else
  let itemCount := u16 (Z.quot (len b) 2) in
  let itemCount := if negb (Z.rem (len b) 2 =? 0) then u16 (itemCount + 1) else itemCount in
  command t (writeCommand (memAddr area a) itemCount b) done_.

Definition WriteBits (t : T) (area a off : Z) (data : list bool) : T * res udp_error unit :=
  if negb (checkIsBitMemoryArea area) then (t, Err (IncompatibleMemoryAreaError area)) else
  let l := u16 (len data) in
  let bts := (fun d : bool => if d then 0x01 else 0x00) <$> take (Z.to_nat l) data in
  command t (writeCommand (memAddrWithBitOffset area a off) l bts) done_.

Definition bitTwiddle (t : T) (area a off value : Z) : T * res udp_error unit :=
  if negb (checkIsBitMemoryArea area) then (t, Err (IncompatibleMemoryAreaError area)) else
  command t (writeCommand (MkMemoryAddress area a off) 1 [value]) done_.

Definition SetBit (t : T) (area a off : Z) : T * res udp_error unit := bitTwiddle t area a off 0x01.
Definition ResetBit (t : T) (area a off : Z) : T * res udp_error unit := bitTwiddle t area a off 0x00.

Definition ToggleBit (t : T) (area a off : Z) : T * res udp_error unit :=
  match ReadBits t area a off 1 with
  | (t, Ok b) =>
    match b with
    | b0 :: _ => bitTwiddle t area a off (if b0 then 0x00 else 0x01)
    | [] => (t, Panic)
    end
  | (t, Err e) => (t, Err e)
  | (t, Panic) => (t, Panic)
  end.
End operations.

(** ** Sending, one call at a time *)

Inductive delivery := NoAnswer | Answer (datagram : bytes) | WriteFails.

Definition incrementSid (c : Client) : Client :=
  MkClient (c_dst c) (c_src c) (u8 (c_sid c + 1)) (c_closed c) (responseTimeoutMs c) (byteOrder c).

Definition nextHeader (c : Client) : Client * Header :=
  let c := incrementSid c in (c, defaultCommandHeader (c_src c) (c_dst c) (c_sid c)).

(** What [listenLoop] makes of a datagram: a fresh buffer of 2048 bytes. *)
Definition listen_buf (datagram : bytes) : slice :=
  MkSlice (copy_at 0 (take 2048 datagram) (make_bytes 2048)) (Nat.min 2048 (length datagram)).

(** One call while no other is in progress.  An answer with another identifier is not for
    this call, which then times out; that the listener also blocks on such an answer, so that
    later calls time out as well, is in [UdpSession.v]. *)
Definition sendCommand {W : Type} (net : W -> bytes -> W * delivery) (cw : Client * W) (cmd : bytes)
    : (Client * W) * res udp_error response :=
  let '(c, w) := cw in
  let '(c, header) := nextHeader c in
  let bts := encodeHeader header ++ cmd in
  match net w bts with
  | (w, WriteFails) => ((c, w), Err SocketError)
  | (w, NoAnswer) => ((c, w), Err ResponseTimeoutError)
  | (w, Answer d) =>
    if (0 <? length d)%nat then
      match decodeResponse (listen_buf d) with
      | Ok ans => ((c, w), if serviceID (rs_header ans) =? serviceID header then Ok ans else Err ResponseTimeoutError)
      | Err e => ((c, w), Err e)
      | Panic => ((c, w), Panic)
      end
    else ((c, w), Err ResponseTimeoutError)
  end.

(** ** Words on the wire *)

Section words.
Context (order : byte_order).

Definition wire_words (ws : list Z) : bytes := concat (bo_bytes order 2 <$> ws).

Lemma length_wire_words ws : length (wire_words ws) = (2 * length ws)%nat.
Proof.
  induction ws as [|w ws IH]; [done|]. unfold wire_words in *. cbn [fmap list_fmap concat].
  rewrite length_app, length_bo_bytes, IH. cbn [length]. lia.
Qed.

Lemma wire_words_ok ws : bytes_ok (wire_words ws).
Proof. induction ws as [|w ws IH]; [constructor|]. apply bytes_ok_app. split; [apply bo_bytes_ok|done]. Qed.

Lemma put_words_eq ws : forall pre tail,
  length tail = (2 * length ws)%nat -> Nat.even (length pre) = true ->
  put_words order (len pre / 2) ws (pre ++ tail) = Ok (pre ++ wire_words ws).
Proof.
  induction ws as [|w ws IH]; intros pre tail Ht Hp; cbn [put_words].
  { by rewrite (nil_length_inv tail). }
  apply Nat.even_spec in Hp as [k Hk]. assert (len pre = 2 * Z.of_nat k) as Hl by (unfold len; lia). cbn [length] in Ht.
  destruct tail as [|x [|y tail]]; cbn [length] in Ht; [lia..|].
  assert (copy_slice (E := udp_error) (len pre / 2 * 2) (len pre / 2 * 2 + 2) (bo_bytes order 2 w) (pre ++ x :: y :: tail) =
    Ok ((pre ++ bo_bytes order 2 w) ++ tail)) as ->.
  { rewrite Hl. unfold copy_slice. pose proof (len_nonneg tail). rewrite !len_app, !len_cons.
    rewrite (proj2 (Z.leb_le 0 _)), (proj2 (Z.leb_le (_ * 2) _)), (proj2 (Z.leb_le _ (len pre + _))) by zdm. cbn [andb]. f_equal.
    rewrite take_ge by (rewrite length_bo_bytes; zdm). change (x :: y :: tail) with ([x; y] ++ tail).
    rewrite copy_at_app, app_assoc; [done|unfold len in Hl; zdm|by rewrite length_bo_bytes]. }
  cbn [mbind res_bind]. replace (len pre / 2 + 1) with (len (pre ++ bo_bytes order 2 w) / 2).
  2:{ rewrite len_app, Hl. unfold len. rewrite length_bo_bytes. zdm. }
  rewrite IH; [|lia|apply Nat.even_spec; exists (k + 1)%nat; rewrite length_app, length_bo_bytes; lia].
  unfold wire_words. cbn. by rewrite <- app_assoc.
Qed.

Lemma words_of_eq ws rest n :
  Forall (in_u 16) ws -> words_of order (MkSlice (wire_words ws ++ rest) n) (len ws) = Ok ws.
Proof.
  intros Hws. unfold words_of, s_sub. cbn [s_arr].
  assert (forall pre, mapM (fun i => b ← zsub (E := udp_error) (wire_words pre ++ wire_words ws ++ rest) (i * 2) (i * 2 + 2);
    Ok (bo_val order b)) (seqZ (len pre) (len ws)) = Ok ws) as H; [|exact (H [])].
  induction Hws as [|w ws Hw Hws IH]; intros pre; [done|].
  rewrite len_cons, seqZ_cons by (pose proof (len_nonneg ws); lia).
  assert (zsub (E := udp_error) (wire_words pre ++ wire_words (w :: ws) ++ rest) (len pre * 2) (len pre * 2 + 2) = Ok (bo_bytes order 2 w)) as Hz.
  { pose proof (len_nonneg ws). pose proof (len_nonneg rest).
    rewrite zsub_ok; [|pose proof (len_nonneg pre); lia|rewrite !len_app; unfold len; rewrite !length_wire_words; cbn [length]; lia].
    f_equal. rewrite drop_app_length' by (rewrite length_wire_words; unfold len; lia).
    unfold wire_words at 1. cbn [fmap list_fmap concat]. rewrite <- app_assoc, take_app_length'; [done|]. rewrite length_bo_bytes. lia. }
  cbn [mapM]. rewrite Hz. cbn [mbind res_bind]. rewrite bo_val_bytes by done.
  specialize (IH (pre ++ [w])). rewrite len_app in IH. change (len [w]) with 1 in IH.
  replace (wire_words (pre ++ [w]) ++ wire_words ws ++ rest) with (wire_words pre ++ wire_words (w :: ws) ++ rest) in IH.
  - replace (Z.succ (len pre)) with (len pre + 1) by lia. replace (Z.pred (1 + len ws)) with (len ws) by lia. by rewrite IH.
  - unfold wire_words. rewrite fmap_app, concat_app. cbn. by rewrite app_nil_r, <- !app_assoc.
Qed.
End words.

(** ** The client against the simulator *)

Record sim := MkSim { sim_server : Server; sim_buf : bytes; sim_clock : clock_time }.

(** A network that loses and delays nothing: every datagram is delivered, and every answer of
    the simulator arrives before the client's timeout.  A crashed simulator answers
    nothing. *)
Definition sim_net (w : sim) (d : bytes) : sim * delivery :=
  match serve_datagram (sim_server w) (sim_buf w) (sim_clock w) d with
  | Ok (s, buf, Some out) => (MkSim s buf (sim_clock w), Answer out)
  | Ok (s, buf, None) => (MkSim s buf (sim_clock w), NoAnswer)
  | _ => (w, NoAnswer)
  end.

Definition client_ok (c : Client) : Prop := finsAddress_ok (c_src c) /\ finsAddress_ok (c_dst c) /\ in_u 8 (c_sid c).
Definition sim_ok (w : sim) : Prop := server_ok (sim_server w) /\ buf_ok (sim_buf w).

Lemma next_header_ok c : client_ok c -> Header_ok (snd (nextHeader c)) /\ client_ok (fst (nextHeader c)).
Proof.
  intros (Hs & Hd & _). assert (in_u 8 (u8 (c_sid c + 1))) by auto with fins.
  split; [|by split_and!]. split; [by left|]. split_and!; try done; by_decide.
Qed.

(** What the listener decodes of an answer. *)
Lemma decode_answer h c e data :
  messageType h = MessageTypeResponse -> responseRequired h = false ->
  in_u 16 c -> in_u 16 e -> (14 + length data <= 2048)%nat ->
  decodeResponse (listen_buf (encodeResponse (MkResponse h c e (of_bytes data)))) =
  Ok (MkResponse h c e (MkSlice (data ++ make_bytes (2034 - length data)) (length data))).
Proof.
  intros Hm Hr Hc He Hl. rewrite encodeResponse_eq. unfold listen_buf.
  set (d := encodeHeader _ ++ _). assert (length d = 14 + length data)%nat as Hd.
  { unfold d. rewrite !length_app, !length_be_bytes. cbn. lia. }
  rewrite take_ge by lia. rewrite copy_at_datagram by (unfold make_bytes; rewrite length_replicate; lia).
  rewrite Nat.min_r, Hd by lia. unfold d. rewrite decodeResponse_eq by done.
  unfold make_bytes. rewrite drop_replicate. unfold decoded_type. rewrite Hr. destruct h; cbn in *. by subst.
Qed.

(** A call that is answered under its service number. *)
Lemma send_answered {W} (net : W -> bytes -> W * delivery) c w w' cmd h e data code :
  net w (encodeHeader (snd (nextHeader c)) ++ cmd) = (w', Answer (encodeResponse (MkResponse h code e (of_bytes data)))) ->
  messageType h = MessageTypeResponse -> responseRequired h = false -> serviceID h = serviceID (snd (nextHeader c)) ->
  in_u 16 e -> in_u 16 code -> (14 + length data <= 2048)%nat ->
  sendCommand net (c, w) cmd =
    ((fst (nextHeader c), w'), Ok (MkResponse h code e (MkSlice (data ++ make_bytes (2034 - length data)) (length data)))).
Proof.
  intros Hs Hm Hr Hsid He Hcode Hl. unfold sendCommand. destruct (nextHeader c) as [c' hc] eqn:E. cbn [fst snd] in *.
  rewrite Hs. change (0 <? length (encodeResponse _))%nat with true. cbn iota.
  rewrite decode_answer by done. cbn [rs_header]. by rewrite Hsid, Z.eqb_refl.
Qed.

Lemma send_served c w cmd s' buf' e data code :
  serve_datagram (sim_server w) (sim_buf w) (sim_clock w) (encodeHeader (snd (nextHeader c)) ++ cmd) =
    Ok (s', buf', Some (encodeResponse (answer_of (snd (nextHeader c)) code e data))) ->
  in_u 16 e -> in_u 16 code -> (14 + length data <= 2048)%nat ->
  exists h, sendCommand sim_net (c, w) cmd =
    ((fst (nextHeader c), MkSim s' buf' (sim_clock w)),
     Ok (MkResponse h code e (MkSlice (data ++ make_bytes (2034 - length data)) (length data)))).
Proof.
  intros Hs He Hcode Hl. eexists. eapply send_answered; [unfold sim_net; by rewrite Hs|done..].
Qed.

Lemma word_end_id a n : 0 <= a -> 0 <= n -> a + 2 * n < 65536 -> word_end a n = a + 2 * n.
Proof. intros. unfold word_end. rewrite (uwrap_id 16 (n * 2)), uwrap_id by (unfold in_u; lia). lia. Qed.

(** A command the simulator answers, and what the caller makes of the answer. *)
Lemma command_served {A} c w cmd (k : response -> res udp_error A) s' buf' data code :
  client_ok c -> sim_ok w -> bytes_ok cmd ->
  serve_datagram (sim_server w) (sim_buf w) (sim_clock w) (encodeHeader (snd (nextHeader c)) ++ cmd) =
    Ok (s', buf', Some (encodeResponse (answer_of (snd (nextHeader c)) code EndCodeNormalCompletion data))) ->
  in_u 16 code -> (14 + length data <= 2048)%nat ->
  exists h, command (sendCommand sim_net) (c, w) cmd k =
    ((incrementSid c, MkSim s' buf' (sim_clock w)),
     k (MkResponse h code EndCodeNormalCompletion (MkSlice (data ++ make_bytes (2034 - length data)) (length data)))) /\
    sim_ok (MkSim s' buf' (sim_clock w)).
Proof.
  intros Hc [Hs Hb] Hcmd Hsv Hcode Hl. destruct (next_header_ok c Hc) as [Hh _].
  destruct (send_served c w cmd s' buf' EndCodeNormalCompletion data code Hsv) as [h Hsend]; [by_decide|done..|].
  exists h. split; [unfold command; by rewrite Hsend, checkResponse_normal|].
  assert (bytes_ok (encodeHeader (snd (nextHeader c)) ++ cmd)) as Hd by (apply bytes_ok_app; split; [by apply encodeHeader_ok|done]).
  by destruct (serve_datagram_state _ _ _ _ _ _ _ Hs Hb Hd Hsv) as (? & ? & _).
Qed.

(** The four accesses to the simulator's areas. *)
Lemma command_word_write c w a n b :
  client_ok c -> sim_ok w -> bytes_ok b -> 0 <= a -> 0 <= n -> a + 2 * n <= DM_AREA_SIZE -> 2 * n <= 1006 -> len b <= 1006 ->
  exists w', command (sendCommand sim_net) (c, w) (writeCommand (memAddr MemoryAreaDMWord a) n b) done_ = ((incrementSid c, w'), Ok tt) /\
    sim_ok w' /\ sim_clock w' = sim_clock w /\
    sim_server w' = MkServer (copy_at (Z.to_nat a) (take (Z.to_nat (2 * n)) (b ++ drop (18 + length b) (sim_buf w))) (dmarea (sim_server w)))
                      (bitdmarea (sim_server w)).
Proof.
  intros Hc Hw Hb Ha Hn0 Hr Hn Hl. pose proof Hr as Hr'. unfold DM_AREA_SIZE in Hr'.
  assert (memoryAddress_ok (memAddr MemoryAreaDMWord a)) as Hm by (unfold memoryAddress_ok, in_u, MemoryAreaDMWord; cbn; lia).
  pose proof (serve_word_write_any (sim_server w) (sim_buf w) (sim_clock w) (snd (nextHeader c)) a 0 n b
    (proj1 Hw) (proj2 Hw) Hm ltac:(unfold in_u; lia) Hr Hn ltac:(unfold len in Hl; lia)) as Hs.
  destruct (command_served c w (writeCommand (memAddr MemoryAreaDMWord a) n b) done_ _ _ [] _ Hc Hw (writeCommand_ok _ _ _ Hm Hb) Hs)
    as (h & Hcmd & Hok); [by_decide|cbn; lia|].
  eexists. split; [exact Hcmd|]. by split.
Qed.

Lemma command_word_read {A} c w a n (k : response -> res udp_error A) :
  client_ok c -> sim_ok w -> 0 <= a -> 0 <= n -> a + 2 * n <= DM_AREA_SIZE -> 2 * n <= 2034 ->
  let data := take (Z.to_nat (2 * n)) (drop (Z.to_nat a) (dmarea (sim_server w))) in
  exists w' h, command (sendCommand sim_net) (c, w) (readCommand (memAddr MemoryAreaDMWord a) n) k =
    ((incrementSid c, w'), k (MkResponse h CommandCodeMemoryAreaRead EndCodeNormalCompletion
       (MkSlice (data ++ make_bytes (2034 - length data)) (length data)))) /\
    sim_ok w' /\ sim_clock w' = sim_clock w /\ sim_server w' = sim_server w.
Proof.
  intros Hc Hw Ha Hn0 Hr Hn. pose proof Hr as Hr'. unfold DM_AREA_SIZE in Hr'. cbn zeta.
  assert (memoryAddress_ok (memAddr MemoryAreaDMWord a)) as Hm by (unfold memoryAddress_ok, in_u, MemoryAreaDMWord; cbn; lia).
  pose proof (serve_word_read (sim_server w) (sim_buf w) (sim_clock w) (snd (nextHeader c)) a 0 n
    (proj1 Hw) (proj2 Hw) Hm ltac:(unfold in_u; lia)) as Hs.
  cbn zeta in Hs. rewrite word_end_id in Hs by lia. unfold DM_AREA_SIZE in Hs.
  rewrite (proj2 (Z.ltb_ge 32768 _)), (proj2 (Z.ltb_ge _ a)) in Hs by lia. replace (a + 2 * n - a) with (2 * n) in Hs by lia.
  destruct (command_served c w (readCommand (memAddr MemoryAreaDMWord a) n) k _ _ _ _ Hc Hw (readCommand_ok _ _ Hm) Hs)
    as (h & Hcmd & Hok); [by_decide|rewrite length_take; lia|].
  eexists _, h. split; [exact Hcmd|]. by split.
Qed.

Lemma command_bit_write c w a o n b :
  client_ok c -> sim_ok w -> bytes_ok b -> 0 <= a -> in_u 8 o -> 0 <= n -> a + o + n <= DM_AREA_SIZE -> n <= len b -> len b <= 1006 ->
  exists w', command (sendCommand sim_net) (c, w) (writeCommand (MkMemoryAddress MemoryAreaDMBit a o) n b) done_ = ((incrementSid c, w'), Ok tt) /\
    sim_ok w' /\ sim_clock w' = sim_clock w /\
    sim_server w' = MkServer (dmarea (sim_server w)) (copy_at (Z.to_nat (a + o)) (take (Z.to_nat n) b) (bitdmarea (sim_server w))).
Proof.
  intros Hc Hw Hb Ha Ho Hn0 Hr Hn Hl. pose proof Hr as Hr'. unfold DM_AREA_SIZE in Hr'. pose proof Ho as Ho'. unfold in_u in Ho'.
  assert (memoryAddress_ok (MkMemoryAddress MemoryAreaDMBit a o)) as Hm by (unfold memoryAddress_ok, in_u, MemoryAreaDMBit; cbn; lia).
  pose proof (serve_bit_write (sim_server w) (sim_buf w) (sim_clock w) (snd (nextHeader c)) a o n b
    (proj1 Hw) (proj2 Hw) Hm ltac:(unfold in_u; lia) Hr Hn ltac:(unfold len in Hl; lia)) as Hs.
  destruct (command_served c w (writeCommand (MkMemoryAddress MemoryAreaDMBit a o) n b) done_ _ _ [] _ Hc Hw (writeCommand_ok _ _ _ Hm Hb) Hs)
    as (h & Hcmd & Hok); [by_decide|cbn; lia|].
  eexists. split; [exact Hcmd|]. by split.
Qed.

Lemma command_bit_read {A} c w a o n (k : response -> res udp_error A) :
  client_ok c -> sim_ok w -> 0 <= a -> in_u 8 o -> 0 <= n -> a + o + n <= DM_AREA_SIZE -> n <= 2034 ->
  let data := take (Z.to_nat n) (drop (Z.to_nat (a + o)) (bitdmarea (sim_server w))) in
  exists w' h, command (sendCommand sim_net) (c, w) (readCommand (MkMemoryAddress MemoryAreaDMBit a o) n) k =
    ((incrementSid c, w'), k (MkResponse h CommandCodeMemoryAreaRead EndCodeNormalCompletion
       (MkSlice (data ++ make_bytes (2034 - length data)) (length data)))) /\
    sim_ok w' /\ sim_clock w' = sim_clock w /\ sim_server w' = sim_server w.
Proof.
  intros Hc Hw Ha Ho Hn0 Hr Hn. pose proof Hr as Hr'. unfold DM_AREA_SIZE in Hr'. cbn zeta. pose proof Ho as Ho'. unfold in_u in Ho'.
  assert (memoryAddress_ok (MkMemoryAddress MemoryAreaDMBit a o)) as Hm by (unfold memoryAddress_ok, in_u, MemoryAreaDMBit; cbn; lia).
  pose proof (serve_bit_read (sim_server w) (sim_buf w) (sim_clock w) (snd (nextHeader c)) a o n
    (proj1 Hw) (proj2 Hw) Hm ltac:(unfold in_u; lia) Hr) as Hs.
  destruct (command_served c w (readCommand (MkMemoryAddress MemoryAreaDMBit a o) n) k _ _ _ _ Hc Hw (readCommand_ok _ _ Hm) Hs)
    as (h & Hcmd & Hok); [by_decide|rewrite length_take; lia|].
  eexists _, h. split; [exact Hcmd|]. by split.
Qed.

Lemma incrementSid_ok c : client_ok c -> client_ok (incrementSid c).
Proof. apply next_header_ok. Qed.

(** Writing words that exist. *)
Lemma write_words_ok c w a ws :
  client_ok c -> sim_ok w -> 0 <= a -> a + 2 * len ws <= DM_AREA_SIZE -> len ws <= 503 ->
  exists w', WriteWords (sendCommand sim_net) (byteOrder c) (c, w) MemoryAreaDMWord a ws = ((incrementSid c, w'), Ok tt) /\
    sim_ok w' /\ sim_clock w' = sim_clock w /\
    sim_server w' = MkServer (copy_at (Z.to_nat a) (wire_words (byteOrder c) ws) (dmarea (sim_server w))) (bitdmarea (sim_server w)).
Proof.
  intros Hc Hw Ha Hr Hn. pose proof (len_nonneg ws) as Hl0. unfold WriteWords.
  change (negb (checkIsWordMemoryArea MemoryAreaDMWord)) with false. cbn iota zeta.
  rewrite (uwrap_id 16 (len ws)), (uwrap_id 16 (2 * len ws)) by (unfold in_u; lia). rewrite take_ge by (unfold len; lia).
  pose proof (put_words_eq (byteOrder c) ws [] (make_bytes (Z.to_nat (2 * len ws)))) as Hput. cbn [app] in Hput.
  change (len (@nil Z) / 2) with 0 in Hput.
  rewrite Hput; [|unfold make_bytes; rewrite length_replicate; unfold len; lia|done].
  pose proof (length_wire_words (byteOrder c) ws) as Hb.
  destruct (command_word_write c w a (len ws) (wire_words (byteOrder c) ws)) as (w' & Hcmd & Hok & Hck & Hs);
    [done..|apply wire_words_ok|done|lia|done|lia|unfold len in *; lia|].
  exists w'. split_and!; try done. rewrite Hs. by rewrite take_app_length' by (unfold len; lia).
Qed.

(** Reading words that exist. *)
Lemma read_words_ok c w a ws :
  client_ok c -> sim_ok w -> 0 <= a -> a + 2 * len ws <= DM_AREA_SIZE -> len ws <= 1017 -> Forall (in_u 16) ws ->
  take (2 * length ws) (drop (Z.to_nat a) (dmarea (sim_server w))) = wire_words (byteOrder c) ws ->
  exists w', ReadWords (sendCommand sim_net) (byteOrder c) (c, w) MemoryAreaDMWord a (len ws) = ((incrementSid c, w'), Ok ws) /\
    sim_ok w' /\ sim_clock w' = sim_clock w /\ sim_server w' = sim_server w.
Proof.
  intros Hc Hw Ha Hr Hn Hws Hmem. unfold ReadWords.
  change (negb (checkIsWordMemoryArea MemoryAreaDMWord)) with false. cbn iota.
  destruct (command_word_read c w a (len ws) (fun r => words_of (byteOrder c) (rs_data r) (len ws))) as (w' & h & Hcmd & Hok);
    [done..|unfold len; lia|done|lia|].
  exists w'. split; [|done]. rewrite Hcmd. cbn [rs_data].
  replace (Z.to_nat (2 * len ws)) with (2 * length ws)%nat by (unfold len; lia). by rewrite Hmem, words_of_eq.
Qed.

(** What was copied into an area is what a later read finds there. *)
Lemma copied_back (i : nat) (b l : bytes) : (i + length b <= length l)%nat -> take (length b) (drop i (copy_at i b l)) = b.
Proof.
  intros Hl. rewrite copy_at_eq by done. rewrite drop_app_length' by (rewrite length_take; lia). by rewrite take_app_length'.
Qed.

(** ** Properties *)

(** Words written, then read. *)
Lemma words_written_read c w a ws :
  client_ok c -> sim_ok w -> 0 <= a -> a + 2 * len ws <= DM_AREA_SIZE -> len ws <= 503 -> Forall (in_u 16) ws ->
  exists w1 w2,
    WriteWords (sendCommand sim_net) (byteOrder c) (c, w) MemoryAreaDMWord a ws = ((incrementSid c, w1), Ok tt) /\
    ReadWords (sendCommand sim_net) (byteOrder c) (incrementSid c, w1) MemoryAreaDMWord a (len ws)
      = ((incrementSid (incrementSid c), w2), Ok ws) /\
    sim_ok w2 /\ sim_clock w2 = sim_clock w /\
    sim_server w2 = MkServer (copy_at (Z.to_nat a) (wire_words (byteOrder c) ws) (dmarea (sim_server w))) (bitdmarea (sim_server w)).
Proof.
  intros Hc Hw Ha Hr Hn Hws. destruct (write_words_ok c w a ws) as (w1 & Hwr & Hw1 & Ek & Hs); [done..|].
  destruct (read_words_ok (incrementSid c) w1 a ws) as (w2 & Hrd & Hw2 & Ek2 & Hs2); [by apply incrementSid_ok|done|done|done|lia|done| |].
  - destruct Hw as [(Hl & _) _]. unfold DM_AREA_SIZE, len in *. rewrite Hs. cbn [dmarea].
    rewrite <- (length_wire_words (byteOrder c)). apply copied_back. rewrite length_wire_words. lia.
  - exists w1, w2. split_and!; congruence || done.
Qed.

(** C15: words round-trip over UDP: in either byte order, words written to the data area
    of the simulator (up to 503 of them, what one of its datagrams holds) are read back. *)
Theorem udp_write_then_read c w a ws :
  client_ok c -> sim_ok w -> 0 <= a -> a + 2 * len ws <= DM_AREA_SIZE -> len ws <= 503 -> Forall (in_u 16) ws ->
  exists cw1 cw2,
    WriteWords (sendCommand sim_net) (byteOrder c) (c, w) MemoryAreaDMWord a ws = (cw1, Ok tt) /\
    ReadWords (sendCommand sim_net) (byteOrder c) cw1 MemoryAreaDMWord a (len ws) = (cw2, Ok ws).
Proof.
  intros Hc Hw Ha Hr Hn Hws. destruct (words_written_read c w a ws) as (w1 & w2 & Hwr & Hrd & _); [done..|]. by eauto.
Qed.

Lemma bcd_byte x : 0 <= x < 100 -> exists b, encodeBCD x = [b] /\ decodeBCD [b] = Ok x.
Proof.
  intros Hx.
  assert (forallb (fun x => match encodeBCD x with
    | [b] => match decodeBCD [b] with Ok y => y =? x | _ => false end
    | _ => false
    end) (seqZ 0 100) = true) as H by (vm_compute; reflexivity).
  rewrite forallb_forall in H. specialize (H x (in_range_In 0 100 x ltac:(lia))). cbn beta in H.
  destruct (encodeBCD x) as [|b [|]]; [done| |done]. exists b. split; [done|].
  destruct (decodeBCD [b]); [|done..]. by zbool; subst.
Qed.

Lemma clock_field_eq (pre rest : bytes) b x n :
  decodeBCD [b] = Ok x -> clock_field (MkSlice (pre ++ b :: rest) n) (len pre) = Ok x.
Proof.
  intros Hb. unfold clock_field, s_sub. cbn [s_arr]. pose proof (len_nonneg pre). pose proof (len_nonneg rest).
  rewrite zsub_ok by (rewrite ?len_app, ?len_cons; lia). cbn [mbind res_bind].
  rewrite drop_app_length' by (unfold len; lia). replace (Z.to_nat _) with 1%nat by lia. change (take 1 (b :: rest)) with [b]. rewrite Hb. done.
Qed.

(** The year two digits stand for. *)
Definition full_year (y : Z) : Z := if y <? 50 then y + 2000 else y + 1900.

(** What the client makes of six bytes of BCD. *)
Lemma read_clock_answer {T} (send : T -> bytes -> T * res udp_error response) t t' h code (z : bytes) n
    b0 b1 b2 b3 b4 b5 x0 x1 x2 x3 x4 x5 :
  send t clockReadCommand = (t', Ok (MkResponse h code EndCodeNormalCompletion (MkSlice ([b0; b1; b2; b3; b4; b5] ++ z) n))) ->
  decodeBCD [b0] = Ok x0 -> decodeBCD [b1] = Ok x1 -> decodeBCD [b2] = Ok x2 ->
  decodeBCD [b3] = Ok x3 -> decodeBCD [b4] = Ok x4 -> decodeBCD [b5] = Ok x5 ->
  ReadClock send t = (t', Ok (MkClock (full_year x0) x1 x2 x3 x4 x5)).
Proof.
  intros Hsend D0 D1 D2 D3 D4 D5. unfold ReadClock, command. rewrite Hsend, checkResponse_normal by done.
  cbn [mbind res_bind rs_data app].
  rewrite (clock_field_eq [] (b1 :: b2 :: b3 :: b4 :: b5 :: z) b0 _ _ D0 : clock_field _ 0 = _).
  rewrite (clock_field_eq [b0] (b2 :: b3 :: b4 :: b5 :: z) b1 _ _ D1 : clock_field _ 1 = _).
  rewrite (clock_field_eq [b0; b1] (b3 :: b4 :: b5 :: z) b2 _ _ D2 : clock_field _ 2 = _).
  rewrite (clock_field_eq [b0; b1; b2] (b4 :: b5 :: z) b3 _ _ D3 : clock_field _ 3 = _).
  rewrite (clock_field_eq [b0; b1; b2; b3] (b5 :: z) b4 _ _ D4 : clock_field _ 4 = _).
  rewrite (clock_field_eq [b0; b1; b2; b3; b4] z b5 _ _ D5 : clock_field _ 5 = _).
  done.
Qed.

(** A date the two digits of the year determine. *)
Definition clock_ok (t : clock_time) : Prop :=
  1950 <= Year t < 2050 /\ 1 <= Month t <= 12 /\ 1 <= Day t <= 31 /\ 0 <= Hour t < 24 /\ 0 <= Minute t < 60 /\ 0 <= Second t < 60.

(** The clock is read and the simulator stays as it is. *)
Lemma read_clock_ok c w :
  client_ok c -> sim_ok w -> clock_ok (sim_clock w) ->
  exists w', ReadClock (sendCommand sim_net) (c, w) = ((incrementSid c, w'), Ok (sim_clock w)) /\
    sim_ok w' /\ sim_clock w' = sim_clock w /\ sim_server w' = sim_server w.
Proof.
  intros Hc Hw (Hy & Hmo & Hd & Hh & Hmi & Hs). destruct w as [s buf [year month day hour minute second]].
  cbn [sim_clock Year Month Day Hour Minute Second] in *.
  assert (0 <= Z.rem year 100 < 100) as Hy2 by (rewrite Z.rem_mod_nonneg by lia; zdm).
  destruct (bcd_byte (Z.rem year 100)) as (b0 & E0 & D0); [done|]. destruct (bcd_byte month) as (b1 & E1 & D1); [lia|].
  destruct (bcd_byte day) as (b2 & E2 & D2); [lia|]. destruct (bcd_byte hour) as (b3 & E3 & D3); [lia|].
  destruct (bcd_byte minute) as (b4 & E4 & D4); [lia|]. destruct (bcd_byte second) as (b5 & E5 & D5); [lia|].
  pose proof (serve_command s buf (MkClock year month day hour minute second) (snd (nextHeader c)) CommandCodeClockRead []
    (proj2 Hw) ltac:(by_decide) ltac:(cbn; lia)) as Hsv.
  unfold handler in Hsv. cbn [rq_commandCode rq_header] in Hsv.
  change (CommandCodeClockRead =? CommandCodeMemoryAreaRead) with false in Hsv.
  change (CommandCodeClockRead =? CommandCodeMemoryAreaWrite) with false in Hsv.
  rewrite Z.eqb_refl in Hsv. cbn [orb Year Month Day Hour Minute Second] in Hsv. cbn zeta iota in Hsv.
  rewrite !(uwrap_id 64) in Hsv by (unfold in_u; lia). rewrite E0, E1, E2, E3, E4, E5 in Hsv. cbn [app mbind res_bind] in Hsv.
  destruct (send_served c (MkSim s buf (MkClock year month day hour minute second)) clockReadCommand _ _ EndCodeNormalCompletion
    [b0; b1; b2; b3; b4; b5] CommandCodeClockRead Hsv) as [h Hsend]; [by_decide|by_decide|cbn; lia|].
  assert (sim_ok (MkSim s ((encodeHeader (snd (nextHeader c)) ++ clockReadCommand) ++ drop 12 buf) (MkClock year month day hour minute second))) as Hok.
  { destruct (next_header_ok c Hc) as [Hh0 _].
    assert (bytes_ok (encodeHeader (snd (nextHeader c)) ++ be_bytes 2 CommandCodeClockRead ++ [])) as Hb0
      by (apply bytes_ok_app; split; [by apply encodeHeader_ok|by_decide]).
    destruct (serve_datagram_state _ _ _ _ _ _ _ (proj1 Hw) (proj2 Hw) Hb0 Hsv) as (? & ? & _). by split. }
  eexists. split; [|by split; [exact Hok|]].
  rewrite (read_clock_answer _ _ _ _ _ _ _ b0 b1 b2 b3 b4 b5 _ _ _ _ _ _ Hsend D0 D1 D2 D3 D4 D5).
  rewrite Z.rem_mod_nonneg in * by lia. unfold full_year. do 3 f_equal. destruct (_ <? 50) eqn:E; zbool; zdm.
Qed.

(** The clock round-trips: the client reads the date and time of the simulator, for
    the years from 1950 to 2049 that the two digits of the year stand for. *)
Theorem udp_clock_roundtrip c w :
  client_ok c -> sim_ok w -> clock_ok (sim_clock w) ->
  exists cw', ReadClock (sendCommand sim_net) (c, w) = (cw', Ok (sim_clock w)).
Proof. intros Hc Hw Hck. destruct (read_clock_ok c w Hc Hw Hck) as (w' & Hr & _). by eexists. Qed.

(** The length of an answer is not checked: whatever number of words was asked for, up
    to 1017, reading words succeeds on an answer of any length, and words beyond its
    end are zero; a larger number panics on every answer. *)
Theorem udp_reply_length_unchecked order h data n :
  in_u 16 n -> (length data <= 2034)%nat ->
  exists r, decodeResponse (listen_buf (encodeResponse (answer_of h CommandCodeMemoryAreaRead EndCodeNormalCompletion data))) = Ok r /\
    if n <=? 1017
    then exists ws, words_of order (rs_data r) n = Ok ws /\ len ws = n /\
           forall i, (length data <= 2 * i)%nat -> (Z.of_nat i < n) -> ws !! i = Some 0
    else words_of order (rs_data r) n = Panic.
Proof.
  intros [Hn _] Hl. unfold answer_of; rewrite decode_answer by (by_decide || lia). eexists. split; [done|]. cbn [rs_data].
  set (arr := data ++ make_bytes _). assert (len arr = 2034) as Ha.
  { unfold arr, make_bytes. rewrite len_app. unfold len. rewrite length_replicate. lia. }
  unfold words_of, s_sub. cbn [s_arr].
  set (f := fun i => b ← zsub (E := udp_error) arr (i * 2) (i * 2 + 2); Ok (bo_val order b)).
  assert (forall i, 0 <= i < 1017 -> f i = Ok (bo_val order (take 2 (drop (Z.to_nat (i * 2)) arr)))) as Hf.
  { intros i Hi. unfold f. rewrite zsub_ok by lia. cbn. do 3 f_equal. lia. }
  destruct (n <=? 1017) eqn:E; zbool.
  - exists ((fun i => bo_val order (take 2 (drop (Z.to_nat (i * 2)) arr))) <$> seqZ 0 n). split; [|split].
    + assert (forall l, Forall (fun i => 0 <= i < 1017) l ->
        mapM f l = Ok ((fun i => bo_val order (take 2 (drop (Z.to_nat (i * 2)) arr))) <$> l)) as Hmap.
      { induction 1 as [|i l Hi _ IH]; [done|]. cbn [mapM fmap list_fmap]. rewrite Hf by done. cbn [mbind res_bind]. by rewrite IH. }
      apply Hmap, Forall_forall. intros i Hi%elem_of_seqZ. lia.
    + unfold len. rewrite length_fmap, length_seqZ. lia.
    + intros i Hi Hin. rewrite list_lookup_fmap, lookup_seqZ_lt by lia. cbn. f_equal.
      unfold arr. rewrite drop_app_ge by lia. unfold make_bytes. rewrite drop_replicate, take_replicate.
      destruct (Nat.min 2 _) as [|[|[|?]]] eqn:Em; [by destruct order..|lia].
  - assert (forall l, f 1017 = Panic -> In 1017 l -> (forall i, In i l -> 0 <= i < 1017 \/ f i = Panic) -> mapM f l = Panic) as Hp.
    { intros l Hf0. induction l as [|i l IH]; [done|]. intros [->|Hin] Hall; cbn [mapM]; [by rewrite Hf0|].
      destruct (Hall i) as [Hi|Hi]; [by left| |by rewrite Hi]. rewrite Hf by done. cbn [mbind res_bind]. rewrite IH; [done..|].
      intros j Hj. apply Hall. by right. }
    assert (forall i, 1017 <= i -> f i = Panic) as Hbad.
    { intros i Hi. unfold f. by rewrite zsub_panic by lia. }
    apply Hp; [by apply Hbad|apply list_elem_of_In, elem_of_seqZ; lia|].
    intros i Hi%list_elem_of_In%elem_of_seqZ. destruct (decide (i < 1017)); [left; lia|right; apply Hbad; lia].
Qed.

(** ** Witnesses *)

Definition sample_client : Client := SetByteOrder (NewClient (MkAddr 0 1 0) (MkAddr 0 2 0)) LittleEndian.
Definition sample_sim : sim := MkSim NewServer sample_buf sample_clock.

Lemma sample_client_ok : client_ok sample_client.
Proof. split_and!; by_decide. Qed.
Lemma sample_sim_ok : sim_ok sample_sim.
Proof. split; [apply NewServer_ok|apply sample_buf_ok]. Qed.

Lemma udp_write_then_read_witness :
  exists cw1 cw2,
    WriteWords (sendCommand sim_net) LittleEndian (sample_client, sample_sim) MemoryAreaDMWord 32762 [1; 0xabcd; 65535] = (cw1, Ok tt) /\
    ReadWords (sendCommand sim_net) LittleEndian cw1 MemoryAreaDMWord 32762 3 = (cw2, Ok [1; 0xabcd; 65535]).
Proof.
  refine (udp_write_then_read sample_client sample_sim 32762 [1; 0xabcd; 65535] sample_client_ok sample_sim_ok _ _ _ _); by_decide.
Defined.

Lemma udp_clock_roundtrip_witness :
  exists cw', ReadClock (sendCommand sim_net) (sample_client, sample_sim) = (cw', Ok (MkClock 2024 2 29 23 5 0)).
Proof.
  refine (udp_clock_roundtrip sample_client sample_sim sample_client_ok sample_sim_ok _).
  unfold clock_ok. cbn. lia.
Defined.

Lemma udp_reply_length_unchecked_witness :
  exists r, decodeResponse (listen_buf (encodeResponse (answer_of sample_header CommandCodeMemoryAreaRead EndCodeNormalCompletion [18; 52]))) = Ok r /\
    exists ws, words_of BigEndian (rs_data r) 3 = Ok ws /\ len ws = 3 /\
      forall i, (2 <= 2 * i)%nat -> (Z.of_nat i < 3) -> ws !! i = Some 0.
Proof.
  refine (udp_reply_length_unchecked BigEndian sample_header [18; 52] 3 _ _); [by_decide|cbn; lia].
Defined.
