(* ===== verification/UdpAccess.v ===== *)
(** * Bits, bytes and strings over UDP ([src/udp/client.go] against [src/udp/server.go])

    The bit, byte and string operations of the client, on the memory of the
    simulator. *)
From S2P Require Import Prelude UdpConstants Udp UdpServer UdpClient.

(** ** Bits *)

Definition byte_bit (b : Z) : bool := 0 <? Z.land b 0x01.
Definition bit_byte (d : bool) : Z := if d then 0x01 else 0x00.

Lemma byte_bit_byte (l : list bool) : byte_bit <$> (bit_byte <$> l) = l.
Proof. induction l as [|[] l IH]; [done|cbn; by f_equal..]. Qed.

Lemma bit_bytes_ok (l : list bool) : bytes_ok (bit_byte <$> l).
Proof. apply Forall_fmap, Forall_true. intros []; by_decide. Qed.

(** The bits of an answer. *)
Lemma bits_of_eq (data rest : bytes) : bits_of (MkSlice (data ++ rest) (length data)) (len data) = Ok (byte_bit <$> data).
Proof.
  unfold bits_of, s_idx, elems. cbn [s_arr s_len]. rewrite take_app_length.
  assert (forall pre l, data = pre ++ l -> mapM (fun i => b ← zidx (E := udp_error) data i; Ok (0 <? Z.land b 0x01)) (seqZ (len pre) (len l))
    = Ok (byte_bit <$> l)) as H; [|by apply (H [])].
  intros pre l. revert pre. induction l as [|b l IH]; intros pre E; [done|].
  rewrite len_cons, seqZ_cons by (pose proof (len_nonneg l); lia). cbn [mapM].
  rewrite (zidx_ok _ _ b) by first [apply len_nonneg|(subst; unfold len; rewrite Nat2Z.id; by apply list_lookup_middle)]. cbn [mbind res_bind].
  specialize (IH (pre ++ [b])). rewrite len_app in IH. change (len [b]) with 1 in IH.
  replace (Z.succ (len pre)) with (len pre + 1) by lia. replace (Z.pred (1 + len l)) with (len l) by lia.
  rewrite IH by (by rewrite <- app_assoc). done.
Qed.

(** The bits an access to bit [o] of address [a] finds. *)
Definition bits_at (s : Server) (a o n : Z) : list bool :=
  byte_bit <$> take (Z.to_nat n) (drop (Z.to_nat (a + o)) (bitdmarea s)).

Lemma read_bits_ok c w a o n :
  client_ok c -> sim_ok w -> 0 <= a -> in_u 8 o -> 0 <= n -> a + o + n <= DM_AREA_SIZE -> n <= 2034 ->
  exists w', ReadBits (sendCommand sim_net) (c, w) MemoryAreaDMBit a o n = ((incrementSid c, w'), Ok (bits_at (sim_server w) a o n)) /\
    sim_ok w' /\ sim_clock w' = sim_clock w /\ sim_server w' = sim_server w.
Proof.
  intros Hc Hw Ha Ho Hn0 Hr Hn. unfold ReadBits. change (negb (checkIsBitMemoryArea MemoryAreaDMBit)) with false. cbn iota.
  destruct (command_bit_read c w a o n (fun r => bits_of (rs_data r) n)) as (w' & h & Hcmd & Hok); [done..|].
  exists w'. split; [|done]. unfold memAddrWithBitOffset. rewrite Hcmd. cbn [rs_data]. unfold bits_at.
  set (data := take _ _). assert (len data = n) as Hl.
  { destruct Hw as [(_ & _ & Hlen & _) _]. unfold data, len, DM_AREA_SIZE, in_u in *. rewrite length_take, length_drop. lia. }
  rewrite <- Hl at 1. by rewrite bits_of_eq.
Qed.

(** What a write leaves in the bit area. *)
Lemma bits_at_written s a o (b : bytes) :
  len (bitdmarea s) = DM_AREA_SIZE -> 0 <= a -> 0 <= o -> a + o + len b <= DM_AREA_SIZE ->
  bits_at (MkServer (dmarea s) (copy_at (Z.to_nat (a + o)) b (bitdmarea s))) a o (len b) = byte_bit <$> b.
Proof.
  intros Hl Ha Ho Hr. unfold bits_at. cbn [bitdmarea]. unfold len in *. rewrite Nat2Z.id. f_equal. apply copied_back. lia.
Qed.

Lemma write_bits_ok c w a o data :
  client_ok c -> sim_ok w -> 0 <= a -> in_u 8 o -> a + o + len data <= DM_AREA_SIZE -> len data <= 1006 ->
  exists w', WriteBits (sendCommand sim_net) (c, w) MemoryAreaDMBit a o data = ((incrementSid c, w'), Ok tt) /\
    sim_ok w' /\ sim_clock w' = sim_clock w /\
    sim_server w' = MkServer (dmarea (sim_server w)) (copy_at (Z.to_nat (a + o)) (bit_byte <$> data) (bitdmarea (sim_server w))).
Proof.
  intros Hc Hw Ha Ho Hr Hn. unfold WriteBits. change (negb (checkIsBitMemoryArea MemoryAreaDMBit)) with false. cbn iota zeta.
  pose proof (len_nonneg data) as H0. rewrite (uwrap_id 16 (len data)), take_ge by (unfold in_u, len in *; lia).
  change (_ <$> data) with (bit_byte <$> data). assert (len (bit_byte <$> data) = len data) as Hl by (unfold len; by rewrite length_fmap).
  destruct (command_bit_write c w a o (len data) (bit_byte <$> data)) as (w' & Hcmd & Hok & Hck & Hs);
    [done..|apply bit_bytes_ok|done|done|lia|done|lia|lia|].
  exists w'. unfold memAddrWithBitOffset. rewrite Hcmd. split_and!; try done. rewrite Hs, take_ge; [done|]. unfold len in *. lia.
Qed.

Lemma bits_written_read c w a o data :
  client_ok c -> sim_ok w -> 0 <= a -> in_u 8 o -> a + o + len data <= DM_AREA_SIZE -> len data <= 1006 ->
  exists w1 w2, WriteBits (sendCommand sim_net) (c, w) MemoryAreaDMBit a o data = ((incrementSid c, w1), Ok tt) /\
    ReadBits (sendCommand sim_net) (incrementSid c, w1) MemoryAreaDMBit a o (len data) = ((incrementSid (incrementSid c), w2), Ok data) /\
    sim_ok w2 /\ sim_clock w2 = sim_clock w /\ dmarea (sim_server w2) = dmarea (sim_server w).
Proof.
  intros Hc Hw Ha Ho Hr Hn. destruct (write_bits_ok c w a o data) as (w1 & Hwr & Hw1 & Ek1 & Hs); [done..|].
  destruct (read_bits_ok (incrementSid c) w1 a o (len data)) as (w2 & Hrd & Hw2 & Ek2 & Hs2);
    [by apply incrementSid_ok|done|done|done|apply len_nonneg|done|lia|].
  exists w1, w2. rewrite Hrd, Hs2, Hs. split_and!; try done; [|congruence]. do 2 f_equal.
  assert (len (bit_byte <$> data) = len data) as Hl by (unfold len; by rewrite length_fmap). rewrite <- Hl.
  destruct Hw as [(_ & _ & Hlen & _) _]. unfold in_u in Ho. rewrite bits_at_written by (done || lia). by rewrite byte_bit_byte.
Qed.

(** Bits round-trip over UDP: bits written to the bit area of the simulator are read
    back, from any bit of any address on. *)
Theorem udp_bits_roundtrip c w a o data :
  client_ok c -> sim_ok w -> 0 <= a -> in_u 8 o -> a + o + len data <= DM_AREA_SIZE -> len data <= 1006 ->
  exists cw1 cw2, WriteBits (sendCommand sim_net) (c, w) MemoryAreaDMBit a o data = (cw1, Ok tt) /\
    ReadBits (sendCommand sim_net) cw1 MemoryAreaDMBit a o (len data) = (cw2, Ok data).
Proof.
  intros Hc Hw Ha Ho Hr Hn. destruct (bits_written_read c w a o data) as (w1 & w2 & Hwr & Hrd & _); [done..|]. by eauto.
Qed.

(** ** Single bits *)

(** Bit [o] of address [a]. *)
Definition bit_at (s : Server) (a o : Z) : bool := default false (byte_bit <$> bitdmarea s !! Z.to_nat (a + o)).

Lemma bits_at_one s a o : len (bitdmarea s) = DM_AREA_SIZE -> 0 <= a + o < DM_AREA_SIZE -> bits_at s a o 1 = [bit_at s a o].
Proof.
  intros Hl Ho. unfold bits_at, bit_at. change (Z.to_nat 1) with 1%nat. unfold len in Hl.
  destruct (lookup_lt_is_Some_2 (bitdmarea s) (Z.to_nat (a + o))) as [b Hb]; [lia|]. rewrite Hb. by rewrite (drop_S _ _ _ Hb).
Qed.

Lemma twiddle_ok c w a o d :
  client_ok c -> sim_ok w -> 0 <= a -> in_u 8 o -> a + o < DM_AREA_SIZE ->
  exists w', bitTwiddle (sendCommand sim_net) (c, w) MemoryAreaDMBit a o (bit_byte d) = ((incrementSid c, w'), Ok tt) /\ sim_ok w' /\
    forall a' o', 0 <= a' + o' -> bit_at (sim_server w') a' o' = if a' + o' =? a + o then d else bit_at (sim_server w) a' o'.
Proof.
  intros Hc Hw Ha Ho Hr. unfold bitTwiddle. change (negb (checkIsBitMemoryArea MemoryAreaDMBit)) with false. cbn iota.
  destruct (command_bit_write c w a o 1 [bit_byte d]) as (w' & Hcmd & Hok & _ & Hs); [done|done| |done|done|lia|lia|done..|].
  { by apply (bit_bytes_ok [d]). }
  exists w'. rewrite Hcmd. split_and!; [done..|]. intros a' o' H0. unfold bit_at. rewrite Hs. cbn [bitdmarea].
  change (take (Z.to_nat 1) [bit_byte d]) with [bit_byte d].
  destruct Hw as [(_ & _ & Hlen & _) _]. unfold len, DM_AREA_SIZE, in_u in *. rewrite lookup_copy_at by (cbn; lia). cbn [length].
  destruct (Z.eqb_spec (a' + o') (a + o)) as [E|E].
  - rewrite E, decide_True, Nat.sub_diag by lia. by destruct d.
  - by rewrite decide_False by lia.
Qed.

(** What each single-bit operation makes of a bit. *)
Definition bit_ops {T} (send : T -> bytes -> T * res udp_error response) :
    list ((T -> Z -> Z -> Z -> T * res udp_error unit) * (bool -> bool)) :=
  [(SetBit send, fun _ => true); (ResetBit send, fun _ => false); (ToggleBit send, negb)].

(** C24: [SetBit], [ResetBit] and [ToggleBit] set, clear and flip the bit [ReadBits] returns,
    and no other byte of the bit area: bits [(a, o)] and [(a', o')] are the same
    when a + o = a' + o', so the bits of neighbouring addresses overlap. *)
Theorem udp_bit_operations c w a o op f :
  client_ok c -> sim_ok w -> 0 <= a -> in_u 8 o -> a + o < DM_AREA_SIZE -> In (op, f) (bit_ops (sendCommand sim_net)) ->
  exists cw0 c1 w1, ReadBits (sendCommand sim_net) (c, w) MemoryAreaDMBit a o 1 = (cw0, Ok [bit_at (sim_server w) a o]) /\
    op (c, w) MemoryAreaDMBit a o = ((c1, w1), Ok tt) /\ sim_ok w1 /\
    forall a' o', 0 <= a' + o' ->
      bit_at (sim_server w1) a' o' = if a' + o' =? a + o then f (bit_at (sim_server w) a o) else bit_at (sim_server w) a' o'.
Proof.
  intros Hc Hw Ha Ho Hr Hop. destruct (read_bits_ok c w a o 1) as (w0 & Hrd & Hw0 & _ & Hs0); [done..|lia|lia|done|].
  rewrite bits_at_one in Hrd by (destruct Hw as [(_ & _ & ? & _) _]; unfold in_u in Ho; done || lia).
  exists (incrementSid c, w0). cbn in Hop. destruct Hop as [[= <- <-]|[[= <- <-]|[[= <- <-]|[]]]].
  - destruct (twiddle_ok c w a o true) as (w1 & H1 & H2); [done..|]. by exists (incrementSid c), w1.
  - destruct (twiddle_ok c w a o false) as (w1 & H1 & H2); [done..|]. by exists (incrementSid c), w1.
  - destruct (twiddle_ok (incrementSid c) w0 a o (negb (bit_at (sim_server w) a o))) as (w1 & H1 & H2);
      [by apply incrementSid_ok|done..|]. rewrite Hs0 in H2.
    exists (incrementSid (incrementSid c)), w1. split; [done|]. split; [|done]. unfold ToggleBit. rewrite Hrd.
    by destruct (bit_at _ _ _).
Qed.

(** ** Bytes *)

Lemma read_bytes_ok c w a n :
  client_ok c -> sim_ok w -> 0 <= a -> 0 <= n -> a + 2 * n <= DM_AREA_SIZE -> 2 * n <= 2034 ->
  exists w', ReadBytes (sendCommand sim_net) (c, w) MemoryAreaDMWord a n =
    ((incrementSid c, w'), Ok (take (Z.to_nat (2 * n)) (drop (Z.to_nat a) (dmarea (sim_server w))))) /\
    sim_ok w' /\ sim_clock w' = sim_clock w /\ sim_server w' = sim_server w.
Proof.
  intros Hc Hw Ha Hn0 Hr Hn. unfold ReadBytes. change (negb (checkIsWordMemoryArea MemoryAreaDMWord)) with false. cbn iota.
  destruct (command_word_read c w a n (fun r => Ok (elems (rs_data r)))) as (w' & h & Hcmd & Hok); [done..|].
  exists w'. split; [|done]. rewrite Hcmd. unfold elems. cbn [rs_data s_arr s_len]. by rewrite take_app_length.
Qed.

(** The byte an odd number of bytes is completed with: what the simulator's buffer still
    holds from earlier datagrams. *)
Definition odd_tail (buf b : bytes) : bytes := if Z.even (len b) then [] else take 1 (drop (18 + length b) buf).

Lemma length_odd_tail buf b : length buf = 1024%nat -> (18 + length b < 1024)%nat -> len (b ++ odd_tail buf b) = 2 * ((len b + 1) / 2).
Proof.
  intros Hbuf Hl. rewrite len_app. unfold odd_tail. destruct (Z.even (len b)) eqn:E.
  - apply Z.even_spec in E as [k Hk]. rewrite len_nil. zdm.
  - assert (Z.odd (len b) = true) as [k Hk]%Z.odd_spec by (rewrite <- Z.negb_even, E; done).
    assert (len (take 1 (drop (18 + length b) buf)) = 1) as -> by (unfold len; rewrite length_take, length_drop; lia). zdm.
Qed.

Lemma item_count (b : bytes) : len b <= 1006 ->
  (let n := u16 (Z.quot (len b) 2) in if negb (Z.rem (len b) 2 =? 0) then u16 (n + 1) else n) = (len b + 1) / 2.
Proof.
  intros Hl. pose proof (len_nonneg b). rewrite Z.quot_div_nonneg, Z.rem_mod_nonneg by lia. cbn zeta.
  rewrite (uwrap_id 16 (len b / 2)) by (unfold in_u; zdm). destruct (Z.eqb_spec (len b mod 2) 0); cbn [negb]; [zdm|].
  rewrite uwrap_id by (unfold in_u; zdm). zdm.
Qed.

Lemma write_bytes_ok c w a b :
  client_ok c -> sim_ok w -> bytes_ok b -> 0 <= a -> a + 2 * ((len b + 1) / 2) <= DM_AREA_SIZE -> len b <= 1005 ->
  exists w', WriteBytes (sendCommand sim_net) (c, w) MemoryAreaDMWord a b = ((incrementSid c, w'), Ok tt) /\
    sim_ok w' /\ sim_clock w' = sim_clock w /\
    sim_server w' = MkServer (copy_at (Z.to_nat a) (b ++ odd_tail (sim_buf w) b) (dmarea (sim_server w))) (bitdmarea (sim_server w)).
Proof.
  intros Hc Hw Hb Ha Hr Hl. pose proof (len_nonneg b). unfold WriteBytes.
  change (negb (checkIsWordMemoryArea MemoryAreaDMWord)) with false. cbn iota. rewrite item_count by lia.
  destruct (command_word_write c w a ((len b + 1) / 2) b) as (w' & Hcmd & Hok & Hck & Hs); [done..|zdm|done|zdm|lia|].
  exists w'. rewrite Hcmd. split_and!; try done. rewrite Hs. do 2 f_equal.
  pose proof (length_odd_tail (sim_buf w) b (proj1 (proj2 Hw)) ltac:(unfold len in Hl; lia)) as Ht. rewrite len_app in Ht.
  unfold len in *. rewrite take_app_ge by lia. f_equal. unfold odd_tail in *. destruct (Z.even _).
  - by replace (_ - _)%nat with 0%nat by (cbn in Ht; zdm).
  - f_equal. pose proof (proj1 (proj2 Hw)) as Hbuf. rewrite length_take, length_drop, Hbuf in Ht. zdm.
Qed.

Lemma bytes_written_read c w a b :
  client_ok c -> sim_ok w -> bytes_ok b -> 0 <= a -> a + 2 * ((len b + 1) / 2) <= DM_AREA_SIZE -> len b <= 1005 ->
  exists w1 w2, WriteBytes (sendCommand sim_net) (c, w) MemoryAreaDMWord a b = ((incrementSid c, w1), Ok tt) /\
    ReadBytes (sendCommand sim_net) (incrementSid c, w1) MemoryAreaDMWord a ((len b + 1) / 2)
      = ((incrementSid (incrementSid c), w2), Ok (b ++ odd_tail (sim_buf w) b)) /\
    sim_ok w2 /\ sim_clock w2 = sim_clock w /\
    dmarea (sim_server w2) = copy_at (Z.to_nat a) (b ++ odd_tail (sim_buf w) b) (dmarea (sim_server w)).
Proof.
  intros Hc Hw Hb Ha Hr Hl. pose proof (len_nonneg b).
  destruct (write_bytes_ok c w a b) as (w1 & Hwr & Hw1 & Ek1 & Hs); [done..|].
  destruct (read_bytes_ok (incrementSid c) w1 a ((len b + 1) / 2)) as (w2 & Hrd & Hw2 & Ek2 & Hs2);
    [by apply incrementSid_ok|done|done|zdm|done|zdm|].
  exists w1, w2. rewrite Hrd, Hs2, Hs. cbn [dmarea]. split_and!; try done; [|congruence]. do 2 f_equal.
  pose proof (length_odd_tail (sim_buf w) b (proj1 (proj2 Hw)) ltac:(unfold len in Hl; lia)) as Ht. rewrite <- Ht.
  destruct Hw as [(Hd & _) _]. unfold DM_AREA_SIZE in *. unfold len at 1. rewrite Nat2Z.id. apply copied_back. unfold len in *. lia.
Qed.

(** C23: bytes round-trip over UDP, in whole words: an even number of bytes is read back as
    written; an odd number comes back followed by one more byte, which is not zero but
    what the simulator's receive buffer holds from an earlier datagram. *)
Theorem udp_bytes_roundtrip c w a b :
  client_ok c -> sim_ok w -> bytes_ok b -> 0 <= a -> a + 2 * ((len b + 1) / 2) <= DM_AREA_SIZE -> len b <= 1005 ->
  exists cw1 cw2, WriteBytes (sendCommand sim_net) (c, w) MemoryAreaDMWord a b = (cw1, Ok tt) /\
    ReadBytes (sendCommand sim_net) cw1 MemoryAreaDMWord a ((len b + 1) / 2) = (cw2, Ok (b ++ odd_tail (sim_buf w) b)).
Proof.
  intros Hc Hw Hb Ha Hr Hl. destruct (bytes_written_read c w a b) as (w1 & w2 & Hwr & Hrd & _); [done..|]. by eauto.
Qed.

(** ** Strings *)

(** The zero an odd number of characters is followed by. *)
Definition odd_zero (b : bytes) : bytes := if Z.even (len b) then [] else [0].

Lemma len_odd_zero (b : bytes) : len (b ++ odd_zero b) = 2 * ((len b + 1) / 2).
Proof.
  rewrite len_app. unfold odd_zero. destruct (Z.even (len b)) eqn:E.
  - apply Z.even_spec in E as [k Hk]. rewrite len_nil. zdm.
  - assert (Z.odd (len b) = true) as [k Hk]%Z.odd_spec by (rewrite <- Z.negb_even, E; done). change (len [0]) with 1. zdm.
Qed.

Lemma write_string_ok c w a s :
  let b := bytes_of_string s in
  client_ok c -> sim_ok w -> 0 <= a -> a + 2 * ((len b + 1) / 2) <= DM_AREA_SIZE -> len b <= 503 ->
  exists w', WriteString (sendCommand sim_net) (c, w) MemoryAreaDMWord a s = ((incrementSid c, w'), Ok tt) /\
    sim_ok w' /\ sim_clock w' = sim_clock w /\
    sim_server w' = MkServer (copy_at (Z.to_nat a) (b ++ odd_zero b) (dmarea (sim_server w))) (bitdmarea (sim_server w)).
Proof.
  intros b Hc Hw Ha Hr Hl. pose proof (len_nonneg b) as H0. unfold WriteString.
  change (negb (checkIsWordMemoryArea MemoryAreaDMWord)) with false. cbn iota zeta. fold b.
  rewrite Z.quot_div_nonneg, uwrap_id by (unfold in_u; zdm). unfold make_bytes.
  assert (copy_at 0 b (replicate (2 * length b) 0) = b ++ replicate (length b) 0) as ->.
  { rewrite copy_at_eq by (rewrite length_replicate; lia). rewrite take_0, drop_replicate. cbn [app]. do 2 f_equal. lia. }
  destruct (command_word_write c w a ((len b + 1) / 2) (b ++ replicate (length b) 0)) as (w' & Hcmd & Hok & Hck & Hs);
    [done..| |done|zdm|done|zdm|unfold len in *; rewrite length_app, length_replicate; lia|].
  { apply bytes_ok_app. split; [apply bytes_of_string_ok|by apply Forall_replicate]. }
  exists w'. rewrite Hcmd. split_and!; try done. rewrite Hs. do 2 f_equal.
  pose proof (len_odd_zero b) as Hz. rewrite len_app in Hz. unfold len in Hz.
  rewrite take_app_le by (rewrite length_app, length_replicate; unfold len; zdm).
  rewrite take_app_ge by (unfold len in *; zdm). f_equal. rewrite take_replicate.
  unfold odd_zero in *. destruct (Z.even _) eqn:E; cbn [length] in Hz.
  - by replace (Nat.min _ _) with 0%nat by (unfold len; lia).
  - replace (Nat.min _ _) with 1%nat; [done|]. unfold len. destruct b; [by vm_compute in E|cbn [length] in *; lia].
Qed.

Lemma before_nul_app (b l : bytes) : Forall (fun x => x <> 0) b -> before_nul (b ++ l) = b ++ before_nul l.
Proof. induction 1 as [|x b Hx _ IH]; [done|]. cbn. rewrite (proj2 (Z.eqb_neq x 0) Hx). by rewrite IH. Qed.

Lemma string_of_bytes_app (a b : bytes) : string_of_bytes (a ++ b) = (string_of_bytes a ++ string_of_bytes b)%string.
Proof. unfold string_of_bytes. rewrite map_app. induction (map _ a) as [|x l IH]; [done|]. cbn. by rewrite IH. Qed.

(** The bytes of the area behind a string: what a read that is longer than the string goes on with. *)
Definition behind (l : bytes) (a n : Z) (b : bytes) : bytes :=
  if Z.even (len b) then before_nul (take (Z.to_nat (2 * n - len b)) (drop (Z.to_nat (a + len b)) l)) else [].

(** What a read of the area finds after a string was written. *)
Lemma string_in_area (l : bytes) a n (b : bytes) :
  Forall (fun x => x <> 0) b -> 0 <= a -> len b <= 2 * n -> a + 2 * n <= len l ->
  before_nul (take (Z.to_nat (2 * n)) (drop (Z.to_nat a) (copy_at (Z.to_nat a) (b ++ odd_zero b) l))) = b ++ behind l a n b.
Proof.
  intros Hnz Ha Hn Hr. pose proof (len_odd_zero b) as Hz. rewrite len_app in Hz. unfold len in *.
  rewrite copy_at_eq by (rewrite length_app; zdm). rewrite drop_app_length' by (rewrite length_take; lia).
  rewrite <- app_assoc, take_app_ge by lia. rewrite before_nul_app by done. f_equal.
  unfold odd_zero, behind, len in *. destruct (Z.even _).
  - cbn [app length]. rewrite length_app. cbn [length]. rewrite Nat.add_0_r. do 2 f_equal; [lia|]. f_equal. lia.
  - assert (exists k, Z.to_nat (2 * n) - length b = S k)%nat as [k ->] by (exists (Z.to_nat (2 * n) - length b - 1)%nat; cbn [length] in Hz; zdm).
    done.
Qed.

Lemma udp_string_written_read c w a s n :
  let b := bytes_of_string s in
  client_ok c -> sim_ok w -> Forall (fun x => x <> 0) b -> 0 <= a -> len b <= 503 -> len b <= 2 * n -> 2 * n <= 2034 ->
  a + 2 * n <= DM_AREA_SIZE ->
  exists w1 w2, WriteString (sendCommand sim_net) (c, w) MemoryAreaDMWord a s = ((incrementSid c, w1), Ok tt) /\
    ReadString (sendCommand sim_net) (incrementSid c, w1) MemoryAreaDMWord a n =
      ((incrementSid (incrementSid c), w2), Ok (s ++ string_of_bytes (behind (dmarea (sim_server w)) a n b))%string) /\
    sim_ok w2 /\ sim_clock w2 = sim_clock w /\
    dmarea (sim_server w2) = copy_at (Z.to_nat a) (b ++ odd_zero b) (dmarea (sim_server w)).
Proof.
  intros b Hc Hw Hnz Ha Hl Hn Hn2 Hr. pose proof (len_nonneg b).
  destruct (write_string_ok c w a s) as (w1 & Hwr & Hw1 & Ek1 & Hs); [done|done|done|fold b; zdm|done|].
  destruct (read_bytes_ok (incrementSid c) w1 a n) as (w2 & Hrd & Hw2 & Ek2 & Hs2); [by apply incrementSid_ok|done|done|lia|done|lia|].
  exists w1, w2. unfold ReadString. rewrite Hrd, Hs2, Hs. cbn [dmarea mbind res_bind]. split_and!; try done; [|congruence].
  destruct Hw as [(Hd & _) _]. fold b. rewrite string_in_area by (done || lia).
  rewrite string_of_bytes_app. unfold b at 1. by rewrite string_of_bytes_of_string.
Qed.

(** C22: strings round-trip over UDP up to what follows them: a string without NUL is read
    back, by any read that is long enough; but a string of even length is written
    without a terminator, so the bytes the area held behind it, up to a NUL, are read
    as part of it. *)
Theorem udp_string_roundtrip c w a s n :
  let b := bytes_of_string s in
  client_ok c -> sim_ok w -> Forall (fun x => x <> 0) b -> 0 <= a -> len b <= 503 -> len b <= 2 * n -> 2 * n <= 2034 ->
  a + 2 * n <= DM_AREA_SIZE ->
  exists cw1 cw2, WriteString (sendCommand sim_net) (c, w) MemoryAreaDMWord a s = (cw1, Ok tt) /\
    ReadString (sendCommand sim_net) cw1 MemoryAreaDMWord a n =
      (cw2, Ok (s ++ string_of_bytes (behind (dmarea (sim_server w)) a n b))%string).
Proof.
  intros b Hc Hw Hnz Ha Hl Hn Hn2 Hr. destruct (udp_string_written_read c w a s n) as (w1 & w2 & Hwr & Hrd & _); [done..|]. by eauto.
Qed.

(** ** Witnesses *)

Lemma udp_bits_roundtrip_witness :
  exists cw1 cw2, WriteBits (sendCommand sim_net) (sample_client, sample_sim) MemoryAreaDMBit 200 3 [true; false; true] = (cw1, Ok tt) /\
    ReadBits (sendCommand sim_net) cw1 MemoryAreaDMBit 200 3 3 = (cw2, Ok [true; false; true]).
Proof. apply (udp_bits_roundtrip sample_client sample_sim 200 3 [true; false; true] sample_client_ok sample_sim_ok); by_decide. Defined.

Lemma udp_bit_operations_witness :
  exists cw0 c1 w1, ReadBits (sendCommand sim_net) (sample_client, sample_sim) MemoryAreaDMBit 7 1 1 = (cw0, Ok [bit_at NewServer 7 1]) /\
    ToggleBit (sendCommand sim_net) (sample_client, sample_sim) MemoryAreaDMBit 7 1 = ((c1, w1), Ok tt) /\
    bit_at (sim_server w1) 8 0 = negb (bit_at NewServer 7 1).
Proof.
  destruct (udp_bit_operations sample_client sample_sim 7 1 (ToggleBit (sendCommand sim_net)) negb sample_client_ok sample_sim_ok)
    as (cw0 & c1 & w1 & H1 & H2 & _ & H3); [by_decide..|right; right; left; reflexivity|].
  exists cw0, c1, w1. split; [exact H1|]. split; [exact H2|]. apply (H3 8 0). lia.
Defined.

Lemma udp_bytes_roundtrip_witness :
  exists cw1 cw2, WriteBytes (sendCommand sim_net) (sample_client, sample_sim) MemoryAreaDMWord 300 [0x11; 0x22; 0x33] = (cw1, Ok tt) /\
    ReadBytes (sendCommand sim_net) cw1 MemoryAreaDMWord 300 2 = (cw2, Ok ([0x11; 0x22; 0x33] ++ odd_tail sample_buf [0x11; 0x22; 0x33])).
Proof. apply (udp_bytes_roundtrip sample_client sample_sim 300 [0x11; 0x22; 0x33] sample_client_ok sample_sim_ok); by_decide. Defined.

Lemma udp_string_roundtrip_witness :
  exists cw1 cw2, WriteString (sendCommand sim_net) (sample_client, sample_sim) MemoryAreaDMWord 400 "Hello" = (cw1, Ok tt) /\
    ReadString (sendCommand sim_net) cw1 MemoryAreaDMWord 400 10 = (cw2, Ok "Hello"%string).
Proof. apply (udp_string_roundtrip sample_client sample_sim 400 "Hello" 10 sample_client_ok sample_sim_ok); by_decide. Defined.
