(* ===== verification/UdpSession.v ===== *)
(** * Concurrent calls of the UDP client ([src/udp/client.go], [sendCommand] and [listenLoop])

    Calls and the listener share a table of unbuffered channels indexed by the service
    identifier.  A step is the counter under its lock, one access of the table, one
    socket operation, or the meeting of a sender and a receiver on a channel.  The
    network may deliver any datagram at any time. *)
From S2P Require Import Prelude UdpConstants Udp UdpClient.

(** Where a call of [sendCommand] is. *)
Inductive ucall :=
| UStart                             (* before c.sid++ *)
| UMake (sid : Z)                    (* before c.resp[sid] = make(chan response) *)
| UWrite (sid : Z)                   (* before the write *)
| USelect (sid : Z)                  (* before reading c.resp[sid] in the select *)
| UWait (sid : Z) (ch : option nat)  (* in the select, on that channel *)
| UDone (sid : Z) (r : res udp_error response).

Inductive listener :=
| LRead
| LSend (ch : option nat) (ans : response)  (* c.resp[ans.header.serviceID] <- ans *)
| LStopped.

(** [u_owner] is a ghost: the identifier a channel was made for. *)
Record usession := MkUSession {
  u_sid : Z; u_table : gmap Z nat; u_owner : gmap nat Z; u_calls : gmap nat ucall; u_listener : listener; u_panicked : bool }.

Definition u_initial : usession := MkUSession 0 ∅ ∅ ∅ LRead false.

Inductive ustep : usession -> usession -> Prop :=
| u_call n t o c l i :
    c !! i = None -> ustep (MkUSession n t o c l false) (MkUSession n t o (<[i := UStart]> c) l false)
| u_increment n t o c l i :
    c !! i = Some UStart ->
    ustep (MkUSession n t o c l false) (MkUSession (u8 (n + 1)) t o (<[i := UMake (u8 (n + 1))]> c) l false)
| u_make n t o c l i sid ch :
    c !! i = Some (UMake sid) -> o !! ch = None ->
    ustep (MkUSession n t o c l false) (MkUSession n (<[sid := ch]> t) (<[ch := sid]> o) (<[i := UWrite sid]> c) l false)
| u_write n t o c l i sid :
    c !! i = Some (UWrite sid) ->
    ustep (MkUSession n t o c l false) (MkUSession n t o (<[i := USelect sid]> c) l false)
| u_write_fails n t o c l i sid :
    c !! i = Some (UWrite sid) ->
    ustep (MkUSession n t o c l false) (MkUSession n t o (<[i := UDone sid (Err SocketError)]> c) l false)
| u_select n t o c l i sid :
    c !! i = Some (USelect sid) ->
    ustep (MkUSession n t o c l false) (MkUSession n t o (<[i := UWait sid (t !! sid)]> c) l false)
| u_timeout n t o c l i sid ch :
    c !! i = Some (UWait sid ch) ->
    ustep (MkUSession n t o c l false) (MkUSession n t o (<[i := UDone sid (Err ResponseTimeoutError)]> c) l false)
(* the listener *)
| u_read n t o c d ans :
    (0 < length d)%nat -> decodeResponse (listen_buf d) = Ok ans ->
    ustep (MkUSession n t o c LRead false) (MkUSession n t o c (LSend (t !! serviceID (rs_header ans)) ans) false)
| u_read_panics n t o c d :
    (0 < length d)%nat -> decodeResponse (listen_buf d) = Panic ->
    ustep (MkUSession n t o c LRead false) (MkUSession n t o c LRead true)
| u_closed n t o c :
    ustep (MkUSession n t o c LRead false) (MkUSession n t o c LStopped false)
(* a sender and a receiver meet on a channel that is not nil *)
| u_meet n t o c i sid ch ans :
    c !! i = Some (UWait sid (Some ch)) ->
    ustep (MkUSession n t o c (LSend (Some ch) ans) false) (MkUSession n t o (<[i := UDone sid (Ok ans)]> c) LRead false).

Definition u_reachable : usession -> Prop := rtc ustep u_initial.

(** ** A call gets its own answer *)

Definition call_ok (o : gmap nat Z) (x : ucall) : Prop :=
  match x with
  | UWait sid (Some ch) => o !! ch = Some sid
  | UDone sid (Ok ans) => serviceID (rs_header ans) = sid
  | _ => True
  end.

Definition u_inv (s : usession) : Prop :=
  (forall sid ch, u_table s !! sid = Some ch -> u_owner s !! ch = Some sid) /\
  (forall i x, u_calls s !! i = Some x -> call_ok (u_owner s) x) /\
  match u_listener s with LSend (Some ch) ans => u_owner s !! ch = Some (serviceID (rs_header ans)) | _ => True end.

Lemma call_ok_extend o ch sid x : o !! ch = None -> call_ok o x -> call_ok (<[ch := sid]> o) x.
Proof.
  intros Hn. destruct x as [| | | |? [c|]|]; cbn; try done. intros Hc. rewrite lookup_insert_ne; [done|]. congruence.
Qed.

(** One call changes. *)
Lemma calls_update o (c : gmap nat ucall) i x :
  (forall j y, c !! j = Some y -> call_ok o y) -> call_ok o x -> forall j y, <[i := x]> c !! j = Some y -> call_ok o y.
Proof. intros Hc Hx j y Hy. apply lookup_insert_Some in Hy as [[_ <-]|[_ ?]]; eauto. Qed.

Lemma ustep_inv s s' : ustep s s' -> u_inv s -> u_inv s'.
Proof.
  intros Hst (Ht & Hc & Hl). destruct Hst; unfold u_inv in *; cbn [u_table u_owner u_calls u_listener] in *.
  all: try (by split_and!; [|apply calls_update|]). all: try (by split_and!).
  - split_and!.
    + intros k d Hk. apply lookup_insert_Some in Hk as [[<- <-]|[Hne Hk]]; [by rewrite lookup_insert_eq|].
      apply Ht in Hk. rewrite lookup_insert_ne; [done|]. congruence.
    + apply calls_update; [|done]. intros j y Hy. apply call_ok_extend; eauto.
    + destruct l as [|[d|] ans|]; try done. rewrite lookup_insert_ne; [done|]. congruence.
  - split_and!; try done. apply calls_update; [done|]. cbn. destruct (t !! sid) eqn:E; eauto.
  - split_and!; try done. cbn. destruct (t !! _) eqn:E; eauto.
  - split_and!; try done. apply calls_update; [done|]. cbn. apply Hc in H. cbn in H. congruence.
Qed.

Lemma u_reachable_inv s : u_reachable s -> u_inv s.
Proof.
  intros Hr. assert (u_inv u_initial) as H0 by (split_and!; cbn; try done; intros; set_solver).
  revert H0. induction Hr; eauto using ustep_inv.
Qed.

(** C16: answers are not mixed up: in every interleaving, a call of the UDP client that
    returns an answer returns one with its own service identifier. *)
Theorem udp_call_own_answer s i sid ans :
  u_reachable s -> u_calls s !! i = Some (UDone sid (Ok ans)) -> serviceID (rs_header ans) = sid.
Proof. intros (_ & Hc & _)%u_reachable_inv Hi. apply (Hc i _ Hi). Qed.

(** ** A late answer silences the client *)

(** The call may still wait for its channel by looking it up. *)
Definition about_to_wait (x : ucall) (sid : Z) : Prop := x = UWrite sid \/ x = USelect sid.

(** Nobody waits on the channel, and nobody will. *)
Definition abandoned (s : usession) (ch : nat) : Prop :=
  is_Some (u_owner s !! ch) /\
  (forall i sid, u_calls s !! i <> Some (UWait sid (Some ch))) /\
  (forall i x sid, u_table s !! sid = Some ch -> u_calls s !! i = Some x -> ~ about_to_wait x sid).

Definition answered (s : usession) (i : nat) : Prop := exists sid ans, u_calls s !! i = Some (UDone sid (Ok ans)).

Lemma update_not_waiting (c : gmap nat ucall) i x ch :
  (forall j sid, c !! j <> Some (UWait sid (Some ch))) -> (forall sid, x <> UWait sid (Some ch)) ->
  forall j sid, <[i := x]> c !! j <> Some (UWait sid (Some ch)).
Proof. intros Hc Hx j sid Hj. apply lookup_insert_Some in Hj as [[_ E]|[_ ?]]; [by apply (Hx sid)|by apply (Hc j sid)]. Qed.

Lemma update_not_about (c : gmap nat ucall) i x (P : Z -> Prop) :
  (forall j y sid, P sid -> c !! j = Some y -> ~ about_to_wait y sid) -> (forall sid, P sid -> ~ about_to_wait x sid) ->
  forall j y sid, P sid -> <[i := x]> c !! j = Some y -> ~ about_to_wait y sid.
Proof. intros Hc Hx j y sid HP Hj. apply lookup_insert_Some in Hj as [[_ <-]|[_ ?]]; eauto. Qed.

(** A step keeps the listener where it is and answers nobody. *)
Lemma abandoned_step s s' ch ans :
  ustep s s' -> u_listener s = LSend (Some ch) ans -> abandoned s ch ->
  u_listener s' = LSend (Some ch) ans /\ abandoned s' ch /\ forall i, answered s' i -> answered s i.
Proof.
  intros Hst Hl (Ho & Hw & Ha).
  assert (forall (c : gmap nat ucall) i x n t o l p, (forall sid ans, x <> UDone sid (Ok ans)) ->
    forall j, answered (MkUSession n t o (<[i := x]> c) l p) j -> exists sid ans, c !! j = Some (UDone sid (Ok ans))) as Hans.
  { intros c i x n t o l p Hx j (sid & a & Hj). cbn in Hj. apply lookup_insert_Some in Hj as [[_ E]|[_ ?]]; [by apply Hx in E|eauto]. }
  destruct Hst; cbn [u_listener u_table u_owner u_calls] in *; simplify_eq.
  all: try (split; [done|]; split; [|by apply Hans]; unfold abandoned; cbn [u_listener u_table u_owner u_calls]; split_and!;
    [done|by apply update_not_waiting|apply (update_not_about _ _ _ (fun sid => t !! sid = Some ch)); [done|]]).
  - intros sid _ [|]; done.
  - intros sid _ [|]; done.
  - split; [done|]. split; [|by apply Hans]. unfold abandoned. cbn [u_table u_owner u_calls].
    assert (ch0 <> ch) as Hne by (intros ->; destruct Ho; congruence). split_and!.
    + by rewrite lookup_insert_ne.
    + by apply update_not_waiting.
    + apply (update_not_about _ _ _ (fun k => <[sid := ch0]> t !! k = Some ch)).
      * intros j y k Hk Hj. apply lookup_insert_Some in Hk as [[_ ?]|[_ Hk]]; [done|]. eauto.
      * intros k Hk [E|E]; [|done]. injection E as ->. by rewrite lookup_insert_eq in Hk; simplify_eq.
  - intros k Hk [E|E]; [done|]. injection E as ->. eapply (Ha i (UWrite k) k); [done..|]. by left.
  - intros k Hk [E|E]; done.
  - split; [done|]. split; [|by apply Hans]. split_and!; [done| |].
    + apply update_not_waiting; [done|]. intros k E. injection E as -> E. eapply (Ha i (USelect k) k); [done..|]. by right.
    + apply (update_not_about _ _ _ (fun sid => t !! sid = Some ch)); [done|]. intros k _ [E|E]; done.
  - intros k Hk [E|E]; done.
  - by apply Hw in H.
Qed.

(** C17: one late answer silences the client for good: when the listener is about to
    send on a channel that its call has given up on, it stays there in every
    continuation, and no call that has not been answered already ever is. *)
Theorem udp_late_answer_blocks s s' ch ans :
  u_listener s = LSend (Some ch) ans -> abandoned s ch -> rtc ustep s s' ->
  u_listener s' = LSend (Some ch) ans /\ forall i, answered s' i -> answered s i.
Proof.
  intros Hl Ha Hr. revert Hl Ha. induction Hr as [s|s s1 s2 Hst _ IH]; intros Hl Ha; [done|].
  destruct (abandoned_step _ _ _ _ Hst Hl Ha) as (Hl1 & Ha1 & Hn1). destruct (IH Hl1 Ha1) as [Hl2 Hn2]. auto.
Qed.

(** ** Witnesses *)

Definition late_datagram : bytes := encodeHeader (defaultResponseHeader (defaultCommandHeader (MkAddr 0 1 0) (MkAddr 0 2 0) 1)) ++ [1; 1; 0; 0; 0; 7].

Definition late_answer : response :=
  MkResponse (MkHeader MessageTypeResponse false (MkAddr 0 2 0) (MkAddr 0 1 0) 1 2) 0x0101 0
    (MkSlice ([0; 7] ++ make_bytes 2032) 2).

Lemma late_answer_eq : decodeResponse (listen_buf late_datagram) = Ok late_answer.
Proof. vm_compute. reflexivity. Qed.

(** A call answered in time. *)
Definition in_time : usession := MkUSession 1 {[1 := 0%nat]} {[0%nat := 1]} {[0%nat := UDone 1 (Ok late_answer)]} LRead false.
(** A call that gave up before its answer came. *)
Definition too_late : usession :=
  MkUSession 1 {[1 := 0%nat]} {[0%nat := 1]} {[0%nat := UDone 1 (Err ResponseTimeoutError)]} (LSend (Some 0%nat) late_answer) false.

Lemma waiting_reachable :
  u_reachable (MkUSession 1 {[1 := 0%nat]} {[0%nat := 1]} {[0%nat := UWait 1 (Some 0%nat)]} LRead false).
Proof.
  eapply rtc_l; [by apply (u_call 0 ∅ ∅ ∅ LRead 0%nat)|].
  eapply rtc_l; [by apply (u_increment _ _ _ _ _ 0%nat)|]. rewrite insert_insert_eq.
  eapply rtc_l; [by apply (u_make _ _ _ _ _ 0%nat 1 0%nat)|]. rewrite insert_insert_eq.
  eapply rtc_l; [by apply (u_write _ _ _ _ _ 0%nat 1)|]. rewrite insert_insert_eq.
  eapply rtc_l; [by apply (u_select _ _ _ _ _ 0%nat 1)|]. rewrite insert_insert_eq. apply rtc_refl.
Qed.

Lemma in_time_reachable : u_reachable in_time.
Proof.
  eapply rtc_r; [eapply rtc_r; [apply waiting_reachable|]|].
  - apply (u_read _ _ _ _ late_datagram late_answer); [cbn; lia|apply late_answer_eq].
  - cbn [late_answer rs_header serviceID]. rewrite lookup_singleton_eq.
    pose proof (u_meet 1 {[1 := 0%nat]} {[0%nat := 1]} {[0%nat := UWait 1 (Some 0%nat)]} 0%nat 1 0%nat late_answer
      ltac:(by rewrite lookup_singleton_eq)) as H.
    rewrite insert_singleton_eq in H. exact H.
Qed.

Lemma too_late_reachable : u_reachable too_late.
Proof.
  eapply rtc_r; [eapply rtc_r; [apply waiting_reachable|]|].
  - apply (u_timeout _ _ _ _ _ 0%nat 1 (Some 0%nat)). by rewrite lookup_singleton_eq.
  - rewrite insert_singleton_eq.
    pose proof (u_read 1 {[1 := 0%nat]} {[0%nat := 1]} {[0%nat := UDone 1 (Err ResponseTimeoutError)]} late_datagram late_answer
      ltac:(cbn; lia) late_answer_eq) as H.
    cbn [late_answer rs_header serviceID] in H. rewrite lookup_singleton_eq in H. exact H.
Qed.

Lemma udp_call_own_answer_witness : serviceID (rs_header late_answer) = 1.
Proof. apply (udp_call_own_answer in_time 0%nat 1 late_answer in_time_reachable). by vm_compute. Defined.

Lemma udp_late_answer_blocks_witness :
  u_reachable too_late /\ forall s', rtc ustep too_late s' -> forall i, ~ answered s' i.
Proof.
  split; [exact too_late_reachable|]. intros s' Hr i Hi.
  destruct (udp_late_answer_blocks too_late s' 0%nat late_answer) as [_ H]; [reflexivity| |exact Hr|].
  - split; [by exists 1|]. split.
    + intros j sid Hj. cbn in Hj. apply lookup_singleton_Some in Hj as [_ Hj]. discriminate Hj.
    + intros j x sid _ Hj. cbn in Hj. apply lookup_singleton_Some in Hj as [_ <-]. intros [E|E]; discriminate E.
  - destruct (H i Hi) as (sid & ans & Ha). cbn in Ha. apply lookup_singleton_Some in Ha as [_ Ha]. discriminate Ha.
Defined.
