(* ===== verification/CmdTcpServer.v ===== *)
(** * The command-line TCP server ([src/cmd/tcp/server/main.go])

    A second PLC with its own copy of the codec and its own area switch.  Its five
    byte slices and two addresses are those of [MockPLC], so the state is that
    record; the handlers are translated from this program's text.  Writes to the
    connection are taken to succeed. *)
From S2P Require Import Prelude Types Protocol Framing MockPLC.

(** ** State and codec *)

Definition PLCServer : Type := MockPLC.

Definition NewPLCServer : PLCServer :=
  MkMockPLC (make_bytes (Z.to_nat (MockDMWordSize * 2)))
    (make_bytes (Z.to_nat (MockCIOWordSize * 2)))
    (make_bytes (Z.to_nat (MockWWordSize * 2)))
    (make_bytes (Z.to_nat (MockHWordSize * 2)))
    (make_bytes (Z.to_nat (MockAWordSize * 2)))
    (MkFINSAddress 0 1 0) (MkFINSAddress 0 2 0).

Definition encodeFINSTCPFrame (finsData : bytes) : bytes :=
  let length_ := u32 (len finsData + 4) in
  let buf := make_bytes (12 + length finsData) in
  let buf := copy_at 0 FINS_magic buf in
  let buf := copy_at 4 (be_bytes 4 length_) buf in
  let buf := copy_at 8 (be_bytes 2 0x0000) buf in
  let buf := copy_at 10 (be_bytes 2 0x0000) buf in
  if 0 <? len finsData then copy_at 12 finsData buf else buf.

(** [nil] is [None]. *)
Definition decodeFINSFrame (data : bytes) : res error (option FINSFrame) :=
  if len data <? 14 then Ok None else
  icf ← idx data 0; rsv ← idx data 1; gateway ← idx data 2;
  dnet ← idx data 3; dnode ← idx data 4; dunit ← idx data 5;
  snet ← idx data 6; snode ← idx data 7; sunit ← idx data 8;
  sid ← idx data 9;
  c ← sub data 10 12;
  e ← sub data 12 14;
  d ← sub_from data 14;
  Ok (Some (MkFINSFrame
        (MkFINSHeader icf rsv gateway (MkFINSAddress dnet dnode dunit) (MkFINSAddress snet snode sunit) sid)
        (be_val c) (be_val e) d)).

Definition encodeFINSFrame (frame : FINSFrame) : bytes :=
  let h := Header frame in
  let data := make_bytes 14 in
  let data := <[0%nat := ICF h]> data in
  let data := <[1%nat := RSV h]> data in
  let data := <[2%nat := GCT h]> data in
  let data := <[3%nat := Network (Dest h)]> data in
  let data := <[4%nat := Node (Dest h)]> data in
  let data := <[5%nat := Unit (Dest h)]> data in
  let data := <[6%nat := Network (Src h)]> data in
  let data := <[7%nat := Node (Src h)]> data in
  let data := <[8%nat := Unit (Src h)]> data in
  let data := <[9%nat := SID h]> data in
  let data := copy_at 10 (be_bytes 2 (CommandCode frame)) data in
  let data := copy_at 12 (be_bytes 2 (EndCode frame)) data in
  data ++ Data frame.

Definition decodeMemoryAddress (data : bytes) : res error MemoryAddress :=
  a ← idx data 0; w ← sub data 1 3; b ← idx data 3;
  Ok (MkMemoryAddress a (be_val w) b).

(** ** Memory *)

(** The [switch] of [readMemory]: the slice and [maxSize]. *)
Definition read_area (areaCode : Z) : option (area_id * Z) :=
  if areaCode =? 0x30 then Some (CIO, MockCIOWordSize * 2) else
  if areaCode =? 0x31 then Some (WR, MockWWordSize * 2) else
  if areaCode =? 0x32 then Some (HR, MockHWordSize * 2) else
  if areaCode =? 0x33 then Some (AR, MockAWordSize * 2) else
  if areaCode =? 0x02 then Some (DM, MockDMWordSize * 2) else
  if areaCode =? 0x82 then Some (DM, MockDMWordSize * 2) else
  if areaCode =? 0xb0 then Some (CIO, MockCIOWordSize * 2) else
  if areaCode =? 0xb1 then Some (WR, MockWWordSize * 2) else
  if areaCode =? 0xb2 then Some (HR, MockHWordSize * 2) else
  if areaCode =? 0xb3 then Some (AR, MockAWordSize * 2) else
  None.

Definition readMemory (s : PLCServer) (memAddr : MemoryAddress) (count : Z) : res error (bytes * Z) :=
  match read_area (Area memAddr) with
  | None => Ok ([], 0x1101)
  | Some (area, maxSize) =>
    let byteOffset := Address memAddr * 2 in
    let byteCount := count * 2 in
    if maxSize <? byteOffset + byteCount then Ok ([], 0x1104) else
    d ← zsub (contents s area) byteOffset (byteOffset + byteCount);
    Ok (d, 0x0000)
  end.

(** The [switch] of [writeMemory]: the slice, or the end code returned at once. *)
Definition write_area (areaCode : Z) : (area_id * Z) + Z :=
  if areaCode =? 0x30 then inl (CIO, MockCIOWordSize * 2) else
  if areaCode =? 0x31 then inl (WR, MockWWordSize * 2) else
  if areaCode =? 0x32 then inl (HR, MockHWordSize * 2) else
  if areaCode =? 0x33 then inr 0x2101 else
  if areaCode =? 0x02 then inl (DM, MockDMWordSize * 2) else
  if areaCode =? 0x82 then inl (DM, MockDMWordSize * 2) else
  if areaCode =? 0xb0 then inl (CIO, MockCIOWordSize * 2) else
  if areaCode =? 0xb1 then inl (WR, MockWWordSize * 2) else
  if areaCode =? 0xb2 then inl (HR, MockHWordSize * 2) else
  if areaCode =? 0xb3 then inr 0x2101 else
  inr 0x1101.

Definition writeMemory (s : PLCServer) (memAddr : MemoryAddress) (count : Z) (data : bytes)
    : res error (PLCServer * Z) :=
  match write_area (Area memAddr) with
  | inr endCode => Ok (s, endCode)
  | inl (area, maxSize) =>
    let byteOffset := Address memAddr * 2 in
    let byteCount := count * 2 in
    if maxSize <? byteOffset + byteCount then Ok (s, 0x1104) else
    l ← copy_slice byteOffset (byteOffset + byteCount) data (contents s area);
    Ok (store s area l, 0x0000)
  end.

(** ** Requests *)

Definition response_header (h : FINSHeader) : FINSHeader :=
  MkFINSHeader (Z.lor (ICF h) 0x40) (RSV h) (GCT h) (Src h) (Dest h) (SID h).

Definition handleRequest (s : PLCServer) (req : FINSFrame) : res error (PLCServer * FINSFrame) :=
  let resp endCode data := MkFINSFrame (response_header (Header req)) (CommandCode req) endCode data in
  if CommandCode req =? 0x0101 then
    if len (Data req) <? 6 then Ok (s, resp 0x1002 []) else
    a ← sub (Data req) 0 4;
    memAddr ← decodeMemoryAddress a;
    c ← sub (Data req) 4 6;
    r ← readMemory s memAddr (be_val c);
    Ok (s, resp (snd r) (fst r))
  else if CommandCode req =? 0x0102 then
    if len (Data req) <? 6 then Ok (s, resp 0x1002 []) else
    a ← sub (Data req) 0 4;
    memAddr ← decodeMemoryAddress a;
    c ← sub (Data req) 4 6;
    d ← sub_from (Data req) 6;
    r ← writeMemory s memAddr (be_val c) d;
    Ok (fst r, resp (snd r) [])
  else Ok (s, resp 0x0401 []).

(** The inner loop of [handleConnection]: state, accumulator, bytes written.  A loop that
    has not left within [fuel] rounds is given the result [Panic]; [serve_loop_served]
    shows which panics are left with a round more than there are bytes. *)
Fixpoint serve_loop (fuel : nat) (s : PLCServer) (accumulator : bytes) : res error (PLCServer * bytes * bytes) :=
  match fuel with
  | O => Panic
  | S fuel =>
    if len accumulator <? 12 then Ok (s, accumulator, []) else
    magic ← sub accumulator 0 4;
    if negb (bool_decide (magic = FINS_magic)) then serve_loop fuel s (drop 1 accumulator) else
    l ← sub accumulator 4 8;
    let frameLen := be_val l in
    let totalLen := 12 + frameLen - 4 in
    if len accumulator <? totalLen then Ok (s, accumulator, []) else
    finsData ← zsub accumulator 12 (12 + frameLen - 4);
    let accumulator := drop (Z.to_nat totalLen) accumulator in
    req ← decodeFINSFrame finsData;
    match req with
    | None => serve_loop fuel s accumulator
    | Some req =>
      r ← handleRequest s req;
      let '(s, resp) := r in
      r ← serve_loop fuel s accumulator;
      let '(s, acc, out) := r in
      Ok (s, acc, encodeFINSTCPFrame (encodeFINSFrame resp) ++ out)
    end
  end.

(** [handleConnection] over the reads of a connection; a read of no bytes is skipped. *)
Fixpoint handleConnection (s : PLCServer) (accumulator : bytes) (reads : list bytes)
    : res error (PLCServer * bytes * bytes) :=
  match reads with
  | [] => Ok (s, accumulator, [])
  | [] :: reads => handleConnection s accumulator reads
  | buf :: reads =>
    let accumulator := accumulator ++ buf in
    r ← serve_loop (S (length accumulator)) s accumulator;
    let '(s, accumulator, out) := r in
    r ← handleConnection s accumulator reads;
    let '(s, accumulator, out') := r in Ok (s, accumulator, out ++ out')
  end.

(** ** The codec is the one of [protocol.go] *)

Lemma encodeFINSFrame_eq f :
  encodeFINSFrame f = EncodeFINSFrame (Header f) (CommandCode f) (EndCode f) (Data f).
Proof. rewrite EncodeFINSFrame_eq. by destruct f. Qed.

Lemma encode_wire f : encodeFINSTCPFrame (encodeFINSFrame f) = wire f.
Proof. unfold wire. by rewrite encodeFINSFrame_eq. Qed.

Lemma decodeFINSFrame_eq data :
  decodeFINSFrame data = match DecodeFINSFrame data with Ok f => Ok (Some f) | _ => Ok None end.
Proof.
  unfold decodeFINSFrame. destruct (len data <? 14) eqn:E; zbool.
  - unfold DecodeFINSFrame. by rewrite (proj2 (Z.ltb_lt _ _)).
  - apply at_least_14 in E. destruct E as (b0&b1&b2&b3&b4&b5&b6&b7&b8&b9&b10&b11&b12&b13&r&->).
    rewrite DecodeFINSFrame_cons. unfold sub_from. rewrite (sub_ok _ 14) by (cbn; lia).
    cbn -[be_val]. by rewrite Nat.sub_0_r, firstn_all.
Qed.

(** ** Areas and memory operations *)

Lemma read_area_words c a n : read_area c = Some (a, n) -> n = words a * 2.
Proof. unfold read_area. repeat case_match; by intros [= <- <-]. Qed.

Lemma write_area_words c a n : write_area c = inl (a, n) -> n = words a * 2.
Proof. unfold write_area. repeat case_match; by intros [= <- <-]. Qed.

Lemma readMemory_fits s addr count a :
  plc_ok s -> MemoryAddress_ok addr -> in_u 16 count -> read_area (Area addr) = Some (a, words a * 2) ->
  Address addr + count <= words a ->
  readMemory s addr count = Ok (take (Z.to_nat (2 * count)) (drop (Z.to_nat (2 * Address addr)) (contents s a)), 0x0000).
Proof.
  intros Hs (_ & [Ha _] & _) [Hc _] Hr Hfit. destruct (Hs a) as [Hlen _].
  unfold readMemory. rewrite Hr, (proj2 (Z.ltb_ge _ _)), zsub_ok by lia. cbn. do 3 f_equal; [lia|f_equal; lia].
Qed.

Lemma readMemory_total s addr count :
  plc_ok s -> MemoryAddress_ok addr -> in_u 16 count ->
  exists d e, readMemory s addr count = Ok (d, e) /\ bytes_ok d /\ len d <= 2 * 65535 /\ in_u 16 e.
Proof.
  intros Hs Ha Hc. destruct (read_area (Area addr)) as [[a n]|] eqn:Hr.
  - rewrite (read_area_words _ _ _ Hr) in Hr. destruct (decide (Address addr + count <= words a)) as [Hf|Hf].
    + rewrite (readMemory_fits s addr count a) by done. do 2 eexists. split_and!; try done.
      * apply bytes_ok_take, bytes_ok_drop, Hs.
      * unfold len. rewrite length_take. unfold in_u in Hc. lia.
    + unfold readMemory. rewrite Hr, (proj2 (Z.ltb_lt _ _)) by lia. do 2 eexists. split_and!; try done. constructor.
  - unfold readMemory. rewrite Hr. do 2 eexists. split_and!; try done. constructor.
Qed.

Lemma writeMemory_fits s addr count data a :
  plc_ok s -> MemoryAddress_ok addr -> in_u 16 count -> write_area (Area addr) = inl (a, words a * 2) ->
  Address addr + count <= words a ->
  writeMemory s addr count data =
    Ok (store s a (copy_at (Z.to_nat (Address addr * 2)) (take (Z.to_nat (count * 2)) data) (contents s a)), 0x0000).
Proof.
  intros Hs (_ & [Ha _] & _) [Hc _] Hr Hfit. destruct (Hs a) as [Hlen _].
  unfold writeMemory. rewrite Hr, (proj2 (Z.ltb_ge _ _)), copy_slice_ok by lia. cbn. do 5 f_equal. lia.
Qed.

Lemma writeMemory_total s addr count data :
  plc_ok s -> MemoryAddress_ok addr -> in_u 16 count -> bytes_ok data ->
  exists s' e, writeMemory s addr count data = Ok (s', e) /\ plc_ok s' /\ in_u 16 e.
Proof.
  intros Hs Ha Hc Hd. destruct (write_area (Area addr)) as [[a n]|e] eqn:Hr.
  - rewrite (write_area_words _ _ _ Hr) in Hr. destruct (decide (Address addr + count <= words a)) as [Hf|Hf].
    + rewrite (writeMemory_fits s addr count data a) by done. do 2 eexists. split_and!; try done.
      destruct (Hs a). apply plc_ok_store; [done|unfold len in *; by rewrite length_copy_at|auto with fins].
    + unfold writeMemory. rewrite Hr, (proj2 (Z.ltb_lt _ _)) by lia. by do 2 eexists.
  - unfold writeMemory. rewrite Hr. do 2 eexists. split_and!; try done.
    revert Hr. unfold write_area. by repeat case_match; intros [= <-].
Qed.

(** ** Requests *)

Lemma response_header_sendable h : FINSHeader_ok h -> FINSHeader_ok (response_header h).
Proof.
  intros (Hicf & ? & ? & ? & ? & ?). unfold FINSHeader_ok, response_header. split_and!; try done.
  exact (set_bit_ok (ICF h) 6 true Hicf ltac:(lia)).
Qed.

Lemma handleRequest_total s req :
  plc_ok s -> FINSFrame_ok req ->
  exists s' resp, handleRequest s req = Ok (s', resp) /\ plc_ok s' /\ sendable resp.
Proof.
  intros Hs (Hh & Hcc & _ & Hd). assert (bytes_ok []) as Hnil by constructor.
  assert (forall code data, in_u 16 code -> bytes_ok data -> len data <= 2 * 65535 ->
    sendable (MkFINSFrame (response_header (Header req)) (CommandCode req) code data)) as Hresp.
  { intros code data ???. split; [|cbn; lia]. split_and!; try done. by apply response_header_sendable. }
  unfold handleRequest. destruct (len (Data req) <? 6) eqn:E; zbool.
  { repeat case_match; do 2 eexists; (split_and!; [done..|]); by apply Hresp. }
  destruct (request_data (Data req)) as (a & w1 & w0 & b & c1 & c0 & pl & -> & Ha & Hc & Hpl); [done..|].
  rewrite !sub_ok by (cbn; lia). cbn [mbind res_bind take drop Nat.sub skipn firstn].
  change decodeMemoryAddress with DecodeMemoryAddress. rewrite DecodeMemoryAddress_4, be_val_2. cbn [mbind res_bind].
  rewrite sub_from_6. cbn [mbind res_bind]. case_match; [|case_match].
  - destruct (readMemory_total s _ _ Hs Ha Hc) as (d & e & -> & ? & ? & ?). cbn. do 2 eexists. split_and!; [done..|]. by apply Hresp.
  - destruct (writeMemory_total s _ _ pl Hs Ha Hc Hpl) as (s' & e & -> & ? & ?). cbn. do 2 eexists. split_and!; [done..|]. by apply Hresp.
  - do 2 eexists. split_and!; [done..|]. by apply Hresp.
Qed.

(** A sequence of requests, one at a time. *)
Fixpoint serve (s : PLCServer) (reqs : list FINSFrame) : res error (PLCServer * list FINSFrame) :=
  match reqs with
  | [] => Ok (s, [])
  | req :: reqs =>
    r ← handleRequest s req;
    let '(s, resp) := r in
    r ← serve s reqs;
    let '(s, resps) := r in Ok (s, resp :: resps)
  end.

Lemma serve_total reqs : forall s,
  plc_ok s -> Forall FINSFrame_ok reqs ->
  exists s' resps, serve s reqs = Ok (s', resps) /\ plc_ok s' /\ Forall sendable resps.
Proof.
  induction reqs as [|req reqs IH]; intros s Hs Hr; cbn [serve]; [by exists s, []|].
  apply Forall_cons in Hr as [Hr Hrs]. destruct (handleRequest_total s req) as (s1 & resp & -> & Hs1 & ?); [done..|].
  destruct (IH s1 Hs1 Hrs) as (s2 & resps & E & ? & ?). cbn [mbind res_bind]. rewrite E. cbn. do 2 eexists.
  split_and!; [done..|]. by constructor.
Qed.

(** ** The receive loop

    The loop is that of the driver ([Framing.round]) but for a length field below
    four: the slice of the frame's data then ends before it begins. *)
Definition bad_length (acc : bytes) : bool :=
  (12 <=? len acc) && bool_decide (take 4 acc = FINS_magic) && (be_val (take 4 (drop 4 acc)) <? 4).

Lemma serve_loop_S fuel s acc :
  bytes_ok acc ->
  serve_loop (S fuel) s acc =
    if bad_length acc then Panic else
    match round acc with
    | None => Ok (s, acc, [])
    | Some (out, rest) =>
      r ← serve s out; let '(s, rs) := r in
      r ← serve_loop fuel s rest; let '(s, acc', o) := r in Ok (s, acc', concat (wire <$> rs) ++ o)
    end.
Proof.
  intros Hb. cbn [serve_loop]. unfold round, bad_length. destruct (len acc <? 12) eqn:E; zbool.
  { by rewrite (proj2 (Z.leb_gt _ _)) by lia. }
  rewrite (proj2 (Z.leb_le _ _)) by lia. apply at_least_12 in E.
  destruct E as (b0&b1&b2&b3&b4&b5&b6&b7&b8&b9&b10&b11&r&->). rewrite DecodeFINSTCPFrame_cons.
  rewrite !sub_ok by (cbn; lia). cbn [mbind res_bind take drop Nat.sub skipn firstn andb].
  case_bool_decide; cbn [negb andb Length tcp_Data].
  - pose proof (bytes_ok_take 4 _ (bytes_ok_drop 4 _ Hb) : bytes_ok [b4; b5; b6; b7]) as HL.
    apply (bo_val_bound BigEndian) in HL. cbn [bo_val] in HL.
    generalize dependent (be_val [b4; b5; b6; b7]). intros L HL. pose proof (len_nonneg r).
    destruct (L <? 4) eqn:E4; zbool.
    + rewrite (proj2 (Z.ltb_ge _ _)) by (rewrite !len_cons; lia). rewrite zsub_panic by lia. done.
    + case_match; zbool; [done|]. rewrite zsub_ok by lia. cbn [mbind res_bind].
      replace (Z.to_nat (12 + L - 4 - 12)) with (Z.to_nat (L - 4)) by lia.
      change (drop (Z.to_nat 12) _) with r. rewrite decodeFINSFrame_eq.
      destruct (DecodeFINSFrame _) as [f| |]; cbn [mbind res_bind serve].
      * destruct (handleRequest s f) as [[s1 resp]| |]; [|done..]. cbn [mbind res_bind].
        destruct (serve_loop fuel s1 _) as [[[? ?] ?]| |]; [|done..]. cbn [mbind res_bind fmap list_fmap concat]. by rewrite encode_wire, app_nil_r.
      * by destruct (serve_loop fuel s _) as [[[? ?] ?]| |].
      * by destruct (serve_loop fuel s _) as [[[? ?] ?]| |].
  - cbn [serve mbind res_bind]. by destruct (serve_loop fuel s _) as [[[? ?] ?]| |].
Qed.

(** Whether the loop comes upon such a length field. *)
Fixpoint meets_bad (fuel : nat) (acc : bytes) : bool :=
  match fuel with
  | O => false
  | S fuel => bad_length acc || match round acc with None => false | Some (_, rest) => meets_bad fuel rest end
  end.

Definition bad_stream (acc : bytes) : bool := meets_bad (S (length acc)) acc.

Lemma meets_bad_fuel f1 : forall acc f2,
  bytes_ok acc -> (length acc < f1)%nat -> (length acc < f2)%nat -> meets_bad f1 acc = meets_bad f2 acc.
Proof.
  induction f1 as [|f1 IH]; intros acc f2 Hb H1 H2; [lia|]. destruct f2 as [|f2]; [lia|]. cbn [meets_bad]. f_equal.
  destruct (round acc) as [[out rest]|] eqn:Hr; [|done]. apply round_shorter in Hr as [Hl Hbr]; [|done]. apply IH; done || lia.
Qed.

Lemma bad_stream_eq acc :
  bytes_ok acc ->
  bad_stream acc = bad_length acc || match round acc with None => false | Some (_, rest) => bad_stream rest end.
Proof.
  intros Hb. unfold bad_stream at 1. cbn [meets_bad]. f_equal. destruct (round acc) as [[out rest]|] eqn:Hr; [|done].
  apply round_shorter in Hr as [Hl Hbr]; [|done]. apply meets_bad_fuel; done || lia.
Qed.

(** The first twelve bytes decide. *)
Lemma bad_length_app acc more : 12 <= len acc -> bad_length (acc ++ more) = bad_length acc.
Proof.
  intros H. pose proof (len_nonneg more). unfold bad_length. rewrite !(proj2 (Z.leb_le _ _)) by (rewrite ?len_app; lia).
  unfold len in H. rewrite take_app_le, drop_app_le, take_app_le by (rewrite ?length_drop; lia). done.
Qed.

Lemma bad_length_12 acc : bad_length acc = true -> 12 <= len acc.
Proof. unfold bad_length. destruct (12 <=? len acc) eqn:E; zbool; done. Qed.

Lemma bad_length_round acc : bytes_ok acc -> bad_length acc = true -> round acc <> None.
Proof.
  intros Hb H. pose proof (bad_length_12 _ H) as Hl. apply at_least_12 in Hl.
  destruct Hl as (b0&b1&b2&b3&b4&b5&b6&b7&b8&b9&b10&b11&r&->). revert H. unfold bad_length, round.
  cbn [take drop firstn skipn]. rewrite DecodeFINSTCPFrame_cons. pose proof (len_nonneg r).
  rewrite !len_cons, (proj2 (Z.ltb_ge _ 12)) by lia. case_bool_decide; [|by rewrite andb_false_r].
  cbn [Length]. intros Hbad. apply andb_true_iff in Hbad as [_ Hbad]. zbool.
  rewrite (proj2 (Z.ltb_ge _ _)); [done|]. lia.
Qed.

Lemma bad_stream_app acc more :
  bytes_ok acc -> bytes_ok more ->
  bad_stream (acc ++ more) = bad_stream acc || bad_stream (snd (drain_all acc) ++ more).
Proof.
  intros Hb Hm. remember (length acc) as n eqn:Hn. revert acc Hb Hn.
  induction n as [n IH] using (well_founded_induction lt_wf). intros acc Hb ->.
  rewrite (bad_stream_eq acc), drain_all_eq by done. destruct (round acc) as [[out rest]|] eqn:Hr.
  - pose proof (round_shorter _ _ _ Hb Hr) as [Hl Hbr]. rewrite bad_stream_eq by (by apply bytes_ok_app).
    rewrite (round_app _ _ _ _ Hb Hr), (IH _ Hl rest Hbr eq_refl).
    assert (12 <= len acc) as H12. { revert Hr. unfold round. case_match; [done|]. by zbool. }
    rewrite bad_length_app by done. destruct (drain_all rest). by rewrite orb_assoc.
  - destruct (bad_length acc) eqn:E; [|done]. by apply bad_length_round in E.
Qed.

Lemma serve_requests_app s fs gs :
  serve s (fs ++ gs) =
    (r ← serve s fs; let '(s', rs) := r in
     r' ← serve s' gs; let '(s'', rs') := r' in Ok (s'', rs ++ rs')).
Proof.
  revert s. induction fs as [|f fs IH]; intros s; cbn [serve app].
  - cbn. by destruct (serve s gs) as [[??]| |].
  - destruct (handleRequest s f) as [[s1 resp]| |]; [|done..]. cbn. rewrite IH.
    destruct (serve s1 fs) as [[s2 rs]| |]; [|done..]. cbn. by destruct (serve s2 gs) as [[??]| |].
Qed.

(** What a connection does to its input: the driver's reassembly and the handler, or a crash. *)
Definition served (s : PLCServer) (input : bytes) : res error (PLCServer * bytes * bytes) :=
  if bad_stream input then Panic else
  let '(fs, rest) := drain_all input in
  r ← serve s fs; let '(s', rs) := r in Ok (s', rest, concat (wire <$> rs)).

Lemma serve_loop_served fuel : forall s acc,
  plc_ok s -> bytes_ok acc -> (length acc < fuel)%nat -> serve_loop fuel s acc = served s acc.
Proof.
  induction fuel as [|fuel IH]; intros s acc Hs Hb Hf; [lia|].
  rewrite serve_loop_S by done. unfold served. rewrite bad_stream_eq, drain_all_eq by done.
  destruct (bad_length acc); [done|]. cbn [orb]. destruct (round acc) as [[out rest]|] eqn:Hr; [|done].
  pose proof (round_shorter _ _ _ Hb Hr) as [Hl Hbr]. apply round_frames_ok in Hr; [|done].
  destruct (serve_total out s Hs Hr) as (s1 & rs & E & Hs1 & _). rewrite E. cbn [mbind res_bind].
  rewrite IH by (done || lia). unfold served. destruct (bad_stream rest); [done|]. destruct (drain_all rest) as [fs acc'].
  rewrite serve_requests_app, E. cbn [mbind res_bind]. destruct (serve s1 fs) as [[s2 rs']| |]; [|done..].
  cbn [mbind res_bind]. by rewrite fmap_app, concat_app.
Qed.

Lemma handleConnection_served reads : forall s acc,
  plc_ok s -> bytes_ok acc -> Forall bytes_ok reads -> round acc = None ->
  handleConnection s acc reads = served s (acc ++ concat reads).
Proof.
  induction reads as [|buf reads IH]; intros s acc Hs Hb Hr Hw; cbn [handleConnection concat].
  - rewrite app_nil_r. unfold served. rewrite bad_stream_eq, drain_all_eq, Hw by done.
    destruct (bad_length acc) eqn:E; [by apply bad_length_round in E|done].
  - apply Forall_cons in Hr as [Hbuf Hr]. destruct buf as [|b buf]; [by apply IH|].
    set (c := b :: buf) in *. assert (bytes_ok (acc ++ c)) as Hac by (by apply bytes_ok_app).
    assert (bytes_ok (concat reads)) as Hcr by (by apply Forall_concat).
    rewrite serve_loop_served by (done || lia). unfold served. rewrite app_assoc, (bad_stream_app (acc ++ c)), (drain_all_app (acc ++ c)) by done.
    destruct (bad_stream (acc ++ c)); [done|]. cbn [orb]. pose proof (drain_all_rest _ Hac) as [Hbr Hrr].
    pose proof (drain_all_frames_ok _ Hac) as Hfs.
    destruct (drain_all (acc ++ c)) as [fs rest]. cbn [fst snd] in *.
    destruct (serve_total fs s Hs Hfs) as (s1 & rs & E & Hs1 & _). rewrite E. cbn [mbind res_bind].
    rewrite IH by done. unfold served. destruct (bad_stream (rest ++ _)); [done|].
    destruct (drain_all (rest ++ _)) as [gs rest']. rewrite serve_requests_app, E. cbn [mbind res_bind].
    destruct (serve s1 gs) as [[s2 rs']| |]; [|done..]. cbn [mbind res_bind]. by rewrite fmap_app, concat_app.
Qed.

(** ** Against the in-process PLC *)

(** A read or write of words by the word codes of [protocol.go]. *)
Definition word_codes : list Z := [0x82; 0xb0; 0xb1; 0xb2; 0xb3].

Definition word_request (req : FINSFrame) : Prop :=
  6 <= len (Data req) /\ (CommandCode req = 0x0101 \/ CommandCode req = 0x0102) /\
  exists c, head (Data req) = Some c /\ c ∈ word_codes.

(** A write of AR, which this server refuses and the in-process PLC carries out. *)
Definition ar_write (req : FINSFrame) : bool :=
  (CommandCode req =? 0x0102) && bool_decide (head (Data req) = Some 0xb3).

(** The in-process PLC with AR protected: a write of AR is refused with end code 0x2101 and
    changes nothing, any other request is handled as by [MockPLC.handleRequest]. *)
Definition protected_request (m : MockPLC) (req : FINSFrame) : res error (MockPLC * FINSFrame) :=
  if ar_write req then Ok (m, MkFINSFrame (DefaultResponseHeader (Header req)) (CommandCode req) 0x2101 [])
  else MockPLC.handleRequest m req.

Fixpoint protected_serve (m : MockPLC) (reqs : list FINSFrame) : res error (MockPLC * list FINSFrame) :=
  match reqs with
  | [] => Ok (m, [])
  | req :: reqs =>
    r ← protected_request m req;
    let '(m, resp) := r in
    r ← protected_serve m reqs;
    let '(m, resps) := r in Ok (m, resp :: resps)
  end.

Lemma protected_serve_plain reqs : forall m,
  Forall (fun req => ar_write req = false) reqs -> protected_serve m reqs = MockPLC.serve m reqs.
Proof.
  induction reqs as [|req reqs IH]; intros m Hr; [done|]. apply Forall_cons in Hr as [Hq Hr].
  cbn [protected_serve MockPLC.serve]. unfold protected_request. rewrite Hq.
  destruct (MockPLC.handleRequest m req) as [[m1 resp]| |]; [|done..]. cbn [mbind res_bind]. by rewrite IH.
Qed.

(** Answers that differ at most in the flag bits and the reserved byte of the header. *)
Definition same_answer (r1 r2 : FINSFrame) : Prop :=
  CommandCode r1 = CommandCode r2 /\ EndCode r1 = EndCode r2 /\ Data r1 = Data r2 /\
  SID (Header r1) = SID (Header r2) /\ GCT (Header r1) = GCT (Header r2) /\
  Dest (Header r1) = Dest (Header r2) /\ Src (Header r1) = Src (Header r2).

Lemma word_code_areas c :
  c ∈ word_codes ->
  exists a, IsWordArea c = true /\ fst (getArea c) = Some a /\ read_area c = Some (a, words a * 2) /\
    write_area c = (if c =? 0xb3 then inr 0x2101 else inl (a, words a * 2)).
Proof.
  unfold word_codes. rewrite !elem_of_cons, elem_of_nil. intros [-> | [-> | [-> | [-> | [-> | []]]]]].
  - by exists DM. - by exists CIO. - by exists WR. - by exists HR. - by exists AR.
Qed.

Lemma readMemory_agrees s addr count :
  plc_ok s -> MemoryAddress_ok addr -> in_u 16 count -> Area addr ∈ word_codes ->
  readMemory s addr count = MockPLC.readMemory s addr count.
Proof.
  intros Hs Ha Hc Hw. destruct (word_code_areas _ Hw) as (a & H1 & H2 & H3 & _). destruct (Hs a) as [Hlen _].
  destruct (decide (Address addr + count <= words a)).
  - rewrite (readMemory_fits s addr count a) by done. destruct Ha as (_ & [? _] & _), Hc.
    by rewrite (readMemory_words s addr count a) by (done || lia).
  - unfold readMemory, MockPLC.readMemory. rewrite H1, H2, H3. by rewrite !(proj2 (Z.ltb_lt _ _)) by lia.
Qed.

Lemma writeMemory_agrees s addr count data :
  plc_ok s -> MemoryAddress_ok addr -> in_u 16 count -> Area addr ∈ word_codes ->
  writeMemory s addr count data = if Area addr =? 0xb3 then Ok (s, 0x2101) else MockPLC.writeMemory s addr count data.
Proof.
  intros Hs Ha Hc Hw. destruct (word_code_areas _ Hw) as (a & H1 & H2 & _ & H3).
  destruct (Hs a) as [Hlen _]. unfold writeMemory, MockPLC.writeMemory. rewrite H1, H2, H3.
  destruct (Area addr =? 0xb3); [done|]. by rewrite Hlen.
Qed.

Lemma handleRequest_agrees s req :
  plc_ok s -> FINSFrame_ok req -> word_request req ->
  exists s' r1 r2, handleRequest s req = Ok (s', r1) /\ protected_request s req = Ok (s', r2) /\ same_answer r1 r2.
Proof.
  intros Hs Hf (H6 & Hcmd & c & Hhd & Hcode). pose proof (handleRequest_total s req Hs Hf) as (s' & r1 & E & _).
  destruct Hf as (_ & _ & _ & Hd). revert E. unfold handleRequest, protected_request, MockPLC.handleRequest, ar_write.
  destruct (request_data (Data req)) as (a & w1 & w0 & b & c1 & c0 & pl & Hde & Ha & Hc & Hpl); [done..|].
  rewrite Hde in *. cbn [head] in *. injection Hhd as <-. rewrite (proj2 (Z.ltb_ge _ 6)) by done.
  rewrite !sub_ok by (cbn; lia). cbn [mbind res_bind take drop Nat.sub skipn firstn].
  change decodeMemoryAddress with DecodeMemoryAddress. rewrite DecodeMemoryAddress_4, be_val_2. cbn [mbind res_bind].
  rewrite sub_from_6. cbn [mbind res_bind].
  destruct Hcmd as [-> | ->].
  - change (0x0101 =? 0x0102) with false. change (0x0101 =? 0x0101) with true. change (0x0101 =? MRC_MEMORY_AREA_READ) with true. cbn match.
    rewrite readMemory_agrees by done. destruct (MockPLC.readMemory _ _ _) as [[d e]| |]; [|done..].
    cbn [mbind res_bind fst snd]. intros [= <- <-]. do 3 eexists. split_and!; done.
  - change (0x0102 =? 0x0101) with false. change (0x0102 =? 0x0102) with true.
    change (0x0102 =? MRC_MEMORY_AREA_READ) with false. change (0x0102 =? MRC_MEMORY_AREA_WRITE) with true. cbn match.
    rewrite writeMemory_agrees by done. cbn [Area andb].
    replace (bool_decide (Some a = Some 0xb3)) with (a =? 0xb3)
      by (destruct (Z.eqb_spec a 0xb3); [rewrite bool_decide_true|rewrite bool_decide_false]; congruence).
    destruct (a =? 0xb3).
    + cbn [mbind res_bind fst snd]. intros [= <- <-]. do 3 eexists. split_and!; done.
    + destruct (MockPLC.writeMemory _ _ _ _) as [[s1 e]| |]; [|done..].
      cbn [mbind res_bind fst snd]. intros [= <- <-]. do 3 eexists. split_and!; done.
Qed.

Lemma serve_agrees reqs : forall s,
  plc_ok s -> Forall FINSFrame_ok reqs -> Forall word_request reqs ->
  exists s' rs1 rs2, serve s reqs = Ok (s', rs1) /\ protected_serve s reqs = Ok (s', rs2) /\
    plc_ok s' /\ Forall2 same_answer rs1 rs2.
Proof.
  induction reqs as [|req reqs IH]; intros s Hs Hf Hw; cbn [serve protected_serve].
  { exists s, [], []. by split_and!. }
  apply Forall_cons in Hf as [Hf Hfs]. apply Forall_cons in Hw as [Hw Hws].
  destruct (handleRequest_agrees s req) as (s1 & r1 & r2 & E1 & E2 & Hr); [done..|].
  destruct (handleRequest_total s req) as (? & ? & E & Hs1 & _); [done..|]. rewrite E1 in E. injection E as <- <-.
  destruct (IH s1) as (s2 & rs1 & rs2 & E3 & E4 & Hs2 & Hrs); [done..|].
  rewrite E1, E2. cbn [mbind res_bind]. rewrite E3, E4. cbn. do 3 eexists. split_and!; [done..|]. by constructor.
Qed.

Lemma serve_length reqs : forall s s' rs, serve s reqs = Ok (s', rs) -> length rs = length reqs.
Proof.
  induction reqs as [|req reqs IH]; intros s s' rs; cbn [serve]; [by intros [= _ <-]|].
  destruct (handleRequest s req) as [[s1 r]| |]; [|done..]. cbn [mbind res_bind].
  destruct (serve s1 reqs) as [[s2 rs']| |] eqn:E; [|done..]. cbn. intros [= _ <-]. cbn. by rewrite (IH _ _ _ E).
Qed.

(** Frames that are sent whole have a length field of at least eighteen. *)
Lemma bad_length_wire f more : sendable f -> bad_length (wire f ++ more) = false.
Proof.
  intros [_ Hl]. pose proof (len_nonneg (Data f)). unfold bad_length. rewrite wire_eq, <- !app_assoc.
  change (take 4 (FINS_magic ++ _)) with FINS_magic. change (drop 4 (FINS_magic ++ ?x)) with x.
  rewrite take_app_length' by (by rewrite length_be_bytes).
  rewrite uwrap_id, be_val_bytes by (unfold in_u; cbn; lia). rewrite (proj2 (Z.ltb_ge _ 4)) by lia. by rewrite andb_false_r.
Qed.

Lemma bad_stream_wires fs tail :
  Forall sendable fs -> bytes_ok tail -> bad_stream (concat (wire <$> fs) ++ tail) = bad_stream tail.
Proof.
  intros Hfs Ht. induction Hfs as [|f fs Hf Hfs IH]; [done|].
  change (concat (wire <$> f :: fs)) with (wire f ++ concat (wire <$> fs)). rewrite <- app_assoc, bad_stream_eq.
  - by rewrite bad_length_wire, round_wire.
  - rewrite !bytes_ok_app. split_and!; [apply bytes_ok_wire, Hf|by apply bytes_ok_wires|done].
Qed.

Lemma good_stream fs : Forall sendable fs -> bad_stream (concat (wire <$> fs)) = false.
Proof. intros H. rewrite <- (app_nil_r (concat _)), bad_stream_wires by (done || constructor). done. Qed.

(** ** Properties of the server *)

(** C34: for word traffic the two PLCs of the repository differ only in the protection of
    AR: whatever word reads and writes a client sends, in whatever chunks, this server
    answers every request; its memory, end codes and data are those of the in-process PLC on
    the same requests when every write of AR is refused with end code 0x2101 and changes
    nothing; and when the requests hold no write of AR they are those the in-process PLC
    itself gives, which carries such writes out. *)
Theorem cmd_tcp_words s reqs chunks :
  plc_ok s -> Forall sendable reqs -> Forall word_request reqs -> concat chunks = concat (wire <$> reqs) ->
  exists s' rs1 rs2,
    handleConnection s [] chunks = Ok (s', [], concat (wire <$> rs1)) /\
    protected_serve s reqs = Ok (s', rs2) /\
    plc_ok s' /\ length rs1 = length reqs /\ Forall2 same_answer rs1 rs2 /\
    (Forall (fun req => ar_write req = false) reqs ->
       MockPLC.handleConnection s [] chunks = Ok (s', [], concat (wire <$> rs2))).
Proof.
  intros Hs Hr Hw Hcat.
  assert (Forall FINSFrame_ok reqs) as Hf by (eapply Forall_impl; [exact Hr|by intros ? [? _]]).
  pose proof (wire_chunks_ok reqs chunks Hr Hcat) as Hc.
  destruct (serve_agrees reqs s Hs Hf Hw) as (s' & rs1 & rs2 & E1 & E2 & Hs' & Hrs). exists s', rs1, rs2.
  split_and!; [|done|done|by eapply serve_length|done|].
  - rewrite handleConnection_served by (done || constructor). cbn [app]. rewrite Hcat. unfold served.
    by rewrite good_stream, drain_all_wires, E1.
  - intros Hn. by rewrite (handleConnection_wires s reqs), <- protected_serve_plain, E2.
Qed.

(** A read of two words of W0. *)
Definition sample_read : FINSFrame :=
  MkFINSFrame (DefaultCommandHeader (MkFINSAddress 0 1 255) (MkFINSAddress 0 1 0) 9)
    0x0101 0 [0xb1; 0; 2; 0; 0; 2].

(** A write of 0x1234 to A0. *)
Definition sample_ar_write : FINSFrame :=
  MkFINSFrame (DefaultCommandHeader (MkFINSAddress 0 1 255) (MkFINSAddress 0 1 0) 10)
    0x0102 0 [0xb3; 0; 0; 0; 0; 1; 0x12; 0x34].

Lemma cmd_tcp_words_witness :
  exists s' r1 r2 r3,
    handleConnection NewPLCServer [] [take 20 (wire sample_write); drop 20 (wire sample_write) ++ wire sample_ar_write; wire sample_read]
      = Ok (s', [], wire r1 ++ wire r2 ++ wire r3 ++ []) /\ plc_ok s' /\ EndCode r1 = 0 /\ EndCode r2 = 0x2101.
Proof.
  destruct (cmd_tcp_words NewPLCServer [sample_write; sample_ar_write; sample_read]
    [take 20 (wire sample_write); drop 20 (wire sample_write) ++ wire sample_ar_write; wire sample_read])
    as (s' & rs1 & rs2 & E & E2 & Hs' & Hl & Hsame & _); [apply NewMockPLC_ok|by_decide| |vm_compute; reflexivity|].
  - repeat (apply Forall_cons_2); [..|constructor]; (split; [by_decide|]).
    + split; [by right|]. eexists. split; [done|]. by_decide.
    + split; [by right|]. eexists. split; [done|]. by_decide.
    + split; [by left|]. eexists. split; [done|]. by_decide.
  - destruct rs1 as [|r1 [|r2 [|r3 [|]]]]; [cbn in Hl; lia..| |cbn in Hl; lia].
    exists s', r1, r2, r3. split; [exact E|]. split; [exact Hs'|]. clear E Hs' Hl.
    assert (match protected_serve NewPLCServer [sample_write; sample_ar_write; sample_read] with
            | Ok (_, rs) => EndCode <$> rs | _ => [] end = [0; 0x2101; 0]) as Hend by (vm_compute; reflexivity).
    rewrite E2 in Hend. clear E2. destruct rs2 as [|q1 [|q2 [|q3 [|]]]]; try discriminate Hend. injection Hend as H1 H2 _.
    inversion_clear Hsame as [|? ? ? ? S1 T]. inversion_clear T as [|? ? ? ? S2 _].
    destruct S1 as (_ & -> & _), S2 as (_ & -> & _). split; [exact H1|exact H2].
Defined.

(** C35: what can crash this server: for any bytes received in any chunks, the handler
    returns with a well-formed memory unless the stream, after the frames before it,
    comes upon a frame whose length field is below four, and then it panics; twelve bytes are
    enough, also behind any number of proper requests. *)
Theorem cmd_tcp_crash s chunks :
  plc_ok s -> Forall bytes_ok chunks ->
  (if bad_stream (concat chunks) then handleConnection s [] chunks = Panic
   else exists s' acc out, handleConnection s [] chunks = Ok (s', acc, out) /\ plc_ok s') /\
  forall reqs n tail, Forall sendable reqs -> 0 <= n < 4 -> bytes_ok tail -> 4 <= len tail ->
    concat chunks = concat (wire <$> reqs) ++ FINS_magic ++ be_bytes 4 n ++ tail ->
    handleConnection s [] chunks = Panic.
Proof.
  intros Hs Hc. assert (bytes_ok (concat chunks)) as Hb by (by apply Forall_concat).
  rewrite handleConnection_served by (done || constructor). unfold served. cbn [app]. split.
  - destruct (bad_stream (concat chunks)); [done|]. pose proof (drain_all_frames_ok _ Hb) as Hf.
    destruct (drain_all (concat chunks)) as [fs acc]. cbn [fst] in Hf.
    destruct (serve_total fs s Hs Hf) as (s' & rs & E & Hs' & _). rewrite E. cbn. by eauto.
  - intros reqs n tail Hr Hn Ht Hl ->. assert (bytes_ok (FINS_magic ++ be_bytes 4 n ++ tail)) as Hbt.
    { rewrite !bytes_ok_app. split_and!; [apply FINS_magic_ok|apply be_bytes_ok|done]. }
    rewrite bad_stream_wires, bad_stream_eq by done. unfold bad_length.
    change (take 4 (FINS_magic ++ _)) with FINS_magic. change (drop 4 (FINS_magic ++ ?x)) with x.
    rewrite take_app_length' by (by rewrite length_be_bytes). rewrite be_val_bytes by (unfold in_u; cbn; lia).
    rewrite (proj2 (Z.ltb_lt n 4)) by lia. rewrite (proj2 (Z.leb_le _ _)); [done|].
    rewrite !len_app, len_be_bytes. change (len FINS_magic) with 4. lia.
Qed.

Lemma cmd_tcp_crash_witness :
  handleConnection NewPLCServer [] [wire sample_read ++ [70; 73; 78; 83]; [0; 0; 0; 3; 0; 0; 0; 0]] = Panic.
Proof.
  destruct (cmd_tcp_crash NewPLCServer [wire sample_read ++ [70; 73; 78; 83]; [0; 0; 0; 3; 0; 0; 0; 0]]) as [_ H];
    [apply NewMockPLC_ok|by_decide|].
  apply (H [sample_read] 3 [0; 0; 0; 0]); [by_decide|lia|by_decide|by_decide|vm_compute; reflexivity].
Defined.

Lemma bit_codes c a :
  spec_area c = Some (Bits a) ->
  (c = 0x02 /\ a = DM) \/ (c = 0x30 /\ a = CIO) \/ (c = 0x31 /\ a = AR) \/ (c = 0x32 /\ a = WR) \/ (c = 0x33 /\ a = HR).
Proof. unfold spec_area. repeat (case_match; zbool; [intros [= <-]; subst; tauto|]). done. Qed.

(** Bit requests are answered with words: for each bit code of [protocol.go] the
    server ignores the bit number and returns or overwrites whole words, two bytes an element where
    the driver counts one, and for 0x31, 0x32 and 0x33 of another area than the one the
    code names in [protocol.go]. *)
Theorem cmd_tcp_bits s c w b n a :
  plc_ok s -> spec_area c = Some (Bits a) -> in_u 16 w -> in_u 8 b -> in_u 16 n -> w + n <= 512 ->
  exists a', read_area c = Some (a', words a' * 2) /\ (a' = a <-> c = 0x02 \/ c = 0x30) /\
    readMemory s (MkMemoryAddress c w b) n =
      Ok (take (Z.to_nat (2 * n)) (drop (Z.to_nat (2 * w)) (contents s a')), 0x0000) /\
    len (take (Z.to_nat (2 * n)) (drop (Z.to_nat (2 * w)) (contents s a'))) = 2 * n /\
    len (fst (spec_read (abs s) (MkMemoryAddress c w b) n)) <= n /\
    (forall data, writeMemory s (MkMemoryAddress c w b) n data =
       if decide (a' = AR) then Ok (s, 0x2101) else
       Ok (store s a' (copy_at (Z.to_nat (w * 2)) (take (Z.to_nat (n * 2)) data) (contents s a')), 0x0000)).
Proof.
  intros Hs Hsp Hw Hb Hn Hfit.
  assert (in_u 8 c /\ exists a', read_area c = Some (a', words a' * 2) /\ (a' = a <-> c = 0x02 \/ c = 0x30) /\
     write_area c = if decide (a' = AR) then inr 0x2101 else inl (a', words a' * 2)) as (Hc & a' & Hr & Ha & Hwr).
  { destruct (bit_codes c a Hsp) as [[-> ->]|[[-> ->]|[[-> ->]|[[-> ->]|[-> ->]]]]]; (split; [by_decide|]);
      [exists DM|exists CIO|exists WR|exists HR|exists AR]; (split; [done|]); (split; [|done]);
      (split; [intros ?; first [done|by left|by right]|by intros [?|?]]). }
  assert (512 <= words a') as H512 by (by destruct a').
  assert (MemoryAddress_ok (MkMemoryAddress c w b)) as Hok by (by split_and!).
  pose proof (Hs a') as [Hlen _]. exists a'. split_and!; try done.
  - by apply readMemory_fits; [..|cbn; lia].
  - unfold len in *. rewrite length_take, length_drop. unfold in_u in *. lia.
  - unfold spec_read. cbn [Area Address BitOffset]. rewrite Hsp. unfold in_u in *.
    cbn zeta. destruct (_ <? _); unfold len; cbn [fst]; [cbn; lia|]. rewrite length_map, length_seqZ. lia.
  - intros data. destruct (decide (a' = AR)).
    + unfold writeMemory. cbn [Area]. by rewrite Hwr.
    + by apply writeMemory_fits; [..|cbn; lia].
Qed.

Lemma cmd_tcp_bits_witness :
  readMemory NewPLCServer (MkMemoryAddress 0x31 4 7) 3 =
    Ok (take 6 (drop 8 (contents NewPLCServer WR)), 0x0000).
Proof.
  destruct (cmd_tcp_bits NewPLCServer 0x31 4 7 3 AR) as (a' & H & _ & E & _);
    [apply NewMockPLC_ok|done|by_decide|by_decide|by_decide|lia|].
  cbn in H. injection H as <-. exact E.
Defined.
