(* ===== verification/CmdTcpSession.v ===== *)
(** * The connections of the command-line TCP server ([src/cmd/tcp/server/main.go])

    The accept loop and one goroutine per connection, as a transition system.  Unlike the
    PLC of [src/mock_plc.go], [readMemory] takes no lock and returns a slice of the area
    itself: the bytes of an answer are copied from the live memory
    when the frame is encoded.  The copy is modelled byte by byte in ascending order; the
    language leaves order and granularity of a copy open, so this is one of the behaviours
    it allows. *)
From S2P Require Import Prelude Types Protocol Framing MockPLC CmdTcpServer.

(** ** Answers that refer to the memory *)

(** The slice [area[off : off+n]]. *)
Record view := MkView { w_area : area_id; w_off : Z; w_len : Z }.

(** [readMemory] as it is: no bytes are copied. *)
Definition readMemory_view (memAddr : MemoryAddress) (count : Z) : option view * Z :=
  match read_area (Area memAddr) with
  | None => (None, 0x1101)
  | Some (area, maxSize) =>
    let byteOffset := Address memAddr * 2 in
    let byteCount := count * 2 in
    if maxSize <? byteOffset + byteCount then (None, 0x1104) else (Some (MkView area byteOffset byteCount), 0x0000)
  end.

(** [handleRequest] as it is: the frame without its data, and what the data refers to. *)
Definition handleRequest_view (s : PLCServer) (req : FINSFrame) : res error (PLCServer * (FINSFrame * option view)) :=
  let resp endCode := MkFINSFrame (response_header (Header req)) (CommandCode req) endCode [] in
  if CommandCode req =? 0x0101 then
    if len (Data req) <? 6 then Ok (s, (resp 0x1002, None)) else
    a ← sub (Data req) 0 4;
    memAddr ← decodeMemoryAddress a;
    c ← sub (Data req) 4 6;
    let '(v, endCode) := readMemory_view memAddr (be_val c) in
    Ok (s, (resp endCode, v))
  else if CommandCode req =? 0x0102 then
    if len (Data req) <? 6 then Ok (s, (resp 0x1002, None)) else
    a ← sub (Data req) 0 4;
    memAddr ← decodeMemoryAddress a;
    c ← sub (Data req) 4 6;
    d ← sub_from (Data req) 6;
    r ← writeMemory s memAddr (be_val c) d;
    Ok (fst r, (resp (snd r), None))
  else Ok (s, (resp 0x0401, None)).

Definition with_data (f : FINSFrame) (d : bytes) : FINSFrame := MkFINSFrame (Header f) (CommandCode f) (EndCode f) d.

(** The bytes a view shows in a memory. *)
Definition view_bytes (s : PLCServer) (v : option view) : bytes :=
  match v with Some v => take (Z.to_nat (w_len v)) (drop (Z.to_nat (w_off v)) (contents s (w_area v))) | None => [] end.

(** Without interference the answer is that of [CmdTcpServer.handleRequest]. *)
Lemma handleRequest_view_eq s req :
  plc_ok s -> FINSFrame_ok req ->
  handleRequest s req = (r ← handleRequest_view s req; let '(s', (f, v)) := r in Ok (s', with_data f (view_bytes s' v))).
Proof.
  intros Hs (_ & _ & _ & Hd). unfold handleRequest, handleRequest_view, with_data. destruct (CommandCode req =? 0x0101).
  - destruct (len (Data req) <? 6) eqn:Hl; zbool; [done|]. destruct (sub (Data req) 0 4) as [a| |] eqn:Ha; [|done..]. cbn [mbind res_bind].
    destruct (decodeMemoryAddress a) as [ma| |] eqn:Hma; [|done..]. cbn [mbind res_bind].
    destruct (sub (Data req) 4 6) as [c| |] eqn:Hc; [|done..]. cbn [mbind res_bind]. unfold readMemory, readMemory_view.
    destruct (read_area (Area ma)) as [[ar mx]|] eqn:Har; [|done].
    assert (mx = len (contents s ar)) as Hmx.
    { destruct (Hs ar) as [-> _]. unfold read_area in Har. repeat (case_match; [by injection Har as <- <-|]). done. }
    destruct (mx <? _) eqn:Hr; [done|]. zbool.
    assert (0 <= Address ma /\ 0 <= be_val c) as [H1 H2].
    { assert (bytes_ok a /\ bytes_ok c) as [Hba Hbc] by (unfold sub in Ha, Hc; repeat case_match; simplify_eq; auto with fins).
      split; [|apply (bo_val_bound BigEndian), Hbc]. unfold decodeMemoryAddress in Hma.
      apply res_bind_Ok in Hma as (? & _ & Hma). apply res_bind_Ok in Hma as (w & Hw & Hma). apply res_bind_Ok in Hma as (? & _ & [= <-]).
      apply (bo_val_bound BigEndian). unfold sub in Hw. case_match; simplify_eq. auto with fins. }
    rewrite zsub_ok by lia. cbn [mbind res_bind fst snd view_bytes w_area w_off w_len]. by replace (_ - _) with (be_val c * 2) by lia.
  - destruct (CommandCode req =? 0x0102); [|done]. destruct (len (Data req) <? 6); [done|].
    destruct (sub (Data req) 0 4) as [a| |]; [|done..]. cbn [mbind res_bind].
    destruct (decodeMemoryAddress a) as [ma| |]; [|done..]. cbn [mbind res_bind].
    destruct (sub (Data req) 4 6) as [c| |]; [|done..]. cbn [mbind res_bind].
    destruct (sub_from (Data req) 6) as [d| |]; [|done..]. cbn [mbind res_bind].
    by destruct (writeMemory s ma (be_val c) d) as [[s' e]| |].
Qed.

(** ** Goroutines *)

Inductive tphase :=
| TRead (accumulator : bytes)                                           (* in conn.Read *)
| TLoop (accumulator : bytes)                                           (* at the top of the inner loop *)
| THandle (req : FINSFrame) (rest : bytes)                              (* before s.handleRequest *)
| TEncode (f : FINSFrame) (v : option view) (copied rest : bytes)      (* in encodeFINSFrame *)
| TWrite (tcpFrame rest : bytes)                                        (* before conn.Write *)
| TDone.

(** One round of the inner loop, up to the call of the handler. *)
Definition tparse (accumulator : bytes) : res error tphase :=
  if len accumulator <? 12 then Ok (TRead accumulator) else
  magic ← sub accumulator 0 4;
  if negb (bool_decide (magic = FINS_magic)) then Ok (TLoop (drop 1 accumulator)) else
  l ← sub accumulator 4 8;
  let frameLen := be_val l in
  let totalLen := 12 + frameLen - 4 in
  if len accumulator <? totalLen then Ok (TRead accumulator) else
  finsData ← zsub accumulator 12 (12 + frameLen - 4);
  let accumulator := drop (Z.to_nat totalLen) accumulator in
  req ← decodeFINSFrame finsData;
  Ok (match req with None => TLoop accumulator | Some req => THandle req accumulator end).

(** What happens on a connection. *)
Inductive tevent :=
| TIn (chunk : bytes)
| TOut (b : bytes).

Inductive tstep : PLCServer -> tphase -> list tevent -> PLCServer -> tphase -> Prop :=
| t_recv s acc chunk : chunk <> [] -> len chunk <= 4096 -> tstep s (TRead acc) [TIn chunk] s (TLoop (acc ++ chunk))
| t_eof s acc : tstep s (TRead acc) [] s TDone
| t_parse s acc p : tparse acc = Ok p -> tstep s (TLoop acc) [] s p
| t_handle s req rest s' f v :
    handleRequest_view s req = Ok (s', (f, v)) -> tstep s (THandle req rest) [] s' (TEncode f v [] rest)
(* append(data, frame.Data...) copies from the area as it is now *)
| t_copy s f v copied rest b :
    view_bytes s (Some v) !! length copied = Some b -> tstep s (TEncode f (Some v) copied rest) [] s (TEncode f (Some v) (copied ++ [b]) rest)
| t_encoded s f v copied rest :
    len copied = match v with Some v => w_len v | None => 0 end ->
    tstep s (TEncode f v copied rest) [] s (TWrite (encodeFINSTCPFrame (encodeFINSFrame (with_data f copied))) rest)
| t_write s out rest : tstep s (TWrite out rest) [TOut out] s (TLoop rest)
(* the goroutine returns when a write fails *)
| t_write_fails s out rest n : (n < length out)%nat -> tstep s (TWrite out rest) [TOut (take n out)] s TDone.

(** ** The server *)

Record tserver := MkTServer {
  t_listening : bool; t_closed : bool; t_accepting : bool; t_crashed : bool; t_mem : PLCServer; t_conns : gmap nat tphase }.

(** The server [NewPLCServer] returns, after [Start] has started the accept loop. *)
Definition t_started (s : PLCServer) : tserver := MkTServer true false true false s ∅.

Definition t_with (s : tserver) (m : PLCServer) (i : nat) (p : tphase) : tserver :=
  MkTServer (t_listening s) (t_closed s) (t_accepting s) false m (<[i := p]> (t_conns s)).

Inductive sstep : tserver -> list (nat * tevent) -> tserver -> Prop :=
| s_accept s i :
    t_crashed s = false -> t_accepting s = true -> t_listening s = true -> t_conns s !! i = None ->
    sstep s [] (t_with s (t_mem s) i (TRead []))
| s_accept_error s :
    t_crashed s = false -> t_accepting s = true ->
    sstep s [] (MkTServer (t_listening s) (t_closed s) (negb (t_closed s)) false (t_mem s) (t_conns s))
| s_conn s i p es m' p' :
    t_crashed s = false -> t_conns s !! i = Some p -> tstep (t_mem s) p es m' p' -> sstep s ((i,.) <$> es) (t_with s m' i p')
(* a panic of one goroutine ends the process *)
| s_panic s i acc :
    t_crashed s = false -> t_conns s !! i = Some (TLoop acc) -> tparse acc = Panic ->
    sstep s [] (MkTServer false true false true (t_mem s) (t_conns s))
(* a signal: Close *)
| s_close_flag s :
    t_crashed s = false -> sstep s [] (MkTServer (t_listening s) true (t_accepting s) false (t_mem s) (t_conns s))
| s_close_listener s :
    t_crashed s = false -> t_closed s = true -> sstep s [] (MkTServer false true (t_accepting s) false (t_mem s) (t_conns s)).

Inductive ssteps : tserver -> list (nat * tevent) -> tserver -> Prop :=
| ss_nil s : ssteps s [] s
| ss_cons s l s1 tr s2 : sstep s l s1 -> ssteps s1 tr s2 -> ssteps s (l ++ tr) s2.

(** ** A read that is torn *)

(** A connection copies the bytes [bs] of its view. *)
Lemma copies i f v rest (bs : bytes) : forall s (copied pre post : bytes),
  t_crashed s = false -> t_conns s !! i = Some (TEncode f (Some v) copied rest) ->
  view_bytes (t_mem s) (Some v) = pre ++ bs ++ post -> length pre = length copied ->
  ssteps s [] (t_with s (t_mem s) i (TEncode f (Some v) (copied ++ bs) rest)).
Proof.
  induction bs as [|b bs IH]; intros s copied pre post Hc Hk Hv Hl.
  - rewrite app_nil_r. unfold t_with. rewrite insert_id by done. rewrite <- Hc. destruct s. apply ss_nil.
  - assert (sstep s [] (t_with s (t_mem s) i (TEncode f (Some v) (copied ++ [b]) rest))) as Hst.
    { apply (s_conn s i (TEncode f (Some v) copied rest) []); [done..|]. apply t_copy. rewrite Hv, <- Hl. by apply list_lookup_middle. }
    specialize (IH (t_with s (t_mem s) i (TEncode f (Some v) (copied ++ [b]) rest)) (copied ++ [b]) (pre ++ [b]) post eq_refl
      (lookup_insert_eq _ _ _)). cbn [t_mem t_with] in IH. rewrite Hv, <- !app_assoc, !length_app, Hl in IH.
    specialize (IH eq_refl eq_refl). refine (ss_cons _ [] _ [] _ Hst _).
    unfold t_with in *. cbn [t_listening t_closed t_accepting t_conns] in IH. by rewrite insert_insert_eq in IH.
Qed.

Lemma ssteps_app s tr1 s1 tr2 s2 : ssteps s tr1 s1 -> ssteps s1 tr2 s2 -> ssteps s (tr1 ++ tr2) s2.
Proof.
  induction 1 as [|s l s1 tr s2' Hst _ IH]; intros H2; [done|]. rewrite <- app_assoc. eapply ss_cons; [done|by apply IH].
Qed.

Lemma t_with_twice s m1 i p1 m2 p2 : t_with (t_with s m1 i p1) m2 i p2 = t_with s m2 i p2.
Proof. unfold t_with. cbn. by rewrite insert_insert_eq. Qed.

(** Between the first and the second part of a copy another connection handles a request. *)
Lemma torn_run s i j rreq wreq rrest wrest f v s' wf (old1 old2 new1 new2 : bytes) :
  t_crashed s = false -> i <> j -> t_conns s !! i = Some (THandle rreq rrest) -> t_conns s !! j = Some (THandle wreq wrest) ->
  handleRequest_view (t_mem s) rreq = Ok (t_mem s, (f, Some v)) -> handleRequest_view (t_mem s) wreq = Ok (s', (wf, None)) ->
  view_bytes (t_mem s) (Some v) = old1 ++ old2 -> view_bytes s' (Some v) = new1 ++ new2 -> length old1 = length new1 ->
  len (old1 ++ new2) = w_len v ->
  exists s2, ssteps s [(i, TOut (encodeFINSTCPFrame (encodeFINSFrame (with_data f (old1 ++ new2)))))] s2.
Proof.
  intros Hc Hij Hi Hj Hr Hw Hold Hnew Hl Hlen. set (out := encodeFINSTCPFrame _).
  set (s1 := t_with s (t_mem s) i (TEncode f (Some v) [] rrest)).
  assert (sstep s [] s1) as H1 by (apply (s_conn s i (THandle rreq rrest) []); [done..|by apply t_handle]).
  set (s2 := t_with s (t_mem s) i (TEncode f (Some v) old1 rrest)).
  assert (ssteps s1 [] s2) as H2.
  { pose proof (copies i f v rrest old1 s1 [] [] old2 eq_refl (lookup_insert_eq _ _ _) Hold eq_refl) as H. unfold s1 in H at 2.
    by rewrite t_with_twice in H. }
  set (s3 := t_with s2 s' j (TEncode wf None [] wrest)).
  assert (sstep s2 [] s3) as H3.
  { apply (s_conn s2 j (THandle wreq wrest) []); [done| |by apply t_handle]. unfold s2, t_with. cbn. by rewrite lookup_insert_ne. }
  assert (t_conns s3 !! i = Some (TEncode f (Some v) old1 rrest)) as Hi3.
  { unfold s3, s2, t_with. cbn. by rewrite lookup_insert_ne, lookup_insert_eq. }
  set (s4 := t_with s3 s' i (TEncode f (Some v) (old1 ++ new2) rrest)).
  assert (ssteps s3 [] s4) as H4.
  { apply (copies i f v rrest new2 s3 old1 new1 [] eq_refl Hi3); [by rewrite app_nil_r|done]. }
  set (s5 := t_with s4 s' i (TWrite out rrest)).
  assert (sstep s4 [] s5) as H5 by (apply (s_conn s4 i (TEncode f (Some v) (old1 ++ new2) rrest) []);
    [done|apply lookup_insert_eq|by apply t_encoded]).
  exists (t_with s5 s' i (TLoop rrest)).
  refine (ss_cons _ [] _ _ _ H1 _). refine (ssteps_app _ [] _ _ _ H2 _). refine (ss_cons _ [] _ _ _ H3 _).
  refine (ssteps_app _ [] _ _ _ H4 _). refine (ss_cons _ [] _ _ _ H5 _). rewrite <- (app_nil_r [_]). refine (ss_cons _ [(i, TOut out)] _ _ _ _ (ss_nil _)).
  apply (s_conn s5 i (TWrite out rrest) [TOut out]); [done|apply lookup_insert_eq|apply t_write].
Qed.

(** Requests for [n] words from word [a] on. *)
Definition read_request (h : FINSHeader) (code a n : Z) : FINSFrame := MkFINSFrame h 0x0101 0 (code :: be_bytes 2 a ++ 0 :: be_bytes 2 n).
Definition write_request (h : FINSHeader) (code a n : Z) (d : bytes) : FINSFrame :=
  MkFINSFrame h 0x0102 0 (code :: be_bytes 2 a ++ 0 :: be_bytes 2 n ++ d).

Definition read_answer (h : FINSHeader) (d : bytes) : FINSFrame := MkFINSFrame (response_header h) 0x0101 0 d.

Lemma two_bytes x : in_u 16 x -> exists b1 b2, be_bytes 2 x = [b1; b2] /\ be_val [b1; b2] = x.
Proof.
  intros Hx. pose proof (length_be_bytes 2 x) as Hl. pose proof (be_val_bytes 2 x Hx) as Hv.
  destruct (be_bytes 2 x) as [|b1 [|b2 [|]]]; try done. eauto.
Qed.

Lemma read_request_view m h code a n ar mx :
  in_u 16 a -> in_u 16 n -> read_area code = Some (ar, mx) -> a * 2 + n * 2 <= mx ->
  handleRequest_view m (read_request h code a n) = Ok (m, (read_answer h [], Some (MkView ar (a * 2) (n * 2)))).
Proof.
  intros Ha Hn Hr Hrange. unfold handleRequest_view, read_request. destruct (two_bytes a Ha) as (a1 & a2 & -> & Ea), (two_bytes n Hn) as (n1 & n2 & -> & En).
  change (decodeMemoryAddress [code; a1; a2; 0]) with (Ok (MkMemoryAddress code (be_val [a1; a2]) 0) : res error MemoryAddress).
  cbn [CommandCode Data Header]. change (0x0101 =? 0x0101) with true. cbn iota. cbn [app].
  change (sub [code; a1; a2; 0; n1; n2] 0 4) with (Ok [code; a1; a2; 0] : res error bytes).
  change (sub [code; a1; a2; 0; n1; n2] 4 6) with (Ok [n1; n2] : res error bytes). change (len _ <? 6) with false. cbn iota. cbn [mbind res_bind].
  change (decodeMemoryAddress [code; a1; a2; 0]) with (Ok (MkMemoryAddress code (be_val [a1; a2]) 0) : res error MemoryAddress). cbn [mbind res_bind].
  unfold readMemory_view. cbn [Area Address]. rewrite Ea, En, Hr, (proj2 (Z.ltb_ge _ _)) by lia. done.
Qed.

Lemma write_request_view m h code a n d ar mx :
  plc_ok m -> in_u 16 a -> in_u 16 n -> write_area code = inl (ar, mx) -> mx = words ar * 2 -> a * 2 + n * 2 <= mx ->
  exists f, handleRequest_view m (write_request h code a n d) =
    Ok (store m ar (copy_at (Z.to_nat (a * 2)) (take (Z.to_nat (n * 2)) d) (contents m ar)), (f, None)).
Proof.
  intros Hm Ha Hn Hr Hmx Hrange. unfold handleRequest_view, write_request. pose proof Ha as [Ha0 _]. pose proof Hn as [Hn0 _].
  destruct (two_bytes a Ha) as (a1 & a2 & -> & Ea), (two_bytes n Hn) as (n1 & n2 & -> & En).
  cbn [CommandCode Data Header]. change (0x0102 =? 0x0101) with false. change (0x0102 =? 0x0102) with true. cbn iota. cbn [app].
  pose proof (len_nonneg d). rewrite !len_cons, (proj2 (Z.ltb_ge _ _)) by lia.
  change (sub (code :: a1 :: a2 :: 0 :: n1 :: n2 :: d) 0 4) with (Ok [code; a1; a2; 0] : res error bytes). cbn [mbind res_bind].
  change (decodeMemoryAddress [code; a1; a2; 0]) with (Ok (MkMemoryAddress code (be_val [a1; a2]) 0) : res error MemoryAddress). cbn [mbind res_bind].
  change (sub (code :: a1 :: a2 :: 0 :: n1 :: n2 :: d) 4 6) with (Ok [n1; n2] : res error bytes). cbn [mbind res_bind].
  assert (sub_from (code :: a1 :: a2 :: 0 :: n1 :: n2 :: d) 6 = (Ok d : res error bytes)) as ->.
  { unfold sub_from. rewrite sub_ok by (cbn; lia). f_equal. cbn [drop]. rewrite take_ge; [apply drop_0|]. rewrite length_drop. cbn [length]. lia. }
  cbn [mbind res_bind]. unfold writeMemory. cbn [Area Address]. rewrite Ea, En, Hr, (proj2 (Z.ltb_ge _ _)) by lia.
  destruct (Hm ar) as [Hl _]. rewrite copy_slice_ok by lia. cbn [mbind res_bind fst snd]. replace (a * 2 + n * 2 - a * 2) with (n * 2) by lia. by eexists.
Qed.

(** The two switches agree on what can be written. *)
Lemma written_area code ar mx : write_area code = inl (ar, mx) -> read_area code = Some (ar, mx) /\ mx = words ar * 2.
Proof. unfold write_area, read_area. repeat (case_match; [by intros [= <- <-]|]). done. Qed.

(** C25: an answer of the command-line server can mix two states of its memory: when one
    connection is about to read words and another is about to write the same words
    with one request, there is a run in which the first is sent the bytes from before
    the write up to any point [k] and the bytes of the write from there on, although
    the answer is the former or the latter as a whole in either order of the two
    requests.  Any [k] assumes a copy that ascends byte by byte; one that moves whole machine
    words would cut at their boundaries only. *)
Theorem cmd_tcp_torn_read s i j h1 h2 code a n d rest1 rest2 ar mx k :
  t_crashed s = false -> plc_ok (t_mem s) -> i <> j ->
  t_conns s !! i = Some (THandle (read_request h1 code a n) rest1) ->
  t_conns s !! j = Some (THandle (write_request h2 code a n d) rest2) ->
  in_u 16 a -> in_u 16 n -> write_area code = inl (ar, mx) -> a * 2 + n * 2 <= mx -> len d = n * 2 -> (k <= length d)%nat ->
  exists old m f s2,
    handleRequest_view (t_mem s) (read_request h1 code a n) = Ok (t_mem s, (read_answer h1 [], Some (MkView ar (a * 2) (n * 2)))) /\
    view_bytes (t_mem s) (Some (MkView ar (a * 2) (n * 2))) = old /\
    handleRequest_view (t_mem s) (write_request h2 code a n d) = Ok (m, (f, None)) /\
    view_bytes m (Some (MkView ar (a * 2) (n * 2))) = d /\
    ssteps s [(i, TOut (encodeFINSTCPFrame (encodeFINSFrame (read_answer h1 (take k old ++ drop k d)))))] s2.
Proof.
  intros Hc Hm Hij Hi Hj Ha Hn Har Hr Hd Hk. destruct (written_area _ _ _ Har) as [Hra Hmx].
  pose proof Ha as [Ha0 _]. pose proof Hn as [Hn0 _]. destruct (Hm ar) as [Hl _]. unfold len in *.
  pose proof (read_request_view (t_mem s) h1 code a n ar mx Ha Hn Hra Hr) as Hrv.
  destruct (write_request_view (t_mem s) h2 code a n d ar mx Hm Ha Hn Har Hmx Hr) as [f Hwv]. rewrite take_ge in Hwv by lia.
  set (m := store _ _ _) in Hwv. set (v := MkView ar (a * 2) (n * 2)) in *. set (old := view_bytes (t_mem s) (Some v)).
  assert (view_bytes m (Some v) = d) as Hnew.
  { unfold m, v. cbn [view_bytes w_area w_off w_len]. rewrite contents_store, decide_True by done.
    rewrite <- Hd, Nat2Z.id. rewrite copy_at_eq by lia. rewrite drop_app_length' by (rewrite length_take; lia). by rewrite take_app_length'. }
  assert (length old = length d) as Hol.
  { unfold old, v. cbn [view_bytes w_area w_off w_len]. rewrite length_take, length_drop. lia. }
  exists old, m, f. destruct (torn_run s i j _ _ rest1 rest2 (read_answer h1 []) v m f (take k old) (drop k old) (take k d) (drop k d)
    Hc Hij Hi Hj Hrv Hwv) as [s2 Hs2].
  - by rewrite take_drop.
  - by rewrite take_drop.
  - rewrite !length_take. lia.
  - unfold len. rewrite length_app, length_take, length_drop. cbn [w_len v]. lia.
  - exists s2. by split_and!.
Qed.

(** ** Witness *)

Lemma ssteps_one s l s' : sstep s l s' -> ssteps s l s'.
Proof. intros H. rewrite <- (app_nil_r l). by eapply ss_cons; [|apply ss_nil]. Qed.

(** A new connection that sends one request. *)
Lemma connects s i chunk p :
  t_crashed s = false -> t_accepting s = true -> t_listening s = true -> t_conns s !! i = None ->
  chunk <> [] -> len chunk <= 4096 -> tparse chunk = Ok p ->
  ssteps s [(i, TIn chunk)] (t_with s (t_mem s) i p).
Proof.
  intros Hc Ha Hl Hi Hn Hlen Hp. refine (ss_cons _ [] _ _ _ (s_accept s i Hc Ha Hl Hi) _).
  refine (ssteps_app _ [_] (t_with s (t_mem s) i (TLoop chunk)) [] _ _ _); apply ssteps_one.
  - rewrite <- (t_with_twice s (t_mem s) i (TRead []) (t_mem s) (TLoop chunk)).
    apply (s_conn _ i (TRead []) [TIn chunk]); [done|apply lookup_insert_eq|]. by apply (t_recv _ []).
  - rewrite <- (t_with_twice s (t_mem s) i (TLoop chunk) (t_mem s) p).
    apply (s_conn _ i (TLoop chunk) []); [done|apply lookup_insert_eq|]. by apply t_parse.
Qed.

Definition sample_reader : FINSHeader := DefaultCommandHeader (MkFINSAddress 0 1 255) (MkFINSAddress 0 1 0) 8.
Definition sample_writer : FINSHeader := DefaultCommandHeader (MkFINSAddress 0 2 255) (MkFINSAddress 0 1 0) 9.

(** Two connections, each about to have its request handled. *)
Definition sample_race : tserver :=
  t_with (t_with (t_started NewPLCServer) NewPLCServer 0 (THandle (read_request sample_reader 0x82 100 2) []))
    NewPLCServer 1 (THandle (write_request sample_writer 0x82 100 2 [1; 2; 3; 4]) []).

Lemma sample_race_reached : exists tr, ssteps (t_started NewPLCServer) tr sample_race.
Proof.
  set (p0 := THandle (read_request sample_reader 0x82 100 2) []).
  assert (ssteps (t_started NewPLCServer) [(0%nat, TIn (encodeFINSTCPFrame (encodeFINSFrame (read_request sample_reader 0x82 100 2))))]
    (t_with (t_started NewPLCServer) NewPLCServer 0 p0)) as H1 by (apply connects; done || by vm_compute).
  assert (ssteps (t_with (t_started NewPLCServer) NewPLCServer 0 p0)
    [(1%nat, TIn (encodeFINSTCPFrame (encodeFINSFrame (write_request sample_writer 0x82 100 2 [1; 2; 3; 4]))))] sample_race) as H2.
  { apply (connects (t_with (t_started NewPLCServer) NewPLCServer 0 p0)); done || by vm_compute. }
  eexists. exact (ssteps_app _ _ _ _ _ H1 H2).
Qed.

Lemma cmd_tcp_torn_read_witness :
  exists tr old s2, ssteps (t_started NewPLCServer) tr sample_race /\
    ssteps sample_race [(0%nat, TOut (encodeFINSTCPFrame (encodeFINSFrame (read_answer sample_reader (take 2 old ++ [3; 4])))))] s2.
Proof.
  destruct sample_race_reached as [tr Htr].
  destruct (cmd_tcp_torn_read sample_race 0 1 sample_reader sample_writer 0x82 100 2 [1; 2; 3; 4] [] [] DM (MockDMWordSize * 2) 2)
    as (old & m & f & s2 & _ & _ & _ & _ & H); [reflexivity|apply NewMockPLC_ok|lia|reflexivity|reflexivity|by_decide|by_decide|reflexivity
    |vm_compute; congruence|reflexivity|cbn; lia|].
  exists tr, old, s2. split; [exact Htr|exact H].
Defined.
