(* ===== verification/CmdUdpServer.v ===== *)
(** * The command-line UDP server ([src/cmd/udp/server/main.go])

    A PLC with six byte slices, its own area and end codes and its own copy of the codec,
    which is that of [src/udp] but for the response header and the BCD
    encoder.  Writes to the socket are
    taken to succeed. *)
From S2P Require Import Prelude UdpConstants Udp UdpServer UdpClient.

(** The program's constants carry its prefix where [src/udp] has one of the same name
    and another value. *)
Definition cmd_DM_AREA_SIZE : Z := 32768.
Definition CIO_AREA_SIZE : Z := 6144.
Definition W_AREA_SIZE : Z := 512.
Definition H_AREA_SIZE : Z := 512.
Definition A_AREA_SIZE : Z := 512.
Definition BIT_DM_AREA_SIZE : Z := 32768.

Definition cmd_CommandCodeMemoryAreaRead : Z := 0x0101.
Definition cmd_CommandCodeMemoryAreaWrite : Z := 0x0102.
Definition cmd_CommandCodeClockRead : Z := 0x0701.

Definition cmd_EndCodeNormalCompletion : Z := 0x0000.
Definition cmd_EndCodeAddressRangeExceeded : Z := 0x0101.
Definition cmd_EndCodeNotSupportedByModelVersion : Z := 0x0103.
Definition cmd_EndCodeWriteNotPossibleReadOnly : Z := 0x0201.

Definition cmd_MemoryAreaDMWord : Z := 0x02.
Definition cmd_MemoryAreaDMBit : Z := 0x03.
Definition cmd_MemoryAreaCIOWord : Z := 0x30.
Definition cmd_MemoryAreaWRWord : Z := 0x31.
Definition cmd_MemoryAreaHRWord : Z := 0x32.
Definition cmd_MemoryAreaARWord : Z := 0x33.

(** ** State *)

Record PLCServer := MkPLCServer {
  dmArea : bytes; bitDmArea : bytes; cioArea : bytes; wArea : bytes; hArea : bytes; aArea : bytes }.

Definition NewPLCServer : PLCServer :=
  MkPLCServer (make_bytes (Z.to_nat cmd_DM_AREA_SIZE)) (make_bytes (Z.to_nat BIT_DM_AREA_SIZE))
    (make_bytes (Z.to_nat (CIO_AREA_SIZE * 2))) (make_bytes (Z.to_nat (W_AREA_SIZE * 2)))
    (make_bytes (Z.to_nat (H_AREA_SIZE * 2))) (make_bytes (Z.to_nat (A_AREA_SIZE * 2))).

Definition set_dmArea (s : PLCServer) (l : bytes) := MkPLCServer l (bitDmArea s) (cioArea s) (wArea s) (hArea s) (aArea s).
Definition set_bitDmArea (s : PLCServer) (l : bytes) := MkPLCServer (dmArea s) l (cioArea s) (wArea s) (hArea s) (aArea s).
Definition set_cioArea (s : PLCServer) (l : bytes) := MkPLCServer (dmArea s) (bitDmArea s) l (wArea s) (hArea s) (aArea s).
Definition set_wArea (s : PLCServer) (l : bytes) := MkPLCServer (dmArea s) (bitDmArea s) (cioArea s) l (hArea s) (aArea s).
Definition set_hArea (s : PLCServer) (l : bytes) := MkPLCServer (dmArea s) (bitDmArea s) (cioArea s) (wArea s) l (aArea s).

(** ** Codec *)

(** The gateway count of the request is kept. *)
Definition defaultResponseHeader (reqHeader : Header) : Header :=
  MkHeader MessageTypeResponse false (h_dst reqHeader) (h_src reqHeader) (serviceID reqHeader) (gatewayCount reqHeader).

(** The low half of an odd number's last byte is 0 and zero is [0x00]. *)
Definition encodeBCD (x : Z) : bytes :=
  if x =? 0 then [0x00] else
  let n := count_digits 20 x in
  let bcd := make_bytes ((n + 1) / 2) in
  if (n mod 2 =? 1)%nat then
    let bcd := <[((n - 1) / 2)%nat := nibbles (u8 (x mod 10)) 0x00]> bcd in
    fill_pairs ((n - 1) / 2) (x / 10) bcd
  else fill_pairs (n / 2) x bcd.

(** The rest of the codec has the text of [src/udp/driver.go]. *)
Definition cmd_icfBridgesBit : Z := 7.
Definition cmd_icfMessageTypeBit : Z := 6.
Definition cmd_icfResponseRequiredBit : Z := 0.

Definition cmd_decodeHeader (b : bytes) : res udp_error Header :=
  icf ← idx b 0;
  let responseRequired := u8 (Z.shiftl (Z.land icf 1) cmd_icfResponseRequiredBit) =? 0 in
  let messageType := if u8 (Z.shiftl (Z.land icf 1) cmd_icfMessageTypeBit) =? 0 then MessageTypeCommand else MessageTypeResponse in
  gatewayCount ← idx b 2;
  d0 ← idx b 3; d1 ← idx b 4; d2 ← idx b 5;
  s0 ← idx b 6; s1 ← idx b 7; s2 ← idx b 8;
  serviceID ← idx b 9;
  Ok (MkHeader messageType responseRequired (MkAddr s0 s1 s2) (MkAddr d0 d1 d2) serviceID gatewayCount).

Definition cmd_encodeHeader (h : Header) : bytes :=
  let icf := Z.shiftl 1 cmd_icfBridgesBit in
  let icf := if negb (responseRequired h) then Z.lor icf (Z.shiftl 1 cmd_icfResponseRequiredBit) else icf in
  let icf := if messageType h =? MessageTypeResponse then Z.lor icf (Z.shiftl 1 cmd_icfMessageTypeBit) else icf in
  [icf; 0x00; gatewayCount h; network (h_dst h); node (h_dst h); unit_ (h_dst h);
   network (h_src h); node (h_src h); unit_ (h_src h); serviceID h].

Definition cmd_decodeRequest (b : slice) : res udp_error request :=
  hb ← s_sub b 0 10; h ← cmd_decodeHeader hb;
  c ← s_sub b 10 12;
  d ← s_from b 12;
  Ok (MkRequest h (be_val c) d).

Definition cmd_decodeResponse (b : slice) : res udp_error response :=
  hb ← s_sub b 0 10; h ← cmd_decodeHeader hb;
  c ← s_sub b 10 12;
  e ← s_sub b 12 14;
  d ← s_from b 14;
  Ok (MkResponse h (be_val c) (be_val e) d).

Definition cmd_encodeResponse (resp : response) : bytes :=
  let b := make_bytes 4 in
  let b := copy_at 0 (be_bytes 2 (rs_commandCode resp)) b in
  let b := copy_at 2 (be_bytes 2 (rs_endCode resp)) b in
  let b := b ++ elems (rs_data resp) in
  cmd_encodeHeader (rs_header resp) ++ b.

Definition cmd_encodeMemoryAddress (m : memoryAddress) : bytes :=
  let b := make_bytes 4 in
  let b := copy_at 0 [memoryArea m] b in
  let b := copy_at 1 (be_bytes 2 (address m)) b in
  copy_at 3 [bitOffset m] b.

Definition cmd_decodeMemoryAddress (data : bytes) : res udp_error memoryAddress :=
  a ← idx data 0;
  w ← sub data 1 3;
  o ← idx data 3;
  Ok (MkMemoryAddress a (be_val w) o).

(** So the lemmas on that codec hold of this one. *)
Lemma cmd_decodeRequest_shared : cmd_decodeRequest = decodeRequest.
Proof. reflexivity. Qed.
Lemma cmd_decodeResponse_shared : cmd_decodeResponse = decodeResponse.
Proof. reflexivity. Qed.
Lemma cmd_encodeResponse_shared : cmd_encodeResponse = encodeResponse.
Proof. reflexivity. Qed.
Lemma cmd_encodeMemoryAddress_shared : cmd_encodeMemoryAddress = encodeMemoryAddress.
Proof. reflexivity. Qed.
Lemma cmd_decodeMemoryAddress_shared : cmd_decodeMemoryAddress = decodeMemoryAddress.
Proof. reflexivity. Qed.

Ltac shared_codec :=
  rewrite ?cmd_decodeRequest_shared, ?cmd_encodeResponse_shared, ?cmd_decodeMemoryAddress_shared in *.

(** ** Requests *)

(** A [case] of the read [switch] on a word area; arithmetic on [uint16]. *)
Definition read_words (area : bytes) (size a ic : Z) : res udp_error (Z * bytes) :=
  let end_ := u16 (a + u16 (ic * 2)) in
  if size <? end_ then Ok (cmd_EndCodeAddressRangeExceeded, []) else
  data ← zsub area a end_;
  Ok (cmd_EndCodeNormalCompletion, data).

Definition read_bits (area : bytes) (a bit ic : Z) : res udp_error (Z * bytes) :=
  if BIT_DM_AREA_SIZE <? u16 (a + ic) then Ok (cmd_EndCodeAddressRangeExceeded, []) else
  let start := u16 (a + bit) in
  data ← zsub area start (u16 (start + ic));
  Ok (cmd_EndCodeNormalCompletion, data).

(** A [case] of the write [switch]: the new slice, if one was written. *)
Definition write_words (area : bytes) (size a ic : Z) (d : slice) : res udp_error (Z * option bytes) :=
  let end_ := u16 (a + u16 (ic * 2)) in
  if size <? end_ then Ok (cmd_EndCodeAddressRangeExceeded, None) else
  src ← s_sub d 6 (u16 (6 + u16 (ic * 2)));
  l ← copy_slice a end_ src area;
  Ok (cmd_EndCodeNormalCompletion, Some l).

Definition write_bits (area : bytes) (a bit ic : Z) (d : slice) : res udp_error (Z * option bytes) :=
  if BIT_DM_AREA_SIZE <? u16 (a + ic) then Ok (cmd_EndCodeAddressRangeExceeded, None) else
  let start := u16 (a + bit) in
  src ← s_sub d 6 (u16 (6 + ic));
  l ← copy_slice start (u16 (start + ic)) src area;
  Ok (cmd_EndCodeNormalCompletion, Some l).

Definition read_area (s : PLCServer) (m : memoryAddress) (ic : Z) : res udp_error (Z * bytes) :=
  let area := memoryArea m in
  if area =? cmd_MemoryAreaDMWord then read_words (dmArea s) cmd_DM_AREA_SIZE (address m) ic else
  if area =? cmd_MemoryAreaDMBit then read_bits (bitDmArea s) (address m) (bitOffset m) ic else
  if area =? cmd_MemoryAreaCIOWord then read_words (cioArea s) (CIO_AREA_SIZE * 2) (address m) ic else
  if area =? cmd_MemoryAreaWRWord then read_words (wArea s) (W_AREA_SIZE * 2) (address m) ic else
  if area =? cmd_MemoryAreaHRWord then read_words (hArea s) (H_AREA_SIZE * 2) (address m) ic else
  if area =? cmd_MemoryAreaARWord then read_words (aArea s) (A_AREA_SIZE * 2) (address m) ic else
  Ok (cmd_EndCodeNotSupportedByModelVersion, []).

Definition stored (s : PLCServer) (put : PLCServer -> bytes -> PLCServer) (r : res udp_error (Z * option bytes))
    : res udp_error (PLCServer * Z) :=
  r ← r; Ok (match snd r with Some l => put s l | None => s end, fst r).

Definition write_area (s : PLCServer) (m : memoryAddress) (ic : Z) (d : slice) : res udp_error (PLCServer * Z) :=
  let area := memoryArea m in
  if area =? cmd_MemoryAreaDMWord then stored s set_dmArea (write_words (dmArea s) cmd_DM_AREA_SIZE (address m) ic d) else
  if area =? cmd_MemoryAreaDMBit then stored s set_bitDmArea (write_bits (bitDmArea s) (address m) (bitOffset m) ic d) else
  if area =? cmd_MemoryAreaCIOWord then stored s set_cioArea (write_words (cioArea s) (CIO_AREA_SIZE * 2) (address m) ic d) else
  if area =? cmd_MemoryAreaWRWord then stored s set_wArea (write_words (wArea s) (W_AREA_SIZE * 2) (address m) ic d) else
  if area =? cmd_MemoryAreaHRWord then stored s set_hArea (write_words (hArea s) (H_AREA_SIZE * 2) (address m) ic d) else
  if area =? cmd_MemoryAreaARWord then Ok (s, cmd_EndCodeWriteNotPossibleReadOnly) else
  Ok (s, cmd_EndCodeNotSupportedByModelVersion).

Definition handleRequest (s : PLCServer) (now : clock_time) (r : request) : res udp_error (PLCServer * response) :=
  let answer s endCode data :=
    Ok (s, MkResponse (defaultResponseHeader (rq_header r)) (rq_commandCode r) endCode (of_bytes data)) in
  if rq_commandCode r =? cmd_CommandCodeMemoryAreaRead then
    ma ← s_sub (rq_data r) 0 4; memAddr ← cmd_decodeMemoryAddress ma;
    icb ← s_sub (rq_data r) 4 6;
    res ← read_area s memAddr (be_val icb);
    answer s (fst res) (snd res)
  else if rq_commandCode r =? cmd_CommandCodeMemoryAreaWrite then
    ma ← s_sub (rq_data r) 0 4; memAddr ← cmd_decodeMemoryAddress ma;
    icb ← s_sub (rq_data r) 4 6;
    res ← write_area s memAddr (be_val icb) (rq_data r);
    answer (fst res) (snd res) []
  else if rq_commandCode r =? cmd_CommandCodeClockRead then
    let data := encodeBCD (u64 (Z.rem (Year now) 100)) in
    let data := data ++ encodeBCD (u64 (Month now)) in
    let data := data ++ encodeBCD (u64 (Day now)) in
    let data := data ++ encodeBCD (u64 (Hour now)) in
    let data := data ++ encodeBCD (u64 (Minute now)) in
    let data := data ++ encodeBCD (u64 (Second now)) in
    answer s cmd_EndCodeNormalCompletion data
  else answer s cmd_EndCodeNotSupportedByModelVersion [].

(** One round of [listenLoop]: the buffer has 4096 bytes and is never cleared. *)
Definition buf_size : nat := Z.to_nat 4096.

Definition listen_round (s : PLCServer) (buf : bytes) (now : clock_time) (datagram : bytes)
    : res udp_error (PLCServer * bytes * option bytes) :=
  let buf := copy_at 0 (take buf_size datagram) buf in
  let n := Nat.min buf_size (length datagram) in
  if (0 <? n)%nat then
    req ← cmd_decodeRequest (MkSlice buf n);
    r ← handleRequest s now req;
    let '(s, resp) := r in
    Ok (s, buf, Some (cmd_encodeResponse resp))
  else Ok (s, buf, None).

(** What [ReadFromUDP] returns: a datagram, or an error together with what [s.closed] is
    then. *)
Inductive udp_read := ReadDatagram (now : clock_time) (datagram : bytes) | ReadError (closed : bool).

(** [listenLoop] over the reads of the socket: the answers it sends, and whether it has
    returned. *)
Fixpoint listenLoop (s : PLCServer) (buf : bytes) (reads : list udp_read) : res udp_error (PLCServer * list bytes * bool) :=
  match reads with
  | [] => Ok (s, [], false)
  | ReadError closed :: reads => if closed then Ok (s, [], true) else listenLoop s buf reads
  | ReadDatagram now datagram :: reads =>
    r ← listen_round s buf now datagram;
    let '(s, buf, out) := r in
    r ← listenLoop s buf reads;
    let '(s, outs, returned) := r in Ok (s, option_list out ++ outs, returned)
  end.

(** ** Well-formed states *)

Definition area_ok (size : Z) (l : bytes) : Prop := len l = size /\ bytes_ok l.

Definition plc_server_ok (s : PLCServer) : Prop :=
  area_ok cmd_DM_AREA_SIZE (dmArea s) /\ area_ok BIT_DM_AREA_SIZE (bitDmArea s) /\ area_ok (CIO_AREA_SIZE * 2) (cioArea s) /\
  area_ok (W_AREA_SIZE * 2) (wArea s) /\ area_ok (H_AREA_SIZE * 2) (hArea s) /\ area_ok (A_AREA_SIZE * 2) (aArea s).

Definition rbuf_ok (buf : bytes) : Prop := length buf = buf_size /\ bytes_ok buf.

Lemma area_ok_new n : 0 <= n -> area_ok n (make_bytes (Z.to_nat n)).
Proof. intros. split; [|apply bytes_ok_make]. unfold len, make_bytes. rewrite length_replicate. lia. Qed.

Lemma NewPLCServer_ok : plc_server_ok NewPLCServer.
Proof. unfold plc_server_ok, NewPLCServer. cbn [dmArea bitDmArea cioArea wArea hArea aArea]. split_and!; apply area_ok_new; done. Qed.

Lemma written_ok size i j (src area l : bytes) :
  area_ok size area -> bytes_ok src -> copy_slice (E := udp_error) i j src area = Ok l -> area_ok size l.
Proof.
  intros [Hl Hb] Hs (-> & _ & _)%copy_slice_ok_inv. split; [|auto with fins]. unfold len in *. by rewrite length_copy_at.
Qed.

Lemma write_words_area size area sz a ic d e l :
  area_ok size area -> bytes_ok (s_arr d) -> write_words area sz a ic d = Ok (e, Some l) -> area_ok size l.
Proof.
  intros Ha Hd. unfold write_words. cbn zeta. destruct (_ <? _); [done|]. intros (src & Hsrc & H)%res_bind_Ok.
  apply res_bind_Ok in H as (l' & Hl & [= _ <-]). eapply written_ok; [done| |done].
  apply zsub_ok_inv in Hsrc as (_ & _ & ->). auto with fins.
Qed.

Lemma write_bits_area size area a bit ic d e l :
  area_ok size area -> bytes_ok (s_arr d) -> write_bits area a bit ic d = Ok (e, Some l) -> area_ok size l.
Proof.
  intros Ha Hd. unfold write_bits. destruct (_ <? _); [done|]. intros (src & Hsrc & H)%res_bind_Ok.
  apply res_bind_Ok in H as (l' & Hl & [= _ <-]). eapply written_ok; [done| |done].
  apply zsub_ok_inv in Hsrc as (_ & _ & ->). auto with fins.
Qed.

Lemma write_area_ok s m ic d s' e :
  plc_server_ok s -> bytes_ok (s_arr d) -> write_area s m ic d = Ok (s', e) -> plc_server_ok s'.
Proof.
  intros Hs Hd. unfold write_area, stored. cbn zeta.
  repeat (destruct (_ =? _); [first [by intros [= <- _]|intros ([e' [l|]] & Hw & [= <- _])%res_bind_Ok; cbn [snd]; [|done]]|]);
    [..|by intros [= <- _]];
    destruct Hs as (? & ? & ? & ? & ? & ?); unfold plc_server_ok; cbn [dmArea bitDmArea cioArea wArea hArea aArea set_dmArea set_bitDmArea set_cioArea set_wArea set_hArea];
    repeat match goal with |- _ /\ _ => split end;
    match goal with
    | H : area_ok _ ?l |- area_ok _ ?l => exact H
    | H : write_words ?l _ _ _ _ = Ok (_, Some ?k), H' : area_ok _ ?l |- area_ok _ ?k => exact (write_words_area _ _ _ _ _ _ _ _ H' Hd H)
    | H : write_bits ?l _ _ _ _ = Ok (_, Some ?k), H' : area_ok _ ?l |- area_ok _ ?k => exact (write_bits_area _ _ _ _ _ _ _ _ H' Hd H)
    end.
Qed.

Lemma handleRequest_ok s now r s' resp :
  plc_server_ok s -> bytes_ok (s_arr (rq_data r)) -> handleRequest s now r = Ok (s', resp) -> plc_server_ok s'.
Proof.
  intros Hs Hd. unfold handleRequest; shared_codec. cbn zeta. destruct (_ =? _); [|destruct (_ =? _); [|by destruct (_ =? _); intros [= <- _]]].
  all: intros (ma & _ & H)%res_bind_Ok; apply res_bind_Ok in H as (m & _ & H); apply res_bind_Ok in H as (icb & _ & H).
  all: apply res_bind_Ok in H as ([x y] & H & [= <- _]).
  - done.
  - exact (write_area_ok _ _ _ _ _ _ Hs Hd H).
Qed.

Lemma nonempty_read (cap n : nat) : (0 < cap)%nat -> (0 < n)%nat -> (0 <? Nat.min cap n)%nat = true.
Proof. intros. apply Nat.ltb_lt. lia. Qed.

Lemma listen_round_ok s buf now d s' buf' out :
  plc_server_ok s -> rbuf_ok buf -> bytes_ok d -> listen_round s buf now d = Ok (s', buf', out) ->
  plc_server_ok s' /\ rbuf_ok buf' /\ (out = None <-> d = []).
Proof.
  intros Hs [Hbl Hb] Hd. unfold listen_round; shared_codec.
  assert (rbuf_ok (copy_at 0 (take buf_size d) buf)) as Hbuf.
  { split; [by rewrite length_copy_at|]. auto with fins. }
  destruct d as [|x d]; cbn [length].
  { rewrite Nat.min_0_r. cbn [Nat.ltb Nat.leb]. by intros [= <- <- <-]. }
  intros H0. destruct (0 <? Nat.min buf_size _)%nat eqn:En; [revert H0|exfalso; revert En; apply not_false_iff_true, nonempty_read; unfold buf_size; lia].
  intros (req & Hreq & H)%res_bind_Ok. apply res_bind_Ok in H as ([s1 resp] & Hh & [= <- <- <-]).
  split; [|split; [exact Hbuf|split; discriminate]]. eapply handleRequest_ok; [exact Hs| |exact Hh].
  rewrite (decodeRequest_data _ _ Hreq). apply bytes_ok_drop, Hbuf.
Qed.

(** The datagrams read before the loop returns. *)
Fixpoint datagrams (reads : list udp_read) : list bytes :=
  match reads with
  | [] | ReadError true :: _ => []
  | ReadError false :: reads => datagrams reads
  | ReadDatagram _ d :: reads => d :: datagrams reads
  end.

(** The loop keeps the state well formed, answers each datagram that is not empty, and
    returns only after [Close]. *)
Lemma listenLoop_ok reads : forall s buf s' outs returned,
  plc_server_ok s -> rbuf_ok buf -> Forall bytes_ok (datagrams reads) -> listenLoop s buf reads = Ok (s', outs, returned) ->
  plc_server_ok s' /\ length outs = length (filter (fun d => d <> []) (datagrams reads)) /\
  (returned = true <-> In (ReadError true) reads).
Proof.
  induction reads as [|[now d|[]] reads IH]; intros s buf s' outs ret Hs Hb Hd; cbn [listenLoop datagrams] in *.
  - intros [= <- <- <-]. by split_and!.
  - inversion Hd as [|? ? Hd1 Hd2]; subst. intros ([[s1 buf1] out] & Hr & H)%res_bind_Ok.
    apply res_bind_Ok in H as ([[s2 outs2] ret2] & Hl & [= <- <- <-]).
    destruct (listen_round_ok _ _ _ _ _ _ _ Hs Hb Hd1 Hr) as (Hs1 & Hb1 & Ho).
    destruct (IH _ _ _ _ _ Hs1 Hb1 Hd2 Hl) as (Hs2 & Hn & Hret). split; [done|]. rewrite length_app, Hn. split.
    + destruct out as [b|].
      * rewrite filter_cons_True; [done|]. intros E. by apply Ho in E.
      * rewrite filter_cons_False; [done|]. intros E. by apply E, Ho.
    + rewrite Hret. cbn. split; [by right|]. by intros [?|?].
  - intros [= <- <- <-]. split_and!; try done. cbn. split; [by left|done].
  - intros H. destruct (IH _ _ _ _ _ Hs Hb Hd H) as (? & ? & Hret). split_and!; try done. rewrite Hret. cbn. split; [by right|]. by intros [?|?].
Qed.

(** A datagram with a header and a command reaches the handler. *)
Lemma listen_command s (buf : bytes) now h c (payload : bytes) :
  rbuf_ok buf -> in_u 16 c -> (12 + length payload <= buf_size)%nat ->
  listen_round s buf now (encodeHeader h ++ be_bytes 2 c ++ payload) =
  (r ← handleRequest s now (MkRequest (MkHeader (decoded_type h) (responseRequired h) (h_src h) (h_dst h) (serviceID h) (gatewayCount h)) c
                        (MkSlice (payload ++ drop (12 + length payload) buf) (length payload)));
   let '(s', resp) := r in
   Ok (s', (encodeHeader h ++ be_bytes 2 c ++ payload) ++ drop (12 + length payload) buf, Some (encodeResponse resp))).
Proof.
  intros [Hb _] Hc Hl. unfold listen_round; shared_codec.
  assert (length (encodeHeader h ++ be_bytes 2 c ++ payload) = 12 + length payload)%nat as Hd.
  { rewrite !length_app, length_be_bytes. change (length (encodeHeader h)) with 10%nat. lia. }
  rewrite take_ge, copy_at_datagram, Hd, Nat.min_r, (proj2 (Nat.ltb_lt 0 _)) by lia.
  rewrite decodeRequest_eq by done. done.
Qed.

(** The memory commands, as datagrams. *)
Lemma listen_read s buf now h m n :
  rbuf_ok buf -> memoryAddress_ok m -> in_u 16 n ->
  listen_round s buf now (encodeHeader h ++ readCommand m n) =
  (r ← read_area s m n;
   Ok (s, (encodeHeader h ++ readCommand m n) ++ drop 18 buf,
       Some (encodeResponse (MkResponse (defaultResponseHeader h) CommandCodeMemoryAreaRead (fst r) (of_bytes (snd r)))))).
Proof.
  intros Hb Hm Hn. rewrite readCommand_eq.
  replace (encodeMemoryAddress m ++ be_bytes 2 n) with (encodeMemoryAddress m ++ be_bytes 2 n ++ []) by (by rewrite app_nil_r).
  rewrite listen_command; [|done|by_decide|rewrite !length_app, length_be_bytes; unfold buf_size; cbn [length]; change (length (encodeMemoryAddress m)) with 4%nat; lia].
  replace (length (encodeMemoryAddress m ++ be_bytes 2 n ++ [])) with 6%nat by (by rewrite !length_app, length_be_bytes).
  destruct (access_parts m n [] (drop (12 + 6) buf) Hm Hn) as (E1 & E2 & _).
  unfold handleRequest; shared_codec. cbn [rq_commandCode rq_data rq_header].
  change (CommandCodeMemoryAreaRead =? cmd_CommandCodeMemoryAreaRead) with true. cbn iota.
  change (6 + length (@nil Z))%nat with 6%nat in E1, E2.
  rewrite E1, E2. cbn [mbind res_bind]. rewrite decode_encode_address by done. cbn [mbind res_bind]. rewrite be_val_bytes by done.
  destruct (read_area s m n) as [[e d]| |]; done.
Qed.

Lemma listen_write s buf now h m n b :
  rbuf_ok buf -> memoryAddress_ok m -> in_u 16 n -> (18 + length b <= buf_size)%nat ->
  listen_round s buf now (encodeHeader h ++ writeCommand m n b) =
  (r ← write_area s m n (MkSlice ((encodeMemoryAddress m ++ be_bytes 2 n ++ b) ++ drop (18 + length b) buf) (6 + length b));
   Ok (fst r, (encodeHeader h ++ writeCommand m n b) ++ drop (18 + length b) buf,
       Some (encodeResponse (MkResponse (defaultResponseHeader h) CommandCodeMemoryAreaWrite (snd r) (of_bytes []))))).
Proof.
  intros Hb Hm Hn Hl. rewrite writeCommand_eq.
  assert (length (encodeMemoryAddress m ++ be_bytes 2 n ++ b) = 6 + length b)%nat as Hlen.
  { rewrite !length_app, length_be_bytes. change (length (encodeMemoryAddress m)) with 4%nat. lia. }
  rewrite listen_command; [|done|by_decide|rewrite Hlen; lia]. rewrite Hlen.
  change (12 + (6 + length b))%nat with (18 + length b)%nat.
  destruct (access_parts m n b (drop (18 + length b) buf) Hm Hn) as (E1 & E2 & _).
  unfold handleRequest; shared_codec. cbn [rq_commandCode rq_data rq_header].
  change (CommandCodeMemoryAreaWrite =? cmd_CommandCodeMemoryAreaRead) with false.
  change (CommandCodeMemoryAreaWrite =? cmd_CommandCodeMemoryAreaWrite) with true. cbn iota.
  rewrite E1, E2. cbn [mbind res_bind]. rewrite decode_encode_address by done. cbn [mbind res_bind]. rewrite be_val_bytes by done.
  destruct (write_area _ _ _ _) as [[s' e]| |]; done.
Qed.

(** ** The UDP client against this server *)

Record cmd_sim := MkCmdSim { cs_server : PLCServer; cs_buf : bytes; cs_clock : clock_time }.

Definition cmd_net (w : cmd_sim) (d : bytes) : cmd_sim * delivery :=
  match listen_round (cs_server w) (cs_buf w) (cs_clock w) d with
  | Ok (s, buf, Some out) => (MkCmdSim s buf (cs_clock w), Answer out)
  | Ok (s, buf, None) => (MkCmdSim s buf (cs_clock w), NoAnswer)
  | _ => (w, NoAnswer)
  end.

Definition cmd_sim_ok (w : cmd_sim) : Prop := plc_server_ok (cs_server w) /\ rbuf_ok (cs_buf w).

Lemma cmd_send c w cmd s' buf' e data code :
  listen_round (cs_server w) (cs_buf w) (cs_clock w) (encodeHeader (snd (nextHeader c)) ++ cmd) =
    Ok (s', buf', Some (encodeResponse (MkResponse (defaultResponseHeader (snd (nextHeader c))) code e (of_bytes data)))) ->
  in_u 16 e -> in_u 16 code -> (14 + length data <= 2048)%nat ->
  exists h, sendCommand cmd_net (c, w) cmd =
    ((incrementSid c, MkCmdSim s' buf' (cs_clock w)),
     Ok (MkResponse h code e (MkSlice (data ++ make_bytes (2034 - length data)) (length data)))).
Proof. intros Hs He Hcode Hl. eexists. eapply send_answered; [unfold cmd_net; by rewrite Hs|done..]. Qed.

(** The four word codes of the client are none of the server's. *)
Lemma client_word_codes s area a n d :
  checkIsWordMemoryArea area = true ->
  in_u 8 area /\ read_area s (memAddr area a) n = Ok (cmd_EndCodeNotSupportedByModelVersion, []) /\
  write_area s (memAddr area a) n d = Ok (s, cmd_EndCodeNotSupportedByModelVersion).
Proof.
  unfold checkIsWordMemoryArea. destruct (area =? MemoryAreaDMWord) eqn:E1; [|destruct (area =? MemoryAreaARWord) eqn:E2;
    [|destruct (area =? MemoryAreaHRWord) eqn:E3; [|destruct (area =? MemoryAreaWRWord) eqn:E4; [|done]]]];
    zbool; subst area; (split; [by_decide|done]).
Qed.

(** C36: the UDP client cannot use words of this server: every word area the client accepts
    has a code the server does not know, so reads and writes of words are answered, leave the
    memory as it was and fail with the end code 0x0103, which the client's table
    calls failed retries. *)
Theorem cmd_udp_rejects_words order c w area a n ws :
  client_ok c -> cmd_sim_ok w -> checkIsWordMemoryArea area = true -> in_u 16 a -> in_u 16 n -> len ws <= 2039 ->
  (exists buf', ReadWords (sendCommand cmd_net) order (c, w) area a n =
     ((incrementSid c, MkCmdSim (cs_server w) buf' (cs_clock w)), Err (EndCodeError EndCodeRetriesFailed))) /\
  (exists buf', WriteWords (sendCommand cmd_net) order (c, w) area a ws =
     ((incrementSid c, MkCmdSim (cs_server w) buf' (cs_clock w)), Err (EndCodeError EndCodeRetriesFailed))).
Proof.
  intros Hc [Hs Hb] Harea Ha Hn Hws. pose proof (len_nonneg ws).
  destruct (client_word_codes (cs_server w) area a n (of_bytes []) Harea) as (H8 & _ & _).
  assert (memoryAddress_ok (memAddr area a)) as Hm by (split_and!; done). split.
  - destruct (client_word_codes (cs_server w) area a n (of_bytes []) Harea) as (_ & Hr & _).
    unfold ReadWords. rewrite Harea. cbn [negb].
    pose proof (listen_read (cs_server w) (cs_buf w) (cs_clock w) (snd (nextHeader c)) _ n Hb Hm Hn) as Hl.
    rewrite Hr in Hl. cbn [mbind res_bind fst snd] in Hl.
    destruct (cmd_send _ _ _ _ _ _ _ _ Hl) as [h Hsend]; [by_decide|by_decide|cbn; lia|].
    eexists. unfold command. rewrite Hsend. reflexivity.
  - unfold WriteWords. rewrite Harea. cbn [negb]. rewrite (uwrap_id 16 (len ws)), (uwrap_id 16 (2 * len ws)) by (unfold in_u; lia).
    rewrite take_ge by (unfold len; lia).
    pose proof (put_words_eq order ws [] (make_bytes (Z.to_nat (2 * len ws)))) as Hput. cbn [app] in Hput.
    change (len (@nil Z) / 2) with 0 in Hput.
    rewrite Hput; [|unfold make_bytes; rewrite length_replicate; unfold len; lia|done].
    set (b := wire_words order ws). assert (length b = 2 * length ws)%nat as Hbl by apply length_wire_words.
    pose proof (listen_write (cs_server w) (cs_buf w) (cs_clock w) (snd (nextHeader c)) _ (len ws) b Hb Hm
      ltac:(unfold in_u; lia) ltac:(unfold buf_size, len in *; lia)) as Hl.
    set (d := MkSlice _ _) in Hl.
    destruct (client_word_codes (cs_server w) area a (len ws) d Harea) as (_ & _ & Hwr). rewrite Hwr in Hl.
    cbn [mbind res_bind fst snd] in Hl.
    destruct (cmd_send _ _ _ _ _ _ _ _ Hl) as [h Hsend]; [by_decide|by_decide|cbn; lia|].
    eexists. unfold command. rewrite Hsend. reflexivity.
Qed.

(** A bit write of the client overwrites words: the client's code of the DM bits is the
    server's code of the DM words, so setting a bit stores, at the address taken as a byte offset, the byte 1
    and behind it whatever byte an earlier datagram left in the receive buffer; the bit
    number plays no part and the bit area stays as it was. *)
Theorem cmd_udp_bit_clobbers c w a off :
  client_ok c -> cmd_sim_ok w -> 0 <= a <= cmd_DM_AREA_SIZE - 2 -> in_u 8 off ->
  exists stale buf', cs_buf w !! 19%nat = Some stale /\
    SetBit (sendCommand cmd_net) (c, w) MemoryAreaDMBit a off =
    ((incrementSid c,
      MkCmdSim (set_dmArea (cs_server w) (copy_at (Z.to_nat a) [0x01; stale] (dmArea (cs_server w)))) buf' (cs_clock w)), Ok tt).
Proof.
  intros Hc [Hs Hb] Ha Hoff. unfold cmd_DM_AREA_SIZE in Ha. destruct Hs as [[Hdm _] _].
  destruct (lookup_lt_is_Some_2 (cs_buf w) 19) as [stale Hst]; [destruct Hb as [-> _]; unfold buf_size; lia|].
  assert (memoryAddress_ok (MkMemoryAddress MemoryAreaDMBit a off)) as Hm.
  { unfold memoryAddress_ok, in_u, MemoryAreaDMBit in *. cbn. lia. }
  pose proof (listen_write (cs_server w) (cs_buf w) (cs_clock w) (snd (nextHeader c)) _ 1 [0x01] Hb Hm
    ltac:(by_decide) ltac:(unfold buf_size; cbn [length]; lia)) as Hl.
  cbn [length Nat.add] in Hl.
  assert (exists rest, drop 19 (cs_buf w) = stale :: rest) as [rest Hrest].
  { exists (drop 20 (cs_buf w)). by apply drop_S. }
  destruct (access_parts (MkMemoryAddress MemoryAreaDMBit a off) 1 [0x01] (drop 19 (cs_buf w)) Hm ltac:(by_decide)) as (_ & _ & E).
  specialize (E 2 ltac:(lia)). rewrite Hrest in E, Hl. rewrite !len_cons, len_nil in E. pose proof (len_nonneg rest).
  cbn [length Nat.add] in E. specialize (E ltac:(lia)). change (take (Z.to_nat 2) _) with [0x01; stale] in E. change (6 + 2) with 8 in E.
  unfold write_area in Hl. cbn [memoryArea address] in Hl.
  change (MemoryAreaDMBit =? cmd_MemoryAreaDMWord) with true in Hl. cbn iota in Hl.
  unfold stored, write_words in Hl. change (u16 (1 * 2)) with 2 in Hl. change (u16 (6 + 2)) with 8 in Hl.
  rewrite (uwrap_id 16 (a + 2)) in Hl by (unfold in_u; lia). unfold cmd_DM_AREA_SIZE in *.
  rewrite (proj2 (Z.ltb_ge 32768 _)) in Hl by lia. rewrite E in Hl. cbn [mbind res_bind] in Hl.
  unfold copy_slice in Hl. rewrite (proj2 (Z.leb_le 0 a)), (proj2 (Z.leb_le a _)), (proj2 (Z.leb_le _ (len _))) in Hl by lia.
  cbn [andb] in Hl. replace (Z.to_nat (a + 2 - a)) with 2%nat in Hl by lia. cbn [take firstn mbind res_bind fst snd] in Hl.
  destruct (cmd_send _ _ _ _ _ _ _ _ Hl) as [h Hsend]; [by_decide|by_decide|cbn; lia|].
  exists stale. eexists. split; [done|]. unfold SetBit, bitTwiddle, command.
  change (negb (checkIsBitMemoryArea MemoryAreaDMBit)) with false. cbn iota. rewrite Hsend. reflexivity.
Qed.

(** One byte of the server's BCD, as the client reads it. *)
Definition misread (x : Z) : Z := if x <? 10 then 10 * x else x.

Lemma cmd_bcd_byte x : 0 <= x < 100 -> exists b, encodeBCD x = [b] /\ decodeBCD [b] = Ok (misread x).
Proof.
  intros Hx.
  assert (forallb (fun x => match encodeBCD x with
    | [b] => match decodeBCD [b] with Ok y => y =? misread x | _ => false end
    | _ => false
    end) (seqZ 0 100) = true) as H by (vm_compute; reflexivity).
  rewrite forallb_forall in H. specialize (H x (in_range_In 0 100 x ltac:(lia))). cbn beta in H.
  destruct (encodeBCD x) as [|b [|]]; [done| |done]. exists b. split; [done|].
  destruct (decodeBCD [b]); [|done..]. by zbool; subst.
Qed.

(** The clock is misread: every part of the date and time of one digit reaches the
    client ten times as large, since the server fills the missing digit with 0 where the
    client expects 0xF; the parts of two digits arrive as they are. *)
Theorem cmd_udp_clock c w :
  client_ok c -> cmd_sim_ok w -> clock_ok (cs_clock w) ->
  let t := cs_clock w in
  exists cw', ReadClock (sendCommand cmd_net) (c, w) =
    (cw', Ok (MkClock (full_year (misread (Year t mod 100))) (misread (Month t)) (misread (Day t))
                (misread (Hour t)) (misread (Minute t)) (misread (Second t)))).
Proof.
  intros Hc [Hs Hb] (Hy & Hmo & Hd & Hh & Hmi & Hse) t. subst t. destruct w as [s buf [year month day hour minute second]].
  cbn [cs_clock cs_server cs_buf Year Month Day Hour Minute Second] in *.
  assert (0 <= Z.rem year 100 < 100) as Hy2 by (rewrite Z.rem_mod_nonneg by lia; zdm).
  destruct (cmd_bcd_byte (Z.rem year 100)) as (b0 & E0 & D0); [done|]. destruct (cmd_bcd_byte month) as (b1 & E1 & D1); [lia|].
  destruct (cmd_bcd_byte day) as (b2 & E2 & D2); [lia|]. destruct (cmd_bcd_byte hour) as (b3 & E3 & D3); [lia|].
  destruct (cmd_bcd_byte minute) as (b4 & E4 & D4); [lia|]. destruct (cmd_bcd_byte second) as (b5 & E5 & D5); [lia|].
  pose proof (listen_command s buf (MkClock year month day hour minute second) (snd (nextHeader c)) CommandCodeClockRead []
    Hb ltac:(by_decide) ltac:(unfold buf_size; cbn [length]; lia)) as Hsv.
  unfold handleRequest in Hsv; shared_codec. cbn [rq_commandCode rq_header] in Hsv.
  change (CommandCodeClockRead =? cmd_CommandCodeMemoryAreaRead) with false in Hsv.
  change (CommandCodeClockRead =? cmd_CommandCodeMemoryAreaWrite) with false in Hsv.
  change (CommandCodeClockRead =? cmd_CommandCodeClockRead) with true in Hsv.
  cbn [Year Month Day Hour Minute Second] in Hsv. cbn zeta iota in Hsv.
  rewrite !(uwrap_id 64) in Hsv by (unfold in_u; lia). rewrite E0, E1, E2, E3, E4, E5 in Hsv. cbn [app mbind res_bind] in Hsv.
  destruct (cmd_send c (MkCmdSim s buf (MkClock year month day hour minute second)) clockReadCommand _ _ EndCodeNormalCompletion
    [b0; b1; b2; b3; b4; b5] CommandCodeClockRead Hsv) as [h Hsend]; [by_decide|by_decide|cbn; lia|].
  eexists. rewrite (read_clock_answer _ _ _ _ _ _ _ b0 b1 b2 b3 b4 b5 _ _ _ _ _ _ Hsend D0 D1 D2 D3 D4 D5).
  by rewrite Z.rem_mod_nonneg by lia.
Qed.

(** No datagram the server survives corrupts its state: the six areas keep their
    sizes and hold bytes, the receive buffer keeps its size, and every datagram that
    is not empty is answered. *)
Theorem cmd_udp_state s buf now d s' buf' out :
  plc_server_ok s -> rbuf_ok buf -> bytes_ok d -> listen_round s buf now d = Ok (s', buf', out) ->
  plc_server_ok s' /\ rbuf_ok buf' /\ (out = None <-> d = []).
Proof. apply listen_round_ok. Qed.

(** ** Witnesses *)

Definition sample_cmd_sim : cmd_sim := MkCmdSim NewPLCServer (make_bytes buf_size) sample_clock.

Lemma sample_cmd_sim_ok : cmd_sim_ok sample_cmd_sim.
Proof.
  split; [apply NewPLCServer_ok|]. split; [|apply bytes_ok_make].
  cbn [cs_buf sample_cmd_sim]. unfold make_bytes. by rewrite length_replicate.
Qed.

Lemma cmd_udp_rejects_words_witness :
  exists buf', ReadWords (sendCommand cmd_net) BigEndian (sample_client, sample_cmd_sim) MemoryAreaDMWord 100 1 =
    ((incrementSid sample_client, MkCmdSim NewPLCServer buf' sample_clock), Err (EndCodeError 0x0103)).
Proof.
  exact (proj1 (cmd_udp_rejects_words BigEndian sample_client sample_cmd_sim MemoryAreaDMWord 100 1 []
    sample_client_ok sample_cmd_sim_ok eq_refl ltac:(by_decide) ltac:(by_decide) ltac:(by_decide))).
Defined.

Lemma cmd_udp_bit_clobbers_witness :
  exists stale buf', make_bytes buf_size !! 19%nat = Some stale /\
    SetBit (sendCommand cmd_net) (sample_client, sample_cmd_sim) MemoryAreaDMBit 100 3 =
    ((incrementSid sample_client,
      MkCmdSim (set_dmArea NewPLCServer (copy_at (Z.to_nat 100) [0x01; stale] (dmArea NewPLCServer))) buf' sample_clock), Ok tt).
Proof.
  exact (cmd_udp_bit_clobbers sample_client sample_cmd_sim 100 3 sample_client_ok sample_cmd_sim_ok
    ltac:(by_decide) ltac:(by_decide)).
Defined.

(** 29 February 2024, 23:05:00 is read as day 29 of month 20, 23:50:00. *)
Lemma cmd_udp_clock_witness :
  exists cw', ReadClock (sendCommand cmd_net) (sample_client, sample_cmd_sim) = (cw', Ok (MkClock 2024 20 29 23 50 0)).
Proof.
  refine (cmd_udp_clock sample_client sample_cmd_sim sample_client_ok sample_cmd_sim_ok _).
  unfold clock_ok. cbn. lia.
Defined.

Lemma cmd_udp_state_witness :
  exists s' buf' (out : option bytes), plc_server_ok s' /\ rbuf_ok buf' /\ out <> None.
Proof.
  assert (exists buf' out, listen_round NewPLCServer (make_bytes buf_size) sample_clock (encodeHeader sample_header ++ clockReadCommand)
    = Ok (NewPLCServer, buf', Some out)) as (buf' & out & E).
  { change clockReadCommand with (be_bytes 2 CommandCodeClockRead ++ []).
    rewrite listen_command; [by do 2 eexists|apply sample_cmd_sim_ok|by_decide|unfold buf_size; cbn; lia]. }
  assert (bytes_ok (encodeHeader sample_header ++ clockReadCommand)) as Hd by by_decide.
  destruct (cmd_udp_state _ _ _ _ _ _ _ NewPLCServer_ok (proj2 sample_cmd_sim_ok) Hd E) as (H1 & H2 & H3).
  exists NewPLCServer, buf', (Some out). split; [exact H1|split; [exact H2|discriminate]].
Defined.
