(* ===== verification/Suite.v ===== *)
(** * Test programs ([src/cmd/tcp/client/main.go], [src/cmd/udp/client/main.go])

    What the two command-line clients have in common: functions that use a connection
    and return an [error], run one after the other and counted.  A test is a state
    and error computation; the triples below are of total correctness. *)
From S2P Require Import Prelude.

(** ** Computations *)

Definition test (S E A : Type) : Type := S -> S * res E A.

Section tests.
Context {S E : Type}.

#[global] Instance test_ret : MRet (test S E) := fun A a s => (s, Ok a).
#[global] Instance test_bind : MBind (test S E) := fun A B k m s =>
  match m s with
  | (s, Ok a) => k a s
  | (s, Err e) => (s, Err e)
  | (s, Panic) => (s, Panic)
  end.

(** A check that does not use the connection. *)
Definition check {A} (r : res E A) : test S E A := fun s => (s, r).

(** A call of the library whose error is wrapped by [fmt.Errorf]. *)
Definition lib_call {E' A} (wrap : E' -> E) (f : S -> S * res E' A) : test S E A := fun s =>
  let '(s, r) := f s in
  (s, match r with Ok a => Ok a | Err e => Err (wrap e) | Panic => Panic end).

(** ** Running the tests *)

(** The loop over [testCases] with [passCount] and [failCount]; [None] when a test
    panics. *)
Fixpoint run_tests (testCases : list (string * test S E unit)) (passCount failCount : Z) (s : S) : S * option (Z * Z) :=
  match testCases with
  | [] => (s, Some (passCount, failCount))
  | (_, fn) :: testCases =>
    match fn s with
    | (s, Ok _) => run_tests testCases (passCount + 1) failCount s
    | (s, Err _) => run_tests testCases passCount (failCount + 1) s
    | (s, Panic) => (s, None)
    end
  end.

(** ** Triples *)

Implicit Types P : S -> Prop.

(** From a state in [P] the computation returns a value, with [Q] for the value and
    the state. *)
Definition triple {A} P (m : test S E A) (Q : A -> S -> Prop) : Prop :=
  forall s, P s -> exists s' a, m s = (s', Ok a) /\ Q a s'.

Lemma triple_ret {A} P (a : A) : triple P (mret a) (fun x s => x = a /\ P s).
Proof. intros s Hs. by exists s, a. Qed.

Lemma triple_bind {A B} P (m : test S E A) Q (k : A -> test S E B) R :
  triple P m Q -> (forall a, triple (Q a) (k a) R) -> triple P (m ≫= k) R.
Proof.
  intros Hm Hk s Hs. destruct (Hm s Hs) as (s1 & a & E1 & HQ). destruct (Hk a s1 HQ) as (s2 & b & E2 & HR).
  exists s2, b. unfold mbind, test_bind. by rewrite E1.
Qed.

Lemma triple_conseq {A} P P' (m : test S E A) (Q Q' : A -> S -> Prop) :
  triple P m Q -> (forall s, P' s -> P s) -> (forall a s, Q a s -> Q' a s) -> triple P' m Q'.
Proof. intros Hm HP HQ s Hs. destruct (Hm s (HP s Hs)) as (s' & a & E1 & Hq). exists s', a. auto. Qed.

Lemma triple_check {A} P (r : res E A) a : r = Ok a -> triple P (check r) (fun x s => x = a /\ P s).
Proof. intros -> s Hs. by exists s, a. Qed.

(** A test that passes and keeps the state usable. *)
Definition passes P (fn : test S E unit) : Prop := triple P fn (fun _ => P).

Lemma passes_ret P : passes P (mret tt).
Proof. intros s Hs. by exists s, tt. Qed.

(** Tests that keep an invariant and pass from every state in it all pass. *)
Lemma run_tests_passes P testCases : Forall (fun tc => passes P (snd tc)) testCases ->
  forall passCount failCount s, P s ->
  exists s', run_tests testCases passCount failCount s = (s', Some (passCount + len testCases, failCount)) /\ P s'.
Proof.
  induction 1 as [|[name fn] l Hfn _ IH]; intros pc fc s Hs; cbn [run_tests].
  - exists s. rewrite len_nil, Z.add_0_r. done.
  - destruct (Hfn s Hs) as (s1 & [] & E1 & Hs1). cbn [snd] in E1. rewrite E1.
    destruct (IH (pc + 1) fc s1 Hs1) as (s2 & -> & Hs2). exists s2. split; [|done]. rewrite len_cons. do 3 f_equal. lia.
Qed.

(** Every test that ran is counted once. *)
Lemma run_tests_total testCases : forall passCount failCount s s' p f,
  run_tests testCases passCount failCount s = (s', Some (p, f)) ->
  p + f = passCount + failCount + len testCases /\ passCount <= p /\ failCount <= f.
Proof.
  induction testCases as [|[name fn] l IH]; intros pc fc s s' p f; cbn [run_tests].
  - intros [= <- <- <-]. rewrite len_nil. lia.
  - destruct (fn s) as [s1 [[]| |]]; [intros H%IH..|done]; rewrite len_cons; lia.
Qed.
End tests.
