(* ===== verification/CmdTcpClient.v ===== *)
(** * The command-line TCP client ([src/cmd/tcp/client/main.go])

    A program that connects a driver to a PLC and runs ten tests on it.  The tests
    are computations on the driver and the world it is in; the text they print is
    left out.  Against the PLC of [MockPLC.v] they all pass. *)
From S2P Require Import Prelude Types Protocol Strings Floats Decoder Interfaces Scheduler Transport Lifecycle MockPLC Loopback Driver Suite.

Inductive test_error :=
| ReadPointsFailed (e : error)
| WritePointFailed (e : error)
| PointNotFound (id : string)
| PointBadQuality (id : string)
| ValueMismatch (got : goval)
| HealthIs (h : HealthStatus)
| ConnectionIsNotConnected.

(** ** Comparing values *)

(** [==] on [float32] bit patterns: no NaN equals anything, the two zeros are equal. *)
Definition float32_eqb (x y : Z) : bool :=
  let is_nan b := 0x7f800000 <? Z.land b 0x7fffffff in
  negb (is_nan x) && negb (is_nan y) && ((x =? y) || ((Z.land x 0x7fffffff =? 0) && (Z.land y 0x7fffffff =? 0))).

Definition float64_eqb (x y : Z) : bool :=
  let is_nan b := 0x7ff0000000000000 <? Z.land b 0x7fffffffffffffff in
  negb (is_nan x) && negb (is_nan y) &&
    ((x =? y) || ((Z.land x 0x7fffffffffffffff =? 0) && (Z.land y 0x7fffffffffffffff =? 0))).

(** [==] between an [interface{}] and a value of one of the types the tests use: the
    dynamic types must agree, then the values are compared. *)
Definition interface_eqb (v w : goval) : bool :=
  match v, w with
  | VFloat32 x, VFloat32 y => float32_eqb x y
  | VFloat64 x, VFloat64 y => float64_eqb x y
  | VOther, _ => false
  | _, _ => bool_decide (v = w)
  end.

Section client.
Context {W : Type} {NW : Network W} `{GoFloat} `{GoRuntime}.

Abbreviation client_test := (test (FinsTCPDriver * W) test_error).

(** ** The calls *)

Definition read_points (points : list Point) : client_test (gmap string Value) :=
  lib_call ReadPointsFailed (fun dw => driver_ReadPoints dw points).

Definition write_point (point : Point) (value : goval) : client_test unit :=
  lib_call WritePointFailed (fun dw => driver_WritePoint dw point value).

(** [if val, ok := results[id]; !ok {...} else if val.Value != testVal {...}]. *)
Definition check_value (results : gmap string Value) (id : string) (testVal : goval) : res test_error unit :=
  match results !! id with
  | None => Err (PointNotFound id)
  | Some val => if interface_eqb (val_Value val) testVal then Ok tt else Err (ValueMismatch (val_Value val))
  end.

Definition check_quality (results : gmap string Value) (id : string) : res test_error unit :=
  match results !! id with
  | None => Err (PointNotFound id)
  | Some v => if bool_decide (val_Quality v = QualityGood) then Ok tt else Err (PointBadQuality id)
  end.

(** [for _, p := range points]. *)
Fixpoint check_qualities (results : gmap string Value) (points : list Point) : res test_error unit :=
  match points with
  | [] => Ok tt
  | p :: points => match check_quality results (ID p) with Ok _ => check_qualities results points | r => r end
  end.

(** ** The tests *)

Definition testReadPointsUINT16 : client_test unit :=
  let points := [MkPoint "D100" "D100" DataTypeUINT16 ""; MkPoint "D101" "D101" DataTypeUINT16 "";
                 MkPoint "D102" "D102" DataTypeUINT16 ""] in
  results ← read_points points;
  _ ← check (check_qualities results points);
  mret tt.

Definition testReadPointsFLOAT : client_test unit :=
  let points := [MkPoint "D200" "D200" DataTypeFLOAT ""] in
  results ← read_points points;
  _ ← check (check_quality results "D200");
  mret tt.

Definition testReadPointsBIT : client_test unit :=
  let points := [MkPoint "CIO0.0" "CIO0.0" DataTypeBIT ""; MkPoint "CIO0.1" "CIO0.1" DataTypeBIT "";
                 MkPoint "CIO0.2" "CIO0.2" DataTypeBIT ""] in
  results ← read_points points;
  _ ← check (check_qualities results points);
  mret tt.

Definition testWriteReadPointUINT16 : client_test unit :=
  let point := MkPoint "D300" "D300" DataTypeUINT16 "" in
  let testVal := VUint16 54321 in
  _ ← write_point point testVal;
  results ← read_points [point];
  _ ← check (check_value results "D300" testVal);
  mret tt.

(** [float32(3.14159)] is 0x40490FD0. *)
Definition testWriteReadPointFLOAT : client_test unit :=
  let point := MkPoint "D400" "D400" DataTypeFLOAT "" in
  let testVal := VFloat32 0x40490FD0 in
  _ ← write_point point testVal;
  results ← read_points [point];
  _ ← check (check_value results "D400" testVal);
  mret tt.

Definition testWriteReadPointBIT : client_test unit :=
  let point := MkPoint "CIO100.0" "CIO100.0" DataTypeBIT "" in
  _ ← write_point point (VBool true);
  results ← read_points [point];
  _ ← check (check_value results "CIO100.0" (VBool true));
  _ ← write_point point (VBool false);
  results ← read_points [point];
  _ ← check (check_value results "CIO100.0" (VBool false));
  mret tt.

Definition testWriteReadPointINT32 : client_test unit :=
  let point := MkPoint "D500" "D500" DataTypeINT32 "" in
  let testVal := VInt32 (-123456789) in
  _ ← write_point point testVal;
  results ← read_points [point];
  _ ← check (check_value results "D500" testVal);
  mret tt.

Definition testWriteReadPointSTRING : client_test unit :=
  let point := MkPoint "D600" "D600.20L" DataTypeSTRING "" in
  let testVal := VString "Hello FINS TCP" in
  _ ← write_point point testVal;
  results ← read_points [point];
  _ ← check (check_value results "D600" testVal);
  mret tt.

Definition testHealthCheck : client_test unit := fun dw =>
  match driver_Health dw with
  | Ok health => (dw, if bool_decide (health = HealthStatusUp) then Ok tt else Err (HealthIs health))
  | _ => (dw, Panic)
  end.

Definition testConnectionMetrics : client_test unit := fun dw =>
  (dw, if negb (cm_Connected (GetConnectionMetrics (fst dw))) then Err ConnectionIsNotConnected else Ok tt).

Definition testCases : list (string * client_test unit) :=
  [("Test Read Points (UINT16)", testReadPointsUINT16);
   ("Test Read Points (FLOAT)", testReadPointsFLOAT);
   ("Test Read Points (BIT)", testReadPointsBIT);
   ("Test Write/Read Point (UINT16)", testWriteReadPointUINT16);
   ("Test Write/Read Point (FLOAT)", testWriteReadPointFLOAT);
   ("Test Write/Read Point (BIT)", testWriteReadPointBIT);
   ("Test Write/Read Point (INT32)", testWriteReadPointINT32);
   ("Test Write/Read Point (STRING)", testWriteReadPointSTRING);
   ("Test Health Check", testHealthCheck);
   ("Test Connection Metrics", testConnectionMetrics)].

(** ** The program *)

(** How the program ends, with the driver where there is one; [os.Exit] in [Usage], in
    the [log.Fatalf] cases and after a failed test skips the deferred [Disconnect]. *)
Inductive outcome :=
| Usage
| InvalidPort
| InitFailed (e : error)
| ConnectFailed (d : FinsTCPDriver) (e : error)
| TestsRun (d : FinsTCPDriver) (passCount failCount : Z)
| Crashed.

Definition exit_code (o : outcome) : Z :=
  match o with TestsRun _ _ failCount => if 0 <? failCount then 1 else 0 | Crashed => 2 | _ => 1 end.

Definition client_config (plcIP : string) (plcPortNum : Z) : DriverConfig :=
  MkDriverConfig "omron-fins-tcp"
    (Some {["plcIP" := VString plcIP; "plcPort" := VInt plcPortNum; "timeout" := VInt 3000]}).

Definition main (args : list string) (w : W) : W * outcome :=
  match args with
  | _ :: plcIP :: plcPortStr :: _ =>
    match Atoi (explode plcPortStr) with
    | None => (w, InvalidPort)
    | Some plcPortNum =>
      match Init NewFinsTCPDriver (client_config plcIP plcPortNum) with
      | (d, Ok _) =>
        match driver_Connect (d, w) with
        | (dw, Ok _) =>
          match run_tests testCases 0 0 dw with
          | (dw, None) => (snd (fst (driver_Disconnect dw)), Crashed)
          | (dw, Some (passCount, failCount)) =>
            let '(d, w) := if 0 <? failCount then dw else fst (driver_Disconnect dw) in
            (w, TestsRun d passCount failCount)
          end
        | ((d, w), Err e) => (w, ConnectFailed d e)
        | ((_, w), Panic) => (w, Crashed)
        end
      | (_, Err e) => (w, InitFailed e)
      | (_, Panic) => (w, Crashed)
      end
    end
  | _ => (w, Usage)
  end.
End client.

(** ** Against the PLC *)

Section against_plc.
Context `{GoFloat} `{GoRuntime}.

(** A connected driver on a well-formed PLC. *)
Definition ready (dw : FinsTCPDriver * plc_net) : Prop :=
  driver_IsConnected (fst dw) = true /\
  exists t0 c0 s l, reaches t0 c0 dw s l /\ loop_ok l /\
    FINSAddress_ok (srcAddr (t_cfg t0)) /\ FINSAddress_ok (dstAddr (t_cfg t0)).

(** What is written to a point is read from it, by whatever client. *)
Definition written_read (p : Point) (v : goval) : Prop :=
  forall src dst, FINSAddress_ok src -> FINSAddress_ok dst -> forall s l, loop_ok l ->
  exists s1 l1 s2 l2 ts, @WritePoint loop (loop_transport src dst) _ s l p v = (s1, l1, Ok tt) /\ loop_ok l1 /\
    @ReadPoints loop (loop_transport src dst) _ s1 l1 [p] = Ok (s2, l2, {[ID p := MkValue v QualityGood ts]}) /\ loop_ok l2.

(** The part of a test that writes a point and reads it back. *)
Lemma write_read_passes p v (k : test (FinsTCPDriver * plc_net) test_error unit) :
  written_read p v -> interface_eqb v v = true -> passes ready k ->
  passes ready (_ ← write_point p v; results ← read_points [p]; _ ← check (check_value results (ID p) v); k).
Proof.
  intros Hp Hv Hk dw (Hup & t0 & c0 & s & l & Hr & Hl & Hsrc & Hdst).
  destruct (Hp _ _ Hsrc Hdst s l Hl) as (s1 & l1 & s2 & l2 & ts & Hw & Hl1 & Hrd & Hl2).
  destruct (driver_WritePoint_reaches t0 c0 dw s l p v s1 l1 _ Hr Hw) as (dw1 & E1 & Hr1 & _); [apply Hl1|].
  destruct (driver_ReadPoints_reaches t0 c0 dw1 s1 l1 [p] s2 l2 _ Hr1 Hrd) as (dw2 & E2 & Hr2 & Hup2); [apply Hl2|].
  destruct (Hk dw2) as (dw3 & [] & E3 & Hr3); [split; [done|]; by exists t0, c0, s2, l2|].
  exists dw3, tt. split; [|done]. unfold mbind, test_bind, write_point, read_points, lib_call, check. rewrite E1, E2.
  unfold check_value. rewrite lookup_singleton_eq. cbn [val_Value]. by rewrite Hv.
Qed.

(** A test that reads points with a value, and looks at their quality. *)
Lemma read_passes ps (c : gmap string Value -> res test_error unit) :
  Forall low_point ps ->
  (forall m, Forall (in_range (plc_memory m)) ps /\ Forall (fun p => is_Some (point_value (plc_memory m) p)) ps) ->
  (forall rs, Forall (fun p => check_quality rs (ID p) = Ok tt) ps -> c rs = Ok tt) ->
  passes ready (results ← read_points ps; _ ← check (c results); mret tt).
Proof.
  intros Hok Hm Hc dw (Hup & t0 & c0 & s & l & Hr & Hl & Hsrc & Hdst). destruct (Hm (lp_plc l)) as [Hrange Hval].
  destruct (read_good _ _ Hsrc Hdst s l ps Hl Hok Hrange Hval) as (s1 & l1 & rs & Hrd & Hl1 & Hg).
  destruct (driver_ReadPoints_reaches t0 c0 dw s l ps s1 l1 rs Hr Hrd) as (dw1 & E1 & Hr1 & Hup1); [apply Hl1|].
  exists dw1, tt. unfold mbind, test_bind, read_points, lib_call, check. rewrite E1, Hc.
  - split; [done|]. split; [done|]. by exists t0, c0, s1, l1.
  - eapply Forall_impl; [exact Hg|]. intros p (v & Hv & Hq). unfold check_quality. by rewrite Hv, bool_decide_true.
Qed.

Lemma check_qualities_ok rs ps : Forall (fun p => check_quality rs (ID p) = Ok tt) ps -> check_qualities rs ps = Ok tt.
Proof. induction 1 as [|p ps Hp _ IH]; [done|]. cbn. by rewrite Hp. Qed.

(** A number with its address. *)
Lemma number_written p v a :
  ParseAddress (point_Address p) = Ok a -> IsBit a = false -> IsString a = false ->
  goval_ok v -> has_type (point_DataType p) v ->
  (forall m, pa_Address a + wordCount (MkGroupedPoint p a 0) <= m_words (plc_memory m) (AreaCode a)) -> written_read p v.
Proof. intros Ha Hb Hs Hv Hty Hm src dst Hsrc Hdst s l Hl. by apply (number_written_read src dst Hsrc Hdst s l p v a). Qed.

Lemma bit_written p b a code :
  ParseAddress (point_Address p) = Ok a -> IsBit a = true -> GetBitAreaCode (AreaCode a) = Ok code -> pa_Address a < 65536 ->
  (forall m, m_bits (plc_memory m) code (pa_Address a) (Bit a) <> None) -> written_read p (VBool b).
Proof. intros Ha Hb Hc Hlt Hm src dst Hsrc Hdst s l Hl. by apply (bit_written_read src dst Hsrc Hdst s l p b a code). Qed.

Lemma string_written p str a :
  ParseAddress (point_Address p) = Ok a -> IsString a = true -> point_DataType p = DataTypeSTRING ->
  Forall (fun b => b <> 0) (bytes_of_string str) -> len (bytes_of_string str) <= StringLen a ->
  (forall m, pa_Address a + (StringLen a + 1) / 2 <= m_words (plc_memory m) (AreaCode a)) -> written_read p (VString str).
Proof.
  intros Ha Hs Hdt Hnz Hlen Hm src dst Hsrc Hdst s l Hl.
  destruct (string_written_read src dst Hsrc Hdst s l p str a) as (s1 & l1 & s2 & l2 & ts & Hw & Hl1 & Hr & Hl2); [done..|].
  exists s1, l1, s2, l2, ts. rewrite take_ge, string_of_bytes_of_string in Hr by (unfold len in Hlen; lia). done.
Qed.

(** The addresses the tests use, parsed. *)
Definition d_word (n : Z) : ParsedAddress := MkParsedAddress "D" MemoryAreaDMWord 0 n (-1) 0 ByteOrderHigh false false.
Definition cio_bit (n b : Z) : ParsedAddress := MkParsedAddress "CIO" MemoryAreaCIOWord 0 n b 0 ByteOrderHigh true false.
Definition d_string (n k : Z) : ParsedAddress := MkParsedAddress "D" MemoryAreaDMWord 0 n (-1) k ByteOrderLow false true.

Ltac evaluated := by first [vm_compute; reflexivity|vm_compute; congruence|by_decide].

Ltac each_point := repeat (apply Forall_cons; split); [..|apply Forall_nil; exact I].

Lemma read_uint16_passes : passes ready testReadPointsUINT16.
Proof.
  apply read_passes; [by_decide| |intros rs; apply check_qualities_ok]. intros m. split; each_point; [evaluated..| | |].
  - apply (number_point_value _ _ (d_word 100)); evaluated.
  - apply (number_point_value _ _ (d_word 101)); evaluated.
  - apply (number_point_value _ _ (d_word 102)); evaluated.
Qed.

Lemma read_float_passes : passes ready testReadPointsFLOAT.
Proof.
  apply (read_passes _ (fun rs => check_quality rs "D200")); [by_decide| |intros rs Hq; by inversion Hq].
  intros m. split; each_point; [evaluated|]. apply (number_point_value _ _ (d_word 200)); evaluated.
Qed.

Lemma read_bit_passes : passes ready testReadPointsBIT.
Proof.
  apply read_passes; [by_decide| |intros rs; apply check_qualities_ok]. intros m. split; each_point; [evaluated..| | |].
  - apply (bit_point_value _ _ (cio_bit 0 0) MemoryAreaCIOBit CIO); evaluated.
  - apply (bit_point_value _ _ (cio_bit 0 1) MemoryAreaCIOBit CIO); evaluated.
  - apply (bit_point_value _ _ (cio_bit 0 2) MemoryAreaCIOBit CIO); evaluated.
Qed.

Lemma uint16_passes : passes ready testWriteReadPointUINT16.
Proof.
  apply write_read_passes; [|done|apply passes_ret]. apply (number_written _ _ (d_word 300)); evaluated.
Qed.

Lemma float_passes : passes ready testWriteReadPointFLOAT.
Proof.
  apply write_read_passes; [|done|apply passes_ret]. apply (number_written _ _ (d_word 400)); evaluated.
Qed.

Lemma int32_passes : passes ready testWriteReadPointINT32.
Proof.
  apply write_read_passes; [|done|apply passes_ret]. apply (number_written _ _ (d_word 500)); evaluated.
Qed.

Lemma string_passes : passes ready testWriteReadPointSTRING.
Proof.
  apply write_read_passes; [|done|apply passes_ret]. apply (string_written _ _ (d_string 600 20)); evaluated.
Qed.

Lemma bit_passes : passes ready testWriteReadPointBIT.
Proof.
  do 2 (apply write_read_passes; [apply (bit_written _ _ (cio_bit 100 0) MemoryAreaCIOBit); evaluated|done|]). apply passes_ret.
Qed.

Lemma health_passes : passes ready testHealthCheck.
Proof.
  intros [d w] Hdw. pose proof Hdw as (Hup & t0 & c0 & s & l & (Hi & Hs & t & Ht & _) & _). cbn [fst] in *.
  exists (d, w), tt. split; [|done]. unfold driver_IsConnected in Hup. rewrite Ht in Hup.
  assert (Health (t, w) = HealthStatusUp) as Hh by (unfold Health; cbn; unfold IsConnected in Hup; by rewrite Hup).
  unfold testHealthCheck, driver_Health. rewrite Hi, Hs, Ht. cbn. by rewrite Hh.
Qed.

Lemma metrics_passes : passes ready testConnectionMetrics.
Proof.
  intros [d w] Hdw. pose proof Hdw as (Hup & _). exists (d, w), tt. split; [|done]. cbn [fst] in *.
  unfold testConnectionMetrics, GetConnectionMetrics, driver_IsConnected, IsConnected in *. cbn [fst].
  destruct (d_transport d); [|done]. cbn. by rewrite Hup.
Qed.

Lemma tests_pass : Forall (fun tc => passes ready (snd tc)) testCases.
Proof.
  repeat constructor; cbn [snd]; eauto using read_uint16_passes, read_float_passes, read_bit_passes, uint16_passes,
    float_passes, bit_passes, int32_passes, string_passes, health_passes, metrics_passes.
Qed.

(** The driver the client builds. *)
Lemma client_Init plcIP plcPortNum :
  exists d t s, Init NewFinsTCPDriver (client_config plcIP plcPortNum) = (d, Ok tt) /\ d_initialized d = true /\
    d_transport d = Some t /\ d_scheduler d = Some s /\ t_connected t = false /\ t_sidCounter t = 0 /\
    FINSAddress_ok (srcAddr (t_cfg t)) /\ FINSAddress_ok (dstAddr (t_cfg t)).
Proof.
  destruct (Init NewFinsTCPDriver (client_config plcIP plcPortNum)) as [d r] eqn:E. vm_compute in E. injection E as <- <-.
  eexists _, _, _. cbn. split_and!; try reflexivity; by_decide.
Qed.

(** Connecting it. *)
Lemma client_Connect d w t s :
  d_initialized d = true -> d_transport d = Some t -> d_scheduler d = Some s -> t_connected t = false ->
  t_sidCounter t = 0 -> FINSAddress_ok (srcAddr (t_cfg t)) -> FINSAddress_ok (dstAddr (t_cfg t)) -> plc_ok (pn_plc w) ->
  exists dw, driver_Connect (d, w) = (dw, Ok tt) /\ ready dw.
Proof.
  intros Hi Ht Hs Hup Hsid Hsrc Hdst Hp.
  unfold driver_Connect, on_transport, Connect. cbn [fst]. rewrite Hi, Ht. cbn [negb]. rewrite Hup. cbn [net_dial net_now plc_network].
  set (t1 := if 0 <? _ then _ else _). eexists. split; [done|].
  assert (t_connected t1 = true /\ t_conn t1 = Some sc_conn /\ t_cfg t1 = t_cfg t /\ t_sidCounter t1 = 0) as (E1 & E2 & E3 & E4)
    by (unfold t1, startHeartbeat; cbn; repeat case_match; done).
  split; [exact E1|]. exists t1, sc_conn, s, (MkLoop (pn_plc w) 0 (pn_now w + 1) true). rewrite E3. split_and!; try done.
  rewrite Hs. apply reaches_connected; [done| |done]. unfold of_loop. cbn. rewrite <- E1, <- E2, <- E4. by destruct t1.
Qed.

(** C20: the client's own tests pass: run with an address and a port that is a number, on
    a PLC in any well-formed state that accepts its connection, the program
    passes all ten tests, disconnects and exits with 0. *)
Theorem tcp_client_passes prog plcIP plcPortStr rest plcPortNum w :
  Atoi (explode plcPortStr) = Some plcPortNum -> plc_ok (pn_plc w) ->
  exists w' d, main (prog :: plcIP :: plcPortStr :: rest) w = (w', TestsRun d 10 0) /\
    driver_IsConnected d = false /\ exit_code (TestsRun d 10 0) = 0.
Proof.
  intros Hport Hp. destruct (client_Init plcIP plcPortNum) as (d & t & s & HI & Hi & Ht & Hs & Hup & Hsid & Hsrc & Hdst).
  destruct (client_Connect d w t s) as (dw & Hc & Hr); [done..|].
  destruct (run_tests_passes ready testCases tests_pass 0 0 dw Hr) as ([d1 w1] & Ht1 & (Hup1 & Hr1)).
  unfold main. rewrite Hport, HI, Hc, Ht1. destruct dw. cbn [Z.ltb Z.compare].
  unfold driver_Disconnect, on_transport, driver_IsConnected in *. cbn [fst] in *.
  destruct (d_transport d1) as [t1|]; [|done]. unfold Disconnect, IsConnected in *. rewrite Hup1. cbn [negb].
  destruct (net_now _) as [w2 now]. do 2 eexists. split; [reflexivity|]. by split.
Qed.

(** After [Disconnect] there is no connection. *)
Lemma driver_Disconnect_down {W} {NW : Network W} (dw : FinsTCPDriver * W) :
  driver_IsConnected (fst (fst (driver_Disconnect dw))) = false.
Proof.
  destruct dw as [d w]. unfold driver_Disconnect, on_transport, driver_IsConnected, Disconnect, IsConnected. cbn [fst].
  destruct (d_transport d) as [t|] eqn:Ht; [|cbn; by rewrite Ht]. destruct (t_connected t) eqn:Hc; cbn [negb]; [|done].
  by destruct (net_now _).
Qed.

(** What the exit status tells: on any network, a run that reaches the tests counts
    each of the ten as passed or failed; it exits with 0 exactly when all ten passed,
    and has then disconnected; every other end has a non-zero status. *)
Theorem tcp_client_exit {W} {NW : Network W} args (w w' : W) o :
  main args w = (w', o) ->
  match o with
  | TestsRun d p f => p + f = 10 /\ 0 <= p /\ 0 <= f /\ (exit_code o = 0 <-> p = 10) /\ (p = 10 -> driver_IsConnected d = false)
  | _ => exit_code o <> 0
  end.
Proof.
  unfold main. destruct args as [|? [|plcIP [|port ?]]]; try (by intros [= <- <-]).
  destruct (Atoi _) as [n|]; [|by intros [= <- <-]]. destruct (Init _ _) as [d [[]| |]]; [|by intros [= <- <-]..].
  destruct (driver_Connect _) as [[d1 w1] [[]| |]]; [|by intros [= <- <-]..].
  destruct (run_tests _ _ _ _) as [dw [[p f]|]] eqn:Hrun; [|by intros [= <- <-]].
  apply run_tests_total in Hrun as (Hsum & Hp & Hf). change (len testCases) with 10 in Hsum.
  unfold exit_code. destruct (0 <? f) eqn:E; zbool.
  - destruct dw as [d2 w2]. intros [= <- <-]. rewrite (proj2 (Z.ltb_lt 0 f)) by lia. split_and!; lia || done.
  - pose proof (driver_Disconnect_down dw) as Hd. destruct (fst (driver_Disconnect dw)) as [d2 w2]. intros [= <- <-].
    rewrite (proj2 (Z.ltb_ge 0 f)) by lia. split_and!; lia || done.
Qed.
End against_plc.

(** ** Witnesses *)

Lemma tcp_client_passes_witness :
  exists w' d, main (H := simple_float) (H0 := merge_runtime) ["tcp-client"; "127.0.0.1"; "9600"] (MkPlcNet NewMockPLC 0)
    = (w', TestsRun d 10 0) /\ driver_IsConnected d = false /\ exit_code (TestsRun d 10 0) = 0.
Proof.
  apply (tcp_client_passes (H := simple_float) (H0 := merge_runtime) "tcp-client" "127.0.0.1" "9600" [] 9600 (MkPlcNet NewMockPLC 0));
    [vm_compute; reflexivity|apply NewMockPLC_ok].
Defined.

Lemma tcp_client_exit_witness :
  exists w' d, main (H := simple_float) (H0 := merge_runtime) ["tcp-client"; "127.0.0.1"; "9600"] (sample_script (fun _ => false))
    = (w', ConnectFailed d ErrConnectFailed) /\ exit_code (ConnectFailed d ErrConnectFailed) <> 0.
Proof.
  destruct (main (H := simple_float) (H0 := merge_runtime) ["tcp-client"; "127.0.0.1"; "9600"] (sample_script (fun _ => false)))
    as [w' o] eqn:E.
  pose proof (tcp_client_exit (H := simple_float) (H0 := merge_runtime) _ _ _ _ E) as Hx.
  vm_compute in E. injection E as <- <-. do 2 eexists. split; [reflexivity|exact Hx].
Defined.
