(* ===== verification/CmdUdpClient.v ===== *)
(** * The command-line UDP client ([src/cmd/udp/client/main.go])

    A program that starts a simulator of its own, connects a client to it and runs five
    tests.  The text it prints is left out.  [NewAddress] is from
    [src/udp/address.go]. *)
From S2P Require Import Prelude UdpConstants Udp UdpServer UdpClient UdpAccess Suite.

(** ** Addresses *)

(** [net.UDPAddr] as the text of its IP address and its port. *)
Record Address := MkAddress { a_finsAddress : finsAddress; a_ip : string; a_port : Z }.

Definition NewAddress (ip : string) (port network node unit : Z) : Address := MkAddress (MkAddr network node unit) ip port.

(** ** The tests *)

Inductive test_error :=
| CallFailed (e : udp_error)
| MismatchAt (i : Z)
| StringMismatch (got : string).

Abbreviation client_test := (test (Client * sim) test_error).

(** A call of the client; words are in the client's byte order. *)
Definition udp_call {A} (f : Client * sim -> (Client * sim) * res udp_error A) : client_test A := lib_call CallFailed f.

(** [for i, v := range vals { if v != toWrite[i] {...} }] from [i] on. *)
Fixpoint check_equal {A} `{EqDecision A} (i : Z) (vals toWrite : list A) : res test_error unit :=
  match vals with
  | [] => Ok tt
  | v :: vals =>
    match toWrite with
    | x :: toWrite => if bool_decide (v = x) then check_equal (i + 1) vals toWrite else Err (MismatchAt i)
    | [] => Panic
    end
  end.

Definition testWriteReadWords : client_test unit :=
  let toWrite := [1234; 5678; 9012; 3456; 7890] in
  _ ← udp_call (fun cw => WriteWords (sendCommand sim_net) (byteOrder (fst cw)) cw MemoryAreaDMWord 100 toWrite);
  vals ← udp_call (fun cw => ReadWords (sendCommand sim_net) (byteOrder (fst cw)) cw MemoryAreaDMWord 100 5);
  _ ← check (check_equal 0 vals toWrite);
  mret tt.

Definition testWriteReadBits : client_test unit :=
  let toWrite := [true; false; true; true; false] in
  _ ← udp_call (fun cw => WriteBits (sendCommand sim_net) cw MemoryAreaDMBit 200 0 toWrite);
  vals ← udp_call (fun cw => ReadBits (sendCommand sim_net) cw MemoryAreaDMBit 200 0 5);
  _ ← check (check_equal 0 vals toWrite);
  mret tt.

Definition testWriteReadBytes : client_test unit :=
  let toWrite := [0x11; 0x22; 0x33; 0x44; 0x55; 0x66; 0x77; 0x88] in
  _ ← udp_call (fun cw => WriteBytes (sendCommand sim_net) cw MemoryAreaDMWord 300 toWrite);
  vals ← udp_call (fun cw => ReadBytes (sendCommand sim_net) cw MemoryAreaDMWord 300 (u16 (Z.quot (len toWrite) 2)));
  _ ← check (check_equal 0 vals toWrite);
  mret tt.

Definition testWriteReadString : client_test unit :=
  let testStr := "Hello Omron FINS UDP" in
  _ ← udp_call (fun cw => WriteString (sendCommand sim_net) cw MemoryAreaDMWord 400 testStr);
  v ← udp_call (fun cw => ReadString (sendCommand sim_net) cw MemoryAreaDMWord 400 (u16 (len (bytes_of_string testStr))));
  _ ← check (if bool_decide (v = testStr) then Ok tt else Err (StringMismatch v));
  mret tt.

Definition testReadClock : client_test unit :=
  _ ← udp_call (fun cw => ReadClock (sendCommand sim_net) cw);
  mret tt.

Definition testCases : list (string * client_test unit) :=
  [("Test Write/Read Words", testWriteReadWords);
   ("Test Write/Read Bits", testWriteReadBits);
   ("Test Write/Read Bytes", testWriteReadBytes);
   ("Test Write/Read String", testWriteReadString);
   ("Test Read Clock", testReadClock)].

(** ** The program *)

Inductive outcome :=
| Usage
| SimulatorFailed
| ClientFailed
| TestsRun (c : Client) (w : sim) (passCount failCount : Z)
| Crashed.

Definition exit_code (o : outcome) : Z :=
  match o with TestsRun _ _ _ failCount => if 0 <? failCount then 1 else 0 | Crashed => 2 | _ => 1 end.

(** [listen] and [dial] say whether [net.ListenUDP] and [net.DialUDP] succeed; the
    simulator's goroutine starts with a zeroed buffer.  [os.Exit] skips the deferred
    [Close] calls. *)
Definition main (listen : Address -> bool) (dial : Address -> Address -> bool) (now : clock_time) (args : list string) : outcome :=
  match args with
  | _ :: plcIP :: _ :: _ =>
    let clientAddr := NewAddress "" 0 0 2 255 in
    let plcAddr := NewAddress plcIP 9600 0 1 0 in
    if negb (listen plcAddr) then SimulatorFailed else
    let s := MkSim NewServer (make_bytes 1024) now in
    if negb (dial clientAddr plcAddr) then ClientFailed else
    let c := NewClient (a_finsAddress clientAddr) (a_finsAddress plcAddr) in
    match run_tests testCases 0 0 (c, s) with
    | (_, None) => Crashed
    | ((c, s), Some (passCount, failCount)) => TestsRun (if 0 <? failCount then c else Close c) s passCount failCount
    end
  | _ => Usage
  end.

(** ** The tests pass *)

(** The state between the tests: the bytes behind the string of the fourth are zero. *)
Definition ready (cw : Client * sim) : Prop :=
  client_ok (fst cw) /\ sim_ok (snd cw) /\ clock_ok (sim_clock (snd cw)) /\
  take 20 (drop 420 (dmarea (sim_server (snd cw)))) = replicate 20 0.

Lemma check_equal_refl {A} `{EqDecision A} (l : list A) : forall i, check_equal i l l = Ok tt.
Proof. induction l as [|x l IH]; intros i; [done|]. cbn. by rewrite bool_decide_true. Qed.

(** A test keeps the state ready when it leaves the clock and the bytes from 420 on. *)
Lemma udp_ready_after c w w' :
  ready (c, w) -> sim_ok w' -> sim_clock w' = sim_clock w ->
  drop 420 (dmarea (sim_server w')) = drop 420 (dmarea (sim_server w)) -> ready (incrementSid (incrementSid c), w').
Proof.
  intros (Hc & Hw & Hck & Hz) Hw' E1 E2. cbn [fst snd] in *. unfold ready. cbn [fst snd]. rewrite E1, E2.
  split_and!; try done; by do 2 apply incrementSid_ok.
Qed.

(** A copy into the area before 420. *)
Lemma drop_copied w i (b : bytes) :
  sim_ok w -> (Z.to_nat i + length b <= 420)%nat ->
  drop 420 (copy_at (Z.to_nat i) b (dmarea (sim_server w))) = drop 420 (dmarea (sim_server w)).
Proof.
  intros [(Hl & _) _] Hn. unfold len, DM_AREA_SIZE in Hl.
  rewrite copy_at_eq by lia. rewrite app_assoc, drop_app_ge by (rewrite length_app, length_take; lia).
  rewrite drop_drop. f_equal. rewrite length_app, length_take. lia.
Qed.

(** A test that writes, reads and compares. *)
Lemma udp_write_read_passes {A} (wr : Client * sim -> (Client * sim) * res udp_error unit) (rd : Client * sim -> (Client * sim) * res udp_error A)
    (chk : A -> res test_error unit) (a : A) :
  (forall c w, ready (c, w) -> exists cw1 w2, wr (c, w) = (cw1, Ok tt) /\ rd cw1 = ((incrementSid (incrementSid c), w2), Ok a) /\
     sim_ok w2 /\ sim_clock w2 = sim_clock w /\ drop 420 (dmarea (sim_server w2)) = drop 420 (dmarea (sim_server w))) ->
  chk a = Ok tt ->
  passes ready (_ ← udp_call wr; vals ← udp_call rd; _ ← check (chk vals); mret tt).
Proof.
  intros H Ha [c w] Hcw. destruct (H c w Hcw) as (cw1 & w2 & E1 & E2 & Hw2 & Ek & Ed).
  exists (incrementSid (incrementSid c), w2), tt. split; [|by apply (udp_ready_after c w)].
  unfold mbind, test_bind, udp_call, lib_call, check. by rewrite E1, E2, Ha.
Qed.

Lemma udp_words_pass : passes ready testWriteReadWords.
Proof.
  set (ws := [1234; 5678; 9012; 3456; 7890]).
  refine (udp_write_read_passes _ _ (fun vals => check_equal 0 vals ws) ws _ eq_refl). intros c w (Hc & Hw & _). cbn [fst snd] in *.
  destruct (words_written_read c w 100 ws) as (w1 & w2 & Hwr & Hrd & Hw2 & Ek & Hs); [done..|by_decide|].
  exists (incrementSid c, w1), w2. split_and!; try done. rewrite Hs. apply drop_copied; [done|]. rewrite length_wire_words. cbn. lia.
Qed.

Lemma udp_bits_pass : passes ready testWriteReadBits.
Proof.
  set (bs := [true; false; true; true; false]).
  refine (udp_write_read_passes _ _ (fun vals => check_equal 0 vals bs) bs _ eq_refl). intros c w (Hc & Hw & _). cbn [fst snd] in *.
  destruct (bits_written_read c w 200 0 bs) as (w1 & w2 & Hwr & Hrd & Hw2 & Ek & Hs); [done..|].
  exists (incrementSid c, w1), w2. split_and!; try done. by rewrite Hs.
Qed.

Lemma udp_bytes_pass : passes ready testWriteReadBytes.
Proof.
  set (bs := [0x11; 0x22; 0x33; 0x44; 0x55; 0x66; 0x77; 0x88]).
  refine (udp_write_read_passes _ _ (fun vals => check_equal 0 vals bs) bs _ eq_refl). intros c w (Hc & Hw & _). cbn [fst snd] in *.
  destruct (bytes_written_read c w 300 bs) as (w1 & w2 & Hwr & Hrd & Hw2 & Ek & Hs); [done|done|by_decide|done..|].
  exists (incrementSid c, w1), w2. split_and!; try done. rewrite Hs. change (odd_tail _ bs) with (@nil Z).
  apply drop_copied; [done|]. cbn. lia.
Qed.

Lemma udp_string_passes : passes ready testWriteReadString.
Proof.
  set (str := "Hello Omron FINS UDP").
  refine (udp_write_read_passes _ _ (fun v => if bool_decide (v = str) then Ok tt else Err (StringMismatch v)) str _ eq_refl).
  intros c w (Hc & Hw & _ & Hz). cbn [fst snd] in *.
  destruct (udp_string_written_read c w 400 str 20) as (w1 & w2 & Hwr & Hrd & Hw2 & Ek & Hs); [done|done|by_decide|done..|].
  exists (incrementSid c, w1), w2. split_and!; try done; [|rewrite Hs; apply drop_copied; [done|vm_compute; lia]].
  unfold behind in Hrd. change (Z.even (len (bytes_of_string str))) with true in Hrd.
  change (Z.to_nat (2 * 20 - len (bytes_of_string str))) with 20%nat in Hrd.
  change (Z.to_nat (400 + len (bytes_of_string str))) with 420%nat in Hrd. by rewrite Hz in Hrd.
Qed.

Lemma udp_clock_passes : passes ready testReadClock.
Proof.
  intros [c w] Hcw. pose proof Hcw as (Hc & Hw & Hck & Hz). cbn [fst snd] in *.
  destruct (read_clock_ok c w Hc Hw Hck) as (w' & Hrd & Hw' & Ek & Hs). exists (incrementSid c, w'), tt.
  unfold testReadClock, mbind, test_bind, udp_call, lib_call. rewrite Hrd. split; [done|].
  unfold ready. cbn [fst snd]. rewrite Ek, Hs. split_and!; try done; by apply incrementSid_ok.
Qed.

Lemma udp_tests_pass : Forall (fun tc => passes ready (snd tc)) testCases.
Proof. repeat constructor; cbn [snd]; eauto using udp_words_pass, udp_bits_pass, udp_bytes_pass, udp_string_passes, udp_clock_passes. Qed.

(** C21: the UDP client's own tests pass: whenever the program can listen and dial, at any
    time of the years 1950 to 2049, and every datagram and its answer are delivered before the
    client's timeout ([sim_net]), it passes all five tests, closes the client
    and exits with 0. *)
Theorem udp_client_passes listen dial now prog plcIP plcPort rest :
  listen (NewAddress plcIP 9600 0 1 0) = true -> dial (NewAddress "" 0 0 2 255) (NewAddress plcIP 9600 0 1 0) = true -> clock_ok now ->
  exists c w, main listen dial now (prog :: plcIP :: plcPort :: rest) = TestsRun c w 5 0 /\ c_closed c = true /\
    exit_code (TestsRun c w 5 0) = 0.
Proof.
  intros Hl Hd Hck. unfold main. rewrite Hl, Hd. cbn [negb].
  destruct (run_tests_passes ready testCases udp_tests_pass 0 0
    (NewClient (a_finsAddress (NewAddress "" 0 0 2 255)) (a_finsAddress (NewAddress plcIP 9600 0 1 0)), MkSim NewServer (make_bytes 1024) now))
    as ([c w] & -> & _).
  - split; [by_decide|]. split; [|split; [done|]].
    + split; [apply NewServer_ok|]. by split; [|by_decide].
    + cbn [snd sim_server NewServer dmarea]. unfold make_bytes. rewrite drop_replicate, take_replicate. f_equal.
  - eexists _, w. split; [reflexivity|]. by split.
Qed.

(** ** Witnesses *)

Lemma udp_client_passes_witness :
  exists c w, main (fun _ => true) (fun _ _ => true) sample_clock ["udp-client"; "127.0.0.1"; "9600"] = TestsRun c w 5 0 /\
    c_closed c = true /\ exit_code (TestsRun c w 5 0) = 0.
Proof.
  apply (udp_client_passes (fun _ => true) (fun _ _ => true) sample_clock "udp-client" "127.0.0.1" "9600" []);
    [reflexivity|reflexivity|unfold clock_ok; cbn; lia].
Defined.
